(* ===== verification/_CoqProject ===== *)
-Q . S2P
Prelude.v
PageAlloc.v
Mem.v
Multiboot.v
Fs.v
FsMem.v
PortIO.v
Terminal.v
Serial.v
Keyboard.v
Scheduler.v
Tables.v
Syscall.v
AgentTypes.v
Agent.v
AgentGate.v
Disk.v
Ata.v
Fat16.v
Fat16Files.v
FatSafe.v
FsSafe.v
Line.v
Output.v
History.v
ShellState.v
ShellInv.v
Shell.v
ShellSafe.v
ShellAgent.v
ShellRun.v
ShellFiles.v
Kernel.v
KernelSafe.v
