(* ===== verification/Prelude.v ===== *)
(** * go-dav-os: a verified model of the kernel

    The program is a small operating system in Go for amd64.  [kernel.Main] sets up the
    screen, the descriptor tables, the interrupt controller and the timer, reads the memory
    map the boot loader left, starts the page allocator, the scheduler, the file system and
    the agent runtime, and then feeds the keys that keyboard interrupts buffer to the shell.
    The shell is the only client of most other parts: its commands read and write files,
    pages, disk sectors and a FAT16 volume, run user programs (which come back through
    system calls), and ask an agent, whose actions pass a validation and confirmation gate
    and whose remote planner is reached over a framed serial line.

    This development models these packages by functions translated from the Go source and
    proves what makes them correct.  It is a library of one prelude, interfaces and one or
    more files per package, in the order of [_CoqProject]:

    - [Prelude]: this file.  Machine integers, Go arrays, loops, byte-addressed memory, the
      predicate [ok], tactics and hint databases.
    - [PageAlloc] (interface), [Mem], [Multiboot]: [src/mem/].  [Mem] has the parser of the
      Multiboot2 structure and the bitmap allocator; the state is the Go variables and the
      physical memory that holds the bitmap.  [Multiboot] has the theorems on the parser.
    - [Fs], [FsMem], [FsSafe]: [src/fs/fs.go] over any allocator that meets the interface;
      its refinement of a finite map at the allocator of [Mem]; what remains true when the
      shell frees a file's page behind its back.
    - [PortIO] (interface): [inb], [outb], [inw], [outw] over the state of a device.
    - [Terminal]: [src/terminal/]; the class [Console] is what other packages print to.
    - [Serial]: [src/serial/], the frame codec, the exchange and the UART.
    - [Keyboard]: [src/keyboard/] with its layouts, and [src/kernel/keyboard.go].
    - [Scheduler]: [src/kernel/scheduler/] and the context switch of [src/asm/switch.s].
    - [Tables]: [src/kernel/gdt.go], [tss.go], [idt.go], [selectors.go], [pic.go], [pit.go].
    - [Syscall]: [src/kernel/syscall/], [src/kernel/syscall_bridge.go], the fault handlers.
    - [AgentTypes], [Agent], [AgentGate]: [src/agent/]; data, code, and the safety theorems.
    - [Disk] (interface), [Ata]: [src/drivers/ata/ata.go] over the ports; [AtaDevice] is
      what a drive does with its registers.
    - [Fat16], [Fat16Files], [FatSafe]: [src/fs/fat16/fat16.go]; the refinement of a map of
      files on a formatted volume; safety on arbitrary disk contents.
    - [Line], [Output], [History], [ShellState], [Shell]: [src/shell/shell.go]; parsers,
      printers, the history ring, the state with its monad, and the commands.
    - [ShellInv], [ShellSafe], [ShellAgent], [ShellRun], [ShellFiles]: the shell's invariant,
      that every command keeps it, what agent commands may do, the theorems on the whole
      shell, and a session of file commands against a finite map.
    - [Kernel], [KernelSafe]: [src/kernel/irq.go], [task_runner.go], [kernel.go]; interrupt
      handlers, program runner, boot sequence and main loop, and the running system.

    ** How the source is translated

    An integer of w bits is a [Z] and every operation that can leave its range is wrapped
    ([u8] ... [u64], [i64] for Go's [int]).  Package variables are a record, operations are
    functions from the record to the new one.  [None] is a Go panic (an index out of range),
    an exhausted loop budget or a fault of the [mem] command, so a theorem [ok (f x) Q] or
    [f x = Some y] says that the code neither panics nor hangs nor faults.  Arrays are lists read and written with [aget] and
    [aset], which fail out of range; memory reached through raw pointers is a finite map
    from addresses to bytes.  Where the source passes functions (the hooks of the shell, the
    handlers of the agent) they are functions on the model's state, held in it.
    Components meet at type classes, and clients are proved against the class:
    [PageAllocator] (met by [Mem]), [Console] (met by the VGA screen and by a transcript),
    [PortIO], [Disk] (met by the ATA driver over any drive that keeps [AtaDevice], and by a
    RAM disk).

    ** What is proved

    - Memory: what the boot loader reported is recorded exactly ([InitMultiboot_parses]);
      [InitPFA] places its bitmap above the kernel and makes exactly the available pages
      behind the bitmap free, and fails exactly when no available memory was reported;
      [AllocPage] and [FreePage] refine operations on the set of free pages, and in every run
      a page handed out is not handed out again before it is freed
      ([InitPFA_correct], [AllocPage_refines], [FreePage_correct], [pfa_run_safe]).
    - Files: [Write], [Remove] and [Lookup] are insertion, deletion and lookup in a finite
      map ([fs_write_refines] and its siblings); the same for the FAT16 volume under disk
      failures ([fat_create_refines], [fat_read_refines]); [Format] leaves an empty directory
      and every cluster free ([format_mounts_empty]).  The ATA driver addresses the right
      sector and no other ([ata_write_read]), but does not notice an error the drive reports
      after the data ([WriteSector_ignores_error]).
    - Console: the screen is a scrolling tape ([terminal_refines_tape]).
    - Serial line: encoding and decoding are inverse, exact and detect corrupted bytes;
      an exchange always returns ([serial_roundtrip], [decode_exact],
      [corrupted_frame_rejected], [Exchange_correct]).
    - Keyboard: the buffer is a FIFO under every interleaving ([kbd_fifo]); the case of a
      letter follows the history of scancodes the handler got ([letter_case_history]).
    - Scheduler: one running task, the current one, round robin, no starvation, context
      switches that restore exactly what [CpuSwitch] saves, which is not all the registers a
      caller expects ([sched_run_safe], [Schedule_round_robin], [sched_fair],
      [task_first_run], [switch_roundtrip]).
    - Tables and system calls: segments, task state and gates decode to what was meant
      ([InitGDTAndTSS_correct], [InitIDT_correct]); a system call sees no memory outside the
      user window and prints what it was given ([syscall_isolation], [syscall_write]).
    - Agent: the gate refines a confirmation protocol ([risky_action_confirmed]), text
      requests are contained ([text_request_contained]), a request computes a reference
      outcome ([runPlan_correct]), and the planner equals a table of rules
      ([deterministicPlan_correct]).
    - Shell: it returns to the prompt in a well-formed state whatever is typed, but for a
      [mem] command that leaves the mapped memory and halts the machine ([shell_total]); typed file commands act on a finite map and show its contents
      ([file_session]), the agent deletes only what was just confirmed ([delete_gate]);
      it edits like an ideal line editor ([line_editor]), remembers the last 32 commands
      ([history_refines]), parses numbers exactly ([parse_numbers]) and suggests by edit
      distance ([calculateDistance_least]).
    - The whole system: it boots ([boot_total]), and keys reach the prompt in order under
      every interleaving of interrupts and main-loop rounds, with the same exception
      ([key_pipeline]).

    Properties carry a claim number in their comment; a property with hypotheses is followed
    by a witness that applies it to a concrete machine, most of which also show by
    computation what that machine prints or returns.

    ** Bounds and fuel

    Go loops over a range are [for_range] or [for_do], which need no budget.  A [while] has
    one, and the total-correctness theorems show it is enough: the tags of a Multiboot2
    structure, [totalSize / 8] (each tag takes 8 bytes or more); the entries of its memory
    map, 64, the size of the table that stops the loop; page ranges, [totalPages + 1];
    scans of the command line, 128, the length of the buffer; the memory dump, one round
    per byte; the digits of a number, the size of its buffer; the planner's backward scan,
    the length of the text.
    Poll loops of the ATA driver and of the serial line are bounded in the source, by the
    constants used here.  Only [ReadKey] and [readScancode], which poll for ever in the
    source and are not called by the kernel, take an explicit budget.

    ** What is not modelled

    - Assembly other than [CpuSwitch], [ata.insw] and [ata.outsw]: boot code, entry stubs,
      privileged instructions.  Where Go calls it, it is a class or a parameter; the run of
      a user program, [ExecuteUserTask], is a parameter assumed to return after any timer and
      keyboard interrupts and no other change of the kernel's state ([user_task_ok]).
    - Page faults other than those of [mem].  [boot.s] maps the first 4 GiB, and a fault in
      kernel mode never returns; [mem], the one command that reads an address the user types,
      is modelled with this limit ([ShellState.mapped_end], [probe]).  The bitmap, the pages
      handed out, the loader's structure and the kernel's buffers are taken to be mapped:
      [InitPFA] does not clip the memory map to 4 GiB, so on a machine with more memory this
      holds of the pages below that line only.
    - The drive is an instance of [AtaDevice], whose laws say what it does with its registers:
      busy and data-request bits, the LBA bit, the sector count, bad sectors, error status.
    - Build stubs and test doubles that replace hardware code in host builds.
    - Interrupts inside a command: in [os_run] interrupts come between rounds of the main loop
      and while a user program runs, not in the middle of other commands; [keyboard.TryRead]
      runs with interrupts off in the source.  [typed_log] of the kernel's state is a history
      variable: the runes the handler produced, in order, which the code does not keep.
    - One memory for everything: the allocator, the files and the shell's raw buffers share
      physical memory, but the screen, the task stacks and the descriptor tables are
      separate parts of the state; [mem 0xB8000] reads memory, not the screen. *)
From Stdlib Require Export ZArith Lia.
From stdpp Require Export base numbers list option gmap strings.

Declare Scope go_scope.
Delimit Scope go_scope with go.
Local Open Scope Z_scope.

(** ** Machine integers: a w-bit value is a [Z] in [0, 2^w), every operation that
    can leave that range is wrapped explicitly. *)
Definition wrap (w x : Z) : Z := x `mod` 2 ^ w.
Definition u8 (x : Z) : Z := wrap 8 x.
Definition u16 (x : Z) : Z := wrap 16 x.
Definition u32 (x : Z) : Z := wrap 32 x.
Definition u64 (x : Z) : Z := wrap 64 x.
(** Go's [int] on amd64: two's complement, 64 bits. *)
Definition i64 (x : Z) : Z := (x + 2 ^ 63) `mod` 2 ^ 64 - 2 ^ 63.

Abbreviation in_u8 x := (0 ≤ x < 2 ^ 8).
Abbreviation in_u16 x := (0 ≤ x < 2 ^ 16).
Abbreviation in_u32 x := (0 ≤ x < 2 ^ 32).
Abbreviation in_u64 x := (0 ≤ x < 2 ^ 64).

(** ** Results: [None] is a run-time panic (an index out of range) or an
    exhausted loop budget; [ok m Q] says that [m] returns and its value is in [Q]. *)
Definition ok {A} (m : option A) (Q : A → Prop) : Prop :=
  match m with Some a => Q a | None => False end.

Section ok_rules.
Context {A B : Type}.
Implicit Types (m : option A) (Q : A → Prop).

Lemma ok_ret (a : A) Q : Q a → ok (Some a) Q.
Proof. done. Qed.

Lemma ok_bind m (f : A → option B) (P : B → Prop) :
  ok m (λ a, ok (f a) P) → ok (m ≫= f) P.
Proof. by destruct m. Qed.

Lemma ok_mono m Q (P : A → Prop) : ok m Q → (∀ a, Q a → P a) → ok m P.
Proof. destruct m; simpl; auto. Qed.

Lemma ok_and m (P Q : A → Prop) : ok m P → ok m Q → ok m (λ a, P a ∧ Q a).
Proof. by destruct m. Qed.

Lemma ok_elim m Q : ok m Q → ∃ a, m = Some a ∧ Q a.
Proof. destruct m; simpl; eauto. done. Qed.

Lemma ok_intro m a Q : m = Some a → Q a → ok m Q.
Proof. by intros ->. Qed.

Lemma ok_conj m Q (P : A → Prop) : ok m Q → ok m P → ok m (λ a, Q a ∧ P a).
Proof. destruct m; simpl; auto. Qed.
End ok_rules.

(** ** Arrays: lists indexed by [Z]; an index out of range is a panic. *)
Section arrays.
Context {A : Type}.
Implicit Types (l : list A) (i : Z).

Definition len l : Z := Z.of_nat (length l).

Definition aget l i : option A := if 0 <=? i then l !! Z.to_nat i else None.

Definition aset l i (v : A) : option (list A) :=
  if (0 <=? i) && (i <? len l) then Some (<[Z.to_nat i := v]> l) else None.

Lemma len_nonneg l : 0 ≤ len l.
Proof. unfold len; lia. Qed.

Lemma aget_Some l i : 0 ≤ i < len l → ∃ v, aget l i = Some v.
Proof.
  unfold aget, len; intros H. rewrite (proj2 (Z.leb_le 0 i)) by lia.
  apply lookup_lt_is_Some_2; lia.
Qed.

Lemma aget_nat l (n : nat) : aget l (Z.of_nat n) = l !! n.
Proof. unfold aget. rewrite (proj2 (Z.leb_le _ _)) by lia. by rewrite Nat2Z.id. Qed.

Lemma aget_inv l i v : aget l i = Some v → 0 ≤ i < len l.
Proof.
  unfold aget, len. destruct (Z.leb_spec 0 i) as [Hi|]; [|done].
  intros Hl%lookup_lt_Some. lia.
Qed.

Lemma aset_Some l i v :
  0 ≤ i < len l → aset l i v = Some (<[Z.to_nat i := v]> l).
Proof.
  unfold aset; intros H.
  by rewrite (proj2 (Z.leb_le 0 i)), (proj2 (Z.ltb_lt i _)) by lia.
Qed.

Lemma len_aset l i v l' : aset l i v = Some l' → len l' = len l.
Proof.
  unfold aset, len. destruct (_ && _); intros [= <-]. by rewrite length_insert.
Qed.

Lemma aget_aset l i v l' j :
  aset l i v = Some l' → aget l' j = if decide (j = i) then Some v else aget l j.
Proof.
  unfold aset, aget, len.
  destruct (Z.leb_spec 0 i), (Z.ltb_spec i (Z.of_nat (length l))); intros [= <-].
  destruct (Z.leb_spec 0 j); case_decide; subst; try done; try lia.
  - apply list_lookup_insert_eq. lia.
  - apply list_lookup_insert_ne. lia.
Qed.

Lemma len_insert l (i : nat) v : len (<[i := v]> l) = len l.
Proof. unfold len. by rewrite length_insert. Qed.

Lemma aget_insert l (i : nat) v j :
  Z.of_nat i < len l →
  aget (<[i := v]> l) j = if decide (j = Z.of_nat i) then Some v else aget l j.
Proof.
  intros H. apply (aget_aset l (Z.of_nat i)). rewrite aset_Some by lia.
  by rewrite Nat2Z.id.
Qed.

Lemma alist_eq l l' :
  len l = len l' → (∀ i, 0 ≤ i < len l → aget l i = aget l' i) → l = l'.
Proof.
  unfold len. intros Hlen Heq. apply list_eq; intros i.
  destruct (decide (i < length l)%nat).
  - rewrite <-!aget_nat. apply Heq. lia.
  - rewrite !lookup_ge_None_2 by lia. done.
Qed.
End arrays.

#[export] Hint Resolve len_nonneg : core.
Global Opaque len.

Lemma len_length {A} (l : list A) : len l = Z.of_nat (length l).
Proof. Transparent len. done. Qed.

(** ** Loops.  [for_range lo hi body s] is
    [for i := lo; i < hi; i++ { body }] on the state [s]: the body goes on with
    [inl s'] or leaves the loop ([break], [return]) with [inr r]. *)
Section loops.
Context {S R : Type}.

Fixpoint for_n (n : nat) (i : Z) (body : Z → S → option (S + R)) (s : S) : option (S + R) :=
  match n with
  | O => Some (inl s)
  | Datatypes.S n' =>
      match body i s with
      | Some (inl s') => for_n n' (i + 1) body s'
      | r => r
      end
  end.

Definition for_range (lo hi : Z) (body : Z → S → option (S + R)) (s : S) : option (S + R) :=
  for_n (Z.to_nat (hi - lo)) lo body s.

(** [while fuel cond body s] is [for cond { body }], [None] when [fuel] rounds
    were not enough. *)
Fixpoint while (fuel : nat) (cond : S → bool) (body : S → option (S + R)) (s : S)
    : option (S + R) :=
  if cond s then
    match fuel with
    | O => None
    | Datatypes.S fuel' =>
        match body s with
        | Some (inl s') => while fuel' cond body s'
        | r => r
        end
    end
  else Some (inl s).

Lemma for_range_done lo hi body s : hi ≤ lo → for_range lo hi body s = Some (inl s).
Proof. intros H. unfold for_range. by replace (Z.to_nat (hi - lo)) with 0%nat by lia. Qed.

Lemma for_range_step lo hi body s :
  lo < hi →
  for_range lo hi body s =
    match body lo s with Some (inl s') => for_range (lo + 1) hi body s' | r => r end.
Proof.
  intros H. unfold for_range.
  replace (Z.to_nat (hi - lo)) with (Datatypes.S (Z.to_nat (hi - (lo + 1)))) by lia.
  done.
Qed.

Lemma for_n_ok (Inv : Z → S → Prop) (Post : S + R → Prop) body n i s :
  Inv i s →
  (∀ j s, i ≤ j < i + Z.of_nat n → Inv j s →
     ok (body j s) (λ o, match o with inl s' => Inv (j + 1) s' | inr r => Post (inr r) end)) →
  (∀ s, Inv (i + Z.of_nat n) s → Post (inl s)) →
  ok (for_n n i body s) Post.
Proof.
  revert i s; induction n as [|n IH]; intros i s Hi Hbody Hpost; simpl.
  { apply Hpost. by replace (i + Z.of_nat 0) with i by lia. }
  specialize (Hbody i s ltac:(lia) Hi) as Hb0.
  destruct (body i s) as [[s'|r]|]; simpl in *; try done.
  apply IH; [done| |].
  - intros j s0 Hj. apply Hbody. lia.
  - intros s0 Hs0. apply Hpost. by replace (i + Z.of_nat (Datatypes.S n)) with (i + 1 + Z.of_nat n) by lia.
Qed.

(** The rule for total correctness of a counted loop. *)
Lemma for_range_ok (Inv : Z → S → Prop) (Post : S + R → Prop) lo hi body s :
  lo ≤ hi → Inv lo s →
  (∀ i s, lo ≤ i < hi → Inv i s →
     ok (body i s) (λ o, match o with inl s' => Inv (i + 1) s' | inr r => Post (inr r) end)) →
  (∀ s, Inv hi s → Post (inl s)) →
  ok (for_range lo hi body s) Post.
Proof.
  intros Hle Hlo Hbody Hpost. unfold for_range. apply (for_n_ok Inv); [done| |].
  - intros j s' Hj. apply Hbody. lia.
  - intros s'. replace (lo + Z.of_nat (Z.to_nat (hi - lo))) with hi by lia. apply Hpost.
Qed.

(** The rule for a [while]: the variant [var] is bounded by the budget and
    strictly decreases. *)
Lemma while_ok (Inv : S → Prop) (var : S → Z) (Post : S + R → Prop) fuel cond body s :
  Inv s → var s ≤ Z.of_nat fuel →
  (∀ s, Inv s → cond s = true → 0 < var s) →
  (∀ s, Inv s → cond s = true →
     ok (body s) (λ o, match o with
                       | inl s' => Inv s' ∧ var s' < var s
                       | inr r => Post (inr r) end)) →
  (∀ s, Inv s → cond s = false → Post (inl s)) →
  ok (while fuel cond body s) Post.
Proof.
  revert s; induction fuel as [|fuel IH]; intros s Hs Hvar Hpos Hbody Hpost; simpl.
  - destruct (cond s) eqn:E; [|by apply Hpost]. specialize (Hpos s Hs E). lia.
  - destruct (cond s) eqn:E; [|by apply Hpost].
    specialize (Hbody s Hs E) as Hb. destruct (body s) as [[s'|r]|]; simpl in *; try done.
    destruct Hb. apply IH; auto. lia.
Qed.
End loops.

Definition loop_end {S R} (m : option (S + R)) (k : S → option R) : option R :=
  match m with Some (inl s) => k s | Some (inr r) => Some r | None => None end.

Lemma ok_loop_end {S R} (m : option (S + R)) (k : S → option R) (Q : R → Prop) :
  ok m (λ o, match o with inl s => ok (k s) Q | inr r => Q r end) → ok (loop_end m k) Q.
Proof. by destruct m as [[?|?]|]. Qed.

(** A counted loop that always runs to its bound. *)
Definition for_do {S} (lo hi : Z) (f : Z → S → option S) (s : S) : option S :=
  loop_end (for_range lo hi (λ i s, s' ← f i s; Some (inl s')) s) Some.

Lemma for_do_ok {S} (Inv : Z → S → Prop) (Q : S → Prop) lo hi f s :
  lo ≤ hi → Inv lo s →
  (∀ i s, lo ≤ i < hi → Inv i s → ok (f i s) (Inv (i + 1))) →
  (∀ s, Inv hi s → Q s) →
  ok (for_do lo hi f s) Q.
Proof.
  intros Hle Hlo Hf HQ. apply ok_loop_end.
  apply (for_range_ok Inv); [done..| |auto].
  intros i s' Hi Hs'. apply ok_bind. eapply ok_mono; [by apply Hf|auto].
Qed.

Lemma for_do_done {S} lo hi (f : Z → S → option S) s : hi ≤ lo → for_do lo hi f s = Some s.
Proof. intros. unfold for_do. by rewrite for_range_done. Qed.

Lemma for_do_step {S} lo hi (f : Z → S → option S) s :
  lo < hi → for_do lo hi f s = s' ← f lo s; for_do (lo + 1) hi f s'.
Proof. intros. unfold for_do. rewrite for_range_step by done. by destruct (f lo s). Qed.

(** Partial correctness: what holds of the result of a program that returns. *)
Definition whenever {A} (m : option A) (Q : A → Prop) : Prop := ∀ a, m = Some a → Q a.

Lemma whenever_bind {A B} (m : option A) (f : A → option B) (P : A → Prop) (Q : B → Prop) :
  whenever m P → (∀ a, P a → whenever (f a) Q) → whenever (a ← m; f a) Q.
Proof. intros Hm Hf b Hb. destruct m as [a|]; [|done]. by apply (Hf a (Hm a eq_refl)). Qed.

Lemma whenever_Some {A} (a : A) (Q : A → Prop) : Q a → whenever (Some a) Q.
Proof. by intros Ha ? [= <-]. Qed.

Lemma whenever_any {A} (m : option A) : whenever m (λ _, True).
Proof. done. Qed.

Lemma whenever_for_do {S} (Inv : S → Prop) lo hi f s :
  Inv s → (∀ i s, Inv s → whenever (f i s) Inv) → whenever (for_do lo hi f s) Inv.
Proof.
  intros Hs Hf. remember (Z.to_nat (hi - lo)) as n eqn:Hn. revert lo s Hs Hn.
  induction n as [|n IH]; intros lo s Hs Hn.
  - rewrite for_do_done by lia. by apply whenever_Some.
  - rewrite for_do_step by lia. eapply whenever_bind; [by apply Hf|]. intros s' Hs'. apply IH; [done|lia].
Qed.

Lemma whenever_while {S R} (Inv : S → Prop) (Q : R → Prop) fuel cond (body : S → option (S + R)) k s :
  Inv s → (∀ s, Inv s → whenever (body s) (λ o, match o with inl s' => Inv s' | inr r => Q r end)) →
  (∀ s, Inv s → whenever (k s) Q) → whenever (loop_end (while fuel cond body s) k) Q.
Proof.
  intros Hs Hb Hk. revert s Hs. induction fuel as [|fuel IH]; intros s Hs; cbn [while].
  - destruct (cond s); [done|]. by apply Hk.
  - destruct (cond s); [|by apply Hk]. specialize (Hb s Hs). destruct (body s) as [[s'|r]|]; [| |done].
    + apply IH. exact (Hb (inl s') eq_refl).
    + apply whenever_Some. exact (Hb (inr r) eq_refl).
Qed.

Lemma ok_whenever {A} (m : option A) (P Q : A → Prop) : ok m P → whenever m Q → ok m (λ a, P a ∧ Q a).
Proof. destruct m as [a|]; [|done]. intros HP HQ. split; [done|by apply HQ]. Qed.

Arguments for_range : simpl never.
Arguments for_do : simpl never.

(** [dst[off+i] = src[i]] for [i] in [0, n). *)
Definition copy_into {A} (src : list A) (off n : Z) (dst : list A) : option (list A) :=
  for_do 0 n (λ i d, v ← aget src i; aset d (off + i) v) dst.

Lemma copy_into_ok {A} (src dst : list A) off n :
  0 ≤ off → 0 ≤ n ≤ len src → off + n ≤ len dst →
  ok (copy_into src off n dst)
     (λ d, len d = len dst ∧
        ∀ j, aget d j = if decide (off ≤ j < off + n) then aget src (j - off) else aget dst j).
Proof.
  intros Hoff Hn Hlen.
  apply (for_do_ok (λ i d, len d = len dst ∧
    ∀ j, aget d j = if decide (off ≤ j < off + i) then aget src (j - off) else aget dst j));
    [lia| | |done].
  - split; [done|]. intros j. rewrite decide_False by lia. done.
  - intros i d Hi [Hd Hj]. destruct (aget_Some src i) as [v Hv]; [lia|]. rewrite Hv; simpl.
    rewrite aset_Some by lia. simpl. split; [by rewrite len_insert|].
    intros j. rewrite aget_insert by lia. rewrite Z2Nat.id by lia.
    destruct (decide (j = off + i)) as [->|].
    + rewrite decide_True by lia. rewrite <-Hv. f_equal. lia.
    + rewrite Hj. repeat case_decide; done || lia.
Qed.

(** ** Physical memory: identity mapped, byte addressed; a byte never written reads 0.

    [mread] is for addresses that are mapped: the kernel's own structures and the pages it
    hands out.  Where the user chooses the address, [ShellState.probe] reads, and fails
    outside the mapped memory. *)
Abbreviation memory := (gmap Z Z).
Definition mread (m : memory) (a : Z) : Z := default 0 (m !! a).
Definition mwrite (m : memory) (a v : Z) : memory := <[a := v]> m.

Lemma mread_mwrite m a v b : mread (mwrite m a v) b = if decide (b = a) then v else mread m b.
Proof.
  unfold mread, mwrite. case_decide; subst; [by rewrite lookup_insert_eq|].
  by rewrite lookup_insert_ne.
Qed.

Lemma mread_mwrite_ne m a v b : b ≠ a → mread (mwrite m a v) b = mread m b.
Proof. intros. rewrite mread_mwrite. by rewrite decide_False. Qed.

(** ** Arithmetic facts on machine integers *)
Lemma wrap_range w x : 0 ≤ w → 0 ≤ wrap w x < 2 ^ w.
Proof. intros. apply Z.mod_pos_bound. lia. Qed.

Lemma wrap_small w x : 0 ≤ x < 2 ^ w → wrap w x = x.
Proof. apply Z.mod_small. Qed.

Lemma u64_small x : in_u64 x → u64 x = x.
Proof. apply wrap_small. Qed.
Lemma u32_small x : in_u32 x → u32 x = x.
Proof. apply wrap_small. Qed.
Lemma u16_small x : in_u16 x → u16 x = x.
Proof. apply wrap_small. Qed.
Lemma u8_small x : in_u8 x → u8 x = x.
Proof. apply wrap_small. Qed.
Lemma u64_range x : in_u64 (u64 x).
Proof. by apply wrap_range. Qed.
Lemma u32_range x : in_u32 (u32 x).
Proof. by apply wrap_range. Qed.
Lemma u16_range x : in_u16 (u16 x).
Proof. by apply wrap_range. Qed.
Lemma u8_range x : in_u8 (u8 x).
Proof. by apply wrap_range. Qed.

Lemma wrap_testbit w x i :
  0 ≤ w → 0 ≤ i → Z.testbit (wrap w x) i = bool_decide (i < w) && Z.testbit x i.
Proof.
  intros Hw Hi. unfold wrap. case_bool_decide; simpl.
  - by rewrite Z.mod_pow2_bits_low by lia.
  - by rewrite Z.mod_pow2_bits_high by lia.
Qed.

(** Clearing the [k] low bits: Go's [x & ^(2^k - 1)]. *)
Lemma land_mask_high x k :
  in_u64 x → 0 ≤ k → Z.land x (u64 (Z.lnot (2 ^ k - 1))) = x / 2 ^ k * 2 ^ k.
Proof.
  intros Hx Hk. rewrite <-Z.shiftr_div_pow2, <-Z.shiftl_mul_pow2 by lia.
  rewrite <-Z.ldiff_ones_r by lia.
  replace (2 ^ k - 1) with (Z.ones k) by (rewrite Z.ones_equiv; lia).
  apply Z.bits_inj'; intros i Hi.
  rewrite Z.land_spec, Z.ldiff_spec. unfold u64. rewrite wrap_testbit, Z.lnot_spec by lia.
  case_bool_decide; simpl; [done|].
  replace (Z.testbit x i) with false; [done|]. symmetry.
  rewrite <-(u64_small x) by done. unfold u64. rewrite wrap_testbit by lia.
  by rewrite bool_decide_eq_false_2 by lia.
Qed.

Lemma testbit_land_pow2 b k : 0 ≤ k → (Z.land b (2 ^ k) =? 0) = negb (Z.testbit b k).
Proof.
  intros Hk. destruct (Z.testbit b k) eqn:E; simpl.
  - apply Z.eqb_neq. intros H. assert (Z.testbit (Z.land b (2 ^ k)) k = false) as H'.
    { rewrite H. apply Z.testbit_0_l. }
    rewrite Z.land_spec, E, Z.pow2_bits_true in H' by lia. done.
  - apply Z.eqb_eq. apply Z.bits_inj'; intros i Hi. rewrite Z.land_spec, Z.testbit_0_l.
    destruct (decide (i = k)) as [->|]; [by rewrite E|].
    rewrite Z.pow2_bits_false by lia. apply andb_false_r.
Qed.

(** [hi<<k | lo] is [hi*2^k + lo] when [lo] has [k] bits. *)
Lemma lor_shiftl_add hi lo k :
  0 ≤ k → 0 ≤ lo < 2 ^ k → Z.lor (Z.shiftl hi k) lo = hi * 2 ^ k + lo.
Proof.
  intros Hk Hlo. rewrite <-Z.shiftl_mul_pow2, <-Z.add_lor_land by lia.
  enough (Z.land (Z.shiftl hi k) lo = 0) as -> by lia.
  apply Z.bits_inj'; intros i Hi. rewrite Z.land_spec, Z.testbit_0_l, Z.shiftl_spec by lia.
  destruct (decide (i < k)); [by rewrite Z.testbit_neg_r by lia|].
  rewrite <-(wrap_small k lo) by done. rewrite wrap_testbit by lia.
  rewrite bool_decide_eq_false_2 by lia. apply andb_false_r.
Qed.

Lemma lor_add_shiftl hi lo k :
  0 ≤ k → 0 ≤ lo < 2 ^ k → Z.lor lo (Z.shiftl hi k) = lo + hi * 2 ^ k.
Proof. intros. rewrite Z.lor_comm, lor_shiftl_add by done. lia. Qed.

(** A memory of bytes. *)
Definition mem_bytes (m : memory) : Prop := ∀ a, in_u8 (mread m a).

(** Little-endian loads and stores of [n] bytes; addresses are 64-bit and wrap. *)
Fixpoint readLE (m : memory) (n : nat) (addr : Z) : Z :=
  match n with
  | O => 0
  | S n' => Z.lor (mread m (u64 addr)) (Z.shiftl (readLE m n' (addr + 1)) 8)
  end.

Fixpoint writeLE (m : memory) (n : nat) (addr v : Z) : memory :=
  match n with
  | O => m
  | S n' => writeLE (mwrite m (u64 addr) (v `mod` 256)) n' (addr + 1) (v / 256)
  end.

Lemma mread_writeLE_ne n : ∀ m addr v b,
  0 ≤ addr → addr + Z.of_nat n ≤ 2 ^ 64 → ¬ (addr ≤ b < addr + Z.of_nat n) →
  mread (writeLE m n addr v) b = mread m b.
Proof.
  induction n as [|n IH]; intros m addr v b H0 H1 Hb; [done|]. simpl.
  rewrite IH by lia. apply mread_mwrite_ne. rewrite u64_small by lia. lia.
Qed.

Lemma readLE_range m n : ∀ addr, mem_bytes m → 0 ≤ readLE m n addr < 2 ^ (8 * Z.of_nat n).
Proof.
  induction n as [|n IH]; intros addr Hm; [done|]. cbn [readLE].
  specialize (IH (addr + 1) Hm). pose proof (Hm (u64 addr)). rewrite lor_add_shiftl by lia.
  replace (8 * Z.of_nat (Datatypes.S n)) with (8 + 8 * Z.of_nat n) by lia.
  rewrite Z.pow_add_r by lia. change (2 ^ 8) with 256. lia.
Qed.

Lemma readLE_ext n : ∀ m m' addr,
  0 ≤ addr → addr + Z.of_nat n ≤ 2 ^ 64 →
  (∀ b, addr ≤ b < addr + Z.of_nat n → mread m' b = mread m b) →
  readLE m' n addr = readLE m n addr.
Proof.
  induction n as [|n IH]; intros m m' addr H0 H1 Hb; [done|]. simpl.
  rewrite u64_small, Hb by lia. do 2 f_equal. apply IH; [lia..|]. intros. apply Hb. lia.
Qed.

Lemma readLE_writeLE n : ∀ m addr v,
  0 ≤ addr → addr + Z.of_nat n ≤ 2 ^ 64 → 0 ≤ v < 256 ^ Z.of_nat n →
  readLE (writeLE m n addr v) n addr = v.
Proof.
  induction n as [|n IH]; intros m addr v H0 H1 Hv; simpl.
  { change (256 ^ Z.of_nat 0) with 1 in Hv. lia. }
  rewrite u64_small, mread_writeLE_ne, mread_mwrite, decide_True by (done || lia).
  rewrite IH, lor_add_shiftl; [pose proof (Z.div_mod v 256); lia|lia| |lia|lia|].
  - apply Z.mod_pos_bound. lia.
  - rewrite Nat2Z.inj_succ, Z.pow_succ_r in Hv by lia.
    split; [apply Z.div_pos; lia|]. apply Z.div_lt_upper_bound; lia.
Qed.

Lemma readLE_writeLE_ne n k m a b v :
  0 ≤ a → a + Z.of_nat n ≤ 2 ^ 64 → 0 ≤ b → b + Z.of_nat k ≤ 2 ^ 64 →
  b + Z.of_nat k ≤ a ∨ a + Z.of_nat n ≤ b →
  readLE (writeLE m n a v) k b = readLE m k b.
Proof.
  intros. apply readLE_ext; [done..|]. intros c Hc. apply mread_writeLE_ne; lia.
Qed.

(** ** Byte comparison loops: [match := true; for j := 0; j < n; j++ { if a[j] != b[j]
    { match = false; break } }], with the two reads as functions of [j]. *)
Definition match_bytes (n : Z) (a b : Z → option Z) : option bool :=
  loop_end
    (for_range 0 n
       (λ j m, x ← a j; y ← b j;
          if negb (x =? y) then Some (inr false) else Some (inl m)) true)
    Some.

Lemma match_bytes_ok n (a b : Z → option Z) :
  (∀ j, 0 ≤ j < n → is_Some (a j) ∧ is_Some (b j)) →
  ok (match_bytes n a b) (λ m, m = true ↔ ∀ j, 0 ≤ j < n → a j = b j).
Proof.
  intros Hab. destruct (decide (0 ≤ n)) as [Hn|Hn].
  2:{ unfold match_bytes. rewrite for_range_done by lia. simpl. split; [lia|done]. }
  apply ok_loop_end.
  apply (for_range_ok (λ i m, m = true ∧ ∀ j, 0 ≤ j < i → a j = b j)); [done|by split; [|lia]| |].
  - intros i m Hi [-> Hj]. destruct (Hab i Hi) as [[x Hx] [y Hy]]. rewrite Hx, Hy. simpl.
    destruct (Z.eqb_spec x y) as [->|Hne]; simpl.
    + split; [done|]. intros j Hji. destruct (decide (j = i)) as [->|]; [congruence|].
      apply Hj. lia.
    + split; [done|]. intros Hall. specialize (Hall i Hi). congruence.
  - intros m [-> Hj]. done.
Qed.

Lemma match_bytes_total n a b :
  (∀ j, 0 ≤ j < n → is_Some (a j) ∧ is_Some (b j)) → ok (match_bytes n a b) (λ _, True).
Proof. intros. eapply ok_mono; [by apply match_bytes_ok|done]. Qed.

(** The bytes of a Go string literal. *)
Definition gs (s : string) : list Z :=
  (λ c, Z.of_nat (Ascii.nat_of_ascii c)) <$> String.list_ascii_of_string s.

Lemma len_take {A} (l : list A) n : 0 ≤ n ≤ len l → len (take (Z.to_nat n) l) = n.
Proof. rewrite !len_length. intros. rewrite length_take. lia. Qed.

Lemma aget_take {A} (l : list A) n i : i < n → aget (take (Z.to_nat n) l) i = aget l i.
Proof.
  intros. unfold aget. destruct (Z.leb_spec 0 i); [|done]. apply lookup_take_lt. lia.
Qed.

(** [for i := 0; i < n; i++ { d[off+i] = v }]. *)
Definition fill_with {A} (off n : Z) (v : A) (d : list A) : option (list A) :=
  for_do 0 n (λ i d, aset d (off + i) v) d.

Lemma fill_with_ok {A} off n (v : A) d :
  0 ≤ off → 0 ≤ n → off + n ≤ len d →
  ok (fill_with off n v d) (λ d', len d' = len d ∧
    ∀ j, aget d' j = if decide (off ≤ j < off + n) then Some v else aget d j).
Proof.
  intros Hoff Hn Hlen.
  apply (for_do_ok (λ i d', len d' = len d ∧
    ∀ j, aget d' j = if decide (off ≤ j < off + i) then Some v else aget d j)); [lia| | |done].
  - split; [done|]. intros j. rewrite decide_False by lia. done.
  - intros i d' Hi [Hd Hj]. rewrite aset_Some by lia. simpl. split; [by rewrite len_insert|].
    intros j. rewrite aget_insert, Z2Nat.id by lia. destruct (decide (j = off + i)).
    + by rewrite decide_True by lia.
    + rewrite Hj. repeat case_decide; done || lia.
Qed.

(** ** Lists as buffers *)
Section buffers.
Context {A : Type}.
Implicit Types (l w rest : list A).

Lemma len_nil : len (@nil A) = 0.
Proof. by rewrite len_length. Qed.
Lemma len_cons x l : len (x :: l) = 1 + len l.
Proof. rewrite !len_length. simpl. lia. Qed.
Lemma len_app l1 l2 : len (l1 ++ l2) = len l1 + len l2.
Proof. rewrite !len_length, length_app. lia. Qed.
Lemma len_tail l : 0 < len l → len (tail l) = len l - 1.
Proof. destruct l; rewrite ?len_nil, ?len_cons; simpl; lia. Qed.
Lemma len_replicate n (x : A) : len (replicate n x) = Z.of_nat n.
Proof. by rewrite len_length, length_replicate. Qed.
Lemma len_0_nil l : len l = 0 → l = [].
Proof. destruct l; [done|]. rewrite len_cons. pose proof (len_nonneg l). lia. Qed.

Lemma aget_app l1 l2 i :
  aget (l1 ++ l2) i = if decide (i < len l1) then aget l1 i else aget l2 (i - len l1).
Proof.
  rewrite len_length. unfold aget. case_decide.
  - destruct (Z.leb_spec 0 i); [|done]. apply lookup_app_l. lia.
  - destruct (Z.leb_spec 0 i); [|lia]. destruct (Z.leb_spec 0 (i - Z.of_nat (length l1))); [|lia].
    rewrite lookup_app_r by lia. f_equal. lia.
Qed.

Lemma aget_cons_0 x l : aget (x :: l) 0 = Some x.
Proof. done. Qed.

Lemma aget_app_mid l x l' i : i = len l → aget (l ++ x :: l') i = Some x.
Proof.
  intros ->. rewrite aget_app, decide_False by lia. by rewrite Z.sub_diag.
Qed.

Lemma aget_elem l i x : aget l i = Some x → x ∈ l.
Proof. unfold aget. destruct (0 <=? i); [|done]. apply list_elem_of_lookup_2. Qed.

Lemma aget_drop l n i : 0 ≤ n → 0 ≤ i → aget (drop (Z.to_nat n) l) i = aget l (n + i).
Proof.
  intros. unfold aget. destruct (Z.leb_spec 0 i); [|lia]. destruct (Z.leb_spec 0 (n + i)); [|lia].
  rewrite lookup_drop. f_equal. lia.
Qed.

(** Writing the next cell of a buffer of which [w] is already written. *)
Lemma aset_snoc w rest i v :
  i = len w → 0 < len rest → aset (w ++ rest) i v = Some ((w ++ [v]) ++ tail rest).
Proof.
  intros -> Hr. pose proof (len_nonneg w). rewrite aset_Some by (rewrite len_app; lia).
  destruct rest as [|x rest]; [rewrite len_nil in Hr; lia|]. f_equal. simpl.
  replace (Z.to_nat (len w)) with (length w + 0)%nat by (rewrite len_length; lia).
  rewrite insert_app_r. simpl. by rewrite <-app_assoc.
Qed.

Lemma take_S_aget l n x :
  0 ≤ n → aget l n = Some x → take (Z.to_nat (n + 1)) l = take (Z.to_nat n) l ++ [x].
Proof.
  intros Hn Hx. replace (Z.to_nat (n + 1)) with (S (Z.to_nat n)) by lia.
  apply take_S_r. by rewrite <-aget_nat, Z2Nat.id by lia.
Qed.

Lemma take_len_app l1 l2 n : n = len l1 → take (Z.to_nat n) (l1 ++ l2) = l1.
Proof. intros ->. rewrite len_length, Nat2Z.id. apply take_app_length. Qed.

Lemma take_len l n : n = len l → take (Z.to_nat n) l = l.
Proof. intros ->. rewrite len_length, Nat2Z.id. by apply take_ge. Qed.
End buffers.

Lemma aget_fmap_seqZ {A} (f : Z → A) n i :
  aget (f <$> seqZ 0 n) i = if decide (0 ≤ i < n) then Some (f i) else None.
Proof.
  unfold aget. destruct (Z.leb_spec 0 i); [|by rewrite decide_False by lia].
  rewrite list_lookup_fmap. destruct (decide (i < n)).
  - rewrite lookup_seqZ_lt by lia. rewrite decide_True by lia. simpl. do 2 f_equal. lia.
  - rewrite lookup_seqZ_ge by lia. by rewrite decide_False by lia.
Qed.

Lemma len_fmap_seqZ {A} (f : Z → A) n : 0 ≤ n → len (f <$> seqZ 0 n) = n.
Proof. intros. rewrite len_length, length_fmap, length_seqZ. lia. Qed.

Lemma fmap_seqZ_insert {A} (f : Z → A) n p x :
  0 ≤ p < n →
  <[Z.to_nat p := x]> (f <$> seqZ 0 n) = (λ i, if decide (i = p) then x else f i) <$> seqZ 0 n.
Proof.
  intros Hp. assert (len (f <$> seqZ 0 n) = n) as Hl by (apply len_fmap_seqZ; lia).
  apply alist_eq; [by rewrite len_insert, !len_fmap_seqZ by lia|].
  intros i Hi. rewrite len_insert, Hl in Hi.
  rewrite aget_insert, Z2Nat.id, !aget_fmap_seqZ by lia. rewrite !(decide_True (P := 0 ≤ i < n)) by lia.
  by case_decide.
Qed.

Lemma fmap_seqZ_ext {A} (f g : Z → A) n :
  (∀ i, 0 ≤ i < n → f i = g i) → f <$> seqZ 0 n = g <$> seqZ 0 n.
Proof. intros Hfg. apply list_fmap_ext. intros i x [-> Hi]%lookup_seqZ. apply Hfg. lia. Qed.

(** ** A counted loop that leaves at the first element [f] accepts. *)
Lemma for_range_find {A R} (f : A → option R) (l : list A) (n : Z)
    (body : Z → unit → option (unit + R)) :
  n ≤ len l →
  (∀ i x, aget l i = Some x →
     body i tt = Some (match f x with Some r => inr r | None => inl tt end)) →
  for_range 0 n body tt =
    Some (match head (omap f (take (Z.to_nat n) l)) with Some r => inr r | None => inl tt end).
Proof.
  intros Hn Hb. unfold for_range. rewrite Z.sub_0_r.
  assert (∀ m i, 0 ≤ i → i + Z.of_nat m ≤ len l →
    for_n m i body tt = Some (match head (omap f (take m (drop (Z.to_nat i) l))) with
                              | Some r => inr r | None => inl tt end)) as Hgen.
  2:{ destruct (decide (0 ≤ n)); [apply (Hgen _ 0); lia|].
      by replace (Z.to_nat n) with 0%nat by lia. }
  induction m as [|m IH]; intros i Hi Hm; [done|].
  destruct (aget_Some l i) as [x Hx]; [lia|]. cbn [for_n]. rewrite (Hb i x Hx).
  assert (l !! Z.to_nat i = Some x) as Hx' by (by rewrite <-aget_nat, Z2Nat.id by lia).
  rewrite (drop_S _ _ _ Hx'). cbn [take omap list_omap]. destruct (f x); [done|].
  rewrite IH by lia. by replace (Z.to_nat (i + 1)) with (S (Z.to_nat i)) by lia.
Qed.

Lemma head_omap_None {A R} (f : A → option R) l : head (omap f l) = None ↔ Forall (λ a, f a = None) l.
Proof.
  induction l as [|a l IH]; cbn [omap list_omap]; [split; [constructor|done]|].
  destruct (f a) eqn:E; cbn [head].
  - split; [done|]. intros Hf. inversion Hf; congruence.
  - unfold omap in *. rewrite IH. split; [by constructor|]. by inversion 1.
Qed.

(** ** A stretch of a list: [l[i:i+n]] *)
Definition subrange {A} (l : list A) (i n : Z) : list A := take (Z.to_nat n) (drop (Z.to_nat i) l).

Lemma subrange_split {A} (l : list A) i n :
  0 ≤ i → 0 ≤ n → i + n ≤ len l →
  l = take (Z.to_nat i) l ++ subrange l i n ++ drop (Z.to_nat (i + n)) l ∧ len (subrange l i n) = n ∧
  ∀ j, 0 ≤ j < n → aget (subrange l i n) j = aget l (i + j).
Proof.
  intros Hi Hn Hl. unfold subrange. split_and!.
  - replace (Z.to_nat (i + n)) with (Z.to_nat i + Z.to_nat n)%nat by lia.
    by rewrite <-drop_drop, take_drop, take_drop.
  - rewrite len_take; [done|]. rewrite !len_length, length_drop in *. lia.
  - intros j Hj. rewrite aget_take, aget_drop by lia. done.
Qed.

Lemma Forall_subrange {A} (P : A → Prop) l i n :
  0 ≤ i → 0 ≤ n → i + n ≤ len l →
  (∀ k, i ≤ k < i + n → ∃ c, aget l k = Some c ∧ P c) → Forall P (subrange l i n).
Proof.
  intros Hi Hn Hl HP. destruct (subrange_split l i n) as (_&Hs&Hg); [done..|].
  apply Forall_lookup. intros k x Hk. rewrite <-aget_nat in Hk. apply aget_inv in Hk as Hr.
  rewrite Hg in Hk by lia. destruct (HP (i + Z.of_nat k)) as (c&Hc&?); [lia|]. congruence.
Qed.

Create HintDb go discriminated.
Create Rewrite HintDb go.
#[export] Hint Rewrite @len_nil @len_cons @len_app @len_replicate @len_insert : go.
#[export] Hint Resolve u8_range u16_range u32_range u64_range : go.

(** [len] of list expressions, then arithmetic. *)
Ltac len_lia := autorewrite with go in *; lia.

(** Linear arithmetic with [div] and [mod] by constants. *)
Ltac mod_lia := Z.div_mod_to_equations; lia.

(** Case analysis on every comparison of the goal, impossible cases dismissed. *)
Ltac cmp_step :=
  match goal with
  | |- context [?a <? ?b] => destruct (Z.ltb_spec a b)
  | |- context [?a <=? ?b] => destruct (Z.leb_spec a b)
  | |- context [?a =? ?b] => destruct (Z.eqb_spec a b)
  end; try (exfalso; lia).
Ltac cmp := repeat (cmp_step; cbn [negb andb orb]).

(** Runs the next call of a monadic program against its specification. *)
Tactic Notation "call" uconstr(spec) := apply ok_bind; eapply ok_mono; [apply spec|].
