(* ===== verification/PageAlloc.v ===== *)
(** * The interface between the page allocator and its clients

    [src/fs/page_alloc_gccgo.go] reaches the allocator through three functions
    and the identity-mapped memory.  [PageAllocator] is those operations,
    [PageAllocatorLaws] what a client may rely on: a page that is handed out is
    not owned by anyone, no page overlaps the allocator's own bytes, and a store
    into a client's memory leaves the allocator alone. *)
From S2P Require Import Prelude.
Local Open Scope Z_scope.

Class PageAllocator (W : Type) := {
  pa_ready : W → bool;
  pa_alloc : W → option (Z * W);
  pa_free : Z → W → bool * W;
  pa_read : W → Z → Z;
  pa_write : W → Z → Z → W;
}.

Class PageAllocatorLaws (W : Type) `{!PageAllocator W} := {
  (** the allocator's invariant *)
  pa_inv : W → Prop;
  (** the page at this address is in use *)
  pa_owned : W → Z → Prop;
  (** the byte at this address belongs to the allocator *)
  pa_private : W → Z → Prop;
  (** the byte at this address is in memory the allocator does not manage *)
  pa_static : W → Z → Prop;

  pa_static_not_private w a : pa_inv w → pa_static w a → ¬ pa_private w a;
  pa_static_not_owned w p a :
    pa_inv w → pa_owned w p → pa_static w a → ¬ (p ≤ a < p + 4096);
  pa_owned_range w p :
    pa_inv w → pa_owned w p → p `mod` 4096 = 0 ∧ 0 < p ∧ p + 4096 ≤ 2 ^ 64;
  pa_owned_not_private w p a :
    pa_inv w → pa_owned w p → p ≤ a < p + 4096 → ¬ pa_private w a;
  pa_alloc_spec w :
    pa_inv w → pa_ready w = true →
    ok (pa_alloc w) (λ '(p, w'),
      pa_inv w' ∧ pa_ready w' = true ∧
      (∀ a, pa_private w' a ↔ pa_private w a) ∧
      (∀ a, pa_static w' a ↔ pa_static w a) ∧
      (∀ a, ¬ pa_private w a → pa_read w' a = pa_read w a) ∧
      (p = 0 ∧ w' = w ∨
       p ≠ 0 ∧ ¬ pa_owned w p ∧ ∀ q, pa_owned w' q ↔ q = p ∨ pa_owned w q));
  pa_free_spec w p :
    pa_inv w → pa_owned w p →
    (pa_free p w).1 = true ∧ pa_inv (pa_free p w).2 ∧
    pa_ready (pa_free p w).2 = pa_ready w ∧
    (∀ a, pa_private (pa_free p w).2 a ↔ pa_private w a) ∧
    (∀ a, pa_static (pa_free p w).2 a ↔ pa_static w a) ∧
    (∀ a, ¬ pa_private w a → pa_read (pa_free p w).2 a = pa_read w a) ∧
    (∀ q, pa_owned (pa_free p w).2 q ↔ pa_owned w q ∧ q ≠ p);
  pa_write_spec w a v :
    pa_inv w → ¬ pa_private w a →
    pa_inv (pa_write w a v) ∧ pa_ready (pa_write w a v) = pa_ready w ∧
    (∀ b, pa_private (pa_write w a v) b ↔ pa_private w b) ∧
    (∀ b, pa_static (pa_write w a v) b ↔ pa_static w b) ∧
    (∀ q, pa_owned (pa_write w a v) q ↔ pa_owned w q) ∧
    (∀ b, pa_read (pa_write w a v) b = if decide (b = a) then v else pa_read w b);
}.

(** Two pages that are both in use and not the same do not overlap. *)
Lemma owned_disjoint `{PageAllocatorLaws W} w p q a :
  pa_inv w → pa_owned w p → pa_owned w q → p ≠ q →
  p ≤ a < p + 4096 → ¬ (q ≤ a < q + 4096).
Proof.
  intros Hi Hp Hq Hne Ha Hb.
  destruct (pa_owned_range w p Hi Hp) as (Hp1 & _). destruct (pa_owned_range w q Hi Hq) as (Hq1 & _).
  pose proof (Z.div_mod p 4096 ltac:(done)). pose proof (Z.div_mod q 4096 ltac:(done)). lia.
Qed.
