(* ===== verification/Mem.v ===== *)
(** * Package [mem]: the Multiboot2 memory map and the page frame allocator

    [src/mem/multiboot.go], [src/mem/allocator.go] and [src/mem/allocator_gccgo.go].
    The package variables and the physical memory they describe are one record,
    [mem_state]; the bitmap lives in that memory, at [bitmapPhys], as in the code. *)
From S2P Require Import Prelude PageAlloc.
Local Open Scope Z_scope.

(** ** Data *)
Definition maxMMapEntries : Z := 64.
Definition pageSize : Z := 4096.
Definition multiboot2TagTypeEnd : Z := 0.
Definition multiboot2TagTypeMmap : Z := 6.

Record mmapEntry := MMapEntryRec {
  baseLo : Z;
  baseHi : Z;
  lenLo : Z;
  lenHi : Z;
  typ : Z;
}.

Record mem_state := MemState {
  mmapEntries : list mmapEntry;
  mmapCount : Z;
  pfaReady : bool;
  totalPages : Z;
  freePages : Z;
  bitmapPhys : Z;
  bitmapBytes : Z;
  scanStart : Z;
  phys : memory;
}.

Definition set_mmap (es : list mmapEntry) (n : Z) (st : mem_state) : mem_state :=
  MemState es n (pfaReady st) (totalPages st) (freePages st) (bitmapPhys st)
    (bitmapBytes st) (scanStart st) (phys st).
Definition set_pfaReady (b : bool) (st : mem_state) : mem_state :=
  MemState (mmapEntries st) (mmapCount st) b (totalPages st) (freePages st)
    (bitmapPhys st) (bitmapBytes st) (scanStart st) (phys st).
Definition set_totalPages (n : Z) (st : mem_state) : mem_state :=
  MemState (mmapEntries st) (mmapCount st) (pfaReady st) n (freePages st)
    (bitmapPhys st) (bitmapBytes st) (scanStart st) (phys st).
Definition set_freePages (n : Z) (st : mem_state) : mem_state :=
  MemState (mmapEntries st) (mmapCount st) (pfaReady st) (totalPages st) n
    (bitmapPhys st) (bitmapBytes st) (scanStart st) (phys st).
Definition set_bitmapPhys (a : Z) (st : mem_state) : mem_state :=
  MemState (mmapEntries st) (mmapCount st) (pfaReady st) (totalPages st) (freePages st)
    a (bitmapBytes st) (scanStart st) (phys st).
Definition set_bitmapBytes (n : Z) (st : mem_state) : mem_state :=
  MemState (mmapEntries st) (mmapCount st) (pfaReady st) (totalPages st) (freePages st)
    (bitmapPhys st) n (scanStart st) (phys st).
Definition set_scanStart (n : Z) (st : mem_state) : mem_state :=
  MemState (mmapEntries st) (mmapCount st) (pfaReady st) (totalPages st) (freePages st)
    (bitmapPhys st) (bitmapBytes st) n (phys st).
Definition set_phys (m : memory) (st : mem_state) : mem_state :=
  MemState (mmapEntries st) (mmapCount st) (pfaReady st) (totalPages st) (freePages st)
    (bitmapPhys st) (bitmapBytes st) (scanStart st) m.

(** ** multiboot.go *)

Definition readU32 (m : memory) (addr : Z) : Z := readLE m 4 addr.
Definition readU64 (m : memory) (addr : Z) : Z := readLE m 8 addr.

Definition alignUp8 (p : Z) : Z := Z.ldiff (u64 (p + 7)) 7.

(** The loop over the entries of one memory map tag. *)
Definition mmap_entries_loop (entrySize entriesStart entriesEnd : Z) (st : mem_state)
    : option mem_state :=
  loop_end
    (while 64
      (λ '(ep, st), (u64 (ep + entrySize) <=? entriesEnd) && (mmapCount st <? maxMMapEntries))
      (λ '(ep, st),
         let base := readU64 (phys st) ep in
         let length := readU64 (phys st) (ep + 8) in
         let ty := readU32 (phys st) (ep + 16) in
         es ← aset (mmapEntries st) (mmapCount st)
                (MMapEntryRec (u32 base) (u32 (Z.shiftr base 32))
                   (u32 length) (u32 (Z.shiftr length 32)) ty);
         Some (inl (u64 (ep + entrySize), set_mmap es (mmapCount st + 1) st)))
      (entriesStart, st))
    (λ '(_, st), Some st).

(** One round of the tag loop: [inl] goes on with the next tag, [inr] is [break]. *)
Definition tag_step (end_ : Z) (s : Z * bool * mem_state)
    : option ((Z * bool * mem_state) + (bool * mem_state)) :=
  let '(p, foundMmap, st) := s in
  let tagType := readU32 (phys st) p in
  let tagSize := readU32 (phys st) (p + 4) in
  if tagType =? multiboot2TagTypeEnd then Some (inr (foundMmap, st))
  else if (tagSize <? 8) || (end_ <? u64 (p + tagSize)) then Some (inr (foundMmap, st))
  else
    r ← (if tagType =? multiboot2TagTypeMmap then
           if 16 <=? tagSize then
             let entrySize := readU32 (phys st) (p + 8) in
             if 24 <=? entrySize then
               st' ← mmap_entries_loop entrySize (u64 (p + 16)) (u64 (p + tagSize)) st;
               Some (0 <? mmapCount st', st')
             else Some (foundMmap, st)
           else Some (foundMmap, st)
         else Some (foundMmap, st));
    Some (inl (alignUp8 (u64 (p + tagSize)), r.1, r.2)).

Definition InitMultiboot (mbInfoAddr : Z) (st : mem_state) : option (bool * mem_state) :=
  let st := set_mmap (mmapEntries st) 0 st in
  if mbInfoAddr =? 0 then Some (false, st)
  else
    let info := mbInfoAddr in
    let totalSize := readU32 (phys st) info in
    if totalSize <? 16 then Some (false, st)
    else
      let end_ := u64 (info + totalSize) in
      loop_end
        (while (Z.to_nat (totalSize / 8))
           (λ '(p, _, _), u64 (p + 8) <=? end_) (tag_step end_) (u64 (info + 8), false, st))
        (λ '(_, foundMmap, st), Some (foundMmap, st)).

Definition MMapCount (st : mem_state) : Z := mmapCount st.

Definition MMapEntry (i : Z) (st : mem_state) : option (Z * Z * Z * Z * Z) :=
  if (i <? 0) || (mmapCount st <=? i) then Some (0, 0, 0, 0, 0)
  else e ← aget (mmapEntries st) i; Some (baseLo e, baseHi e, lenLo e, lenHi e, typ e).

(** ** allocator.go *)
Definition alignUp (v a : Z) : Z :=
  Z.land (u64 (v + u64 (a - 1))) (u64 (Z.lnot (u64 (a - 1)))).
Definition alignDown (v a : Z) : Z := Z.land v (u64 (Z.lnot (u64 (a - 1)))).
Definition u64FromHiLo (hi lo : Z) : Z := Z.lor (u64 (Z.shiftl hi 32)) lo.

Definition entry_base (e : mmapEntry) : Z := u64FromHiLo (baseHi e) (baseLo e).
Definition entry_len (e : mmapEntry) : Z := u64FromHiLo (lenHi e) (lenLo e).

Definition maxAvailableEnd (st : mem_state) : option Z :=
  for_do 0 (mmapCount st)
    (λ i maxEnd,
       e ← aget (mmapEntries st) i;
       if negb (typ e =? 1) then Some maxEnd
       else
         let base := u64FromHiLo (baseHi e) (baseLo e) in
         let l := u64FromHiLo (lenHi e) (lenLo e) in
         let end_ := u64 (base + l) in
         Some (if maxEnd <? end_ then end_ else maxEnd)) 0.

(** allocator_gccgo.go: the address of the [off]-th byte of the bitmap. *)
Definition bitmapBytePtr (off : Z) (st : mem_state) : Z := u64 (bitmapPhys st + off).

Definition bitmapGet (page : Z) (st : mem_state) : bool :=
  let byteIdx := Z.shiftr page 3 in
  let bit := u8 (Z.shiftl 1 (Z.land page 7)) in
  let b := mread (phys st) (bitmapBytePtr byteIdx st) in
  negb (Z.land b bit =? 0).

Definition bitmapSet (page : Z) (used : bool) (st : mem_state) : mem_state :=
  let byteIdx := Z.shiftr page 3 in
  let bit := u8 (Z.shiftl 1 (Z.land page 7)) in
  let p := bitmapBytePtr byteIdx st in
  let b := mread (phys st) p in
  set_phys (mwrite (phys st) p (if used then Z.lor b bit else Z.ldiff b bit)) st.

Definition markFreeRange (startPhys endPhys : Z) (st : mem_state) : option mem_state :=
  if endPhys <=? startPhys then Some st
  else
    let start := alignUp startPhys pageSize in
    let end_ := alignDown endPhys pageSize in
    loop_end
      (while (Z.to_nat (totalPages st) + 1) (λ '(addr, _), addr <? end_)
         (λ '(addr, st),
            let page := addr / pageSize in
            if totalPages st <=? page then Some (inr st)
            else
              let st :=
                if bitmapGet page st then
                  let st := bitmapSet page false st in
                  set_freePages (u64 (freePages st + 1)) st
                else st in
              Some (inl (u64 (addr + pageSize), st)))
         (start, st))
      (λ '(_, st), Some st).

Definition markUsedRange (startPhys endPhys : Z) (st : mem_state) : option mem_state :=
  if endPhys <=? startPhys then Some st
  else
    let start := alignDown startPhys pageSize in
    let end_ := alignUp endPhys pageSize in
    loop_end
      (while (Z.to_nat (totalPages st) + 1) (λ '(addr, _), addr <? end_)
         (λ '(addr, st),
            let page := addr / pageSize in
            if totalPages st <=? page then Some (inr st)
            else
              let st :=
                if negb (bitmapGet page st) then
                  let st := bitmapSet page true st in
                  if 0 <? freePages st then set_freePages (freePages st - 1) st else st
                else st in
              Some (inl (u64 (addr + pageSize), st)))
         (start, st))
      (λ '(_, st), Some st).

Definition TotalPages (st : mem_state) : Z := totalPages st.
Definition FreePages (st : mem_state) : Z := freePages st.
Definition UsedPages (st : mem_state) : Z := u64 (totalPages st - freePages st).
Definition PFAReady (st : mem_state) : bool := pfaReady st.

Definition AllocPage (st : mem_state) : option (Z * mem_state) :=
  if negb (pfaReady st) then Some (0, st)
  else
    loop_end
      (for_range (scanStart st) (totalPages st)
         (λ page st,
            if negb (bitmapGet page st) then
              let st := bitmapSet page true st in
              let st := if 0 <? freePages st then set_freePages (freePages st - 1) st else st in
              Some (inr (u64 (page * pageSize), st))
            else Some (inl st)) st)
      (λ st, Some (0, st)).

Definition FreePage (addr : Z) (st : mem_state) : bool * mem_state :=
  if negb (pfaReady st) then (false, st)
  else if negb (addr `mod` pageSize =? 0) then (false, st)
  else
    let page := addr / pageSize in
    if (page <? scanStart st) || (totalPages st <=? page) then (false, st)
    else if negb (bitmapGet page st) then (false, st)
    else
      let st := bitmapSet page false st in
      (true, set_freePages (u64 (freePages st + 1)) st).

Section init.
(** The linker's symbols for the end of the kernel image and of the bootstrap
    section ([kernel_bounds_gccgo.go], defined in assembly). *)
Variable kernelEnd bootstrapEnd : Z.

Definition kernelEndPhys : Z :=
  if kernelEnd <? bootstrapEnd then bootstrapEnd else kernelEnd.

(** The loop of [InitPFA] that looks for a region with room for the bitmap. *)
Definition place_bitmap (kend : Z) (st : mem_state) : option Z :=
  loop_end
    (for_range 0 (mmapCount st)
       (λ i (_ : unit),
          e ← aget (mmapEntries st) i;
          if negb (typ e =? 1) then Some (inl tt)
          else
            let base := u64FromHiLo (baseHi e) (baseLo e) in
            let end_ := u64 (base + u64FromHiLo (lenHi e) (lenLo e)) in
            if (end_ <=? base) || (end_ <=? kend) then Some (inl tt)
            else
              let start := if base <? kend then kend else base in
              let start := alignUp start pageSize in
              if u64 (start + bitmapBytes st) <=? end_ then Some (inr start)
              else Some (inl tt)) tt)
    (λ _, Some 0).

Definition InitPFA (st : mem_state) : option (bool * mem_state) :=
  let st := set_freePages 0 (set_pfaReady false st) in
  maxEnd ← maxAvailableEnd st;
  if maxEnd =? 0 then Some (false, st)
  else
    let st := set_totalPages (u64 (maxEnd + (pageSize - 1)) / pageSize) st in
    if totalPages st =? 0 then Some (false, st)
    else
      let st := set_bitmapBytes (u64 (totalPages st + 7) / 8) st in
      let kend := kernelEndPhys in
      b ← place_bitmap kend st;
      let st := set_bitmapPhys b st in
      let st := if bitmapPhys st =? 0 then set_bitmapPhys (alignUp kend pageSize) st else st in
      let bitmapPages := alignUp (bitmapBytes st) pageSize / pageSize in
      let bitmapEnd := u64 (bitmapPhys st + u64 (bitmapPages * pageSize)) in
      st ← for_do 0 (bitmapBytes st)
             (λ i st, Some (set_phys (mwrite (phys st) (bitmapBytePtr i st) 255) st)) st;
      st ← for_do 0 (mmapCount st)
             (λ i st,
                e ← aget (mmapEntries st) i;
                if negb (typ e =? 1) then Some st
                else
                  let start := u64FromHiLo (baseHi e) (baseLo e) in
                  let end_ := u64 (start + u64FromHiLo (lenHi e) (lenLo e)) in
                  markFreeRange start end_ st) st;
      st ← markUsedRange 0 bitmapEnd st;
      let st := set_scanStart (bitmapEnd / pageSize) st in
      Some (true, set_pfaReady true st).
End init.

(** ** The bitmap *)
Definition bitmap_ok (st : mem_state) : Prop :=
  0 ≤ bitmapPhys st ∧ 0 ≤ bitmapBytes st ∧ bitmapPhys st + bitmapBytes st ≤ 2 ^ 64 ∧
  0 ≤ totalPages st ≤ 8 * bitmapBytes st.

(** The bytes the allocator keeps for itself. *)
Definition in_bitmap (st : mem_state) (a : Z) : Prop :=
  bitmapPhys st ≤ a < bitmapPhys st + bitmapBytes st.

(** The abstract state of the allocator: the set of free page numbers. *)
Definition free_set (st : mem_state) : gset Z :=
  list_to_set (filter (λ p, bitmapGet p st = false) (seqZ 0 (totalPages st))).

Lemma elem_of_free_set p st :
  p ∈ free_set st ↔ 0 ≤ p < totalPages st ∧ bitmapGet p st = false.
Proof.
  unfold free_set. rewrite elem_of_list_to_set, list_elem_of_filter, elem_of_seqZ.
  intuition lia.
Qed.

Lemma page_bit_mask page :
  u8 (Z.shiftl 1 (Z.land page 7)) = 2 ^ (page `mod` 8).
Proof.
  change 7 with (Z.ones 3). rewrite Z.land_ones by lia. change (2 ^ 3) with 8.
  assert (0 ≤ page `mod` 8 < 8) by (apply Z.mod_pos_bound; lia).
  rewrite Z.shiftl_mul_pow2, Z.mul_1_l by lia.
  apply u8_small. split; [apply Z.pow_nonneg; lia|]. apply Z.pow_lt_mono_r; lia.
Qed.

Lemma bitmapGet_testbit page st :
  bitmapGet page st =
  Z.testbit (mread (phys st) (bitmapBytePtr (page / 8) st)) (page `mod` 8).
Proof.
  unfold bitmapGet. rewrite page_bit_mask, Z.shiftr_div_pow2 by lia. change (2 ^ 3) with 8.
  rewrite testbit_land_pow2 by (apply Z.mod_pos_bound; lia). apply negb_involutive.
Qed.

Lemma bitmapBytePtr_off page st :
  bitmap_ok st → 0 ≤ page < 8 * bitmapBytes st →
  bitmapBytePtr (page / 8) st = bitmapPhys st + page / 8 ∧
  in_bitmap st (bitmapPhys st + page / 8).
Proof.
  intros (? & ? & ? & ?) Hp. unfold bitmapBytePtr, in_bitmap.
  assert (0 ≤ page / 8 < bitmapBytes st) by (split; [apply Z.div_pos|apply Z.div_lt_upper_bound]; lia).
  rewrite u64_small by lia. lia.
Qed.

Lemma bitmapGet_Set page used q st :
  bitmap_ok st → 0 ≤ page < 8 * bitmapBytes st → 0 ≤ q < 8 * bitmapBytes st →
  bitmapGet q (bitmapSet page used st) = if decide (q = page) then used else bitmapGet q st.
Proof.
  intros Hok Hp Hq. rewrite !bitmapGet_testbit. unfold bitmapSet; simpl.
  rewrite page_bit_mask, Z.shiftr_div_pow2 by lia. change (2 ^ 3) with 8.
  change (bitmapBytePtr (q / 8) (set_phys _ st)) with (bitmapBytePtr (q / 8) st).
  destruct (bitmapBytePtr_off page st) as [-> _]; [done..|].
  destruct (bitmapBytePtr_off q st) as [-> _]; [done..|].
  assert (0 ≤ page `mod` 8) by (apply Z.mod_pos_bound; lia).
  rewrite mread_mwrite. destruct (decide (q = page)) as [->|Hne].
  { rewrite decide_True by done. destruct used.
    - rewrite Z.lor_spec, Z.pow2_bits_true by lia. apply orb_true_r.
    - rewrite Z.ldiff_spec, Z.pow2_bits_true by lia. apply andb_false_r. }
  case_decide as Heq; [|done].
  assert (page `mod` 8 ≠ q `mod` 8).
  { intros E. apply Hne. rewrite (Z.div_mod q 8), (Z.div_mod page 8) by lia. lia. }
  replace (bitmapPhys st + page / 8) with (bitmapPhys st + q / 8) by lia.
  destruct used; rewrite ?Z.lor_spec, ?Z.ldiff_spec, Z.pow2_bits_false by lia; simpl.
  - apply orb_false_r.
  - apply andb_true_r.
Qed.

Lemma bitmapSet_frame page used st a :
  bitmap_ok st → 0 ≤ page < 8 * bitmapBytes st → ¬ in_bitmap st a →
  mread (phys (bitmapSet page used st)) a = mread (phys st) a.
Proof.
  intros Hok Hp Ha. unfold bitmapSet; simpl. rewrite Z.shiftr_div_pow2 by lia. change (2 ^ 3) with 8.
  destruct (bitmapBytePtr_off page st) as [-> ?]; [done..|].
  apply mread_mwrite_ne. intros ->. done.
Qed.

Lemma free_set_Set_true page st :
  bitmap_ok st → 0 ≤ page < totalPages st →
  free_set (bitmapSet page true st) = free_set st ∖ {[page]}.
Proof.
  intros Hok Hp. pose proof Hok as (? & ? & ? & ?). apply set_eq; intros q.
  rewrite elem_of_difference, elem_of_singleton, !elem_of_free_set.
  change (totalPages (bitmapSet page true st)) with (totalPages st).
  destruct (decide (0 ≤ q < totalPages st)); [|intuition lia].
  rewrite bitmapGet_Set by (done || lia). case_decide; intuition congruence.
Qed.

Lemma free_set_Set_false page st :
  bitmap_ok st → 0 ≤ page < totalPages st →
  free_set (bitmapSet page false st) = {[page]} ∪ free_set st.
Proof.
  intros Hok Hp. pose proof Hok as (? & ? & ? & ?). apply set_eq; intros q.
  rewrite elem_of_union, elem_of_singleton, !elem_of_free_set.
  change (totalPages (bitmapSet page false st)) with (totalPages st).
  destruct (decide (0 ≤ q < totalPages st)); [|intuition lia].
  rewrite bitmapGet_Set by (done || lia). case_decide; intuition congruence.
Qed.

Lemma size_free_set_bound st : 0 ≤ totalPages st → Z.of_nat (size (free_set st)) ≤ totalPages st.
Proof.
  intros H. assert (size (free_set st) ≤ size (list_to_set (seqZ 0 (totalPages st)) : gset Z))%nat as Hs.
  { apply subseteq_size. intros p. rewrite elem_of_free_set, elem_of_list_to_set, elem_of_seqZ. lia. }
  rewrite size_list_to_set in Hs by apply NoDup_seqZ. rewrite length_seqZ in Hs. lia.
Qed.

(** ** The invariant of the allocator *)
Record pfa_inv (st : mem_state) : Prop := {
  inv_bitmap : bitmap_ok st;
  inv_total : totalPages st ≤ 2 ^ 52;
  inv_count : freePages st = Z.of_nat (size (free_set st));
  inv_scan : 0 < scanStart st;
  inv_above_bitmap : bitmapPhys st + bitmapBytes st ≤ scanStart st * pageSize;
  inv_low : ∀ p, p ∈ free_set st → scanStart st ≤ p;
}.

(** What an operation of the allocator leaves alone: its configuration, and every
    byte outside the bitmap. *)
Definition same_config (st st' : mem_state) : Prop :=
  mmapEntries st' = mmapEntries st ∧ mmapCount st' = mmapCount st ∧
  pfaReady st' = pfaReady st ∧ totalPages st' = totalPages st ∧
  bitmapPhys st' = bitmapPhys st ∧ bitmapBytes st' = bitmapBytes st ∧
  scanStart st' = scanStart st.

Definition same_outside_bitmap (st st' : mem_state) : Prop :=
  ∀ a, ¬ in_bitmap st a → mread (phys st') a = mread (phys st) a.

#[export] Instance same_config_po : PreOrder same_config.
Proof.
  split; [by unfold same_config|].
  intros ??? (?&?&?&?&?&?&?) (?&?&?&?&?&?&?). unfold same_config. intuition congruence.
Qed.

Lemma bitmap_ok_config st st' : same_config st st' → bitmap_ok st → bitmap_ok st'.
Proof.
  intros (?&?&?&Ht&Hp&Hb&?). unfold bitmap_ok. by rewrite Ht, Hp, Hb.
Qed.

(** Taking a free page out of the bitmap, as [AllocPage] and [markUsedRange] do. *)
Definition take_page (page : Z) (st : mem_state) : mem_state :=
  let st := bitmapSet page true st in
  if 0 <? freePages st then set_freePages (freePages st - 1) st else st.

(** Giving a page back, as [FreePage] and [markFreeRange] do. *)
Definition give_page (page : Z) (st : mem_state) : mem_state :=
  let st := bitmapSet page false st in set_freePages (u64 (freePages st + 1)) st.

Lemma free_set_set_freePages n st : free_set (set_freePages n st) = free_set st.
Proof. done. Qed.

Lemma take_page_spec page st :
  bitmap_ok st → page ∈ free_set st → freePages st = Z.of_nat (size (free_set st)) →
  let st' := take_page page st in
  same_config st st' ∧ same_outside_bitmap st st' ∧
  free_set st' = free_set st ∖ {[page]} ∧
  freePages st' = Z.of_nat (size (free_set st')).
Proof.
  intros Hok Hp Hcnt. pose proof Hok as (?&?&?&?).
  pose proof (proj1 (elem_of_free_set _ _) Hp) as [Hr Hb].
  assert (size (free_set st) ≠ 0%nat) as Hne.
  { intros E%size_empty_inv. clear -E Hp. set_solver. }
  cbv zeta. unfold take_page. simpl. destruct (Z.ltb_spec 0 (freePages st)); [|lia].
  split; [done|]. split.
  { intros a Ha. apply (bitmapSet_frame page true st a); [done|lia|done]. }
  rewrite free_set_set_freePages, free_set_Set_true by done. split; [done|].
  simpl. rewrite size_difference by (clear -Hp; set_solver). rewrite size_singleton. lia.
Qed.

Lemma give_page_spec page st :
  bitmap_ok st → 0 ≤ page < totalPages st → page ∉ free_set st → totalPages st ≤ 2 ^ 52 →
  freePages st = Z.of_nat (size (free_set st)) →
  let st' := give_page page st in
  same_config st st' ∧ same_outside_bitmap st st' ∧
  free_set st' = {[page]} ∪ free_set st ∧
  freePages st' = Z.of_nat (size (free_set st')).
Proof.
  intros Hok Hp Hnot Ht Hcnt. pose proof Hok as (?&?&?&?).
  cbv zeta. unfold give_page. split; [done|]. split.
  { intros a Ha. apply (bitmapSet_frame page false st a); [done|lia|done]. }
  rewrite free_set_set_freePages, free_set_Set_false by done. split; [done|].
  simpl. rewrite size_union by (clear -Hnot; set_solver). rewrite size_singleton.
  pose proof (size_free_set_bound st ltac:(lia)). rewrite u64_small by lia. lia.
Qed.

Lemma pfa_inv_take page st : pfa_inv st → page ∈ free_set st → pfa_inv (take_page page st).
Proof.
  intros [Hb Ht Hc Hs Ha Hl] Hp.
  destruct (take_page_spec page st) as (Hcfg & _ & Hfs & Hcnt); [done..|].
  pose proof Hcfg as (?&?&?&Et&Eb&Ey&Es).
  split; rewrite ?Et, ?Eb, ?Ey, ?Es; [by eapply bitmap_ok_config|done..|].
  intros p. rewrite Hfs. intros [Hin _]%elem_of_difference. auto.
Qed.

Lemma pfa_inv_give page st :
  pfa_inv st → scanStart st ≤ page < totalPages st → page ∉ free_set st →
  pfa_inv (give_page page st).
Proof.
  intros [Hb Ht Hc Hs Ha Hl] Hp Hn.
  destruct (give_page_spec page st) as (Hcfg & _ & Hfs & Hcnt); [done|lia|done..|].
  pose proof Hcfg as (?&?&?&Et&Eb&Ey&Es).
  split; rewrite ?Et, ?Eb, ?Ey, ?Es; [by eapply bitmap_ok_config|done..|].
  intros p. rewrite Hfs. intros [->%elem_of_singleton|?]%elem_of_union; [lia|auto].
Qed.

(** ** Allocation and release refine the set of free pages *)
Definition least_free (st : mem_state) (p : Z) : Prop :=
  p ∈ free_set st ∧ ∀ q, q ∈ free_set st → p ≤ q.

Lemma AllocPage_spec st :
  pfa_inv st → pfaReady st = true →
  ok (AllocPage st) (λ '(a, st'),
    (a = 0 ∧ st' = st ∧ free_set st = ∅) ∨
    (∃ p, a = p * pageSize ∧ least_free st p ∧ st' = take_page p st)).
Proof.
  intros Hinv Hr. unfold AllocPage. rewrite Hr. simpl. apply ok_loop_end.
  destruct (decide (scanStart st ≤ totalPages st)).
  2:{ rewrite for_range_done by lia. simpl. left. split_and!; [done..|].
      apply set_eq. intros q. split; [|set_solver]. intros Hq.
      pose proof (inv_low _ Hinv _ Hq). apply elem_of_free_set in Hq. lia. }
  apply (for_range_ok (λ i s, s = st ∧ ∀ q, q ∈ free_set st → i ≤ q)); [done| | |].
  - split; [done|]. apply (inv_low _ Hinv).
  - intros page s Hpage [-> Hmin].
    pose proof (inv_total _ Hinv). pose proof (inv_scan _ Hinv).
    destruct (bitmapGet page st) eqn:E; simpl.
    + split; [done|]. intros q Hq. pose proof (Hmin q Hq).
      assert (q ≠ page); [|lia]. intros ->. apply elem_of_free_set in Hq. by destruct Hq; congruence.
    + right. exists page. split_and!.
      * apply u64_small. unfold pageSize. lia.
      * split; [|done]. apply elem_of_free_set. split; [lia|done].
      * done.
  - intros s [-> Hmin]. left. split_and!; [done..|]. apply set_eq. intros q. split; [|set_solver].
    intros Hq. pose proof (Hmin q Hq). apply elem_of_free_set in Hq. lia.
Qed.

Lemma FreePage_spec addr st :
  pfa_inv st → pfaReady st = true →
  let p := addr / pageSize in
  FreePage addr st =
    if decide (addr `mod` pageSize = 0 ∧ scanStart st ≤ p < totalPages st ∧ p ∉ free_set st)
    then (true, give_page p st) else (false, st).
Proof.
  intros Hinv Hr. cbv zeta. unfold FreePage. rewrite Hr. simpl.
  pose proof (inv_scan _ Hinv).
  destruct (Z.eqb_spec (addr `mod` pageSize) 0) as [Hm|]; simpl.
  2:{ by rewrite decide_False by tauto. }
  destruct (Z.ltb_spec (addr / pageSize) (scanStart st)); simpl.
  { by rewrite decide_False by lia. }
  destruct (Z.leb_spec (totalPages st) (addr / pageSize)); simpl.
  { by rewrite decide_False by lia. }
  destruct (bitmapGet (addr / pageSize) st) eqn:E; simpl.
  - rewrite decide_True; [done|]. split_and!; try done. rewrite elem_of_free_set. intros []; congruence.
  - rewrite decide_False; [done|]. intros (_&_&Hn). apply Hn, elem_of_free_set. split; [lia|done].
Qed.

(** ** Marking ranges *)
Lemma alignDown_page v : in_u64 v → alignDown v pageSize = v / pageSize * pageSize.
Proof.
  intros H. unfold alignDown. change (u64 (pageSize - 1)) with (2 ^ 12 - 1).
  by rewrite land_mask_high.
Qed.

Lemma alignUp_page v :
  0 ≤ v → v + 4095 < 2 ^ 64 → alignUp v pageSize = (v + 4095) / pageSize * pageSize.
Proof.
  intros. unfold alignUp. change (u64 (pageSize - 1)) with (2 ^ 12 - 1).
  rewrite u64_small by lia. rewrite land_mask_high by lia. done.
Qed.

Lemma round_up_bounds v : v ≤ (v + 4095) / pageSize * pageSize ≤ v + 4095.
Proof.
  unfold pageSize. pose proof (Z.div_mod (v + 4095) 4096 ltac:(done)).
  pose proof (Z.mod_pos_bound (v + 4095) 4096 ltac:(done)). lia.
Qed.

Lemma round_down_bounds v : v / pageSize * pageSize ≤ v < v / pageSize * pageSize + pageSize.
Proof.
  unfold pageSize. pose proof (Z.div_mod v 4096 ltac:(done)).
  pose proof (Z.mod_pos_bound v 4096 ltac:(done)). lia.
Qed.

(** The loop both marking functions run, over an action [act] on each page. *)
Definition mark_loop (act : Z → mem_state → mem_state) (end_ start : Z) (st : mem_state)
    : option mem_state :=
  loop_end
    (while (Z.to_nat (totalPages st) + 1) (λ '(addr, _), addr <? end_)
       (λ '(addr, st),
          if totalPages st <=? addr / pageSize then Some (inr st)
          else Some (inl (u64 (addr + pageSize), act (addr / pageSize) st)))
       (start, st))
    (λ '(_, st), Some st).

Lemma mark_loop_ok (P : Z → mem_state → Prop) (Q : mem_state → Prop) act end_ start st :
  0 ≤ start → 0 ≤ end_ < 2 ^ 52 → 0 ≤ totalPages st →
  P start st →
  (∀ p s, 0 ≤ p < totalPages st → start ≤ p → p < end_ → P p s → P (p + 1) (act p s)) →
  (∀ p s, P p s → totalPages s = totalPages st) →
  (∀ p s, P p s → start ≤ p → end_ ≤ p ∨ totalPages st ≤ p → Q s) →
  ok (mark_loop act (end_ * pageSize) (start * pageSize) st) Q.
Proof.
  intros Hstart Hend HT HP Hact Htot HQ. apply ok_loop_end.
  assert (∀ p, p * pageSize / pageSize = p) as Hdiv by (intros; apply Z.div_mul; done).
  assert (∀ p q, p * pageSize < q * pageSize ↔ p < q) as Hlt by (unfold pageSize; lia).
  apply (while_ok (λ '(a, s), ∃ p, a = p * pageSize ∧ start ≤ p ∧ P p s)
           (λ '(a, s), Z.max 1 (totalPages st + 1 - a / pageSize))).
  - exists start. split_and!; [done|lia|done].
  - rewrite Hdiv. lia.
  - intros [a s]. lia.
  - intros [a s] (p & -> & Hp & HPs) Hc%Z.ltb_lt. rewrite Hlt in Hc.
    rewrite !Hdiv, (Htot _ _ HPs). destruct (Z.leb_spec (totalPages st) p); simpl.
    { eapply HQ; eauto. }
    assert (p * pageSize + pageSize = (p + 1) * pageSize) as Ep by lia.
    rewrite u64_small by (unfold pageSize in *; lia). rewrite Ep, Hdiv.
    split; [|lia]. exists (p + 1). split_and!; [done|lia|]. apply Hact; lia || done.
  - intros [a s] (p & -> & Hp & HPs) Hc%Z.ltb_ge. simpl. eapply HQ; [done|done|].
    left. unfold pageSize in Hc. lia.
Qed.

Definition mark_free_page (page : Z) (st : mem_state) : mem_state :=
  if bitmapGet page st then give_page page st else st.
Definition mark_used_page (page : Z) (st : mem_state) : mem_state :=
  if negb (bitmapGet page st) then take_page page st else st.

Lemma markFreeRange_loop s e st :
  s < e → markFreeRange s e st =
          mark_loop mark_free_page (alignDown e pageSize) (alignUp s pageSize) st.
Proof. intros. unfold markFreeRange. by destruct (Z.leb_spec e s); [lia|]. Qed.

Lemma markUsedRange_loop s e st :
  s < e → markUsedRange s e st =
          mark_loop mark_used_page (alignUp e pageSize) (alignDown s pageSize) st.
Proof. intros. unfold markUsedRange. by destruct (Z.leb_spec e s); [lia|]. Qed.

(** The bitmap is in range and [freePages] counts the clear bits. *)
Definition counted (st : mem_state) : Prop :=
  bitmap_ok st ∧ totalPages st ≤ 2 ^ 52 ∧ freePages st = Z.of_nat (size (free_set st)).

(** [st'] is [st] with the set of free pages replaced by [F]. *)
Definition frees_to (st st' : mem_state) (F : Z → Prop) : Prop :=
  same_config st st' ∧ same_outside_bitmap st st' ∧ counted st' ∧
  ∀ p, p ∈ free_set st' ↔ F p.

Lemma same_outside_trans st st1 st2 :
  same_config st st1 → same_outside_bitmap st st1 → same_outside_bitmap st1 st2 →
  same_outside_bitmap st st2.
Proof.
  intros (_&_&_&_&Eb&Ey&_) H1 H2 a Ha. rewrite H2; [by apply H1|].
  unfold in_bitmap in *. by rewrite Eb, Ey.
Qed.

Lemma counted_config st st' :
  same_config st st' → counted st →
  freePages st' = Z.of_nat (size (free_set st')) → counted st'.
Proof.
  intros Hc (?&?&?) ?. split; [by eapply bitmap_ok_config|].
  destruct Hc as (_&_&_&->&_). done.
Qed.

Lemma mark_free_page_spec p s st F :
  0 ≤ p < totalPages s → frees_to st s F →
  frees_to st (mark_free_page p s) (λ q, q = p ∨ F q).
Proof.
  intros Hp (Hc & Ho & (Hb & Ht & Hn) & HF). unfold mark_free_page.
  destruct (bitmapGet p s) eqn:E.
  - assert (p ∉ free_set s) as Hnot by (rewrite elem_of_free_set; intros []; congruence).
    destruct (give_page_spec p s) as (Hc' & Ho' & Hfs & Hn'); [done..|].
    split_and!; [by etransitivity|by eapply same_outside_trans|by eapply counted_config|].
    intros q. rewrite Hfs, elem_of_union, elem_of_singleton, HF. done.
  - split_and!; [done..|]. intros q. rewrite HF. split; [by right|].
    intros [->|?]; [|done]. apply HF. by apply elem_of_free_set.
Qed.

Lemma mark_used_page_spec p s st F :
  0 ≤ p < totalPages s → frees_to st s F →
  frees_to st (mark_used_page p s) (λ q, F q ∧ q ≠ p).
Proof.
  intros Hp (Hc & Ho & (Hb & Ht & Hn) & HF). unfold mark_used_page.
  destruct (bitmapGet p s) eqn:E; simpl.
  - split_and!; [done..|]. intros q. rewrite HF. split; [|tauto]. intros HFq. split; [done|].
    intros ->. apply HF in HFq. apply elem_of_free_set in HFq as []. congruence.
  - assert (p ∈ free_set s) as Hin by by apply elem_of_free_set.
    destruct (take_page_spec p s) as (Hc' & Ho' & Hfs & Hn'); [done..|].
    split_and!; [by etransitivity|by eapply same_outside_trans|by eapply counted_config|].
    intros q. rewrite Hfs, elem_of_difference, elem_of_singleton, HF. done.
Qed.

Lemma frees_to_ext st s (F G : Z → Prop) :
  (∀ p, F p ↔ G p) → frees_to st s F → frees_to st s G.
Proof. intros HE (?&?&?&HF). split_and!; try done. intros p. by rewrite HF. Qed.

Lemma frees_to_total st s F : frees_to st s F → totalPages s = totalPages st.
Proof. intros ((_&_&_&?&_)&_). done. Qed.

Lemma markFreeRange_spec s e st st0 F :
  0 ≤ s → s + 4095 < 2 ^ 64 → 0 ≤ e < 2 ^ 64 → frees_to st0 st F →
  ok (markFreeRange s e st) (λ st', frees_to st0 st' (λ p,
    F p ∨ 0 ≤ p < totalPages st ∧ s ≤ p * pageSize ∧ (p + 1) * pageSize ≤ e)).
Proof.
  intros Hs Hs' He HF. destruct (Z.leb_spec e s) as [Hle|Hlt].
  { unfold markFreeRange. rewrite (proj2 (Z.leb_le e s)) by done. simpl.
    eapply frees_to_ext; [|done]. intros p. unfold pageSize. intuition lia. }
  rewrite markFreeRange_loop by done. rewrite alignDown_page by lia. rewrite alignUp_page by lia.
  pose proof (proj1 (proj2 (proj2 HF))) as ((_&_&_&HT)&_).
  apply (mark_loop_ok (λ p s', frees_to st0 s' (λ q,
     F q ∨ 0 ≤ q < totalPages st ∧ (s + 4095) / pageSize ≤ q < p ∧ q < e / pageSize))).
  - apply Z.div_pos; [lia|done].
  - unfold pageSize. split; [apply Z.div_pos; lia|apply Z.div_lt_upper_bound; lia].
  - lia.
  - eapply frees_to_ext; [|done]. intros q. intuition lia.
  - intros p s' Hp Hsp Hpe HP.
    eapply frees_to_ext; [|apply mark_free_page_spec; [|apply HP]].
    + intros q. intuition lia.
    + by rewrite (frees_to_total _ _ _ HP), <-(frees_to_total _ _ _ HF).
  - intros p s' HP. by rewrite (frees_to_total _ _ _ HP), (frees_to_total _ _ _ HF).
  - intros p s' HP Hsp Hend. eapply frees_to_ext; [|apply HP]. intros q.
    assert (s ≤ q * pageSize ↔ (s + 4095) / pageSize ≤ q) as ->.
    { pose proof (round_up_bounds s). unfold pageSize in *. lia. }
    assert ((q + 1) * pageSize ≤ e ↔ q < e / pageSize) as ->.
    { pose proof (round_down_bounds e). unfold pageSize in *. lia. }
    intuition lia.
Qed.

Lemma markUsedRange_spec e st st0 F :
  0 ≤ e → e + 4095 < 2 ^ 64 → frees_to st0 st F →
  ok (markUsedRange 0 e st) (λ st', frees_to st0 st' (λ p, F p ∧ e ≤ p * pageSize)).
Proof.
  intros He He' HF.
  assert (∀ q, F q → 0 ≤ q < totalPages st) as HFr.
  { intros q Hq. apply (proj2 (proj2 (proj2 HF))), elem_of_free_set in Hq. tauto. }
  destruct (Z.leb_spec e 0) as [Hle|Hlt].
  { unfold markUsedRange. rewrite (proj2 (Z.leb_le e 0)) by done. simpl.
    eapply frees_to_ext; [|done]. intros p. specialize (HFr p). unfold pageSize. intuition lia. }
  rewrite markUsedRange_loop by done. rewrite alignUp_page, (alignDown_page 0) by lia.
  rewrite Z.div_0_l by done.
  pose proof (proj1 (proj2 (proj2 HF))) as ((_&_&_&HT)&_).
  apply (mark_loop_ok (λ p s', frees_to st0 s' (λ q, F q ∧ (p ≤ q ∨ (e + 4095) / pageSize ≤ q)))).
  - lia.
  - unfold pageSize. split; [apply Z.div_pos; lia|apply Z.div_lt_upper_bound; lia].
  - lia.
  - eapply frees_to_ext; [|done]. intros q. specialize (HFr q). intuition lia.
  - intros p s' Hp Hsp Hpe HP.
    eapply frees_to_ext; [|apply mark_used_page_spec; [|apply HP]].
    + intros q. intuition lia.
    + by rewrite (frees_to_total _ _ _ HP), <-(frees_to_total _ _ _ HF).
  - intros p s' HP. by rewrite (frees_to_total _ _ _ HP), (frees_to_total _ _ _ HF).
  - intros p s' HP Hsp Hend. eapply frees_to_ext; [|apply HP]. intros q. specialize (HFr q).
    assert (e ≤ q * pageSize ↔ (e + 4095) / pageSize ≤ q) as ->.
    { pose proof (round_up_bounds e). unfold pageSize in *. lia. }
    intuition lia.
Qed.

(** ** [InitPFA] *)
Lemma u64FromHiLo_eq hi lo : in_u32 hi → in_u32 lo → u64FromHiLo hi lo = hi * 2 ^ 32 + lo.
Proof.
  intros Hh Hl. unfold u64FromHiLo. rewrite u64_small by (rewrite Z.shiftl_mul_pow2; lia).
  by apply lor_shiftl_add.
Qed.

Definition entry_wf (e : mmapEntry) : Prop :=
  in_u32 (baseLo e) ∧ in_u32 (baseHi e) ∧ in_u32 (lenLo e) ∧ in_u32 (lenHi e).

(** The memory map as the firmware of a 64-bit PC reports it: at most 64 entries
    of 32-bit fields, available memory inside the 52-bit physical address space. *)
Definition mmap_wf (st : mem_state) : Prop :=
  0 ≤ mmapCount st ≤ len (mmapEntries st) ∧
  ∀ i e, 0 ≤ i < mmapCount st → aget (mmapEntries st) i = Some e →
    entry_wf e ∧ (typ e = 1 → entry_base e + entry_len e ≤ 2 ^ 52).

(** The [i]-th entry of the map is the available region [e]. *)
Definition region (st : mem_state) (i : Z) (e : mmapEntry) : Prop :=
  0 ≤ i < mmapCount st ∧ aget (mmapEntries st) i = Some e ∧ typ e = 1.

(** Page [p] lies entirely inside an available region. *)
Definition available (st : mem_state) (p : Z) : Prop :=
  ∃ i e, region st i e ∧
    entry_base e ≤ p * pageSize ∧ (p + 1) * pageSize ≤ entry_base e + entry_len e.

Lemma entry_range e : entry_wf e → 0 ≤ entry_base e ∧ 0 ≤ entry_len e.
Proof.
  intros (?&?&?&?). unfold entry_base, entry_len. rewrite !u64FromHiLo_eq by done. lia.
Qed.

Lemma region_bounds st i e :
  mmap_wf st → region st i e →
  0 ≤ entry_base e ∧ 0 ≤ entry_len e ∧ entry_base e + entry_len e ≤ 2 ^ 52.
Proof.
  intros [_ Hwf] (Hi & He & Ht). destruct (Hwf i e Hi He) as [Hw Hb].
  pose proof (entry_range e Hw). specialize (Hb Ht). lia.
Qed.

(** [m] is the end of the highest available region. *)
Definition max_end (st : mem_state) (m : Z) : Prop :=
  (∃ i e, region st i e ∧ m = entry_base e + entry_len e) ∧
  ∀ i e, region st i e → entry_base e + entry_len e ≤ m.

Lemma maxAvailableEnd_spec st :
  mmap_wf st →
  ok (maxAvailableEnd st) (λ m, 0 ≤ m ≤ 2 ^ 52 ∧ (0 < m → max_end st m) ∧
    ∀ i e, region st i e → entry_base e + entry_len e ≤ m).
Proof.
  intros Hwf. pose proof Hwf as [Hc Hes].
  apply (for_do_ok (λ i m, 0 ≤ m ≤ 2 ^ 52 ∧
    (m = 0 ∨ ∃ j e, region st j e ∧ m = entry_base e + entry_len e) ∧
    ∀ j e, region st j e → j < i → entry_base e + entry_len e ≤ m)).
  - lia.
  - split; [lia|]. split; [by left|]. intros j e (?&?&?). lia.
  - intros i m Hi (Hm & Hat & Hj). destruct (aget_Some (mmapEntries st) i) as [e He]; [lia|].
    rewrite He. simpl. destruct (Z.eqb_spec (typ e) 1) as [Ht|Ht]; simpl.
    + assert (region st i e) as Hr by done. pose proof (region_bounds _ _ _ Hwf Hr).
      fold (entry_base e) (entry_len e). rewrite u64_small by lia.
      destruct (Z.ltb_spec m (entry_base e + entry_len e)); (split; [lia|]);
        (split; [by eauto|]); intros j e' Hr' Hji; (destruct (decide (j = i)) as [->|];
        [destruct Hr' as (_&He'&_); simplify_eq; lia|
         specialize (Hj j e' Hr' ltac:(lia)); lia]).
    + split; [done|]. split; [done|]. intros j e' Hr' Hji. destruct (decide (j = i)) as [->|].
      { destruct Hr' as (_&?&?). simplify_eq. }
      apply (Hj j e' Hr'). lia.
  - intros m (Hm & Hat & Hj). assert (∀ i e, region st i e → entry_base e + entry_len e ≤ m) as Hmax.
    { intros i e Hr. apply (Hj i e Hr). destruct Hr; lia. }
    split; [done|]. split; [|done]. intros Hpos. split; [|done]. destruct Hat as [->|Hat]; [lia|exact Hat].
Qed.

(** [v] rounded up to whole pages. *)
Definition round_up (v : Z) : Z := (v + 4095) / 4096 * 4096.

(** The [i]-th region has room for [n] bytes at [b], its first page boundary above both its
    base and the kernel. *)
Definition room (st : mem_state) (kend n i b : Z) : Prop :=
  ∃ e, region st i e ∧ let end_ := entry_base e + entry_len e in
    entry_base e < end_ ∧ kend < end_ ∧ b = round_up (Z.max kend (entry_base e)) ∧ b + n ≤ end_.

(** Where [n] bytes of bitmap go: into the first region with room, or behind the kernel
    when there is none. *)
Definition bitmap_place (st : mem_state) (kend n b : Z) : Prop :=
  (∃ i, room st kend n i b ∧ ∀ j b', j < i → ¬ room st kend n j b') ∨
  ((∀ j b', ¬ room st kend n j b') ∧ b = round_up kend).

Lemma place_bitmap_spec kend st :
  mmap_wf st → 0 ≤ kend ≤ 2 ^ 52 → 0 ≤ bitmapBytes st ≤ 2 ^ 52 →
  ok (place_bitmap kend st) (λ b, kend ≤ b ≤ 2 ^ 52 ∧ b `mod` pageSize = 0 ∧ bitmap_place st kend (bitmapBytes st) b ∨
    b = 0 ∧ ∀ j b', ¬ room st kend (bitmapBytes st) j b').
Proof.
  intros Hwf Hk Hb. pose proof Hwf as [Hc Hes]. apply ok_loop_end.
  set (n := bitmapBytes st) in *.
  apply (for_range_ok (λ i _, ∀ j b', j < i → ¬ room st kend n j b')); [lia| | |].
  { intros j b' Hj (e & ((? & _) & _) & _). lia. }
  - intros i [] Hi Hno. destruct (aget_Some (mmapEntries st) i) as [e He]; [lia|].
    assert ((∀ b', ¬ room st kend n i b') → ∀ j b', j < i + 1 → ¬ room st kend n j b') as Hnext.
    { intros Hn j b' Hj. destruct (decide (j = i)) as [->|]; [done|]. apply Hno. lia. }
    assert (∀ b', room st kend n i b' → typ e = 1 ∧ entry_base e < entry_base e + entry_len e ∧
      kend < entry_base e + entry_len e ∧ b' = round_up (Z.max kend (entry_base e)) ∧
      b' + n ≤ entry_base e + entry_len e) as Hroom.
    { intros b' (e' & (_ & He' & Ht) & Hr). rewrite He in He'. injection He' as <-. done. }
    rewrite He. simpl. destruct (Z.eqb_spec (typ e) 1) as [Ht|Ht]; simpl.
    2:{ apply Hnext. intros b' [? _]%Hroom. done. }
    assert (region st i e) as Hr by done. pose proof (region_bounds _ _ _ Hwf Hr).
    fold (entry_base e) (entry_len e). rewrite u64_small by lia.
    destruct (_ || _) eqn:E; simpl.
    { apply Hnext. intros b' (_&?&?&_)%Hroom. apply orb_true_iff in E. lia. }
    apply orb_false_iff in E as [E1%Z.leb_gt E2%Z.leb_gt].
    set (s0 := if entry_base e <? kend then kend else entry_base e).
    assert (s0 = Z.max kend (entry_base e)) as Hmax by (unfold s0; destruct (Z.ltb_spec (entry_base e) kend); lia).
    rewrite Hmax in *. rewrite alignUp_page by lia. pose proof (round_up_bounds (Z.max kend (entry_base e))) as Hbd.
    change ((Z.max kend (entry_base e) + 4095) / pageSize * pageSize) with (round_up (Z.max kend (entry_base e))) in *.
    rewrite u64_small by lia. destruct (Z.leb_spec (round_up (Z.max kend (entry_base e)) + n)
      (entry_base e + entry_len e)); simpl.
    + left. split; [lia|]. split; [by apply Z.mod_mul|]. left. exists i. split; [by exists e|done].
    + apply Hnext. intros b' (_&_&_&->&?)%Hroom. lia.
  - intros [] Hno. right. split; [done|]. intros j b' Hr. apply (Hno j b'); [|done].
    destruct Hr as (e & ((? & ?) & _) & _). lia.
Qed.

(** Filling the bitmap with [0xFF] marks every page as used. *)
Definition fill_bitmap (st : mem_state) : option mem_state :=
  for_do 0 (bitmapBytes st)
    (λ i st, Some (set_phys (mwrite (phys st) (bitmapBytePtr i st) 255) st)) st.

Lemma testbit_255 k : 0 ≤ k < 8 → Z.testbit 255 k = true.
Proof. intros. change 255 with (Z.ones 8). apply Z.ones_spec_low. lia. Qed.

Lemma fill_bitmap_spec st :
  bitmap_ok st → totalPages st ≤ 2 ^ 52 → freePages st = 0 →
  ok (fill_bitmap st) (λ st', frees_to st st' (λ _, False)).
Proof.
  intros Hok Ht Hf. pose proof Hok as (?&?&?&?).
  apply (for_do_ok (λ i s, same_config st s ∧ freePages s = 0 ∧ same_outside_bitmap st s ∧
    ∀ off, 0 ≤ off < i → mread (phys s) (bitmapPhys st + off) = 255)).
  - done.
  - split_and!; [done..|lia].
  - intros i s Hi (Hc & Hf' & Ho & Hfill). simpl.
    pose proof Hc as (?&?&?&?&Eb&?&?).
    assert (bitmapBytePtr i s = bitmapPhys st + i) as ->.
    { unfold bitmapBytePtr. rewrite Eb. apply u64_small. lia. }
    split_and!; [done..| |].
    + intros a Ha. simpl. rewrite mread_mwrite_ne; [by apply Ho|]. unfold in_bitmap in Ha. lia.
    + intros off Hoff. simpl. rewrite mread_mwrite. case_decide; [done|]. apply Hfill. lia.
  - intros s (Hc & Hf' & Ho & Hfill). pose proof Hc as (?&?&?&Et&Eb&Ey&?).
    assert (∀ p, p ∈ free_set s ↔ False) as Hempty.
    { intros p. split; [|done]. rewrite elem_of_free_set, bitmapGet_testbit. intros [Hp Hg].
      destruct (bitmapBytePtr_off p s) as [Hptr Hin];
        [by eapply bitmap_ok_config|rewrite Ey; lia|].
      unfold in_bitmap in Hin. rewrite Hptr, Eb, Hfill, testbit_255 in Hg; [done| |lia].
      apply Z.mod_pos_bound. lia. }
    split_and!; try done. split_and!; [by eapply bitmap_ok_config|by rewrite Et|].
    rewrite Hf'. replace (free_set s) with (∅ : gset Z); [done|]. symmetry. apply set_eq. intros p. rewrite Hempty. split; [done|]. by intros ?%not_elem_of_empty.
Qed.

(** The rest of [InitPFA], once the bitmap has its place: fill it, free the
    available regions, take back everything below its end. *)
Definition populate (bitmapEnd : Z) (st : mem_state) : option mem_state :=
  st ← fill_bitmap st;
  st ← for_do 0 (mmapCount st)
         (λ i st,
            e ← aget (mmapEntries st) i;
            if negb (typ e =? 1) then Some st
            else markFreeRange (entry_base e) (u64 (entry_base e + entry_len e)) st) st;
  markUsedRange 0 bitmapEnd st.

Lemma populate_spec bitmapEnd st :
  mmap_wf st → bitmap_ok st → totalPages st ≤ 2 ^ 52 → freePages st = 0 →
  0 ≤ bitmapEnd → bitmapEnd + 4095 < 2 ^ 64 →
  ok (populate bitmapEnd st) (λ st', frees_to st st' (λ p,
    0 ≤ p < totalPages st ∧ available st p ∧ bitmapEnd ≤ p * pageSize)).
Proof.
  intros Hwf Hok Ht Hf He He'. unfold populate. apply ok_bind.
  eapply ok_mono; [by apply fill_bitmap_spec|]. intros st1 H1.
  pose proof (proj1 H1) as (Ees & Ec & _ & Etot & _). rewrite Ec.
  apply ok_bind. pose proof Hwf as [Hc _].
  apply (for_do_ok (λ i s, frees_to st s (λ p, 0 ≤ p < totalPages st ∧
    ∃ j e, region st j e ∧ j < i ∧ entry_base e ≤ p * pageSize ∧
           (p + 1) * pageSize ≤ entry_base e + entry_len e))).
  - lia.
  - eapply frees_to_ext; [|exact H1]. intros p. split; [done|]. intros (_&j&e&(?&_)&?&_). lia.
  - intros i s Hi Hs. pose proof (proj1 Hs) as (Ees' & Ec' & _ & Etot' & _).
    destruct (aget_Some (mmapEntries st) i) as [e Hae]; [lia|].
    rewrite Ees', Hae. simpl. destruct (Z.eqb_spec (typ e) 1) as [Hty|Hty]; simpl.
    + assert (region st i e) as Hr by done. pose proof (region_bounds _ _ _ Hwf Hr).
      rewrite u64_small by lia. eapply ok_mono; [apply markFreeRange_spec; [lia..|exact Hs]|].
      intros st' Hst'. eapply frees_to_ext; [|exact Hst']. intros p. rewrite Etot'. split.
      * intros [(?&j&e'&?&?&?&?)|(?&?&?)]; (split; [done|]); [exists j, e'|exists i, e];
          split_and!; done || lia.
      * intros (?&j&e'&Hr'&Hj&?&?). destruct (decide (j = i)) as [->|].
        -- right. destruct Hr' as (_&?&_). simplify_eq. done.
        -- left. split; [done|]. exists j, e'. split_and!; done || lia.
    + eapply frees_to_ext; [|exact Hs]. intros p. split; intros (?&j&e'&Hr'&Hj&?&?);
        (split; [done|]); exists j, e'; split_and!; try done; try lia.
      destruct (decide (j = i)) as [->|]; [|lia]. destruct Hr' as (_&?&?). simplify_eq.
  - intros s Hs. eapply ok_mono; [by eapply markUsedRange_spec|]. intros st' Hst'.
    eapply frees_to_ext; [|exact Hst']. intros p. split.
    + intros [(?&j&e&?&?&?&?) ?]. split; [done|]. split; [|done]. by exists j, e.
    + intros (?&(j&e&Hr&?&?)&?). split; [|done]. split; [done|]. exists j, e.
      split_and!; try done. by destruct Hr as [[_ ?] _].
Qed.

Section init_proofs.
Variable kernelEnd bootstrapEnd : Z.
Local Abbreviation kend := (kernelEndPhys kernelEnd bootstrapEnd).
Hypothesis kend_range : 0 ≤ kend ≤ 2 ^ 51.

(** The sizes and places [InitPFA] chooses: the pages up to the end of the highest
    available region, a bit for each, and the first page after the bitmap as the start of
    the scan. *)
Definition pfa_layout (st st' : mem_state) : Prop :=
  (∃ m, max_end st m ∧ totalPages st' = (m + 4095) / 4096) ∧
  bitmapBytes st' = (totalPages st' + 7) / 8 ∧
  bitmap_place st kend (bitmapBytes st') (bitmapPhys st') ∧
  scanStart st' * 4096 = bitmapPhys st' + round_up (bitmapBytes st').

(** What [InitPFA] establishes when it succeeds. *)
Definition pfa_initialised (st st' : mem_state) : Prop :=
  pfaReady st' = true ∧ pfa_inv st' ∧ kend ≤ bitmapPhys st' ∧
  mmapEntries st' = mmapEntries st ∧ mmapCount st' = mmapCount st ∧
  same_outside_bitmap st' st ∧ pfa_layout st st' ∧
  ∀ p, p ∈ free_set st' ↔ available st p ∧ scanStart st' ≤ p.

Definition no_memory (st : mem_state) : Prop :=
  ∀ i e, region st i e → entry_base e + entry_len e = 0.

Lemma populate_initialises E st st2 :
  mmap_wf st → mmapEntries st2 = mmapEntries st → mmapCount st2 = mmapCount st →
  phys st2 = phys st → freePages st2 = 0 → 1 ≤ totalPages st2 ≤ 2 ^ 40 →
  1 ≤ bitmapBytes st2 ≤ 2 ^ 38 → totalPages st2 ≤ 8 * bitmapBytes st2 →
  kend ≤ bitmapPhys st2 ≤ 2 ^ 53 →
  (∀ p, available st p → p < totalPages st2) →
  E `mod` pageSize = 0 → bitmapPhys st2 + bitmapBytes st2 ≤ E ≤ 2 ^ 54 →
  pfa_layout st (set_scanStart (E / pageSize) st2) →
  ok (populate E st2)
     (λ s, pfa_initialised st (set_pfaReady true (set_scanStart (E / pageSize) s))).
Proof.
  intros Hwf Hes Hc Hph Hf HT HB HTB Hbp Hav HE HEr Hlay.
  assert (E = E / pageSize * pageSize) as HEq.
  { pose proof (Z.div_mod E pageSize ltac:(done)). lia. }
  assert (bitmap_ok st2) as Hok by (unfold bitmap_ok; lia).
  assert (∀ p, available st2 p ↔ available st p) as Hav2.
  { intros p. unfold available, region. by rewrite Hes, Hc. }
  eapply ok_mono; [apply populate_spec; [unfold mmap_wf; by rewrite Hes, Hc|done|lia..]|].
  intros s (Hcfg & Ho & (Hbk & Htk & Hck) & HF).
  pose proof Hcfg as (E1&E2&_&E3&E4&E5&_).
  assert (∀ p, p ∈ free_set s ↔ available st p ∧ E / pageSize ≤ p) as Hfs.
  { intros p. rewrite HF, Hav2. split; [intros (?&?&?); split; [done|]; unfold pageSize in *; lia|].
    intros [Ha Hp]. pose proof (Hav p Ha). split; [|split; [done|unfold pageSize in *; lia]].
    destruct Ha as (i&e&Hr&?&?). pose proof (region_bounds _ _ _ Hwf Hr). unfold pageSize in *; lia. }
  unfold pfa_initialised. simpl. rewrite E1, E2, E4, Hes, Hc. split_and!; try done; try lia.
  - split; simpl; rewrite ?E3, ?E4, ?E5; try done; try lia.
    + unfold pageSize in *; lia.
    + intros p Hp. apply (proj1 (Hfs p)) in Hp. tauto.
  - intros a Ha. rewrite <-Hph. symmetry. apply Ho.
    unfold in_bitmap in *. simpl in Ha. by rewrite E4, E5 in Ha.
  - unfold pfa_layout in *. simpl in *. by rewrite E3, E4, E5.
Qed.

(** The address [InitPFA] ends up with: the region found, or the fallback. *)
Definition choose_bitmap (b : Z) (st : mem_state) : mem_state :=
  if b =? 0 then set_bitmapPhys (alignUp kend pageSize) (set_bitmapPhys b st)
  else set_bitmapPhys b st.

Lemma choose_bitmap_spec st1 :
  mmap_wf st1 → 0 ≤ bitmapBytes st1 ≤ 2 ^ 51 →
  ok (place_bitmap kend st1) (λ b, ∃ bp,
    choose_bitmap b st1 = set_bitmapPhys bp st1 ∧ kend ≤ bp ≤ 2 ^ 52 ∧ bp `mod` pageSize = 0 ∧
    bitmap_place st1 kend (bitmapBytes st1) bp).
Proof.
  intros Hwf HB. eapply ok_mono; [apply (place_bitmap_spec kend st1); [done|lia..]|].
  intros b Hb. unfold choose_bitmap. destruct (Z.eqb_spec b 0).
  - exists (alignUp kend pageSize). rewrite alignUp_page by lia. pose proof (round_up_bounds kend).
    split; [done|]. split; [lia|]. split; [by apply Z.mod_mul|]. destruct Hb as [(Hr&_&Hp)|[_ Hno]]; [|by right].
    subst b. by replace (kernelEndPhys kernelEnd bootstrapEnd) with 0 in * by lia.
  - exists b. destruct Hb as [(?&?&?)|[? _]]; [|done]. split_and!; done || lia.
Qed.

Lemma InitPFA_spec st :
  mmap_wf st →
  ok (InitPFA kernelEnd bootstrapEnd st) (λ '(b, st'),
    if b then pfa_initialised st st' ∧ ¬ no_memory st
    else pfaReady st' = false ∧ no_memory st ∧ phys st' = phys st).
Proof.
  intros Hwf. unfold InitPFA. set (st0 := set_freePages 0 (set_pfaReady false st)).
  assert (mmap_wf st0) as Hwf0 by done. apply ok_bind.
  eapply ok_mono; [by apply maxAvailableEnd_spec|]. intros m (Hm & Hat & Hmax).
  destruct (Z.eqb_spec m 0) as [->|Hm0].
  { simpl. split; [done|]. split; [|done]. intros i e Hr. specialize (Hmax i e Hr).
    pose proof (region_bounds _ _ _ Hwf Hr). lia. }
  assert (max_end st m) as Hend by (apply Hat; lia).
  assert (¬ no_memory st) as Hsome.
  { destruct Hend as [(i & e & Hr & ->) _]. intros Hno. specialize (Hno i e Hr). lia. }
  assert (u64 (m + (pageSize - 1)) = m + 4095) as -> by (apply u64_small; unfold pageSize; lia).
  set (T := (m + 4095) / pageSize).
  assert (m ≤ T * pageSize ∧ 1 ≤ T ≤ 2 ^ 40) as [HmT HT].
  { pose proof (round_up_bounds m). unfold T, pageSize in *. lia. }
  change (totalPages (set_totalPages T st0)) with T.
  destruct (Z.eqb_spec T 0); [lia|].
  rewrite u64_small by lia. set (B := (T + 7) / 8).
  assert (1 ≤ B ≤ 2 ^ 38 ∧ T ≤ 8 * B) as [HB HTB].
  { unfold B. pose proof (Z.div_mod (T + 7) 8 ltac:(done)).
    pose proof (Z.mod_pos_bound (T + 7) 8 ltac:(done)). lia. }
  set (st1 := set_bitmapBytes B (set_totalPages T st0)).
  apply ok_bind. eapply ok_mono; [apply (choose_bitmap_spec st1); [done|simpl; lia]|].
  intros b Hb. change (bitmapPhys (set_bitmapPhys b st1)) with b. fold (choose_bitmap b st1).
  destruct Hb as (bp & -> & Hbp & Hal & Hplace).
  simpl. rewrite alignUp_page, Z.div_mul by (done || lia).
  set (k := (B + 4095) / pageSize).
  pose proof (round_up_bounds B : B ≤ k * pageSize ≤ B + 4095) as Hn.
  rewrite (u64_small (k * pageSize)), u64_small by lia.
  set (E := bp + k * pageSize). set (st3 := set_bitmapPhys bp st1).
  assert (ok (populate E st3)
    (λ s, pfa_initialised st (set_pfaReady true (set_scanStart (E / pageSize) s)))) as Hp.
  { apply populate_initialises; simpl; try done; try lia.
    - intros p (i & e & Hr & ? & ?). specialize (Hmax i e Hr). unfold pageSize in *. lia.
    - unfold E. by rewrite Z.mod_add.
    - assert (E / pageSize * 4096 = E) as HE.
      { assert (E `mod` pageSize = 0) by (unfold E; by rewrite Z.mod_add).
        pose proof (Z.div_mod E pageSize ltac:(done)). unfold pageSize in *. lia. }
      split; [by exists m|]. split; [done|]. split; [exact Hplace|]. simpl. rewrite HE. done. }
  unfold populate, fill_bitmap in Hp. change (bitmapBytes st3) with B in Hp.
  destruct (for_do 0 B _ st3) as [s1|]; [simpl in *|done].
  unfold entry_base, entry_len in Hp. destruct (for_do 0 (mmapCount s1) _ s1) as [s2|]; [simpl in *|done].
  destruct (markUsedRange 0 E s2); [|done]. simpl in *. by split.
Qed.
End init_proofs.

(** ** The allocator behind the interface of its clients *)
#[export] Instance mem_allocator : PageAllocator mem_state := {
  pa_ready := PFAReady;
  pa_alloc := AllocPage;
  pa_free := FreePage;
  pa_read w a := mread (phys w) a;
  pa_write w a v := set_phys (mwrite (phys w) a v) w;
}.

(** A page address the allocator has handed out, or never had. *)
Definition page_in_use (st : mem_state) (a : Z) : Prop :=
  pfaReady st = true ∧ a `mod` pageSize = 0 ∧
  scanStart st ≤ a / pageSize < totalPages st ∧ a / pageSize ∉ free_set st.

Lemma page_in_use_mul st p :
  pfaReady st = true → scanStart st ≤ p < totalPages st →
  page_in_use st (p * pageSize) ↔ p ∉ free_set st.
Proof.
  intros. unfold page_in_use. rewrite Z.div_mul, Z.mod_mul by done. tauto.
Qed.

Lemma page_in_use_range st a :
  pfa_inv st → page_in_use st a → a `mod` 4096 = 0 ∧ 0 < a ∧ a + 4096 ≤ 2 ^ 64.
Proof.
  intros Hinv (_&Hm&Hr&_). pose proof (inv_scan _ Hinv). pose proof (inv_total _ Hinv).
  pose proof (Z.div_mod a pageSize ltac:(done)). unfold pageSize in *. lia.
Qed.

Lemma page_in_use_above st a b :
  pfa_inv st → page_in_use st a → a ≤ b → ¬ in_bitmap st b.
Proof.
  intros Hinv (_&Hm&Hr&_) Hab. pose proof (inv_above_bitmap _ Hinv).
  pose proof (Z.div_mod a pageSize ltac:(done)). unfold in_bitmap, pageSize in *. lia.
Qed.

Lemma page_in_use_take st p q :
  pfa_inv st → pfaReady st = true → p ∈ free_set st →
  page_in_use (take_page p st) q ↔ q = p * pageSize ∨ page_in_use st q.
Proof.
  intros Hinv Hr Hp. destruct (take_page_spec p st) as ((?&?&Er&Et&?&?&Es)&_&Hfs&_);
    [apply Hinv|done|apply Hinv|].
  pose proof (inv_low _ Hinv _ Hp). pose proof (proj1 (elem_of_free_set _ _) Hp) as [? _].
  unfold page_in_use. rewrite Er, Et, Es, Hfs. split.
  - intros (_&Hm&Hq&Hn). destruct (decide (q / pageSize = p)) as [Heq|].
    + left. pose proof (Z.div_mod q pageSize ltac:(done)). lia.
    + right. split_and!; try done; try lia. set_solver.
  - intros [->|(_&Hm&Hq&Hn)].
    + rewrite Z.div_mul, Z.mod_mul by done. split_and!; try done; try lia. set_solver.
    + split_and!; try done; try lia. set_solver.
Qed.

Lemma page_in_use_give st a q :
  pfa_inv st → page_in_use st a →
  page_in_use (give_page (a / pageSize) st) q ↔ page_in_use st q ∧ q ≠ a.
Proof.
  intros Hinv (Hr&Hm&Hra&Hna). pose proof (inv_scan _ Hinv).
  destruct (give_page_spec (a / pageSize) st) as ((?&?&Er&Et&?&?&Es)&_&Hfs&_);
    [apply Hinv|lia|done|apply Hinv|apply Hinv|].
  pose proof (Z.div_mod a pageSize ltac:(done)).
  unfold page_in_use. rewrite Er, Et, Es, Hfs. split.
  - intros (_&Hmq&Hq&Hn). split; [split_and!; try done; try lia; set_solver|].
    intros ->. set_solver.
  - intros [(_&Hmq&Hq&Hn) Hne]. split_and!; try done; try lia.
    rewrite elem_of_union, elem_of_singleton. intros [He|?]; [|done].
    apply Hne. pose proof (Z.div_mod q pageSize ltac:(done)). rewrite He in *. lia.
Qed.

(** Stores outside the bitmap do not change the allocator. *)
Lemma free_set_store st a v :
  bitmap_ok st → ¬ in_bitmap st a → free_set (set_phys (mwrite (phys st) a v) st) = free_set st.
Proof.
  intros Hok Ha. apply set_eq; intros p. rewrite !elem_of_free_set. simpl.
  destruct (decide (0 ≤ p < totalPages st)); [|tauto]. pose proof Hok as (?&?&?&?).
  rewrite !bitmapGet_testbit. simpl.
  destruct (bitmapBytePtr_off p st) as [Hptr Hin]; [done|lia|].
  replace (bitmapBytePtr (p / 8) (set_phys (mwrite (phys st) a v) st)) with (bitmapBytePtr (p / 8) st) by done.
  rewrite Hptr, mread_mwrite_ne; [done|]. intros E. apply Ha. rewrite <-E. done.
Qed.

Lemma pfa_inv_store st a v :
  pfa_inv st → ¬ in_bitmap st a → pfa_inv (set_phys (mwrite (phys st) a v) st).
Proof.
  intros Hinv Ha. pose proof (free_set_store st a v (inv_bitmap _ Hinv) Ha) as E.
  destruct Hinv as [? ? ? ? ? Hl]. split; simpl; rewrite ?E; done.
Qed.

Lemma least_free_alloc st p :
  pfa_inv st → pfaReady st = true → least_free st p →
  p * pageSize ≠ 0 ∧ ¬ page_in_use st (p * pageSize).
Proof.
  intros Hinv Hr [Hp _]. pose proof (inv_scan _ Hinv). pose proof (inv_low _ Hinv _ Hp).
  pose proof (proj1 (elem_of_free_set _ _) Hp) as [? _]. split; [unfold pageSize; lia|].
  rewrite page_in_use_mul by (done || lia). tauto.
Qed.

#[export] Program Instance mem_allocator_laws : PageAllocatorLaws mem_state := {
  pa_inv := pfa_inv;
  pa_owned := page_in_use;
  pa_private := in_bitmap;
  pa_static st a := a < bitmapPhys st;
}.
Next Obligation. intros w a _ Ha. simpl in Ha. unfold in_bitmap. lia. Qed.
Next Obligation.
  intros w p a Hinv Hp Ha Hr. simpl in Ha. pose proof (inv_bitmap _ Hinv) as (?&?&_).
  destruct Hp as (_&Hm&Hra&_).
  pose proof (inv_above_bitmap _ Hinv). pose proof (Z.div_mod p pageSize ltac:(done)).
  unfold pageSize in *. lia.
Qed.
Next Obligation. intros. by apply (page_in_use_range w). Qed.
Next Obligation. intros w p a Hi Hp Ha. apply (page_in_use_above w p a); [done..|lia]. Qed.
Next Obligation.
  intros w Hinv Hr. simpl. eapply ok_mono; [by apply AllocPage_spec|].
  intros [a w'] [(-> & -> & _)|(p & -> & Hp & ->)]; [by eauto 10|].
  destruct (least_free_alloc w p) as [Hne Hni]; [done..|]. pose proof (proj1 Hp) as Hin.
  destruct (take_page_spec p w) as ((?&?&Er&?&Eb&Ey&?)&Ho&_); [apply Hinv|done|apply Hinv|].
  split_and!; [by apply pfa_inv_take|simpl; unfold PFAReady; by rewrite Er| | |exact Ho|].
  - intros b. unfold in_bitmap. by rewrite Eb, Ey.
  - intros b. by rewrite Eb.
  - right. split_and!; [done..|]. intros q. by apply page_in_use_take.
Qed.
Next Obligation.
  intros w a Hinv Ha. simpl. pose proof Ha as (Hr&Hm&Hra&Hna). pose proof (inv_scan _ Hinv).
  rewrite FreePage_spec by done. rewrite decide_True by done. simpl.
  destruct (give_page_spec (a / pageSize) w) as ((?&?&Er&?&Eb&Ey&?)&Ho&_);
    [apply Hinv|lia|done|apply Hinv|apply Hinv|].
  split_and!; [done|by apply pfa_inv_give|done| | |exact Ho|].
  - intros b. unfold in_bitmap. by rewrite Eb, Ey.
  - done.
  - intros q. by apply page_in_use_give.
Qed.
Next Obligation.
  intros w a v Hinv Ha. simpl. split_and!; [by apply pfa_inv_store|done..| |].
  - intros q. unfold page_in_use. simpl. by rewrite free_set_store by (apply Hinv || done).
  - intros b. apply mread_mwrite.
Qed.

(** ** Runs of the allocator and its clients *)

(** One step: a call of [AllocPage] or [FreePage] (with any argument), or a client's
    store into a page that is in use.  Beside the machine state it keeps the addresses
    that were returned by [AllocPage] and not released since. *)
Inductive pfa_step : mem_state * gset Z → mem_state * gset Z → Prop :=
| step_alloc st st' a out :
    AllocPage st = Some (a, st') → pfa_step (st, out) (st', if decide (a = 0) then out else {[a]} ∪ out)
| step_free st st' a (b : bool) out :
    FreePage a st = (b, st') → pfa_step (st, out) (st', if b then out ∖ {[a]} else out)
| step_store st p a v out :
    page_in_use st p → p ≤ a < p + pageSize →
    pfa_step (st, out) (set_phys (mwrite (phys st) a v) st, out).

Definition pfa_run : mem_state * gset Z → mem_state * gset Z → Prop := rtc pfa_step.

(** What a run keeps: the invariant, the configuration, every byte below [lim], and the
    pages handed out in use. *)
Definition run_inv (lim : Z) (st0 : mem_state) (s : mem_state * gset Z) : Prop :=
  let '(st, out) := s in
  pfa_inv st ∧ same_config st0 st ∧ (∀ a, a < lim → mread (phys st) a = mread (phys st0) a) ∧
  ∀ a, a ∈ out → page_in_use st a.

Lemma same_config_below st st' lim :
  same_config st st' → lim ≤ bitmapPhys st → lim ≤ bitmapPhys st'.
Proof. intros (_&_&_&_&->&_). done. Qed.

Lemma page_in_use_store st a v q :
  bitmap_ok st → ¬ in_bitmap st a →
  page_in_use (set_phys (mwrite (phys st) a v) st) q ↔ page_in_use st q.
Proof. intros Hok Ha. unfold page_in_use. simpl. by rewrite free_set_store. Qed.

Lemma pfa_step_inv lim st0 s s' :
  lim ≤ bitmapPhys st0 → pfaReady st0 = true →
  run_inv lim st0 s → pfa_step s s' → run_inv lim st0 s'.
Proof.
  intros Hlim Hr0 Hs Hstep.
  assert (∀ st, same_config st0 st → pfaReady st = true ∧ lim ≤ bitmapPhys st) as Hcfg.
  { intros st Hc. split; [destruct Hc as (_&_&->&_); done|by eapply same_config_below]. }
  assert (∀ st st' out out', run_inv lim st0 (st, out) → pfa_inv st' → same_config st st' →
    same_outside_bitmap st st' → (∀ a, a ∈ out' → page_in_use st' a) → run_inv lim st0 (st', out')) as Hgo.
  { intros st st' out out' (Hi & Hc & Hm & _) Hi' Hcs Hos Hout. split_and!; [done|by etransitivity| |done].
    intros a Ha. destruct (Hcfg st Hc) as [_ Hl]. rewrite Hos by (unfold in_bitmap; lia). by apply Hm. }
  destruct Hstep as [st st' a out Ha|st st' a b out Hf|st p a v out Hp Ha];
    pose proof Hs as (Hinv & Hc & Hm & Hout); destruct (Hcfg st Hc) as [Hr Hl].
  - pose proof (AllocPage_spec st Hinv Hr) as Hspec. rewrite Ha in Hspec. simpl in Hspec.
    destruct Hspec as [(-> & -> & _)|(p & -> & Hleast & ->)]; [by rewrite decide_True|].
    destruct (least_free_alloc st p) as [Hne _]; [done..|]. destruct Hleast as [Hp _].
    destruct (take_page_spec p st) as (?&?&_); [apply Hinv|done|apply Hinv|].
    eapply (Hgo st); [done|by apply pfa_inv_take|done..|]. rewrite decide_False by done.
    intros q Hq. apply page_in_use_take; [done..|]. set_solver.
  - rewrite FreePage_spec in Hf by done. case_decide as Hd; simplify_eq; [|done].
    destruct Hd as (Hm0&Hr'&Hn). pose proof (inv_scan _ Hinv).
    destruct (give_page_spec (a / pageSize) st) as (?&?&_); [apply Hinv|lia|done|apply Hinv..|].
    eapply (Hgo st); [done|by apply pfa_inv_give|done..|].
    intros q Hq. apply page_in_use_give; [done|done|]. set_solver.
  - assert (¬ in_bitmap st a) as Hna by (apply (page_in_use_above st p); [done..|lia]).
    split_and!; [by apply pfa_inv_store|done| |].
    + intros b Hb. simpl. rewrite mread_mwrite_ne; [by apply Hm|].
      pose proof (page_in_use_above st p p Hinv Hp ltac:(lia)) as Hnp.
      destruct Hp as (_&Hmod&Hrng&_). pose proof (inv_above_bitmap _ Hinv).
      pose proof (Z.div_mod p pageSize ltac:(done)). pose proof (inv_bitmap _ Hinv) as (?&?&_).
      unfold in_bitmap, pageSize in *. lia.
    + intros q Hq. apply page_in_use_store; [apply Hinv|done|]. by apply Hout.
Qed.

(** A page in use is one page of the managed memory, above the bitmap. *)
Definition own_page (st : mem_state) (a : Z) : Prop :=
  a `mod` 4096 = 0 ∧ bitmapPhys st + bitmapBytes st ≤ a ∧ a + 4096 ≤ totalPages st * 4096.

Lemma page_in_use_own st a : pfa_inv st → page_in_use st a → own_page st a.
Proof.
  intros Hinv (_&Hm&Hr&_). pose proof (inv_above_bitmap _ Hinv).
  pose proof (Z.div_mod a pageSize ltac:(done)). unfold own_page, pageSize in *. lia.
Qed.

(** ** A small machine, for the witnesses

    640 KiB of low memory, 256 KiB at 1 MiB with the kernel in it, a reserved
    hole of 64 KiB and 64 KiB above the hole. *)
Definition no_entry : mmapEntry := MMapEntryRec 0 0 0 0 0.
Definition demo_entries : list mmapEntry :=
  [MMapEntryRec 0 0 0x9F000 0 1; MMapEntryRec 0x100000 0 0x40000 0 1;
   MMapEntryRec 0x140000 0 0x10000 0 2; MMapEntryRec 0x150000 0 0x10000 0 1]
  ++ replicate 60 no_entry.
Definition demo_start : mem_state := MemState demo_entries 4 false 0 0 0 0 0 ∅.
Definition demo_kernelEnd : Z := 0x110000.
Definition demo_bootstrapEnd : Z := 0x105000.
Definition demo_mem : mem_state :=
  match InitPFA demo_kernelEnd demo_bootstrapEnd demo_start with
  | Some (_, st) => st
  | None => demo_start
  end.

Lemma demo_wf : mmap_wf demo_start.
Proof.
  split; [vm_compute; split; discriminate|]. simpl. intros i e Hi He.
  assert (i = 0 ∨ i = 1 ∨ i = 2 ∨ i = 3) as [->|[->|[->| ->]]] by lia;
    vm_compute in He; injection He as <-; vm_compute; intuition discriminate.
Qed.

Lemma demo_init : InitPFA demo_kernelEnd demo_bootstrapEnd demo_start = Some (true, demo_mem).
Proof. vm_compute. reflexivity. Qed.

Lemma demo_initialised :
  pfa_initialised demo_kernelEnd demo_bootstrapEnd demo_start demo_mem.
Proof.
  pose proof (InitPFA_spec demo_kernelEnd demo_bootstrapEnd ltac:(vm_compute; intuition discriminate)
    demo_start demo_wf) as H.
  rewrite demo_init in H. apply H.
Qed.

(** ** Properties *)

(** C1: booting the allocator never fails otherwise than by finding no available memory,
    and reports exactly that.  When it succeeds the allocator is ready and consistent and
    its choices are these: it manages the pages up to the end of the highest available
    region; its bitmap has a bit for each of them and lies in the first available region
    with room above the kernel, or right behind the kernel when none has; no byte outside
    the bitmap is written; and the free pages are exactly the pages entirely inside an
    available region from the first page behind the bitmap on.  When it fails no memory is
    written and [AllocPage] returns 0. *)
Theorem InitPFA_correct (kernelEnd bootstrapEnd : Z) (st : mem_state)
    (Hkend : 0 ≤ kernelEndPhys kernelEnd bootstrapEnd ≤ 2 ^ 51) (Hwf : mmap_wf st) :
  ∃ b st', InitPFA kernelEnd bootstrapEnd st = Some (b, st') ∧ PFAReady st' = b ∧
    (b = true ↔ ∃ i e, region st i e ∧ 0 < entry_base e + entry_len e) ∧
    if b then
      pfa_inv st' ∧ pfa_layout kernelEnd bootstrapEnd st st' ∧
      kernelEndPhys kernelEnd bootstrapEnd ≤ bitmapPhys st' ∧
      (∀ a, ¬ in_bitmap st' a → mread (phys st') a = mread (phys st) a) ∧
      (∀ p, p ∈ free_set st' ↔
        available st p ∧ bitmapPhys st' + round_up (bitmapBytes st') ≤ p * pageSize) ∧
      FreePages st' = Z.of_nat (size (free_set st'))
    else phys st' = phys st ∧ AllocPage st' = Some (0, st').
Proof.
  destruct (ok_elim _ _ (InitPFA_spec kernelEnd bootstrapEnd Hkend st Hwf)) as ([b st'] & E & H).
  assert ((∃ i e, region st i e ∧ 0 < entry_base e + entry_len e) ↔ ¬ no_memory st) as Hmem.
  { split; [intros (i & e & Hr & Hpos) Hno; specialize (Hno i e Hr); lia|]. intros Hno.
    destruct (ok_elim _ _ (maxAvailableEnd_spec st Hwf)) as (m & _ & Hm & Hat & Hmax).
    destruct (decide (0 < m)) as [Hp|Hp].
    - destruct (Hat Hp) as [(i & e & Hr & ->) _]. by exists i, e.
    - destruct Hno. intros i e Hr. specialize (Hmax i e Hr). pose proof (region_bounds _ _ _ Hwf Hr). lia. }
  exists b, st'. split; [done|]. rewrite Hmem. destruct b.
  - destruct H as [(Hr&Hi&Hk&_&_&Ho&Hlay&Hfree) Hsome]. pose proof Hlay as (_&_&_&Hscan).
    split; [done|]. split; [done|]. split; [done|]. split; [done|]. split; [done|].
    split; [by intros a Ha; symmetry; apply Ho|]. split; [|apply Hi].
    intros p. rewrite Hfree, <-Hscan. unfold pageSize. split; intros [? ?]; (split; [done|lia]).
  - destruct H as (Hr & Hno & Hp). split; [done|]. split; [by split|]. split; [done|].
    unfold AllocPage. unfold PFAReady in Hr. by rewrite Hr.
Qed.

Lemma InitPFA_correct_witness :
  ∃ b st', InitPFA demo_kernelEnd demo_bootstrapEnd demo_start = Some (b, st') ∧ PFAReady st' = b ∧
    (b = true ↔ ∃ i e, region demo_start i e ∧ 0 < entry_base e + entry_len e) ∧
    if b then
      pfa_inv st' ∧ pfa_layout demo_kernelEnd demo_bootstrapEnd demo_start st' ∧
      kernelEndPhys demo_kernelEnd demo_bootstrapEnd ≤ bitmapPhys st' ∧
      (∀ a, ¬ in_bitmap st' a → mread (phys st') a = mread (phys demo_start) a) ∧
      (∀ p, p ∈ free_set st' ↔
        available demo_start p ∧ bitmapPhys st' + round_up (bitmapBytes st') ≤ p * pageSize) ∧
      FreePages st' = Z.of_nat (size (free_set st'))
    else phys st' = phys demo_start ∧ AllocPage st' = Some (0, st').
Proof. apply InitPFA_correct; [vm_compute; intuition discriminate|apply demo_wf]. Defined.

(** On this machine: the bitmap right behind the kernel, 63 free pages. *)
Example demo_boot :
  (pfaReady demo_mem, totalPages demo_mem, bitmapPhys demo_mem, bitmapBytes demo_mem,
   scanStart demo_mem, freePages demo_mem) = (true, 0x160, 0x110000, 44, 0x111, 63).
Proof. vm_compute. reflexivity. Qed.

(** C2: [AllocPage] refines "remove the least element of the free set": it returns
    0 and changes nothing exactly when no page is free; otherwise it returns the
    address of the lowest free page, above the allocator's bitmap, takes that page
    and no other out of the free set, keeps the invariant and the count, and writes
    nothing outside the bitmap. *)
Theorem AllocPage_refines (st : mem_state) (Hinv : pfa_inv st) (Hready : PFAReady st = true) :
  ∃ a st', AllocPage st = Some (a, st') ∧ pfa_inv st' ∧
    ((free_set st = ∅ ∧ a = 0 ∧ st' = st) ∨
     (∃ p, a = p * pageSize ∧ a ≠ 0 ∧ bitmapPhys st + bitmapBytes st ≤ a ∧
        p ∈ free_set st ∧ (∀ q, q ∈ free_set st → p ≤ q) ∧
        free_set st' = free_set st ∖ {[p]} ∧ FreePages st' = FreePages st - 1 ∧
        (∀ b, ¬ in_bitmap st b → mread (phys st') b = mread (phys st) b))).
Proof.
  destruct (ok_elim _ _ (AllocPage_spec st Hinv Hready)) as ([a st'] & E & H).
  exists a, st'. split; [done|]. destruct H as [(-> & -> & ?)|(p & -> & Hl & ->)]; [by auto|].
  destruct (least_free_alloc st p) as [Hne _]; [done..|]. destruct Hl as [Hp Hmin].
  destruct (take_page_spec p st) as (_ & Ho & Hfs & Hn); [apply Hinv|done|apply Hinv|].
  split; [by apply pfa_inv_take|]. right. exists p.
  pose proof (inv_low _ Hinv p Hp). pose proof (inv_above_bitmap _ Hinv).
  split_and!; try done; [unfold pageSize in *; lia|].
  unfold FreePages. rewrite Hn, Hfs, (inv_count _ Hinv), size_difference, size_singleton by set_solver.
  enough (size (free_set st) ≠ 0%nat) by lia. intros Hz%size_empty_inv. set_solver.
Qed.

Lemma AllocPage_refines_witness :
  ∃ a st', AllocPage demo_mem = Some (a, st') ∧ pfa_inv st' ∧
    ((free_set demo_mem = ∅ ∧ a = 0 ∧ st' = demo_mem) ∨
     (∃ p, a = p * pageSize ∧ a ≠ 0 ∧ bitmapPhys demo_mem + bitmapBytes demo_mem ≤ a ∧
        p ∈ free_set demo_mem ∧ (∀ q, q ∈ free_set demo_mem → p ≤ q) ∧
        free_set st' = free_set demo_mem ∖ {[p]} ∧ FreePages st' = FreePages demo_mem - 1 ∧
        (∀ b, ¬ in_bitmap demo_mem b → mread (phys st') b = mread (phys demo_mem) b))).
Proof. apply AllocPage_refines; apply demo_initialised. Defined.

(** C12: [FreePage] gives back exactly the pages that are in use: it returns true iff
    the address is the base of a page inside the managed range whose bit is set, and
    then only that page joins the free set and a second release of it is refused; in
    every other case nothing changes. *)
Theorem FreePage_correct (st : mem_state) (addr : Z)
    (Hinv : pfa_inv st) (Hready : PFAReady st = true) :
  let '(b, st') := FreePage addr st in
  (b = true ↔ page_in_use st addr) ∧ pfa_inv st' ∧ (b = false → st' = st) ∧
  (b = true → free_set st' = {[addr / pageSize]} ∪ free_set st ∧
              FreePages st' = FreePages st + 1 ∧ FreePage addr st' = (false, st')).
Proof.
  rewrite FreePage_spec by done. case_decide as Hd.
  2:{ split_and!; try done. split; [done|]. intros (_&Hu). by apply Hd in Hu. }
  destruct Hd as (Hm & Hr & Hn). pose proof (inv_scan _ Hinv).
  destruct (give_page_spec (addr / pageSize) st) as (Hc & _ & Hfs & Hcnt);
    [apply Hinv|lia|done|apply Hinv..|].
  assert (pfa_inv (give_page (addr / pageSize) st)) as Hinv' by by apply pfa_inv_give.
  split_and!; [done|done|done|]. intros _. split_and!; [done| |].
  - unfold FreePages. rewrite Hcnt, Hfs, (inv_count _ Hinv), size_union, size_singleton by set_solver. lia.
  - rewrite FreePage_spec by done. rewrite decide_False; [done|]. intros (_&_&Hx). apply Hx.
    rewrite Hfs. set_solver.
Qed.

Lemma FreePage_correct_witness :
  let '(b, st') := FreePage 0x140000 demo_mem in
  (b = true ↔ page_in_use demo_mem 0x140000) ∧ pfa_inv st' ∧ (b = false → st' = demo_mem) ∧
  (b = true → free_set st' = {[0x140000 / pageSize]} ∪ free_set demo_mem ∧
              FreePages st' = FreePages demo_mem + 1 ∧ FreePage 0x140000 st' = (false, st')).
Proof. apply FreePage_correct; apply demo_initialised. Defined.

(** Releasing the page [AllocPage] has just returned is accepted and restores
    the set of free pages and their count. *)
Theorem alloc_free_roundtrip (st st' : mem_state) (a : Z)
    (Hinv : pfa_inv st) (Hready : PFAReady st = true)
    (Halloc : AllocPage st = Some (a, st')) (Hsome : a ≠ 0) :
  ∃ st'', FreePage a st' = (true, st'') ∧ pfa_inv st'' ∧
    free_set st'' = free_set st ∧ FreePages st'' = FreePages st.
Proof.
  pose proof (AllocPage_spec st Hinv Hready) as H. rewrite Halloc in H. simpl in H.
  destruct H as [(-> & _)|(p & -> & [Hp Hmin] & ->)]; [done|].
  destruct (take_page_spec p st) as (Hc & _ & Hfs & Hn); [apply Hinv|done|apply Hinv|].
  pose proof (pfa_inv_take p st Hinv Hp) as Hinv1. pose proof Hc as (_&_&Er&Et&_&_&Es).
  pose proof (inv_low _ Hinv p Hp). pose proof (inv_scan _ Hinv).
  pose proof (proj1 (elem_of_free_set _ _) Hp) as [? _].
  rewrite FreePage_spec by (done || by rewrite Er). rewrite Z.div_mul, Z.mod_mul by done.
  assert (p ∉ free_set (take_page p st)) as Hnot by (rewrite Hfs; set_solver).
  rewrite decide_True by (rewrite Es, Et; split_and!; done || lia).
  destruct (give_page_spec p (take_page p st)) as (_ & _ & Hfs' & Hn');
    [apply Hinv1|lia|done|apply Hinv1..|].
  eexists. split; [done|]. split; [apply pfa_inv_give; done || (rewrite Es, Et; lia)|].
  assert (free_set (give_page p (take_page p st)) = free_set st) as E.
  { rewrite Hfs', Hfs. apply set_eq; intros q. destruct (decide (q = p)); set_solver. }
  split; [done|]. unfold FreePages. by rewrite Hn', E, (inv_count _ Hinv).
Qed.

Lemma alloc_free_roundtrip_witness :
  ∃ a st', AllocPage demo_mem = Some (a, st') ∧ a ≠ 0 ∧
  ∃ st'', FreePage a st' = (true, st'') ∧ pfa_inv st'' ∧
    free_set st'' = free_set demo_mem ∧ FreePages st'' = FreePages demo_mem.
Proof.
  exists 0x111000. eexists. split; [vm_compute; reflexivity|]. split; [discriminate|].
  eapply (alloc_free_roundtrip demo_mem);
    [apply demo_initialised|apply demo_initialised|vm_compute; reflexivity|discriminate].
Defined.

(** C13: whatever sequence of allocations, releases (of any address) and stores into
    pages in use follows the boot, the allocator stays consistent with its configuration
    unchanged, and no byte below the end of the kernel is ever modified.  Every page that
    was returned and not released lies above the kernel and the bitmap, inside the managed
    memory, and is still marked; the next allocation returns 0 or such a page that
    is not among them, so that no page is ever owned twice. *)
Theorem pfa_run_safe (kernelEnd bootstrapEnd : Z) (st0 st1 st : mem_state) (out : gset Z)
    (Hkend : 0 ≤ kernelEndPhys kernelEnd bootstrapEnd ≤ 2 ^ 51)
    (Hwf : mmap_wf st0)
    (Hboot : InitPFA kernelEnd bootstrapEnd st0 = Some (true, st1))
    (Hrun : pfa_run (st1, ∅) (st, out)) :
  pfa_inv st ∧ same_config st1 st ∧ kernelEndPhys kernelEnd bootstrapEnd ≤ bitmapPhys st ∧
  (∀ a, a < kernelEndPhys kernelEnd bootstrapEnd → mread (phys st) a = mread (phys st0) a) ∧
  (∀ a, a ∈ out → own_page st a ∧ page_in_use st a) ∧
  ∃ a st', AllocPage st = Some (a, st') ∧ (a = 0 ∨ ((a ∉ out) ∧ own_page st a ∧ page_in_use st' a)).
Proof.
  pose proof (InitPFA_spec kernelEnd bootstrapEnd Hkend st0 Hwf) as H. rewrite Hboot in H.
  destruct H as [(Hr & Hinv & Hk & _ & _ & Ho & _) _].
  assert (run_inv (kernelEndPhys kernelEnd bootstrapEnd) st1 (st, out)) as (Hi&Hc&Hm&Hout).
  { revert Hrun. apply (rtc_ind_r (λ s, run_inv _ st1 s)).
    - split_and!; [done..|]. set_solver.
    - intros s s' _ Hs IH. by eapply pfa_step_inv. }
  split; [done|]. split; [done|]. split; [by eapply same_config_below|].
  split; [intros a Ha; rewrite Hm by done; symmetry; apply Ho; unfold in_bitmap; lia|].
  split; [intros a Ha; specialize (Hout a Ha); by split; [apply page_in_use_own|]|].
  assert (pfaReady st = true) as Hr' by (destruct Hc as (_&_&->&_); done).
  destruct (ok_elim _ _ (AllocPage_spec st Hi Hr')) as ([a st'] & E & Ha). exists a, st'. split; [done|].
  destruct Ha as [(-> & _)|(p & -> & Hl & ->)]; [by left|right].
  destruct (least_free_alloc st p) as [_ Hnot]; [done..|]. pose proof (proj1 Hl) as Hp.
  assert (page_in_use (take_page p st) (p * pageSize)) as Hnew by (apply page_in_use_take; [done..|by left]).
  split; [intros Hin; by apply Hnot, Hout|]. split; [|done].
  destruct (take_page_spec p st) as ((_&_&_&Et&Eb&Ey&_)&_); [apply Hi|done|apply Hi|].
  pose proof (page_in_use_own _ _ (pfa_inv_take p st Hi Hp) Hnew) as Hown.
  unfold own_page in *. by rewrite Et, Eb, Ey in Hown.
Qed.

Definition demo_after_alloc : mem_state :=
  match AllocPage demo_mem with Some (_, st) => st | None => demo_mem end.
Definition demo_stored : mem_state :=
  set_phys (mwrite (phys demo_after_alloc) 0x111003 7) demo_after_alloc.

Lemma pfa_run_safe_witness :
  pfa_inv demo_stored ∧ same_config demo_mem demo_stored ∧
  kernelEndPhys demo_kernelEnd demo_bootstrapEnd ≤ bitmapPhys demo_stored ∧
  (∀ a, a < kernelEndPhys demo_kernelEnd demo_bootstrapEnd →
     mread (phys demo_stored) a = mread (phys demo_start) a) ∧
  (∀ a, a ∈ ({[0x111000]} ∪ ∅ : gset Z) → own_page demo_stored a ∧ page_in_use demo_stored a) ∧
  ∃ a st', AllocPage demo_stored = Some (a, st') ∧
    (a = 0 ∨ ((a ∉ ({[0x111000]} ∪ ∅ : gset Z)) ∧ own_page demo_stored a ∧ page_in_use st' a)).
Proof.
  apply (pfa_run_safe demo_kernelEnd demo_bootstrapEnd demo_start demo_mem demo_stored ({[0x111000]} ∪ ∅));
    [vm_compute; intuition discriminate|apply demo_wf|apply demo_init|].
  eapply rtc_l; [|apply rtc_once].
  - exact (step_alloc demo_mem demo_after_alloc 0x111000 ∅ ltac:(vm_compute; reflexivity)).
  - apply (step_store demo_after_alloc 0x111000 0x111003 7); [|vm_compute; intuition discriminate].
    split_and!; [vm_compute; reflexivity|vm_compute; reflexivity|vm_compute; discriminate| |];
      [vm_compute; reflexivity|]. rewrite elem_of_free_set. vm_compute. intuition discriminate.
Defined.

(** [FreePage] does not know which pages [AllocPage] returned: a page above the
    bitmap that no available region contains (a reserved hole) is released on
    request, although it was never allocated, and becomes allocatable. *)
Theorem FreePage_accepts_reserved :
  ∃ p st', ¬ available demo_start p ∧ FreePage (p * pageSize) demo_mem = (true, st') ∧
           p ∈ free_set st'.
Proof.
  exists 0x140. eexists. split; [|split; [vm_compute; reflexivity|]].
  - intros (i & e & (Hi & He & Ht) & H1 & H2).
    assert (i = 0 ∨ i = 1 ∨ i = 2 ∨ i = 3) as [->|[->|[->| ->]]] by (simpl in Hi; lia);
      vm_compute in He; injection He as <-; revert Ht H1 H2; vm_compute; intuition discriminate.
  - apply elem_of_free_set. vm_compute. intuition discriminate.
Qed.
