(* ===== verification/Multiboot.v ===== *)
(** * Package [mem]: what [InitMultiboot] makes of the boot information

    Two facts on the parser of [src/mem/multiboot.go].  On any memory contents whatever it
    returns and stays inside its table of 64 entries ([InitMultiboot_total]).  On a
    Multiboot2 information structure, described tag by tag ([tags_at]), it records exactly
    the entries of the memory map tags ([InitMultiboot_parses]). *)
From S2P Require Import Prelude Mem.
Local Open Scope Z_scope.

(** ** The structure in memory *)
(** An entry of a memory map tag: base, length and type. *)
Definition raw_entry : Type := Z * Z * Z.

Inductive mb_tag :=
  | MbMmap (entrySize : Z) (es : list raw_entry)
  | MbOther (type size : Z).

Definition tag_size (t : mb_tag) : Z :=
  match t with MbMmap s es => 16 + s * len es | MbOther _ size => size end.
Definition tag_type (t : mb_tag) : Z := match t with MbMmap _ _ => 6 | MbOther type _ => type end.
Definition tag_entries (t : mb_tag) : list raw_entry := match t with MbMmap _ es => es | MbOther _ _ => [] end.

Definition tag_wf (t : mb_tag) : Prop :=
  match t with
  | MbMmap s es => 24 ≤ s < 2 ^ 32
  | MbOther type size => type ≠ 0 ∧ type ≠ 6 ∧ 8 ≤ size
  end.

(** The entries lie one after the other, [s] bytes apart. *)
Fixpoint entries_at (m : memory) (s p : Z) (es : list raw_entry) : Prop :=
  match es with
  | [] => True
  | (b, l, ty) :: es =>
      readU64 m p = b ∧ readU64 m (p + 8) = l ∧ readU32 m (p + 16) = ty ∧ entries_at m s (p + s) es
  end.

Definition tag_at (m : memory) (p : Z) (t : mb_tag) : Prop :=
  readU32 m p = tag_type t ∧ readU32 m (p + 4) = tag_size t ∧
  match t with MbMmap s es => readU32 m (p + 8) = s ∧ entries_at m s (p + 16) es | MbOther _ _ => True end.

(** The start of the next tag. *)
Definition next_tag (p : Z) : Z := (p + 7) / 8 * 8.

(** The tags from [p] up to the end tag, all before [end_]. *)
Fixpoint tags_at (m : memory) (end_ p : Z) (ts : list mb_tag) : Prop :=
  match ts with
  | [] => p + 8 ≤ end_ ∧ readU32 m p = 0
  | t :: ts => tag_wf t ∧ tag_at m p t ∧ p + tag_size t ≤ end_ ∧ tags_at m end_ (next_tag (p + tag_size t)) ts
  end.

Definition stored (e : raw_entry) : mmapEntry :=
  let '(b, l, ty) := e in MMapEntryRec (u32 b) (u32 (Z.shiftr b 32)) (u32 l) (u32 (Z.shiftr l 32)) ty.

(** The entries the kernel knows of. *)
Definition recorded (st : mem_state) : list mmapEntry := take (Z.to_nat (mmapCount st)) (mmapEntries st).

(** The table as declared, and nothing else changed. *)
Definition table_from (st st' : mem_state) : Prop :=
  len (mmapEntries st') = maxMMapEntries ∧ 0 ≤ mmapCount st' ≤ maxMMapEntries ∧
  st' = set_mmap (mmapEntries st') (mmapCount st') st.

Lemma table_from_trans st1 st2 st3 : table_from st1 st2 → table_from st2 st3 → table_from st1 st3.
Proof.
  intros (_&_&E1) (?&?&E2). split_and!; [done|lia..|]. rewrite E2, E1. done.
Qed.

Lemma table_from_refl st st' : table_from st st' → table_from st' st'.
Proof. intros (?&?&_). split_and!; [done|lia..|]. by destruct st'. Qed.

Lemma alignUp8_next p : 0 ≤ p → p + 7 < 2 ^ 64 → alignUp8 p = next_tag p.
Proof.
  intros H0 H1. unfold alignUp8, next_tag. rewrite u64_small by lia.
  change 7 with (Z.ones 3) at 2. rewrite Z.ldiff_ones_r, Z.shiftr_div_pow2, Z.shiftl_mul_pow2 by lia. done.
Qed.

(** ** One entry *)
Definition entry_step (entrySize : Z) (s : Z * mem_state) : option (Z * mem_state + mem_state) :=
  let '(ep, st) := s in
  let base := readU64 (phys st) ep in
  let length := readU64 (phys st) (ep + 8) in
  let ty := readU32 (phys st) (ep + 16) in
  es ← aset (mmapEntries st) (mmapCount st)
         (MMapEntryRec (u32 base) (u32 (Z.shiftr base 32)) (u32 length) (u32 (Z.shiftr length 32)) ty);
  Some (inl (u64 (ep + entrySize), set_mmap es (mmapCount st + 1) st)).

Lemma entry_step_ok s ep st b l ty :
  len (mmapEntries st) = maxMMapEntries → 0 ≤ mmapCount st < maxMMapEntries →
  readU64 (phys st) ep = b → readU64 (phys st) (ep + 8) = l → readU32 (phys st) (ep + 16) = ty →
  ∃ st', entry_step s (ep, st) = Some (inl (u64 (ep + s), st')) ∧ table_from st st' ∧
    mmapCount st' = mmapCount st + 1 ∧ recorded st' = recorded st ++ [stored (b, l, ty)].
Proof.
  intros Hl Hc <- <- <-. unfold entry_step. rewrite aset_Some by lia. cbn [mbind option_bind].
  eexists. split; [done|]. split; [|split; [done|]].
  - unfold table_from. cbn [mmapEntries mmapCount set_mmap]. split; [by rewrite len_insert|]. split; [lia|done].
  - unfold recorded. cbn [mmapCount mmapEntries set_mmap].
    rewrite (take_S_aget _ (mmapCount st) (stored (readU64 (phys st) ep, readU64 (phys st) (ep + 8), readU32 (phys st) (ep + 16)))).
    + by rewrite take_insert_ge by lia.
    + lia.
    + rewrite aget_insert by lia. by rewrite decide_True by lia.
Qed.

Lemma recorded_len st : table_from st st → len (recorded st) = mmapCount st.
Proof. intros (?&?&_). unfold recorded. apply len_take. lia. Qed.

Lemma mmap_entries_loop_eq s p end_ st :
  mmap_entries_loop s p end_ st =
    loop_end (while 64 (λ '(ep, st), (u64 (ep + s) <=? end_) && (mmapCount st <? maxMMapEntries)) (entry_step s) (p, st))
      (λ '(_, st), Some st).
Proof. done. Qed.

(** Whatever is in memory, the loop stays in the table. *)
Lemma mmap_entries_loop_total s p end_ st :
  table_from st st → ok (mmap_entries_loop s p end_ st) (table_from st).
Proof.
  intros Ht. rewrite mmap_entries_loop_eq. apply ok_loop_end.
  apply (while_ok (λ '(_, st'), table_from st st') (λ '(_, st'), maxMMapEntries - mmapCount st')).
  - done.
  - destruct Ht as (_&?&_). unfold maxMMapEntries in *. lia.
  - intros [ep st'] _ [_ Hc%Z.ltb_lt]%andb_true_iff. lia.
  - intros [ep st'] Hst' [_ Hc%Z.ltb_lt]%andb_true_iff. pose proof Hst' as (?&?&_).
    destruct (entry_step_ok s ep st' _ _ _ ltac:(done) ltac:(lia) eq_refl eq_refl eq_refl) as (st2&->&Ht2&Hn&_).
    cbn [ok]. split; [by eapply table_from_trans|lia].
  - by intros [ep st'] Hst' _.
Qed.

(** On entries that are there, it records them until the table is full. *)
Lemma entries_loop_parses s : 24 ≤ s < 2 ^ 32 → ∀ es fuel ep end_ st,
  maxMMapEntries - mmapCount st ≤ Z.of_nat fuel → table_from st st →
  entries_at (phys st) s ep es → 0 ≤ ep → end_ = ep + s * len es → end_ + 2 ^ 32 < 2 ^ 64 →
  ∃ ep' st', while fuel (λ '(ep, st), (u64 (ep + s) <=? end_) && (mmapCount st <? maxMMapEntries)) (entry_step s) (ep, st) =
      Some (inl (ep', st')) ∧
    table_from st st' ∧ recorded st' = take (Z.to_nat maxMMapEntries) (recorded st ++ (stored <$> es)).
Proof.
  intros Hs. induction es as [|[[b l] ty] es IH]; intros fuel ep end_ st Hf Ht Hes Hep Hend Hw.
  - exists ep, st. rewrite len_nil in Hend. split_and!; [|done|].
    + destruct fuel; cbn [while]; rewrite u64_small by lia; by replace (ep + s <=? end_) with false by lia.
    + pose proof (recorded_len st Ht) as Hl. destruct Ht as (_&?&_).
      rewrite app_nil_r, take_ge; [done|]. rewrite len_length in Hl. lia.
  - destruct Hes as (Hb&Hl&Hty&Hes). rewrite len_cons in Hend. pose proof (len_nonneg es).
    pose proof (recorded_len st Ht) as Hlr. pose proof Ht as (?&?&_).
    destruct (decide (mmapCount st = maxMMapEntries)) as [Hfull|].
    { exists ep, st. split_and!; [|done|].
      - destruct fuel; cbn [while]; rewrite Hfull, Z.ltb_irrefl, andb_false_r; done.
      - rewrite take_app_le, take_ge; [done|..]; rewrite len_length in Hlr; lia. }
    destruct fuel as [|fuel]; [lia|]. cbn [while]. rewrite u64_small by nia.
    replace (ep + s <=? end_) with true by nia. replace (mmapCount st <? maxMMapEntries) with true by lia. cbn [andb].
    destruct (entry_step_ok s ep st b l ty ltac:(done) ltac:(lia) Hb Hl Hty) as (st1&->&Ht1&Hn&Hr1).
    rewrite u64_small by nia. pose proof Ht1 as (?&?&E1).
    destruct (IH fuel (ep + s) end_ st1) as (ep'&st'&->&Ht'&Hr');
      [lia|by eapply table_from_refl| |lia|nia|done|].
    { by rewrite E1. }
    exists ep', st'. split_and!; [done|by eapply table_from_trans|].
    rewrite Hr', Hr1, <-app_assoc. done.
Qed.

(** ** The tags *)
Lemma next_tag_range p : p ≤ next_tag p ≤ p + 7.
Proof. unfold next_tag. pose proof (Z.div_mod (p + 7) 8 ltac:(lia)). pose proof (Z.mod_pos_bound (p + 7) 8 ltac:(lia)). lia. Qed.

Lemma readU32_range m a : mem_bytes m → in_u32 (readU32 m a).
Proof. intros Hm. pose proof (readLE_range m 4 a Hm). unfold readU32. lia. Qed.

(** The tag at [p], whatever it is. *)
Lemma tag_step_total end_ p found st :
  mem_bytes (phys st) → table_from st st → 0 ≤ p → p + 8 ≤ end_ → end_ < 2 ^ 64 - 2 ^ 33 →
  ok (tag_step end_ (p, found, st)) (λ o,
    match o with
    | inl (p', _, st') => p + 8 ≤ p' ≤ end_ + 7 ∧ table_from st st'
    | inr (_, st') => table_from st st'
    end).
Proof.
  intros Hm Ht Hp Hpe He. unfold tag_step. cbv zeta. pose proof (readU32_range (phys st) (p + 4) Hm) as Hsz.
  set (size := readU32 (phys st) (p + 4)) in *.
  destruct (_ =? multiboot2TagTypeEnd); [done|]. rewrite (u64_small (p + size)) by lia.
  destruct ((size <? 8) || (end_ <? p + size)) eqn:Hbreak; [done|].
  apply ok_bind, (ok_mono _ (λ r, table_from st r.2)).
  { repeat case_match; try done. apply ok_bind. eapply ok_mono; [by apply mmap_entries_loop_total|]. done. }
  intros [found' st'] Ht'. cbn [ok fst snd] in *. rewrite alignUp8_next by lia.
  pose proof (next_tag_range (p + size)). split; [lia|done].
Qed.

(** A tag that is there. *)
Lemma tag_step_parses end_ p t found st :
  table_from st st → tag_wf t → tag_at (phys st) p t → 0 ≤ p → p + tag_size t ≤ end_ → end_ < 2 ^ 64 - 2 ^ 33 →
  ∃ found' st', tag_step end_ (p, found, st) = Some (inl (next_tag (p + tag_size t), found', st')) ∧
    table_from st st' ∧ recorded st' = take (Z.to_nat maxMMapEntries) (recorded st ++ (stored <$> tag_entries t)) ∧
    ((found = true ↔ 0 < mmapCount st) → (found' = true ↔ 0 < mmapCount st')).
Proof.
  intros Ht Hwf (Hty&Hsz&Hat) Hp Hpe He. unfold tag_step. cbv zeta. rewrite Hty, Hsz.
  assert (8 ≤ tag_size t) as H8.
  { destruct t; cbn in *; [|lia]. pose proof (len_nonneg es). nia. }
  rewrite (u64_small (p + tag_size t)) by lia.
  replace ((tag_size t <? 8) || (end_ <? p + tag_size t)) with false by lia. rewrite alignUp8_next by lia.
  unfold multiboot2TagTypeEnd, multiboot2TagTypeMmap. destruct t as [s es|ty size]; cbn [tag_wf tag_type tag_size tag_entries] in *.
  - destruct Hat as [Hs Hes]. pose proof (len_nonneg es). rewrite Hs.
    change (6 =? 0) with false. change (6 =? 6) with true. cbv iota.
    assert (0 ≤ s * len es) by nia. replace (16 <=? 16 + s * len es) with true by lia. replace (24 <=? s) with true by lia.
    rewrite mmap_entries_loop_eq, (u64_small (p + 16)) by nia.
    destruct (entries_loop_parses s Hwf es 64 (p + 16) (p + (16 + s * len es)) st) as (ep'&st'&->&Ht'&Hr');
      [unfold maxMMapEntries in *; destruct Ht as (_&?&_); lia|done|done|lia|lia|lia|].
    cbn [loop_end mbind option_bind fst snd]. eexists _, st'. split_and!; [done..|]. intros _. apply Z.ltb_lt.
  - destruct Hwf as (?&?&?). replace (ty =? 0) with false by lia. replace (ty =? 6) with false by lia.
    cbn [mbind option_bind fst snd]. exists found, st. split_and!; [done..| |done].
    rewrite fmap_nil, app_nil_r, take_ge; [done|]. pose proof (recorded_len st Ht) as Hl. destruct Ht as (_&?&_).
    rewrite len_length in Hl. lia.
Qed.

Lemma mem_bytes_table st st' : table_from st st' → mem_bytes (phys st) → mem_bytes (phys st').
Proof. by intros (_&_&->). Qed.

(** Each tag takes at least 8 bytes. *)
Lemma tag_measure end_ p p' : p + 8 ≤ p' → (end_ - p') / 8 < (end_ - p) / 8.
Proof.
  intros Hp. replace (end_ - p) with (end_ - p - 8 + 1 * 8) by lia. rewrite Z.div_add by lia.
  enough ((end_ - p') / 8 ≤ (end_ - p - 8) / 8) by lia. apply Z.div_le_mono; lia.
Qed.

Lemma take_take_app {A} n (l k : list A) : take n (take n l ++ k) = take n (l ++ k).
Proof.
  rewrite !take_app, take_take, Nat.min_id, length_take. f_equal.
  destruct (Nat.le_gt_cases n (length l)).
  - rewrite Nat.min_l, Nat.sub_diag by lia. by replace (n - length l)%nat with 0%nat by lia.
  - by rewrite Nat.min_r by lia.
Qed.

(** Whatever the loader left in memory, [InitMultiboot] returns and its table is well
    formed. *)
Lemma InitMultiboot_total info st :
  mem_bytes (phys st) → len (mmapEntries st) = maxMMapEntries → 0 ≤ info ≤ 2 ^ 63 →
  ok (InitMultiboot info st) (λ '(_, st'), table_from st st').
Proof.
  intros Hm Hl Hi. unfold InitMultiboot. cbv zeta. set (st0 := set_mmap (mmapEntries st) 0 st).
  assert (table_from st st0) as Ht0 by (split_and!; done).
  destruct (info =? 0); [done|]. pose proof (readU32_range (phys st0) info Hm) as Hsz.
  set (size := readU32 (phys st0) info) in *. destruct (Z.ltb_spec size 16); [done|].
  rewrite (u64_small (info + size)), (u64_small (info + 8)) by lia. set (end_ := info + size).
  apply ok_loop_end, (while_ok (λ '(p, _, st'), info + 8 ≤ p ≤ end_ + 7 ∧ table_from st st')
    (λ '(p, _, _), (end_ - p) / 8)).
  - split; [unfold end_; lia|done].
  - rewrite Z2Nat.id by (apply Z.div_pos; lia). apply Z.div_le_mono; unfold end_; lia.
  - intros [[p f] st'] [Hp _]. rewrite u64_small by (unfold end_ in *; lia). intros Hc%Z.leb_le.
    apply Z.div_str_pos. lia.
  - intros [[p f] st'] [Hp Ht]. rewrite u64_small by (unfold end_ in *; lia). intros Hc%Z.leb_le.
    eapply ok_mono; [apply tag_step_total; [by eapply mem_bytes_table|by eapply table_from_refl|lia|done|unfold end_; lia]|].
    intros [[[p' f'] st2]|[f' st2]]; [intros [Hp' Ht2]|intros Ht2]; [|by eapply table_from_trans].
    split; [split; [lia|by eapply table_from_trans]|].
    apply tag_measure. lia.
  - intros [[p f] st'] [_ Ht] _. exact Ht.
Qed.

(** The loop over the tags of a structure. *)
Lemma tags_loop_parses end_ : end_ < 2 ^ 64 - 2 ^ 33 → ∀ ts fuel p found st,
  (end_ - p) / 8 ≤ Z.of_nat fuel → table_from st st → 0 ≤ p → tags_at (phys st) end_ p ts →
  (found = true ↔ 0 < mmapCount st) →
  ∃ st', while fuel (λ '(p, _, _), u64 (p + 8) <=? end_) (tag_step end_) (p, found, st) =
      Some (inr (0 <? mmapCount st', st')) ∧
    table_from st st' ∧
    recorded st' = take (Z.to_nat maxMMapEntries) (recorded st ++ (stored <$> (ts ≫= tag_entries))).
Proof.
  intros He. induction ts as [|t ts IH]; intros fuel p found st Hf Ht Hp Hts Hfound.
  - destruct Hts as [Hpe H0]. exists st. pose proof (recorded_len st Ht) as Hl. split_and!; [|done|].
    + destruct fuel as [|fuel]. { pose proof (Z.div_str_pos (end_ - p) 8). lia. }
      cbn [while]. rewrite u64_small by lia. replace (p + 8 <=? end_) with true by lia. cbn [tag_step].
      rewrite H0. cbn. do 3 f_equal. destruct found, (Z.ltb_spec 0 (mmapCount st)); naive_solver lia.
    + destruct Ht as (_&?&_). rewrite app_nil_r, take_ge; [done|]. rewrite len_length in Hl. lia.
  - destruct Hts as (Hwf&Hat&Hpe&Hts).
    assert (8 ≤ tag_size t) as H8. { destruct t; cbn in *; [|lia]. pose proof (len_nonneg es). nia. }
    destruct fuel as [|fuel]. { pose proof (Z.div_str_pos (end_ - p) 8). lia. }
    cbn [while]. rewrite u64_small by lia. replace (p + 8 <=? end_) with true by lia.
    destruct (tag_step_parses end_ p t found st) as (found'&st1&->&Ht1&Hr1&Hf1); [done..|].
    pose proof (next_tag_range (p + tag_size t)).
    destruct (IH fuel (next_tag (p + tag_size t)) found' st1) as (st'&->&Ht'&Hr').
    + pose proof (tag_measure end_ p (next_tag (p + tag_size t))). lia.
    + by eapply table_from_refl.
    + lia.
    + destruct Ht1 as (_&_&->). done.
    + by apply Hf1.
    + exists st'. split_and!; [done|by eapply table_from_trans|]. rewrite Hr', Hr1.
      by rewrite take_take_app, bind_cons, fmap_app, app_assoc.
Qed.

(** C37: The memory map survives the hand-over from the boot loader: on a Multiboot2 structure
    whose tags are in memory one after the other up to the end tag, [InitMultiboot] records
    exactly the entries of its memory map tags, in order and up to the 64 the table holds,
    changes nothing else, and reports success exactly when it recorded one. *)
Theorem InitMultiboot_parses info ts st :
  len (mmapEntries st) = maxMMapEntries → 0 < info ≤ 2 ^ 63 → in_u32 (readU32 (phys st) info) →
  tags_at (phys st) (info + readU32 (phys st) info) (info + 8) ts →
  ∃ st', InitMultiboot info st = Some (0 <? mmapCount st', st') ∧
    st' = set_mmap (mmapEntries st') (mmapCount st') st ∧
    recorded st' = take (Z.to_nat maxMMapEntries) (stored <$> (ts ≫= tag_entries)).
Proof.
  intros Hl Hi Hsz Hts. unfold InitMultiboot. cbv zeta. set (st0 := set_mmap (mmapEntries st) 0 st).
  assert (table_from st st0) as Ht0 by (split_and!; done).
  replace (info =? 0) with false by lia. change (phys st0) with (phys st). set (size := readU32 (phys st) info) in *.
  assert (info + 16 ≤ info + size) as H16.
  { destruct ts as [|t ts]; [destruct Hts; lia|]. destruct Hts as (Hwf&_&He&Hts). revert He.
    destruct t as [s es|]; cbn in *; [|lia]. pose proof (len_nonneg es). nia. }
  replace (size <? 16) with false by lia. rewrite (u64_small (info + size)), (u64_small (info + 8)) by lia.
  destruct (tags_loop_parses (info + size) ltac:(lia) ts (Z.to_nat (size / 8)) (info + 8) false st0)
    as (st'&->&Ht'&Hr'); [|by eapply table_from_refl|lia|done|done|].
  { rewrite Z2Nat.id by (apply Z.div_pos; lia). apply Z.div_le_mono; lia. }
  exists st'. split; [done|]. split; [|done]. destruct Ht' as (_&_&->). done.
Qed.

(** A structure at 0x8000: a command line tag of 12 bytes and a memory map of two entries. *)
Definition demo_tags : list mb_tag :=
  [MbOther 1 12; MbMmap 24 [(0, 0x9F000, 1); (0x100000, 0x40000, 1)]].
Definition demo_words : list (Z * Z) :=
  [(0x8000, 96); (0x8008, 1); (0x800C, 12); (0x8018, 6); (0x801C, 64); (0x8020, 24);
   (0x802C, 0); (0x8028, 0); (0x8030, 0x9F000); (0x8038, 1);
   (0x8040, 0x100000); (0x8044, 0); (0x8048, 0x40000); (0x8050, 1); (0x8058, 0); (0x805C, 8)].
Definition demo_boot : mem_state :=
  MemState (replicate 64 no_entry) 0 false 0 0 0 0 0 (foldl (λ m '(a, v), writeLE m 4 a v) ∅ demo_words).

Lemma InitMultiboot_parses_witness :
  tags_at (phys demo_boot) (0x8000 + 96) 0x8008 demo_tags ∧
  ∃ st', InitMultiboot 0x8000 demo_boot = Some (0 <? mmapCount st', st') ∧
    st' = set_mmap (mmapEntries st') (mmapCount st') demo_boot ∧
    recorded st' = [MMapEntryRec 0 0 0x9F000 0 1; MMapEntryRec 0x100000 0 0x40000 0 1].
Proof.
  assert (tags_at (phys demo_boot) (0x8000 + 96) 0x8008 demo_tags) as Ht.
  { vm_compute. intuition discriminate. }
  split; [exact Ht|].
  refine (InitMultiboot_parses 0x8000 demo_tags demo_boot _ _ _ Ht);
    first [reflexivity | vm_compute; intuition discriminate].
Defined.
