(* ===== verification/Fs.v ===== *)
(** * Package [fs]: the in-memory file system

    [src/fs/fs.go] with the allocation hooks of [src/fs/page_alloc_gccgo.go]
    and [src/fs/mock_state.go].  Files live in pages of the allocator: the table is
    the Go array [files], the contents are bytes of physical memory, reached through
    the interface of [PageAlloc].  The theorems relate the table to a finite map from
    names to contents. *)
From S2P Require Import Prelude PageAlloc.
Local Open Scope Z_scope.

Definition maxFiles : Z := 32.
Definition maxName : Z := 16.
Definition fsPageSize : Z := 4096.

Record fileEntry := FileEntry {
  used : bool;
  nameLen : Z;
  name : list Z;
  size : Z;
  page : Z;
}.

Definition set_size (n : Z) (e : fileEntry) : fileEntry :=
  FileEntry (used e) (nameLen e) (name e) n (page e).

Section fs.
Context {W : Type} `{!PageAllocator W}.

(** The package variables, and the machine they act on. *)
Record fs_state := FsState {
  files : list fileEntry;
  mockPFAActive : bool;
  mockAllocPageFn : option (W → option (Z * W));
  world : W;
}.

Definition set_files (fs : list fileEntry) (st : fs_state) : fs_state :=
  FsState fs (mockPFAActive st) (mockAllocPageFn st) (world st).
Definition set_world (w : W) (st : fs_state) : fs_state :=
  FsState (files st) (mockPFAActive st) (mockAllocPageFn st) w.

(** page_alloc_gccgo.go *)
Definition pfaReady (st : fs_state) : bool :=
  if mockPFAActive st then true else pa_ready (world st).

Definition allocPage (st : fs_state) : option (Z * fs_state) :=
  match mockPFAActive st, mockAllocPageFn st with
  | true, Some f => r ← f (world st); Some (r.1, set_world r.2 st)
  | _, _ => r ← pa_alloc (world st); Some (r.1, set_world r.2 st)
  end.

Definition freePage (p : Z) (st : fs_state) : bool * fs_state :=
  if mockPFAActive st then (true, st)
  else let r := pa_free p (world st) in (r.1, set_world r.2 st).

(** fs.go *)
Definition Init (st : fs_state) : option fs_state :=
  fs ← for_do 0 maxFiles
         (λ i fs, e ← aget fs i; aset fs i (FileEntry false 0 (name e) 0 0)) (files st);
  Some (set_files fs st).

Definition MaxFiles : Z := maxFiles.

(** [None] for a nil name pointer. *)
Definition Entry (i : Z) (st : fs_state) : option (bool * option (list Z) * Z * Z * Z) :=
  if (i <? 0) || (maxFiles <=? i) then Some (false, None, 0, 0, 0)
  else e ← aget (files st) i; Some (used e, Some (name e), nameLen e, size e, page e).

Definition findFreeSlot (st : fs_state) : option Z :=
  loop_end
    (for_range 0 maxFiles
       (λ i (_ : unit), e ← aget (files st) i;
          if negb (used e) then Some (inr i) else Some (inl tt)) tt)
    (λ _, Some (-1)).

Definition findByName (nm : list Z) (nmLen : Z) (st : fs_state) : option Z :=
  if (nmLen <=? 0) || (maxName <? nmLen) then Some (-1)
  else
    loop_end
      (for_range 0 maxFiles
         (λ i (_ : unit), e ← aget (files st) i;
            if negb (used e) || negb (nameLen e =? nmLen) then Some (inl tt)
            else
              m ← match_bytes nmLen (aget (name e)) (aget nm);
              if m : bool then Some (inr i) else Some (inl tt)) tt)
      (λ _, Some (-1)).

Definition copyName (dst : fileEntry) (src : list Z) (nmLen : Z) : option fileEntry :=
  n ← fill_with 0 maxName 0 (name dst);
  n ← copy_into src 0 nmLen n;
  Some (FileEntry (used dst) (u8 nmLen) n (size dst) (page dst)).

Definition Lookup (nm : list Z) (nmLen : Z) (st : fs_state) : option (Z * Z * bool) :=
  idx ← findByName nm nmLen st;
  if idx <? 0 then Some (0, 0, false)
  else e ← aget (files st) idx; Some (page e, size e, true).

(** The byte copy into the backing page, through raw pointers. *)
Definition copy_data (dstBase srcBase n : Z) (w : W) : option W :=
  for_do 0 n (λ i w, Some (pa_write w (u64 (dstBase + i)) (pa_read w (u64 (srcBase + i))))) w.

(** The part of [Write] that gives a new file its page and its name; [false] is the
    early [return false]. *)
Definition new_file (idx : Z) (nm : list Z) (nmLen : Z) (st : fs_state)
    : option (bool * fs_state) :=
  if negb (pfaReady st) then Some (false, st)
  else
    r ← allocPage st;
    let '(p, st) := r in
    if p =? 0 then Some (false, st)
    else
      e ← aget (files st) idx;
      e ← copyName (FileEntry true (nameLen e) (name e) (size e) p) nm nmLen;
      fs ← aset (files st) idx e;
      Some (true, set_files fs st).

Definition Write (nm : list Z) (nmLen : Z) (data dataLen : Z) (st : fs_state)
    : option (bool * fs_state) :=
  if (nmLen <=? 0) || (maxName <? nmLen) then Some (false, st)
  else
    let dataLen := if fsPageSize <? dataLen then fsPageSize else dataLen in
    idx ← findByName nm nmLen st;
    idx ← (if idx <? 0 then findFreeSlot st else Some idx);
    if idx <? 0 then Some (false, st)
    else
      e ← aget (files st) idx;
      r ← (if negb (used e) then new_file idx nm nmLen st else Some (true, st));
      let '(ready, st) := r in
      if negb ready then Some (false, st)
      else
        e ← aget (files st) idx;
        w ← copy_data (page e) data dataLen (world st);
        let st := set_world w st in
        fs ← aset (files st) idx (set_size (u64 dataLen) e);
        Some (true, set_files fs st).

Definition Remove (nm : list Z) (nmLen : Z) (st : fs_state) : option (bool * fs_state) :=
  idx ← findByName nm nmLen st;
  if idx <? 0 then Some (false, st)
  else
    e ← aget (files st) idx;
    let st := if used e && negb (page e =? 0) then (freePage (page e) st).2 else st in
    fs ← aset (files st) idx (FileEntry false 0 (name e) 0 0);
    Some (true, set_files fs st).
End fs.
Arguments fs_state W : clear implicits.

(** ** The table *)
Definition name_of (e : fileEntry) : list Z := take (Z.to_nat (nameLen e)) (name e).
Definition key (nm : list Z) (nmLen : Z) : list Z := take (Z.to_nat nmLen) nm.

Definition entry_ok (e : fileEntry) : Prop :=
  len (name e) = maxName ∧ 0 ≤ size e ≤ fsPageSize ∧
  (used e = true → 1 ≤ nameLen e ≤ maxName).

Definition table_ok (fs : list fileEntry) : Prop :=
  len fs = maxFiles ∧ ∀ i e, aget fs i = Some e → entry_ok e.

(** The slot [i] holds the file [e]. *)
Definition has_file (fs : list fileEntry) (i : Z) (e : fileEntry) : Prop :=
  aget fs i = Some e ∧ used e = true.

Lemma name_match e nm nmLen :
  entry_ok e → used e = true → len nm = maxName → 1 ≤ nmLen ≤ maxName →
  name_of e = key nm nmLen ↔
  nameLen e = nmLen ∧ ∀ j, 0 ≤ j < nmLen → aget (name e) j = aget nm j.
Proof.
  intros (Hl & _ & Hu) Hue Hn Hr. specialize (Hu Hue) as Hnl. unfold name_of, key. split.
  - intros E. assert (nameLen e = nmLen) as El.
    { apply (f_equal len) in E. rewrite !len_take in E by lia. lia. }
    split; [done|]. intros j Hj. rewrite El in E.
    rewrite <-(aget_take (name e) nmLen j), <-(aget_take nm nmLen j) by lia. by rewrite E.
  - intros [El Hj]. rewrite El. apply alist_eq; [rewrite !len_take by lia; done|].
    intros j Hr'. rewrite len_take in Hr' by lia. rewrite !aget_take by lia. apply Hj. lia.
Qed.

Section find.
Context {W : Type} `{!PageAllocator W}.
Implicit Types st : fs_state W.

Lemma findByName_spec nm nmLen st :
  table_ok (files st) → len nm = maxName → 1 ≤ nmLen ≤ maxName →
  ok (findByName nm nmLen st) (λ idx,
    (idx = -1 ∧ ∀ i e, has_file (files st) i e → name_of e ≠ key nm nmLen) ∨
    (0 ≤ idx ∧ ∃ e, has_file (files st) idx e ∧ name_of e = key nm nmLen)).
Proof.
  intros [Hlen Hok] Hnm Hr. unfold findByName.
  destruct (Z.leb_spec nmLen 0); [lia|]. destruct (Z.ltb_spec maxName nmLen); [lia|]. simpl.
  apply ok_loop_end.
  apply (for_range_ok (λ i _, ∀ j e, has_file (files st) j e → j < i → name_of e ≠ key nm nmLen));
    [done|intros j e [Ha%aget_inv _]; lia| |].
  - intros i [] Hi Hno. destruct (aget_Some (files st) i) as [e He]; [lia|]. rewrite He. simpl.
    pose proof (Hok i e He) as Heok.
    assert ((has_file (files st) i e → name_of e ≠ key nm nmLen) →
      ∀ j e', has_file (files st) j e' → j < i + 1 → name_of e' ≠ key nm nmLen) as Hstep.
    { intros Hi' j e' He' Hj. destruct (decide (j = i)) as [->|]; [|apply (Hno j e' He'); lia].
      destruct He' as [He' ?]. simplify_eq. by apply Hi'. }
    destruct (used e) eqn:Hu; simpl.
    2:{ apply Hstep. intros [_ ?]. congruence. }
    pose proof (name_match e nm nmLen Heok Hu Hnm Hr) as Hiff.
    destruct (Z.eqb_spec (nameLen e) nmLen) as [El|El]; simpl.
    2:{ apply Hstep. intros _ E. apply Hiff in E. tauto. }
    apply ok_bind. eapply ok_mono; [apply match_bytes_ok|].
    { intros j Hj. split; apply aget_Some; [destruct Heok|]; lia. }
    intros [] Hm; simpl.
    + right. split; [lia|]. exists e. split; [done|]. apply Hiff. split; [done|]. by apply Hm.
    + apply Hstep. intros _ E. apply Hiff in E as [_ E]. apply Hm in E. done.
  - intros [] Hno. left. split; [done|]. intros i e He. apply (Hno i e He).
    destruct He as [Ha%aget_inv _]. lia.
Qed.

Lemma findFreeSlot_spec st :
  len (files st) = maxFiles →
  ok (findFreeSlot st) (λ idx,
    (idx = -1 ∧ ∀ i e, aget (files st) i = Some e → used e = true) ∨
    (0 ≤ idx ∧ ∃ e, aget (files st) idx = Some e ∧ used e = false)).
Proof.
  intros Hlen. apply ok_loop_end.
  apply (for_range_ok (λ i _, ∀ j e, aget (files st) j = Some e → j < i → used e = true));
    [done|intros j e Ha%aget_inv; lia| |].
  - intros i [] Hi Hno. destruct (aget_Some (files st) i) as [e He]; [lia|]. rewrite He. simpl.
    destruct (used e) eqn:Hu; simpl; [|right; split; [lia|by exists e]].
    intros j e' He' Hj. destruct (decide (j = i)) as [->|]; [congruence|]. apply (Hno j e' He'). lia.
  - intros [] Hno. left. split; [done|]. intros i e He. apply (Hno i e He).
    apply aget_inv in He. lia.
Qed.
End find.

(** ** The abstraction: a finite map from names to contents *)
Section refinement.
Context {W : Type} `{PageAllocatorLaws W}.
Implicit Types st : fs_state W.

Definition contents (w : W) (e : fileEntry) : list Z :=
  (λ i, pa_read w (page e + i)) <$> seqZ 0 (size e).

Definition abs_table (w : W) (fs : list fileEntry) : gmap (list Z) (list Z) :=
  foldr (λ e m, if used e then <[name_of e := contents w e]> m else m) ∅ fs.

Definition abs (st : fs_state W) : gmap (list Z) (list Z) := abs_table (world st) (files st).

(** The invariant: the table is well formed; a file has a page of its own, in use at
    the allocator; no two files have the same name or the same page. *)
Record fs_inv (st : fs_state W) : Prop := {
  fi_table : table_ok (files st);
  fi_mock : mockPFAActive st = false;
  fi_world : pa_inv (world st);
  fi_owned : ∀ i e, has_file (files st) i e → pa_owned (world st) (page e);
  fi_names : ∀ i j e e', has_file (files st) i e → has_file (files st) j e' →
               name_of e = name_of e' → i = j;
  fi_pages : ∀ i j e e', has_file (files st) i e → has_file (files st) j e' →
               page e = page e' → i = j;
}.

Lemma abs_lookup_list (w : W) (l : list fileEntry) k d :
  (∀ (i j : nat) e e', l !! i = Some e → used e = true → l !! j = Some e' → used e' = true →
     name_of e = name_of e' → i = j) →
  abs_table w l !! k = Some d ↔
  ∃ (i : nat) e, l !! i = Some e ∧ used e = true ∧ name_of e = k ∧ contents w e = d.
Proof.
  induction l as [|e l IH]; intros Huniq; simpl.
  { rewrite lookup_empty. split; [done|]. intros (i & e & Hi & _). by rewrite lookup_nil in Hi. }
  assert (abs_table w l !! k = Some d ↔
    ∃ (i : nat) e, l !! i = Some e ∧ used e = true ∧ name_of e = k ∧ contents w e = d) as IH'.
  { apply IH. intros i j e1 e2 H1 Hu1 H2 Hu2 E. enough (S i = S j) by lia.
    by apply (Huniq (S i) (S j) e1 e2). }
  clear IH. destruct (used e) eqn:Hu.
  - rewrite lookup_insert. case_decide as Hk.
    + split; [intros [= <-]; by exists 0%nat, e|]. intros (i & e' & Hi & Hu' & Hn & <-).
      assert (i = 0%nat) as ->; [|simpl in Hi; congruence].
      apply (Huniq i 0%nat e' e Hi Hu' eq_refl Hu). congruence.
    + rewrite IH'. split; [intros (i & e' & ?); by exists (S i), e'|].
      intros ([|i] & e' & Hi & ? & ? & ?); simplify_eq/=; by exists i, e'.
  - rewrite IH'. split; [intros (i & e' & ?); by exists (S i), e'|].
    intros ([|i] & e' & Hi & ? & ? & ?); [simplify_eq/=; congruence|by exists i, e'].
Qed.

Lemma abs_lookup st k d :
  fs_inv st →
  abs st !! k = Some d ↔
  ∃ i e, has_file (files st) i e ∧ name_of e = k ∧ contents (world st) e = d.
Proof.
  intros Hinv. unfold abs. rewrite abs_lookup_list.
  2:{ intros i j e e' Hi Hu Hj Hu' E. apply Nat2Z.inj.
      apply (fi_names _ Hinv _ _ e e'); try done; split; try done; by rewrite aget_nat. }
  split.
  - intros (i & e & Hi & Hu & ?). exists (Z.of_nat i), e. split; [|done]. split; [|done].
    by rewrite aget_nat.
  - intros (i & e & [Hi Hu] & ?). exists (Z.to_nat i), e. split; [|done].
    pose proof (aget_inv _ _ _ Hi). rewrite <-aget_nat, Z2Nat.id by lia. done.
Qed.

Lemma has_file_insert fs idx e' j e :
  0 ≤ idx < len fs → has_file (<[Z.to_nat idx := e']> fs) j e ↔
  (j = idx ∧ e = e' ∧ used e' = true) ∨ (j ≠ idx ∧ has_file fs j e).
Proof.
  intros Hi. unfold has_file. rewrite aget_insert by lia. rewrite Z2Nat.id by lia.
  case_decide; naive_solver.
Qed.

(** Writing the slot [idx] with the file [e'] of name [k] is an insertion, provided
    [idx] is the only slot with that name and holds no other file. *)
Lemma abs_update st st' idx e' k :
  fs_inv st → fs_inv st' → 0 ≤ idx < maxFiles →
  files st' = <[Z.to_nat idx := e']> (files st) → used e' = true → name_of e' = k →
  (∀ j e, has_file (files st) j e → name_of e = k ↔ j = idx) →
  (∀ j e, has_file (files st) j e → j ≠ idx → contents (world st') e = contents (world st) e) →
  abs st' = <[k := contents (world st') e']> (abs st).
Proof.
  intros Hinv Hinv' Hidx Hf Hu Hn Hk Hc. pose proof (proj1 (fi_table _ Hinv)) as Hlen.
  apply map_eq; intros q. apply option_eq; intros d.
  rewrite abs_lookup by done. rewrite lookup_insert_Some, abs_lookup by done. rewrite Hf.
  setoid_rewrite has_file_insert; [|lia]. split.
  - intros (j & e & [(-> & -> & _)|(Hj & Hfile)] & <- & <-); [by left|]. right.
    split; [intros E; by apply Hj, (Hk j e)|]. exists j, e. by rewrite (Hc j e).
  - intros [[<- <-]|(Hq & j & e & Hfile & <- & <-)]; [exists idx, e'; by auto|].
    exists j, e. assert (j ≠ idx) as Hj by (intros ->; by apply Hq; symmetry; apply (Hk idx e)).
    split; [by right|]. by rewrite (Hc j e).
Qed.

Lemma abs_delete st st' idx e' k :
  fs_inv st → fs_inv st' → 0 ≤ idx < maxFiles →
  files st' = <[Z.to_nat idx := e']> (files st) → used e' = false →
  (∀ j e, has_file (files st) j e → name_of e = k ↔ j = idx) →
  (∀ j e, has_file (files st) j e → j ≠ idx → contents (world st') e = contents (world st) e) →
  abs st' = delete k (abs st).
Proof.
  intros Hinv Hinv' Hidx Hf Hu Hk Hc. pose proof (proj1 (fi_table _ Hinv)) as Hlen.
  apply map_eq; intros q. apply option_eq; intros d.
  rewrite abs_lookup by done. rewrite lookup_delete_Some, abs_lookup by done. rewrite Hf.
  setoid_rewrite has_file_insert; [|lia]. split.
  - intros (j & e & [(_ & _ & ?)|(Hj & Hfile)] & <- & <-); [congruence|].
    split; [intros E; by apply Hj, (Hk j e)|]. exists j, e. by rewrite (Hc j e).
  - intros (Hq & j & e & Hfile & <- & <-).
    exists j, e. assert (j ≠ idx) as Hj by (intros ->; by apply Hq; symmetry; apply (Hk idx e)).
    split; [by right|]. by rewrite (Hc j e).
Qed.

(** ** Stores into the page of a file *)

(** [w'] is [w] up to memory contents, as far as the allocator is concerned. *)
Definition same_alloc (w w' : W) : Prop :=
  pa_inv w' ∧ pa_ready w' = pa_ready w ∧
  (∀ q, pa_owned w' q ↔ pa_owned w q) ∧ (∀ b, pa_private w' b ↔ pa_private w b) ∧
  (∀ b, pa_static w' b ↔ pa_static w b).

Definition src_bytes (w : W) (src n : Z) : list Z := (λ i, pa_read w (src + i)) <$> seqZ 0 n.

(** The source of a copy is memory outside the allocator's reach. *)
Definition src_ok (w : W) (src n : Z) : Prop :=
  ∀ i, 0 ≤ i < n → in_u64 (src + i) ∧ pa_static w (src + i).

Lemma copy_data_spec (w : W) p src n :
  pa_inv w → pa_owned w p → 0 ≤ n ≤ 4096 → src_ok w src n →
  ok (copy_data p src n w) (λ w', same_alloc w w' ∧
    (∀ i, 0 ≤ i < n → pa_read w' (p + i) = pa_read w (src + i)) ∧
    (∀ a, ¬ (p ≤ a < p + n) → pa_read w' a = pa_read w a)).
Proof.
  intros Hinv Hp Hn Hsrc. destruct (pa_owned_range w p Hinv Hp) as (_ & Hp0 & Hp1).
  apply (for_do_ok (λ k w', same_alloc w w' ∧
    (∀ i, 0 ≤ i < k → pa_read w' (p + i) = pa_read w (src + i)) ∧
    (∀ a, ¬ (p ≤ a < p + k) → pa_read w' a = pa_read w a))); [lia| | |done].
  { split; [done|]. split; [lia|done]. }
  intros k w1 Hk ((Hi1 & Hr1 & Ho1 & Hv1 & Hs1) & Hc1 & Hf1).
  destruct (Hsrc k Hk) as [Hu Hst]. rewrite !u64_small by lia.
  destruct (pa_write_spec w1 (p + k) (pa_read w1 (src + k))) as (Hi & Hr & Hv & Hs & Ho & Hrd).
  { done. } { apply (pa_owned_not_private w1 p); [done|by apply Ho1|lia]. }
  assert (¬ (p ≤ src + k < p + k)) as Hsk.
  { intros Hin. apply (pa_static_not_owned w p (src + k)); [done..|lia]. }
  simpl. split; [|split].
  - unfold same_alloc. setoid_rewrite Ho. setoid_rewrite Hv. setoid_rewrite Hs. by rewrite Hr.
  - intros i Hik. rewrite Hrd. case_decide; [|apply Hc1; lia].
    replace i with k by lia. by apply Hf1.
  - intros a Ha. rewrite Hrd. rewrite decide_False by lia. apply Hf1. lia.
Qed.

Lemma contents_frame (w w' : W) e :
  0 ≤ size e ≤ 4096 →
  (∀ a, page e ≤ a < page e + 4096 → pa_read w' a = pa_read w a) →
  contents w' e = contents w e.
Proof.
  intros Hs Hr. unfold contents. apply list_fmap_ext. intros j x Hx.
  apply lookup_seqZ in Hx. apply Hr. lia.
Qed.

Lemma file_entry_ok st i e :
  fs_inv st → has_file (files st) i e →
  0 ≤ i < maxFiles ∧ len (name e) = maxName ∧ 1 ≤ nameLen e ≤ maxName ∧ 0 ≤ size e ≤ 4096.
Proof.
  intros Hinv [Ha Hu]. destruct (fi_table _ Hinv) as [Hlen Hok].
  pose proof (aget_inv _ _ _ Ha). destruct (Hok i e Ha) as (? & Hs & Hb). specialize (Hb Hu).
  unfold fsPageSize in Hs. lia.
Qed.

(** The entry [e] may stand at slot [idx]: its page and its name are nobody else's. *)
Definition fits (fs : list fileEntry) (idx : Z) (e : fileEntry) : Prop :=
  ∀ j e', has_file fs j e' → j ≠ idx → name_of e' ≠ name_of e ∧ page e' ≠ page e.

Lemma fs_inv_update st (w : W) idx e' :
  fs_inv st → 0 ≤ idx < maxFiles → pa_inv w →
  (∀ j e, has_file (files st) j e → j ≠ idx → pa_owned w (page e)) →
  entry_ok e' → (used e' = true → pa_owned w (page e') ∧ fits (files st) idx e') →
  fs_inv (set_files (<[Z.to_nat idx := e']> (files st)) (set_world w st)).
Proof.
  intros Hinv Hidx Hw Hown Hok Hfit. destruct (fi_table _ Hinv) as [Hlen Hoks].
  assert (0 ≤ idx < len (files st)) as Hr by lia.
  split; simpl.
  - split; [by rewrite len_insert|]. intros i e. rewrite aget_insert, Z2Nat.id by lia.
    case_decide; [by intros [= <-]|by apply Hoks].
  - apply Hinv.
  - done.
  - intros i e. rewrite has_file_insert by done. intros [(-> & -> & Hu)|[? Hf]]; [|by eapply Hown].
    by apply Hfit.
  - intros i j e1 e2. rewrite !has_file_insert by done.
    intros [(-> & -> & Hu)|[? Hf1]] [(-> & -> & Hu2)|[? Hf2]] E; try done.
    + destruct (Hfit Hu) as [_ Hx]. destruct (Hx j e2); done.
    + destruct (Hfit Hu2) as [_ Hx]. destruct (Hx i e1); done.
    + by apply (fi_names _ Hinv i j e1 e2).
  - intros i j e1 e2. rewrite !has_file_insert by done.
    intros [(-> & -> & Hu)|[? Hf1]] [(-> & -> & Hu2)|[? Hf2]] E; try done.
    + destruct (Hfit Hu) as [_ Hx]. destruct (Hx j e2); done.
    + destruct (Hfit Hu2) as [_ Hx]. destruct (Hx i e1); done.
    + by apply (fi_pages _ Hinv i j e1 e2).
Qed.

(** ** The operations *)
Lemma copyName_spec e nm nmLen :
  len (name e) = maxName → len nm = maxName → 1 ≤ nmLen ≤ maxName →
  ok (copyName e nm nmLen) (λ e', ∃ n,
    e' = FileEntry (used e) nmLen n (size e) (page e) ∧ len n = maxName ∧
    name_of e' = key nm nmLen).
Proof.
  intros Hl Hn Hr. unfold maxName in *. unfold copyName.
  apply ok_bind. eapply ok_mono; [apply fill_with_ok; unfold maxName; lia|]. intros n1 [Hl1 _].
  apply ok_bind. eapply ok_mono; [apply copy_into_ok; lia|]. intros n2 [Hl2 Hg]. simpl.
  exists n2. rewrite u8_small by lia. split_and!; [done|lia|]. unfold name_of, key. simpl.
  apply alist_eq; [rewrite !len_take by lia; done|]. intros i Hi. rewrite len_take in Hi by lia.
  rewrite !aget_take by lia. rewrite Hg, decide_True by lia. f_equal. lia.
Qed.

(** The allocator has no page to give. *)
Definition out_of_pages (w : W) : Prop :=
  pa_ready w = false ∨ ∃ w', pa_alloc w = Some (0, w').

Definition table_full (fs : list fileEntry) : Prop :=
  ∀ i e, aget fs i = Some e → used e = true.

Lemma new_file_spec st idx e nm nmLen :
  fs_inv st → aget (files st) idx = Some e → used e = false →
  len nm = maxName → 1 ≤ nmLen ≤ maxName →
  (∀ j e, has_file (files st) j e → name_of e ≠ key nm nmLen) →
  ok (new_file idx nm nmLen st) (λ '(b, st1),
    if b then
      fs_inv st1 ∧ (∃ e1, has_file (files st1) idx e1 ∧ name_of e1 = key nm nmLen) ∧
      (∃ d, abs st1 = <[key nm nmLen := d]> (abs st)) ∧
      (∀ a, pa_static (world st) a →
         pa_static (world st1) a ∧ pa_read (world st1) a = pa_read (world st) a)
    else st1 = st ∧ out_of_pages (world st)).
Proof.
  intros Hinv He Hu Hnm Hr Hnone. pose proof (aget_inv _ _ _ He) as Hidx.
  destruct (fi_table _ Hinv) as [Hlen Hok]. destruct (Hok idx e He) as (Hne & Hsz & _).
  unfold new_file, pfaReady, allocPage. rewrite (fi_mock _ Hinv).
  destruct (pa_ready (world st)) eqn:Hrdy; simpl; [|by unfold out_of_pages; auto].
  destruct (ok_elim _ _ (pa_alloc_spec (world st) (fi_world _ Hinv) Hrdy)) as ([p w'] & Ea & Hs).
  rewrite Ea. simpl. destruct Hs as (Hi' & _ & Hpriv & Hst & Hrd & Hcase).
  destruct Hcase as [[-> ->]|(Hp0 & Hnown & Hown)].
  { simpl. split; [by destruct st|]. unfold out_of_pages. eauto. }
  destruct (Z.eqb_spec p 0) as [|_]; [done|]. simpl. rewrite He. simpl.
  apply ok_bind. eapply ok_mono; [by apply copyName_spec|]. simpl. intros e1 (n & -> & Hn & Hkey).
  rewrite aset_Some by done. simpl.
  set (e1 := FileEntry true nmLen n (size e) p) in *.
  assert (fits (files st) idx e1) as Hfits.
  { intros j e' Hf Hj. rewrite Hkey. split; [by eapply Hnone|]. intros Ep. apply Hnown.
    change p with (page e1). rewrite <-Ep. by eapply (fi_owned _ Hinv). }
  set (st1 := set_files (<[Z.to_nat idx := e1]> (files st)) (set_world w' st)).
  assert (fs_inv st1) as Hinv1.
  { apply fs_inv_update; [done|lia|done| | |].
    - intros j e' Hf _. apply Hown. right. by eapply (fi_owned _ Hinv).
    - split; [done|]. by split.
    - intros _. split; [|done]. apply Hown. by left. }
  split_and!; [done| | |].
  - exists e1. split; [|done]. split; [|done]. simpl. rewrite aget_insert, Z2Nat.id by lia.
    by rewrite decide_True.
  - exists (contents (world st1) e1). apply (abs_update st st1 idx e1); [done|done|lia|done..| |].
    + intros j e' Hf. split; [intros E; by apply Hnone in Hf|]. intros ->.
      destruct Hf as [Hf ?]. congruence.
    + intros j e' Hf _. simpl. pose proof (file_entry_ok st j e' Hinv Hf) as (_&_&_&?).
      apply contents_frame; [done|]. intros a Ha. apply Hrd.
      apply (pa_owned_not_private (world st) (page e')); [apply Hinv|by eapply fi_owned|done].
  - intros a Ha. simpl. split; [by apply Hst|]. apply Hrd. apply pa_static_not_private; [apply Hinv|done].
Qed.

(** The end of [Write]: the contents of the file at [idx] are replaced. *)
Lemma write_tail_spec st idx e data n :
  fs_inv st → has_file (files st) idx e → 0 ≤ n ≤ 4096 → src_ok (world st) data n →
  ok (e ← aget (files st) idx;
      w ← copy_data (page e) data n (world st);
      let st := set_world w st in
      fs ← aset (files st) idx (set_size (u64 n) e);
      Some (true, set_files fs st))
     (λ '(b, st'), b = true ∧ fs_inv st' ∧
        abs st' = <[name_of e := src_bytes (world st) data n]> (abs st)).
Proof.
  intros Hinv Hf Hn Hsrc. pose proof (file_entry_ok _ _ _ Hinv Hf) as (Hidx & Hl & Hnl & _).
  pose proof (fi_owned _ Hinv _ _ Hf) as Hp. pose proof (proj1 (fi_table _ Hinv)) as Hlen.
  pose proof Hf as [He Hu]. rewrite He. simpl. apply ok_bind.
  eapply ok_mono; [apply copy_data_spec; [apply Hinv|done..]|].
  intros w (Hsame & Hcp & Hfr). simpl. rewrite aset_Some by lia. simpl. split; [done|].
  rewrite u64_small by lia. set (e' := set_size n e). pose proof Hsame as (Hi & _ & Ho & _).
  assert (∀ j e1, has_file (files st) j e1 → j ≠ idx →
    name_of e1 ≠ name_of e ∧ page e1 ≠ page e) as Hother.
  { intros j e1 Hf1 Hj. split; intros E; apply Hj;
      [by eapply (fi_names _ Hinv)|by eapply (fi_pages _ Hinv)]. }
  set (st' := set_files (<[Z.to_nat idx := e']> (files st)) (set_world w st)).
  assert (fs_inv st') as Hinv'.
  { apply fs_inv_update; [done|lia|done| | |].
    - intros j e1 Hf1 _. apply Ho. by eapply (fi_owned _ Hinv).
    - split; [done|]. by split.
    - intros _. split; [by apply Ho|exact Hother]. }
  split; [done|]. replace (src_bytes (world st) data n) with (contents (world st') e').
  - apply (abs_update st st' idx e'); [done|done|lia|done|done|done| |].
    + intros j e1 Hf1. split; [intros E; by eapply (fi_names _ Hinv)|].
      intros ->. destruct Hf1 as [? _]. congruence.
    + intros j e1 Hf1 Hj. pose proof (file_entry_ok _ _ _ Hinv Hf1) as (_&_&_&?).
      apply contents_frame; [done|]. intros a Ha. apply Hfr. intros Hin.
      destruct (Hother j e1 Hf1 Hj) as [_ Hpg].
      apply (owned_disjoint (world st) (page e1) (page e) a); [apply Hinv| |done..|lia].
      by eapply (fi_owned _ Hinv).
  - unfold contents, src_bytes. simpl. apply list_fmap_ext. intros i x Hx%lookup_seqZ.
    apply Hcp. lia.
Qed.

(** [Write] is insertion, or changes nothing. *)
Lemma Write_spec st nm nmLen data dataLen :
  fs_inv st → len nm = maxName → 1 ≤ nmLen ≤ maxName → 0 ≤ dataLen →
  src_ok (world st) data (Z.min dataLen 4096) →
  ok (Write nm nmLen data dataLen st) (λ '(b, st'), fs_inv st' ∧
    if b then abs st' = <[key nm nmLen := src_bytes (world st) data (Z.min dataLen 4096)]> (abs st)
    else st' = st ∧ abs st !! key nm nmLen = None ∧
         (table_full (files st) ∨ out_of_pages (world st))).
Proof.
  intros Hinv Hnm Hr Hd Hsrc. unfold Write.
  destruct (Z.leb_spec nmLen 0); [lia|]. destruct (Z.ltb_spec maxName nmLen); [lia|]. simpl.
  set (n := if fsPageSize <? dataLen then fsPageSize else dataLen).
  assert (Z.min dataLen 4096 = n) as En.
  { unfold n, fsPageSize. destruct (Z.ltb_spec 4096 dataLen); lia. }
  rewrite En in *. assert (0 ≤ n ≤ 4096) as Hn by lia. clearbody n. clear En.
  destruct (fi_table _ Hinv) as [Hlen Hok].
  apply ok_bind. eapply ok_mono; [apply findByName_spec; [apply Hinv|done..]|].
  intros idx [[-> Hnone]|(Hi & e & Hf & Hk)]; simpl.
  2:{ destruct (Z.ltb_spec idx 0); [lia|]. simpl. destruct (Z.ltb_spec idx 0); [lia|].
      rewrite (proj1 Hf). simpl. rewrite (proj2 Hf). simpl.
      eapply ok_mono; [by apply (write_tail_spec st idx e)|]. rewrite Hk. by intros [[] st'] (?&?&?). }
  assert (abs st !! key nm nmLen = None) as Hfresh.
  { apply eq_None_not_Some. intros [d (i & e & Hf & Hk & _)%abs_lookup]; [|done]. by apply Hnone in Hf. }
  apply ok_bind. eapply ok_mono; [by apply findFreeSlot_spec|].
  intros idx [[-> Hfull]|(Hi & e & He & Hu)]; simpl; [by auto|].
  destruct (Z.ltb_spec idx 0); [lia|]. rewrite He. simpl. rewrite Hu. simpl.
  apply ok_bind. eapply ok_mono; [by apply (new_file_spec st idx e)|].
  intros [[] st1]; simpl; [|by intros [-> ?]; auto].
  intros (Hinv1 & (e1 & Hf1 & Hk1) & (d & Habs) & Hstat).
  eapply ok_mono; [apply (write_tail_spec st1 idx e1); [done..|]|].
  { intros i Hii. destruct (Hsrc i Hii) as [? Hs]. split; [done|]. by apply Hstat. }
  intros [[] st'] (Hb & Hinv' & E); [|done]. split; [done|].
  rewrite E, Hk1, Habs, insert_insert_eq. f_equal. apply list_fmap_ext.
  intros i x Hx%lookup_seqZ. apply Hstat. apply Hsrc. lia.
Qed.

(** [Remove] is deletion, and gives the page back. *)
Lemma Remove_spec st nm nmLen :
  fs_inv st → len nm = maxName → 1 ≤ nmLen ≤ maxName →
  ok (Remove nm nmLen st) (λ '(b, st'), fs_inv st' ∧
    (b = true ↔ is_Some (abs st !! key nm nmLen)) ∧
    abs st' = delete (key nm nmLen) (abs st) ∧
    (b = false → st' = st) ∧
    (∀ i e, has_file (files st) i e → name_of e = key nm nmLen → ¬ pa_owned (world st') (page e))).
Proof.
  intros Hinv Hnm Hr. unfold Remove.
  destruct (fi_table _ Hinv) as [Hlen Hok].
  apply ok_bind. eapply ok_mono; [apply findByName_spec; [apply Hinv|done..]|].
  intros idx [[-> Hnone]|(Hi & e & Hf & Hk)]; simpl.
  { assert (abs st !! key nm nmLen = None) as Hfresh.
    { apply eq_None_not_Some. intros [d (i & e & Hf & Hk & _)%abs_lookup]; [|done]. by apply Hnone in Hf. }
    split_and!; [done| | |done|].
    - rewrite Hfresh. split; [done|]. by intros [].
    - by rewrite delete_id.
    - intros i e Hf Hk. by apply Hnone in Hf. }
  destruct (Z.ltb_spec idx 0); [lia|]. pose proof (file_entry_ok _ _ _ Hinv Hf) as (Hidx & Hl & Hnl & Hs).
  pose proof (fi_owned _ Hinv _ _ Hf) as Hp. pose proof Hf as [He Hu].
  destruct (pa_owned_range (world st) (page e)) as (_ & Hp0 & _); [apply Hinv|done|].
  destruct (pa_free_spec (world st) (page e)) as (_ & Hi' & _ & Hpr & _ & Hrd & Ho); [apply Hinv|done|].
  rewrite He. simpl. rewrite Hu. destruct (Z.eqb_spec (page e) 0); [lia|]. simpl.
  unfold freePage. rewrite (fi_mock _ Hinv). simpl. rewrite aset_Some by lia. simpl.
  set (w' := (pa_free (page e) (world st)).2) in *. set (e' := FileEntry false 0 (name e) 0 0).
  set (st' := set_files (<[Z.to_nat idx := e']> (files st)) (set_world w' st)).
  assert (∀ j e1, has_file (files st) j e1 → j ≠ idx → page e1 ≠ page e) as Hother.
  { intros j e1 Hf1 Hj E. by apply Hj, (fi_pages _ Hinv j idx e1 e). }
  assert (fs_inv st') as Hinv'.
  { apply fs_inv_update; [done|lia|done| |split; [done|]; by split|done].
    intros j e1 Hf1 Hj. apply Ho. split; [by eapply (fi_owned _ Hinv)|by eapply Hother]. }
  assert (∀ j e1, has_file (files st) j e1 → name_of e1 = key nm nmLen ↔ j = idx) as Huniq.
  { intros j e1 Hf1. split; [intros E; eapply (fi_names _ Hinv); [done..|congruence]|].
    intros ->. destruct Hf1 as [? _]. congruence. }
  split_and!; [done| | |done|].
  - split; [|done]. intros _. exists (contents (world st) e). apply abs_lookup; [done|]. by exists idx, e.
  - apply (abs_delete st st' idx e'); [done|done|lia|done|done|done|].
    intros j e1 Hf1 Hj. pose proof (file_entry_ok _ _ _ Hinv Hf1) as (_&_&_&?).
    apply contents_frame; [done|]. intros a Ha. apply Hrd.
    apply (pa_owned_not_private (world st) (page e1)); [apply Hinv|by eapply (fi_owned _ Hinv)|done].
  - intros i e1 Hf1 Hk1. apply (Huniq i e1 Hf1) in Hk1 as ->. destruct Hf1 as [Hf1 _]. simplify_eq.
    simpl. rewrite Ho. tauto.
Qed.

(** [Lookup] finds the page and the size of exactly the files of the map. *)
Lemma Lookup_spec st nm nmLen :
  fs_inv st → len nm = maxName → 1 ≤ nmLen ≤ maxName →
  ok (Lookup nm nmLen st) (λ '(p, n, b),
    match abs st !! key nm nmLen with
    | Some d => b = true ∧ len d = n ∧ pa_owned (world st) p ∧
                d = (λ i, pa_read (world st) (p + i)) <$> seqZ 0 n
    | None => b = false ∧ p = 0 ∧ n = 0
    end).
Proof.
  intros Hinv Hnm Hr. unfold Lookup.
  apply ok_bind. eapply ok_mono; [apply findByName_spec; [apply Hinv|done..]|].
  intros idx [[-> Hnone]|(Hi & e & Hf & Hk)]; simpl.
  - destruct (abs st !! key nm nmLen) eqn:E; [|done].
    apply abs_lookup in E as (i & e & Hf & Hk & _); [|done]. by apply Hnone in Hf.
  - destruct (Z.ltb_spec idx 0); [lia|]. rewrite (proj1 Hf). simpl.
    pose proof (file_entry_ok _ _ _ Hinv Hf) as (_&_&_&?).
    assert (abs st !! key nm nmLen = Some (contents (world st) e)) as ->.
    { apply abs_lookup; [done|]. by exists idx, e. }
    split_and!; [done| |by eapply (fi_owned _ Hinv)|done].
    rewrite len_length. unfold contents. rewrite length_fmap, length_seqZ. lia.
Qed.

(** [Init] gives the empty file system. *)
(** [Init] clears every entry. *)
Lemma Init_clears st :
  len (files st) = maxFiles → (∀ i e, aget (files st) i = Some e → len (name e) = maxName) →
  ok (Init st) (λ st', ∃ fs, st' = set_files fs st ∧ table_ok fs ∧ ∀ i e, ¬ has_file fs i e).
Proof.
  intros Hlen Hn. unfold Init. apply ok_bind.
  apply (for_do_ok (λ i fs, len fs = maxFiles ∧ ∀ j e, aget fs j = Some e →
    len (name e) = maxName ∧ (j < i → used e = false ∧ size e = 0))); [done| | |].
  - split; [done|]. intros j e Ha. split; [by eapply Hn|]. apply aget_inv in Ha. lia.
  - intros i fs Hi [Hl Hj]. destruct (aget_Some fs i) as [e He]; [lia|]. rewrite He. simpl.
    rewrite aset_Some by lia. simpl. split; [by rewrite len_insert|]. intros j e'.
    rewrite aget_insert, Z2Nat.id by lia. case_decide.
    + intros [= <-]. simpl. split; [by eapply Hj|done].
    + intros Ha. destruct (Hj j e' Ha) as [? Hx]. split; [done|]. intros. apply Hx. lia.
  - intros fs [Hl Hj]. exists fs. split; [done|].
    assert (∀ i e, aget fs i = Some e → used e = false ∧ size e = 0) as Hnone.
    { intros i e Ha. destruct (Hj i e Ha) as [_ Hx]. apply aget_inv in Ha. apply Hx. lia. }
    split.
    + split; [done|]. intros i e Ha. destruct (Hnone i e Ha) as [Hu Hz]. destruct (Hj i e Ha) as [? _].
      split; [done|]. split; [by rewrite Hz|congruence].
    + intros i e [Ha Hu]. destruct (Hnone i e Ha). congruence.
Qed.

Lemma fs_Init_spec st :
  len (files st) = maxFiles → (∀ i e, aget (files st) i = Some e → len (name e) = maxName) →
  mockPFAActive st = false → pa_inv (world st) →
  ok (Init st) (λ st', fs_inv st' ∧ abs st' = ∅ ∧ world st' = world st).
Proof.
  intros Hlen Hn Hm Hw. eapply ok_mono; [by apply Init_clears|]. intros st' (fs&->&Ht&Hnone).
  assert (fs_inv (set_files fs st)) as Hinv.
  { split; simpl; try done; by (intros; exfalso; eapply Hnone). }
  split_and!; try done. apply map_empty. intros k. apply eq_None_not_Some.
  intros [d (i & e & Hf & _)%abs_lookup]; [|done]. by eapply Hnone.
Qed.
End refinement.
