(* ===== verification/FsMem.v ===== *)
(** * The file system on the page allocator

    The properties of package [fs], proved against the interface of the allocator and
    used at the allocator of package [mem]: the table of [src/fs/fs.go] over the bitmap
    of [src/mem/allocator.go] behaves as a map from names to contents. *)
From S2P Require Import Prelude PageAlloc Mem Fs.
Local Open Scope Z_scope.

(** ** A machine with a file system, for the witnesses: the two bytes [hi] at 0x1000 *)
Definition put_hi (st : mem_state) : mem_state :=
  set_phys (mwrite (mwrite (phys st) 0x1000 104) 0x1001 105) st.

Lemma put_hi_inv st :
  pfa_inv st → ¬ in_bitmap st 0x1000 → ¬ in_bitmap st 0x1001 → pfa_inv (put_hi st).
Proof.
  intros Hinv H1 H2. pose proof (pfa_inv_store st 0x1000 104 Hinv H1) as H3.
  exact (pfa_inv_store _ 0x1001 105 H3 H2).
Qed.

Definition demo_world : mem_state := put_hi demo_mem.

Definition blank_entry : fileEntry := FileEntry false 0 (replicate 16 0) 0 0.

Definition demo_fs : fs_state mem_state :=
  FsState (replicate 32 blank_entry) false None demo_world.

Definition demo_name : list Z := gs "notes" ++ replicate 11 0.

Definition demo_written : fs_state mem_state :=
  match Write demo_name 5 0x1000 2 demo_fs with Some (_, st) => st | None => demo_fs end.

Lemma demo_world_inv : pa_inv demo_world.
Proof.
  apply (put_hi_inv demo_mem (proj1 (proj2 demo_initialised)));
    vm_compute; intuition discriminate.
Qed.

Lemma demo_blank i e : aget (replicate 32 blank_entry) i = Some e → e = blank_entry.
Proof.
  unfold aget. destruct (0 <=? i); [|done]. intros Hl. by apply lookup_replicate_1 in Hl as [-> _].
Qed.

Lemma blank_fs_inv (w : mem_state) :
  pa_inv w → fs_inv (FsState (replicate 32 blank_entry) false None w).
Proof.
  intros Hw. set (st := FsState _ _ _ w).
  assert (∀ i e, ¬ has_file (files st) i e) as Hno.
  { intros i e [->%demo_blank Hu]. done. }
  split; try done; try by (intros; exfalso; eapply Hno).
  split; [done|]. intros i e ->%demo_blank. vm_compute. intuition discriminate.
Qed.

Definition demo_fs_inv : fs_inv demo_fs := blank_fs_inv demo_world demo_world_inv.

Definition demo_name_len : len demo_name = maxName := eq_refl.

Lemma demo_src_ok : src_ok (world demo_fs) 0x1000 (Z.min 2 4096).
Proof.
  intros i Hi. assert (i = 0 ∨ i = 1) as [->| ->] by lia; vm_compute; intuition discriminate.
Qed.

Lemma demo_write_runs : Write demo_name 5 0x1000 2 demo_fs = Some (true, demo_written).
Proof. vm_compute. reflexivity. Qed.

Lemma written_inv `{PageAllocatorLaws W} (st : fs_state W) nm nmLen data n st' :
  fs_inv st → len nm = maxName → 1 ≤ nmLen ≤ maxName → 0 ≤ n →
  src_ok (world st) data (Z.min n 4096) → Write nm nmLen data n st = Some (true, st') → fs_inv st'.
Proof.
  intros Hi Hn Hl Hd Hs E. pose proof (Write_spec st nm nmLen data n Hi Hn Hl Hd Hs) as Hw.
  rewrite E in Hw. by destruct Hw.
Qed.

Lemma demo_five : 1 ≤ 5 ≤ maxName.
Proof. unfold maxName. lia. Qed.

Lemma demo_two : in_u32 2.
Proof. lia. Qed.

Definition demo_written_inv : fs_inv demo_written :=
  written_inv demo_fs demo_name 5 0x1000 2 demo_written demo_fs_inv demo_name_len demo_five
    (proj1 demo_two) demo_src_ok demo_write_runs.

(** ** Properties *)
Section properties.
Context {W : Type} `{PageAllocatorLaws W}.

(** C3: [fs.Write] never panics and is insertion into the map from names to contents:
    when it succeeds, the file of that name holds the bytes of the source buffer, cut
    to one page, and every other file is unchanged; it fails only for a new name when
    the table is full or the allocator has no page, and then nothing changes. *)
Theorem fs_write_refines (st : fs_state W) (nm : list Z) (nmLen data dataLen : Z)
    (Hinv : fs_inv st) (Hnm : len nm = maxName) (Hlen : 1 ≤ nmLen ≤ maxName)
    (Hdata : in_u32 dataLen) (Hsrc : src_ok (world st) data (Z.min dataLen 4096)) :
  ∃ b st', Write nm nmLen data dataLen st = Some (b, st') ∧ fs_inv st' ∧
    if b : bool
    then abs st' = <[key nm nmLen := src_bytes (world st) data (Z.min dataLen 4096)]> (abs st)
    else st' = st ∧ abs st !! key nm nmLen = None ∧
         (table_full (files st) ∨ out_of_pages (world st)).
Proof.
  destruct (ok_elim _ _ (Write_spec st nm nmLen data dataLen Hinv Hnm Hlen (proj1 Hdata) Hsrc))
    as ([b st'] & ? & ? & ?). by exists b, st'.
Qed.

(** C14: [fs.Remove] never panics and is deletion from the map: it returns true iff the
    file exists, removes that file and no other, and its page is given back to the
    allocator; for a missing name nothing changes. *)
Theorem fs_remove_refines (st : fs_state W) (nm : list Z) (nmLen : Z)
    (Hinv : fs_inv st) (Hnm : len nm = maxName) (Hlen : 1 ≤ nmLen ≤ maxName) :
  ∃ b st', Remove nm nmLen st = Some (b, st') ∧ fs_inv st' ∧
    (b = true ↔ is_Some (abs st !! key nm nmLen)) ∧
    abs st' = delete (key nm nmLen) (abs st) ∧ (b = false → st' = st) ∧
    (∀ i e, has_file (files st) i e → name_of e = key nm nmLen →
       ¬ pa_owned (world st') (page e)).
Proof.
  destruct (ok_elim _ _ (Remove_spec st nm nmLen Hinv Hnm Hlen)) as ([b st'] & ? & ?).
  by exists b, st'.
Qed.

(** C15: [fs.Lookup] is lookup in the map: for an existing file it returns the address
    of its page and its size, and the bytes at that address are the contents; for a
    missing one it returns zeros and false. *)
Theorem fs_lookup_refines (st : fs_state W) (nm : list Z) (nmLen : Z)
    (Hinv : fs_inv st) (Hnm : len nm = maxName) (Hlen : 1 ≤ nmLen ≤ maxName) :
  ∃ p n b, Lookup nm nmLen st = Some (p, n, b) ∧
    match abs st !! key nm nmLen with
    | Some d => b = true ∧ len d = n ∧ pa_owned (world st) p ∧
                d = (λ i, pa_read (world st) (p + i)) <$> seqZ 0 n
    | None => b = false ∧ p = 0 ∧ n = 0
    end.
Proof.
  destruct (ok_elim _ _ (Lookup_spec st nm nmLen Hinv Hnm Hlen)) as ([[p n] b] & ? & ?).
  by exists p, n, b.
Qed.
End properties.

Lemma fs_write_refines_witness :
  ∃ b st', Write demo_name 5 0x1000 2 demo_fs = Some (b, st') ∧ fs_inv st' ∧
    if b : bool
    then abs st' = <[key demo_name 5 := src_bytes (world demo_fs) 0x1000 (Z.min 2 4096)]> (abs demo_fs)
    else st' = demo_fs ∧ abs demo_fs !! key demo_name 5 = None ∧
         (table_full (files demo_fs) ∨ out_of_pages (world demo_fs)).
Proof.
  exact (fs_write_refines demo_fs demo_name 5 0x1000 2 demo_fs_inv demo_name_len demo_five demo_two
    demo_src_ok).
Defined.

Lemma fs_remove_refines_witness :
  ∃ b st', Remove demo_name 5 demo_written = Some (b, st') ∧ fs_inv st' ∧
    (b = true ↔ is_Some (abs demo_written !! key demo_name 5)) ∧
    abs st' = delete (key demo_name 5) (abs demo_written) ∧ (b = false → st' = demo_written) ∧
    (∀ i e, has_file (files demo_written) i e → name_of e = key demo_name 5 →
       ¬ pa_owned (world st') (page e)).
Proof.
  exact (fs_remove_refines demo_written demo_name 5 demo_written_inv demo_name_len demo_five).
Defined.

Lemma fs_lookup_refines_witness :
  ∃ p n b, Lookup demo_name 5 demo_written = Some (p, n, b) ∧
    match abs demo_written !! key demo_name 5 with
    | Some d => b = true ∧ len d = n ∧ pa_owned (world demo_written) p ∧
                d = (λ i, pa_read (world demo_written) (p + i)) <$> seqZ 0 n
    | None => b = false ∧ p = 0 ∧ n = 0
    end.
Proof.
  exact (fs_lookup_refines demo_written demo_name 5 demo_written_inv demo_name_len demo_five).
Defined.

(** Reading the file back on the example machine. *)
Example demo_read_back :
  abs demo_written !! gs "notes" = Some (gs "hi") ∧
  Lookup demo_name 5 demo_written = Some (0x111000, 2, true).
Proof. vm_compute. done. Qed.
