(* ===== verification/PortIO.v ===== *)
(** * Port I/O

    The kernel reaches its devices through the assembly routines [inb], [outb], [inw]
    and [outw] of [src/boot/stubs_amd64.s].  [PortIO D] is that interface over the state
    [D] of the hardware behind the ports: a read may change the device. *)
From S2P Require Import Prelude.
Local Open Scope Z_scope.

Class PortIO (D : Type) := {
  inb : Z → D → Z * D;
  outb : Z → Z → D → D;
  inw : Z → D → Z * D;
  outw : Z → Z → D → D;
}.

(** What the instructions guarantee: [in] delivers a value of the operand's width. *)
Class PortIOLaws (D : Type) `{!PortIO D} := {
  inb_u8 p d : in_u8 (inb p d).1;
  inw_u16 p d : in_u16 (inw p d).1;
}.

(** A sequence of [outb] instructions. *)
Definition outs {D} `{!PortIO D} (l : list (Z * Z)) (d : D) : D :=
  foldl (λ d '(p, v), outb p v d) d l.

(** ** A recorder, for the examples: it logs what is written, and answers every read
    from a script, 0 when the script is exhausted. *)
Record recorder := Recorder { log : list (Z * Z); script : list Z }.

Definition rec_in (w : Z) (d : recorder) : Z * recorder :=
  match script d with
  | [] => (0, d)
  | v :: s => (wrap w v, Recorder (log d) s)
  end.

Definition rec_out (p v : Z) (d : recorder) : recorder :=
  Recorder (log d ++ [(p, v)]) (script d).

#[export] Instance recorder_io : PortIO recorder := {
  inb _ := rec_in 8;
  outb := rec_out;
  inw _ := rec_in 16;
  outw := rec_out;
}.

#[export] Instance recorder_io_laws : PortIOLaws recorder.
Proof.
  split; intros p [l [|v s]]; simpl; try lia; apply wrap_range; lia.
Qed.
