(* ===== verification/Terminal.v ===== *)
(** * Package [terminal]: the VGA text screen and number formatting

    [src/terminal/terminal.go], [src/terminal/format.go] and
    [src/terminal/terminal_gccgo.go].  Everything a client prints goes through
    [putRune]; [Console] is that interface, so that the printing functions and their
    clients are proved once for every console, and the VGA screen is one of them. *)
From S2P Require Import Prelude PortIO.
Local Open Scope Z_scope.

(** ** format.go *)
Definition FormatInt (v : Z) : option (list Z * Z) :=
  let buf := replicate 20 0 in
  let start := 20 in
  if v =? 0 then
    let start := start - 1 in
    buf ← aset buf start 48; Some (buf, start)
  else
    let negative := v <? 0 in
    let u := if negative then u64 (u64 (i64 (- (i64 (v + 1)))) + 1) else u64 v in
    r ← loop_end
          (while 20 (λ '(_, _, u), 0 <? u)
             (λ '(buf, start, u),
                let start := start - 1 in
                buf ← aset buf start (u8 (48 + u `mod` 10));
                Some (inl (buf, start, u / 10)))
             (buf, start, u)) Some;
    let '(buf, start, _) := r in
    if negative then
      let start := start - 1 in
      buf ← aset buf start 45; Some (buf, start)
    else Some (buf, start).

(** ** The console interface *)
Class Console (T : Type) := { putRune : Z → T → option T }.

Class ConsoleLaws (T : Type) `{!Console T} := {
  console_ok : T → Prop;
  putRune_ok r t : console_ok t → ok (putRune r t) console_ok;
}.

Section console.
Context {T : Type} `{!Console T}.

Definition PutRune (ch : Z) (t : T) : option T := putRune ch t.

(** [for _, b := range s { putRune(rune(b)) }] *)
Fixpoint Print (s : list Z) (t : T) : option T :=
  match s with
  | [] => Some t
  | b :: s => t ← putRune b t; Print s t
  end.

Definition PrintInt (v : Z) (t : T) : option T :=
  r ← FormatInt v;
  let '(buf, start) := r in
  Print (drop (Z.to_nat start) buf) t.

Definition hexDigits : list Z := gs "0123456789ABCDEF".

(** The digits of [v], least significant first, into a buffer of 16. *)
Definition hex_fill (v : Z) : option (list Z * Z) :=
  r ← loop_end
        (while 16 (λ '(_, _, v), 0 <? v)
           (λ '(buf, i, v),
              d ← aget hexDigits (v `mod` 16);
              buf ← aset buf i d;
              Some (inl (buf, i + 1, v / 16)))
           (replicate 16 0, 0, v)) Some;
  let '(buf, i, _) := r in Some (buf, i).

Definition PrintHex (v : Z) (t : T) : option T :=
  t ← Print (gs "0x") t;
  if v =? 0 then Print (gs "0") t
  else
    r ← hex_fill v;
    let '(buf, i) := r in
    for_do 0 i (λ k t, b ← aget buf (i - 1 - k); PutRune b t) t.
End console.

(** A console that only keeps the transcript. *)
#[export] Instance transcript_console : Console (list Z) := { putRune r t := Some (t ++ [r]) }.

#[export] Instance transcript_laws : ConsoleLaws (list Z) := {
  console_ok _ := True;
  putRune_ok _ _ _ := I;
}.

(** ** terminal.go *)
Definition VGAWidth : Z := 80.
Definition VGAHeight : Z := 25.
Definition vgaCursorIndexPort : Z := 0x3D4.
Definition vgaCursorDataPort : Z := 0x3D5.
Definition ColorBlack : Z := 0.
Definition ColorLightGrey : Z := 7.

(** [debugChar], in assembly, writes a byte to the debug port. *)
Class DebugIO (D : Type) := { debugChar : Z → D → D }.

#[export] Instance recorder_debug : DebugIO recorder := { debugChar := rec_out 0xE9 }.

(** A cell of the screen: character and attribute. *)
Definition vcell : Type := Z * Z.

Section vga.
Context {D : Type} `{!PortIO D} `{!DebugIO D}.

(** [vidMem] tells whether the pointer to video memory is set; [screen] is that memory. *)
Record term_state := TermState {
  column : Z;
  row : Z;
  color : Z;
  vidMem : bool;
  screen : list (list vcell);
  tdev : D;
}.

Definition set_pos (r c : Z) (t : term_state) : term_state :=
  TermState c r (color t) (vidMem t) (screen t) (tdev t).
Definition set_screen (s : list (list vcell)) (t : term_state) : term_state :=
  TermState (column t) (row t) (color t) (vidMem t) s (tdev t).
Definition set_tdev (d : D) (t : term_state) : term_state :=
  TermState (column t) (row t) (color t) (vidMem t) (screen t) d.

Definition makeColor (fg bg : Z) : Z := Z.lor fg (u8 (Z.shiftl bg 4)).

(** [vidMem[r][c] = x]; a nil [vidMem] or an index out of range is a panic. *)
Definition store_cell (r c : Z) (x : vcell) (t : term_state) : option term_state :=
  if vidMem t then
    line ← aget (screen t) r;
    line ← aset line c x;
    s ← aset (screen t) r line;
    Some (set_screen s t)
  else None.

Definition load_cell (r c : Z) (t : term_state) : option vcell :=
  if vidMem t then line ← aget (screen t) r; aget line c else None.

Definition updateCursor (t : term_state) : term_state :=
  let pos := u16 (row t * VGAWidth + column t) in
  set_tdev (outs [(vgaCursorIndexPort, 0x0F); (vgaCursorDataPort, u8 (Z.land pos 0xFF));
                  (vgaCursorIndexPort, 0x0E); (vgaCursorDataPort, u8 (Z.land (Z.shiftr pos 8) 0xFF))]
              (tdev t)) t.

Definition scroll (t : term_state) : option term_state :=
  t ← for_do 1 VGAHeight
        (λ r, for_do 0 VGAWidth (λ c t, x ← load_cell r c t; store_cell (r - 1) c x t)) t;
  for_do 0 VGAWidth (λ c t, store_cell (VGAHeight - 1) c (32, color t) t) t.

(** [row++; if row >= VGAHeight { scroll(); row = VGAHeight - 1 }], with [column] 0. *)
Definition next_line (r : Z) (t : term_state) : option term_state :=
  let t := set_pos (r + 1) 0 t in
  if VGAHeight <=? row t then
    t ← scroll t; Some (set_pos (VGAHeight - 1) (column t) t)
  else Some t.

Definition Clear (t : term_state) : option term_state :=
  t ← for_do 0 VGAHeight
        (λ r, for_do 0 VGAWidth (λ c t, store_cell r c (32, color t) t)) t;
  Some (updateCursor (set_pos 0 0 t)).

Definition Init (t : term_state) : option term_state :=
  Clear (TermState 0 0 (makeColor ColorLightGrey ColorBlack) true (screen t) (tdev t)).

Definition Backspace (t : term_state) : option term_state :=
  t ← (if 0 <? column t then
         let t := set_pos (row t) (column t - 1) t in
         store_cell (row t) (column t) (32, color t) t
       else if 0 <? row t then
         let t := set_pos (row t - 1) (VGAWidth - 1) t in
         store_cell (row t) (column t) (32, color t) t
       else Some t);
  Some (updateCursor t).

Definition vga_putRune (ch : Z) (t : term_state) : option term_state :=
  if ch =? 8 then Backspace t
  else if ch =? 10 then
    t ← next_line (row t) t; Some (updateCursor t)
  else
    t ← store_cell (row t) (column t) (u8 ch, color t) t;
    let t := set_tdev (debugChar (u8 ch) (tdev t)) t in
    let t := set_pos (row t) (column t + 1) t in
    t ← (if VGAWidth <=? column t then next_line (row t) t else Some t);
    Some (updateCursor t).

Definition putRuneAt (col currRow ch : Z) (t : term_state) : option term_state :=
  if (col <? 0) || (VGAWidth <=? col) then Some t
  else if (currRow <? 0) || (VGAHeight <=? currRow) then Some t
  else if ch =? 10 then
    t ← next_line currRow t; Some (updateCursor t)
  else
    t ← store_cell currRow col (u8 ch, color t) t;
    let t := set_pos currRow (col + 1) t in
    t ← (if VGAWidth <=? column t then next_line currRow t else Some t);
    Some (updateCursor t).

Definition PrintAt (col row : Z) (s : list Z) (t : term_state) : option term_state :=
  for_do 0 (len s) (λ i t, b ← aget s i; putRuneAt (i64 (col + i)) row b t) t.

#[export] Instance vga_console : Console term_state := { putRune := vga_putRune }.
End vga.
Arguments term_state D : clear implicits.

(** ** The screen as a tape of 2000 cells *)
Record tape := Tape { cells : list vcell; pos : Z }.

Definition blank_line (col : Z) : list vcell := replicate 80 (32, col).
Definition blank_screen (col : Z) : list vcell := replicate (Z.to_nat 2000) (32, col).
Arguments blank_line : simpl never.
Arguments blank_screen : simpl never.

Definition tape_scroll (col : Z) (tp : tape) : tape :=
  if pos tp =? 2000 then Tape (drop (Z.to_nat 80) (cells tp) ++ blank_line col) 1920 else tp.

(** What a rune does to the tape: a character is stored at the cursor, a newline moves
    to the next multiple of the line length, a backspace blanks the cell before the
    cursor; at the end the oldest line is dropped. *)
Definition tape_put (col : Z) (tp : tape) (ch : Z) : tape :=
  if ch =? 8 then
    if 0 <? pos tp then Tape (<[Z.to_nat (pos tp - 1) := (32, col)]> (cells tp)) (pos tp - 1) else tp
  else if ch =? 10 then tape_scroll col (Tape (cells tp) ((pos tp / 80 + 1) * 80))
  else tape_scroll col (Tape (<[Z.to_nat (pos tp) := (u8 ch, col)]> (cells tp)) (pos tp + 1)).

Section screen.
Context {D : Type} `{!PortIO D} `{!DebugIO D}.
Implicit Types t : term_state D.

Definition grid_ok (s : list (list vcell)) : Prop :=
  len s = 25 ∧ ∀ r line, aget s r = Some line → len line = 80.

Definition term_ok t : Prop :=
  vidMem t = true ∧ grid_ok (screen t) ∧ 0 ≤ row t < 25 ∧ 0 ≤ column t < 80.

Definition glyph (s : list (list vcell)) (p : Z) : vcell :=
  default (32, 0) (line ← aget s (p / 80); aget line (p `mod` 80)).

Definition flat (s : list (list vcell)) : list vcell := glyph s <$> seqZ 0 2000.
Arguments flat : simpl never.

Definition tape_of t : tape := Tape (flat (screen t)) (row t * 80 + column t).

Lemma store_cell_spec r c x t :
  vidMem t = true → grid_ok (screen t) → 0 ≤ r < 25 → 0 ≤ c < 80 →
  ok (store_cell r c x t) (λ t', ∃ s, t' = set_screen s t ∧ grid_ok s ∧
    ∀ p, 0 ≤ p < 2000 → glyph s p = if decide (p = r * 80 + c) then x else glyph (screen t) p).
Proof.
  intros Hv [Hl Hg] Hr Hc. unfold store_cell. rewrite Hv.
  destruct (aget_Some (screen t) r) as [line Hline]; [lia|]. rewrite Hline. simpl.
  pose proof (Hg r line Hline) as Hll. rewrite aset_Some by lia. simpl. rewrite aset_Some by lia. simpl.
  eexists. split; [reflexivity|]. split.
  - split; [by rewrite len_insert|]. intros r' l'. rewrite aget_insert, Z2Nat.id by lia.
    case_decide; [|by apply Hg]. intros [= <-]. by rewrite len_insert.
  - intros p Hp. unfold glyph. rewrite aget_insert, Z2Nat.id by lia.
    destruct (decide (p / 80 = r)) as [E|E].
    + simpl. rewrite aget_insert, Z2Nat.id by lia. rewrite E, Hline. simpl.
      destruct (decide (p `mod` 80 = c)); [rewrite decide_True|rewrite decide_False]; done || mod_lia.
    + rewrite decide_False; [done|]. mod_lia.
Qed.

Lemma load_cell_spec r c t :
  vidMem t = true → grid_ok (screen t) → 0 ≤ r < 25 → 0 ≤ c < 80 →
  load_cell r c t = Some (glyph (screen t) (r * 80 + c)).
Proof.
  intros Hv [Hl Hg] Hr Hc. unfold load_cell, glyph. rewrite Hv.
  replace ((r * 80 + c) / 80) with r by mod_lia. replace ((r * 80 + c) `mod` 80) with c by mod_lia.
  destruct (aget_Some (screen t) r) as [line Hline]; [lia|]. rewrite Hline. simpl.
  destruct (aget_Some line c) as [x Hx]; [rewrite (Hg r line Hline); lia|]. by rewrite Hx.
Qed.

(** A row of stores: [f c] at column [c] of row [r], for the columns below [n]. *)
Lemma store_row_spec r n (f : Z → term_state D → option vcell) (g : Z → vcell) t :
  vidMem t = true → grid_ok (screen t) → 0 ≤ r < 25 → 0 ≤ n ≤ 80 →
  (∀ c s, 0 ≤ c < n → grid_ok s →
     (∀ p, 0 ≤ p < 2000 → ¬ (r * 80 ≤ p < r * 80 + c) → glyph s p = glyph (screen t) p) →
     f c (set_screen s t) = Some (g c)) →
  ok (for_do 0 n (λ c t, x ← f c t; store_cell r c x t) t) (λ t', ∃ s, t' = set_screen s t ∧ grid_ok s ∧
    ∀ p, 0 ≤ p < 2000 →
      glyph s p = if decide (r * 80 ≤ p < r * 80 + n) then g (p - r * 80) else glyph (screen t) p).
Proof.
  intros Hv Hg Hr Hn Hf.
  apply (for_do_ok (λ c t', ∃ s, t' = set_screen s t ∧ grid_ok s ∧ ∀ p, 0 ≤ p < 2000 →
    glyph s p = if decide (r * 80 ≤ p < r * 80 + c) then g (p - r * 80) else glyph (screen t) p)); [lia| | |done].
  - exists (screen t). split; [by destruct t|]. split; [done|]. intros p Hp. by rewrite decide_False by lia.
  - intros c t' Hc (s & -> & Hgs & Hs). rewrite (Hf c s Hc Hgs); cbn [mbind option_bind].
    2:{ intros p Hp Hout. rewrite Hs by done. by rewrite decide_False by lia. }
    eapply ok_mono; [apply store_cell_spec; [done..|lia]|]. intros t'' (s' & -> & Hgs' & Hs').
    exists s'. split; [done|]. split; [done|]. intros p Hp. rewrite Hs' by done. simpl.
    destruct (decide (p = r * 80 + c)) as [->|].
    + rewrite decide_True by lia. f_equal. lia.
    + rewrite Hs by done. repeat case_decide; done || lia.
Qed.

Lemma scroll_spec t :
  vidMem t = true → grid_ok (screen t) →
  ok (scroll t) (λ t', ∃ s, t' = set_screen s t ∧ grid_ok s ∧
    ∀ p, 0 ≤ p < 2000 → glyph s p = if decide (p < 1920) then glyph (screen t) (p + 80) else (32, color t)).
Proof.
  intros Hv Hg. unfold scroll, VGAHeight, VGAWidth. apply ok_bind.
  apply (for_do_ok (λ r t', ∃ s, t' = set_screen s t ∧ grid_ok s ∧ ∀ p, 0 ≤ p < 2000 →
    glyph s p = if decide (p < (r - 1) * 80) then glyph (screen t) (p + 80) else glyph (screen t) p)); [lia| | |].
  - exists (screen t). split; [by destruct t|]. split; [done|]. intros p Hp. by rewrite decide_False by lia.
  - intros r t' Hr (s & -> & Hgs & Hs).
    eapply ok_mono; [apply (store_row_spec (r - 1) 80 (λ c t, load_cell r c t)
      (λ c, glyph s (r * 80 + c))); [done|done|lia|lia|]|].
    + intros c s' Hc Hgs' Hs'. rewrite load_cell_spec by (done || lia). simpl. f_equal. apply Hs'; lia.
    + intros t'' (s' & -> & Hgs' & Hs'). exists s'. split; [done|]. split; [done|]. intros p Hp.
      rewrite Hs' by done. simpl. case_decide as E1.
      * rewrite decide_True by lia. rewrite Hs, decide_False by lia. f_equal. lia.
      * rewrite Hs by done. repeat case_decide; done || lia.
  - intros t' (s & -> & Hgs & Hs). simpl.
    eapply ok_mono; [apply (store_row_spec 24 80 (λ _ t, Some (32, color t)) (λ _, (32, color t)));
      [done|done|lia|lia|done]|].
    intros t'' (s' & -> & Hgs' & Hs'). exists s'. split; [done|]. split; [done|]. intros p Hp.
    rewrite Hs' by done. simpl. case_decide as E1; [by rewrite decide_False by lia|].
    rewrite Hs by done. repeat case_decide; done || lia.
Qed.

(** How the screen operations act on the tape's cells. *)
Lemma flat_store s s' q x :
  0 ≤ q < 2000 →
  (∀ p, 0 ≤ p < 2000 → glyph s' p = if decide (p = q) then x else glyph s p) →
  flat s' = <[Z.to_nat q := x]> (flat s).
Proof. intros Hq Hs. unfold flat. rewrite fmap_seqZ_insert by done. by apply fmap_seqZ_ext. Qed.

Lemma flat_scroll s s' col :
  (∀ p, 0 ≤ p < 2000 → glyph s' p = if decide (p < 1920) then glyph s (p + 80) else (32, col)) →
  flat s' = drop (Z.to_nat 80) (flat s) ++ blank_line col.
Proof.
  intros Hs. assert (len (flat s) = 2000) as Hl by (by apply len_fmap_seqZ).
  assert (len (drop (Z.to_nat 80) (flat s)) = 1920) as Hd.
  { rewrite !len_length in *. rewrite length_drop. lia. }
  apply alist_eq.
  { unfold blank_line. rewrite len_app, len_replicate, Hd. unfold flat. by rewrite len_fmap_seqZ. }
  intros i Hi. unfold flat in Hi. rewrite len_fmap_seqZ in Hi by lia.
  unfold flat at 1. rewrite aget_fmap_seqZ, decide_True, Hs, aget_app, Hd by lia. case_decide.
  - rewrite aget_drop by lia. unfold flat. rewrite aget_fmap_seqZ, decide_True by lia.
    do 2 f_equal. lia.
  - symmetry. unfold aget, blank_line. destruct (Z.leb_spec 0 (i - 1920)); [|lia]. apply lookup_replicate_2. lia.
Qed.

Opaque flat.

(** The cursor registers show the position of the tape. *)
Definition cursor_shown t : Prop :=
  let p := row t * 80 + column t in
  ∃ d, tdev t = outs [(0x3D4, 0x0F); (0x3D5, p `mod` 256); (0x3D4, 0x0E); (0x3D5, p / 256)] d.

Lemma updateCursor_spec t :
  term_ok t → term_ok (updateCursor t) ∧ tape_of (updateCursor t) = tape_of t ∧
    color (updateCursor t) = color t ∧ cursor_shown (updateCursor t).
Proof.
  intros (Hv & Hg & Hr & Hc). split; [by split|]. split; [done|]. split; [done|].
  exists (tdev t). unfold updateCursor. simpl. unfold VGAWidth.
  set (p := row t * 80 + column t). assert (0 ≤ p < 2000) as Hp by (unfold p; lia).
  rewrite u16_small by lia. change 255 with (Z.ones 8). rewrite !Z.land_ones, Z.shiftr_div_pow2 by lia.
  change (2 ^ 8) with 256. rewrite (Z.mod_small (p / 256)) by mod_lia.
  rewrite !u8_small by mod_lia. done.
Qed.

Lemma next_line_spec r t :
  vidMem t = true → grid_ok (screen t) → 0 ≤ r < 25 →
  ok (next_line r t) (λ t', term_ok t' ∧ color t' = color t ∧
    tape_of t' = tape_scroll (color t) (Tape (flat (screen t)) ((r + 1) * 80))).
Proof.
  intros Hv Hg Hr. unfold next_line, tape_scroll, VGAHeight. simpl.
  destruct (Z.leb_spec 25 (r + 1)); simpl.
  - call scroll_spec; [done..|]. intros t' (s & -> & Hgs & Hs). simpl. split; [by split|].
    split; [done|]. rewrite (proj2 (Z.eqb_eq _ _)) by lia. unfold tape_of. simpl. f_equal.
    by apply flat_scroll.
  - split; [split_and!; simpl; done || lia|]. split; [done|].
    rewrite (proj2 (Z.eqb_neq _ _)) by lia. unfold tape_of. simpl. f_equal. lia.
Qed.

Definition put_post (t : term_state D) (tp : tape) (t' : term_state D) : Prop :=
  term_ok t' ∧ color t' = color t ∧ tape_of t' = tp ∧ cursor_shown t'.

Lemma put_post_cursor t t' tp :
  term_ok t' → color t' = color t → tape_of t' = tp → put_post t tp (updateCursor t').
Proof.
  intros Hok Hcol Htp. destruct (updateCursor_spec t' Hok) as (? & Et & Ec & ?).
  split; [done|]. split; [by rewrite Ec|]. split; [by rewrite Et|done].
Qed.

Lemma Backspace_spec t :
  term_ok t → ok (Backspace t) (put_post t (tape_put (color t) (tape_of t) 8)).
Proof.
  intros (Hv & Hg & Hr & Hc). unfold Backspace, tape_put. simpl. unfold VGAWidth.
  destruct (Z.ltb_spec 0 (column t)).
  - simpl. destruct (Z.ltb_spec 0 (row t * 80 + column t)); [|lia]. apply ok_bind.
    eapply ok_mono; [apply store_cell_spec; simpl; done || lia|]. intros t' (s & -> & Hgs & Hs).
    simpl. apply put_post_cursor; [split_and!; simpl; done || lia|done|]. unfold tape_of. simpl. f_equal; [|lia].
    rewrite <-Z.add_sub_assoc. apply flat_store; [lia|done].
  - destruct (Z.ltb_spec 0 (row t)); simpl.
    + destruct (Z.ltb_spec 0 (row t * 80 + column t)); [|lia]. apply ok_bind.
      eapply ok_mono; [apply store_cell_spec; simpl; done || lia|]. intros t' (s & -> & Hgs & Hs).
      simpl. apply put_post_cursor; [split_and!; simpl; done || lia|done|]. unfold tape_of. simpl. f_equal; [|lia].
      apply flat_store; [lia|]. intros p Hp. rewrite Hs by done. simpl. repeat case_decide; done || lia.
    + destruct (Z.ltb_spec 0 (row t * 80 + column t)); [lia|]. by apply put_post_cursor.
Qed.

(** [putRune] on the screen is [tape_put] on the tape. *)
Lemma vga_putRune_spec ch t :
  term_ok t → ok (vga_putRune ch t) (put_post t (tape_put (color t) (tape_of t) ch)).
Proof.
  intros Hok. pose proof Hok as (Hv & Hg & Hr & Hc). unfold vga_putRune.
  destruct (Z.eqb_spec ch 8) as [->|H8]; [by apply Backspace_spec|].
  unfold tape_put. rewrite (proj2 (Z.eqb_neq ch 8)) by done.
  destruct (Z.eqb_spec ch 10) as [->|H10].
  { call next_line_spec; [done..|]. intros t' (Hok' & Hcol & Htp). simpl.
    apply put_post_cursor; [done|done|]. rewrite Htp. simpl. do 2 f_equal. mod_lia. }
  call store_cell_spec; [done..|]. intros t' (s & -> & Hgs & Hs). simpl.
  assert (flat s = <[Z.to_nat (row t * 80 + column t) := (u8 ch, color t)]> (flat (screen t))) as Hflat.
  { apply flat_store; [lia|]. done. }
  unfold VGAWidth. destruct (Z.leb_spec 80 (column t + 1)); simpl.
  - call next_line_spec; [done..|]. intros t' (Hok' & Hcol & Htp). simpl.
    apply put_post_cursor; [done|done|]. rewrite Htp. simpl. rewrite Hflat. do 2 f_equal. lia.
  - apply put_post_cursor; [split_and!; simpl; done || lia|done|]. unfold tape_scroll. simpl.
    rewrite (proj2 (Z.eqb_neq _ _)) by lia. unfold tape_of. simpl. rewrite Hflat. f_equal. lia.
Qed.

Lemma Print_spec s : ∀ t,
  term_ok t → cursor_shown t →
  ok (Print s t) (put_post t (foldl (tape_put (color t)) (tape_of t) s)).
Proof.
  induction s as [|b s IH]; intros t Hok Hcur; simpl; [done|].
  call vga_putRune_spec; [done|]. intros t1 (Hok1 & Hc1 & Ht1 & Hs1).
  eapply ok_mono; [by apply IH|]. intros t2 (Hok2 & Hc2 & Ht2 & Hs2).
  rewrite Hc1, Ht1 in *. by split.
Qed.
End screen.

#[export] Instance vga_console_laws {D} `{!PortIO D} `{!DebugIO D} : ConsoleLaws (term_state D).
Proof.
  refine {| console_ok := term_ok |}.
  intros r t Hok. eapply ok_mono; [by apply vga_putRune_spec|]. by intros t' (? & _).
Defined.

Lemma Print_ok `{ConsoleLaws T} s : ∀ t, console_ok t → ok (Print s t) console_ok.
Proof.
  induction s as [|b s IH]; intros t Ht; simpl; [done|]. call putRune_ok; [done|]. apply IH.
Qed.

Lemma Print_app `{!Console T} s1 s2 (t : T) : Print (s1 ++ s2) t = t ← Print s1 t; Print s2 t.
Proof.
  revert t. induction s1 as [|b s IH]; intros t; simpl; [done|]. destruct (putRune b t); simpl; [apply IH|done].
Qed.

Lemma Print_transcript s (t : list Z) : Print s t = Some (t ++ s).
Proof.
  revert t. induction s as [|b s IH]; intros t; simpl; [by rewrite app_nil_r|].
  rewrite IH. by rewrite <-app_assoc.
Qed.

Section screen2.
Context {D : Type} `{!PortIO D} `{!DebugIO D}.
Implicit Types t : term_state D.

Lemma Clear_spec t :
  vidMem t = true → grid_ok (screen t) →
  ok (Clear t) (put_post t (Tape (blank_screen (color t)) 0)).
Proof.
  intros Hv Hg. unfold Clear, VGAHeight, VGAWidth. apply ok_bind.
  apply (for_do_ok (λ r t', ∃ s, t' = set_screen s t ∧ grid_ok s ∧
    ∀ p, 0 ≤ p < r * 80 → p < 2000 → glyph s p = (32, color t))); [lia| | |].
  - exists (screen t). split; [by destruct t|]. split; [done|]. lia.
  - intros r t' Hr (s & -> & Hgs & Hs).
    eapply ok_mono; [apply (store_row_spec r 80 (λ _ t, Some (32, color t)) (λ _, (32, color t)));
      [done|done|lia|lia|done]|].
    intros t'' (s' & -> & Hgs' & Hs'). exists s'. split; [done|]. split; [done|].
    intros p Hp Hp2. rewrite Hs' by lia. case_decide; [done|]. apply Hs; lia.
  - intros t' (s & -> & Hgs & Hs). simpl. apply put_post_cursor; [by split_and!|done|].
    unfold tape_of. simpl. f_equal. Transparent flat. unfold flat, blank_screen.
    apply alist_eq; rewrite len_fmap_seqZ by lia; [by rewrite len_replicate|].
    intros i Hi. rewrite aget_fmap_seqZ, decide_True, Hs by lia. symmetry. unfold aget.
    destruct (Z.leb_spec 0 i); [|lia]. apply lookup_replicate_2. lia.
Qed.

(** [Init] makes the screen usable whatever is in video memory. *)
Lemma term_Init_spec t :
  grid_ok (screen t) → ok (Init t) (λ t', term_ok t' ∧ cursor_shown t' ∧ color t' = 7 ∧
    tape_of t' = Tape (blank_screen 7) 0).
Proof.
  intros Hg. unfold Init. eapply ok_mono; [by apply Clear_spec|].
  intros t' (Hok & Hc & Htp & Hcur). split; [done|]. split; [done|]. split; [by rewrite Hc|]. by rewrite Htp.
Qed.

Lemma putRuneAt_ok col r ch t : term_ok t → ok (putRuneAt col r ch t) term_ok.
Proof.
  intros Hok. pose proof Hok as (Hv & Hg & Hr & Hc). unfold putRuneAt, VGAWidth, VGAHeight.
  destruct (Z.ltb_spec col 0), (Z.leb_spec 80 col); simpl; try done.
  destruct (Z.ltb_spec r 0), (Z.leb_spec 25 r); simpl; try done.
  destruct (ch =? 10).
  { call next_line_spec; [done|done|lia|]. intros t' (Hok' & _). by apply updateCursor_spec. }
  call store_cell_spec; [done|done|lia|lia|]. intros t' (s & -> & Hgs & _). simpl.
  destruct (Z.leb_spec 80 (col + 1)); simpl.
  - call next_line_spec; [done|done|lia|]. intros t' (Hok' & _). by apply updateCursor_spec.
  - apply updateCursor_spec. split_and!; simpl; done || lia.
Qed.

Lemma PrintAt_ok col r s t : term_ok t → ok (PrintAt col r s t) term_ok.
Proof.
  intros Hok. apply (for_do_ok (λ _, term_ok)); [apply len_nonneg|done| |done].
  intros i t' Hi Hok'. destruct (aget_Some s i Hi) as [b ->]. by apply putRuneAt_ok.
Qed.
End screen2.

(** ** Numerals *)

(** The value of a numeral, most significant digit first. *)
Definition base_val (B : Z) (f : Z → Z) (bs : list Z) : Z := foldl (λ a b, a * B + f b) 0 bs.

Lemma base_val_acc B f bs : 0 < B → ∀ a,
  foldl (λ a b, a * B + f b) a bs = a * B ^ len bs + base_val B f bs.
Proof.
  intros HB. induction bs as [|b bs IH]; intros a; simpl.
  { rewrite len_nil. unfold base_val. simpl. lia. }
  rewrite IH. unfold base_val at 2. simpl. rewrite (IH (0 * B + f b)), len_cons.
  rewrite Z.pow_add_r, Z.pow_1_r by (pose proof (len_nonneg bs); lia). ring.
Qed.

Lemma base_val_cons B f b bs :
  0 < B → base_val B f (b :: bs) = f b * B ^ len bs + base_val B f bs.
Proof. intros. unfold base_val at 1. simpl. by rewrite base_val_acc. Qed.

Definition dec_val (bs : list Z) : Z := base_val 10 (λ b, b - 48) bs.

Lemma dec_val_cons b bs : dec_val (b :: bs) = (b - 48) * 10 ^ len bs + dec_val bs.
Proof. by apply base_val_cons. Qed.

Definition digits (bs : list Z) : Prop := Forall (λ b, 48 ≤ b ≤ 57) bs.

(** A decimal numeral without leading zeros. *)
Definition numeral (bs : list Z) : Prop := digits bs ∧ bs ≠ [] ∧ (head bs = Some 48 → bs = [48]).

Lemma drop_prepend (buf : list Z) s x :
  0 < s ≤ len buf →
  drop (Z.to_nat (s - 1)) (<[Z.to_nat (s - 1) := x]> buf) = x :: drop (Z.to_nat s) buf.
Proof.
  intros Hs. rewrite (drop_S _ x); [|rewrite list_lookup_insert_eq; [done|]; rewrite len_length in Hs; lia].
  f_equal. replace (S (Z.to_nat (s - 1))) with (Z.to_nat s) by lia. apply drop_insert_lt. lia.
Qed.

(** The digit loop writes the decimal expansion of [u0] at the end of the buffer. *)
Lemma format_loop_spec u0 :
  0 < u0 < 10 ^ 19 →
  ok (loop_end
        (while 20 (λ '(_, _, u), 0 <? u)
           (λ '(buf, start, u),
              let start := start - 1 in
              buf ← aset buf start (u8 (48 + u `mod` 10));
              Some (inl (buf, start, u / 10)))
           (replicate 20 0, 20, u0)) Some)
     (λ '(buf, start, _), len buf = 20 ∧ 1 ≤ start ≤ 20 ∧
        numeral (drop (Z.to_nat start) buf) ∧ dec_val (drop (Z.to_nat start) buf) = u0).
Proof.
  intros Hu0. apply ok_loop_end.
  apply (while_ok
    (λ '(buf, start, u), len buf = 20 ∧ 1 ≤ start ≤ 20 ∧ 0 ≤ u < 10 ^ (start - 1) ∧
       digits (drop (Z.to_nat start) buf) ∧
       (u = 0 → drop (Z.to_nat start) buf ≠ [] ∧ head (drop (Z.to_nat start) buf) ≠ Some 48) ∧
       u0 = u * 10 ^ (20 - start) + dec_val (drop (Z.to_nat start) buf))
    (λ '(_, start, _), start)).
  - split; [by rewrite len_replicate|]. split; [lia|]. split; [lia|]. split; [constructor|].
    split; [lia|]. simpl. unfold dec_val, base_val. simpl. lia.
  - simpl. lia.
  - intros [[buf s] u] (_ & ? & _) _. lia.
  - intros [[buf s] u] (Hl & Hs & Hu & Hd & Hz & E) Hpos%Z.ltb_lt.
    assert (2 ≤ s) as Hs2.
    { destruct (decide (s = 1)) as [->|]; [|lia]. change (10 ^ (1 - 1)) with 1 in Hu. lia. }
    assert (0 ≤ u `mod` 10 < 10) as Hm by (apply Z.mod_pos_bound; lia).
    cbv zeta. rewrite aset_Some by lia. simpl. rewrite u8_small by lia.
    rewrite drop_prepend by lia. set (ds := drop (Z.to_nat s) buf) in *.
    assert (len ds = 20 - s) as Hds by (unfold ds; rewrite !len_length in *; rewrite length_drop; lia).
    split; [|lia]. split; [by rewrite len_insert|]. split; [lia|]. split; [|split; [|split]].
    + replace (10 ^ (s - 1)) with (10 * 10 ^ (s - 1 - 1)) in Hu
        by (rewrite <-Z.pow_succ_r by lia; f_equal; lia).
      split; [apply Z.div_pos; lia|]. apply Z.div_lt_upper_bound; lia.
    + constructor; [lia|done].
    + intros E0. split; [done|]. simpl. intros [= Eh]. mod_lia.
    + rewrite dec_val_cons, Hds. replace (20 - (s - 1)) with (Z.succ (20 - s)) by lia.
      rewrite Z.pow_succ_r by lia. rewrite E. pose proof (Z.div_mod u 10). nia.
  - intros [[buf s] u] (Hl & Hs & Hu & Hd & Hz & E) Hnz%Z.ltb_ge. assert (u = 0) as -> by lia.
    destruct (Hz eq_refl) as [Hne Hh]. simpl. split; [done|]. split; [done|].
    split; [by split|]. lia.
Qed.

Definition in_i64 (v : Z) : Prop := - 2 ^ 63 ≤ v < 2 ^ 63.

Lemma i64_small v : in_i64 v → i64 v = v.
Proof. unfold in_i64, i64. intros. rewrite Z.mod_small by lia. lia. Qed.

Lemma FormatInt_spec v :
  in_i64 v →
  ok (FormatInt v) (λ '(buf, start), len buf = 20 ∧ 0 ≤ start < 20 ∧
    ∃ ds, numeral ds ∧ dec_val ds = Z.abs v ∧
      drop (Z.to_nat start) buf = if v <? 0 then 45 :: ds else ds).
Proof.
  intros Hv. unfold FormatInt. destruct (Z.eqb_spec v 0) as [->|Hnz].
  { rewrite aset_Some by (rewrite len_replicate; lia). simpl. split; [done|]. split; [lia|].
    exists [48]. split; [|done]. split; [repeat constructor; lia|done]. }
  set (u := if v <? 0 then _ else _). assert (u = Z.abs v) as Eu.
  { unfold u, in_i64 in *. destruct (Z.ltb_spec v 0); [|rewrite u64_small; lia].
    rewrite (i64_small (v + 1)), i64_small by (unfold in_i64; lia).
    rewrite (u64_small (- (v + 1))) by lia. rewrite u64_small; lia. }
  rewrite Eu. clear u Eu. unfold in_i64 in Hv.
  call (format_loop_spec (Z.abs v)); [lia|]. intros [[buf s] u] (Hl & Hs & Hnum & Hval).
  set (ds := drop (Z.to_nat s) buf) in *.
  destruct (Z.ltb_spec v 0) as [Hneg|Hpos]; cbv zeta.
  - rewrite aset_Some by lia. simpl. split; [by rewrite len_insert|]. split; [lia|].
    exists ds. split; [done|]. split; [done|]. by rewrite drop_prepend by lia.
  - simpl. split; [done|]. split; [|by exists ds]. destruct (decide (s = 20)) as [->|]; [|lia].
    exfalso. destruct Hnum as (_ & Hne & _). apply Hne. unfold ds. apply drop_ge.
    rewrite len_length in Hl. lia.
Qed.

(** The value of a hexadecimal digit. *)
Definition unhex (b : Z) : Z := if b <=? 57 then b - 48 else b - 55.
Definition hex_val (bs : list Z) : Z := base_val 16 unhex bs.
Definition hex_numeral (bs : list Z) : Prop :=
  Forall (λ b, b ∈ hexDigits) bs ∧ bs ≠ [] ∧ (head bs = Some 48 → bs = [48]).

Lemma hexDigits_spec d : 0 ≤ d < 16 →
  ∃ b, aget hexDigits d = Some b ∧ unhex b = d ∧ (b = 48 → d = 0).
Proof.
  intros Hd. assert (∀ k : nat, (k < 16)%nat → ∃ b, aget hexDigits (Z.of_nat k) = Some b ∧
    unhex b = Z.of_nat k ∧ (b = 48 → Z.of_nat k = 0)) as H.
  { intros k Hk. do 16 (destruct k as [|k]; [eexists; split; [reflexivity|]; done|]). lia. }
  destruct (H (Z.to_nat d)) as (b & Hb); [lia|]. rewrite Z2Nat.id in Hb by lia. by exists b.
Qed.

Lemma take_append (buf : list Z) i x :
  0 ≤ i < len buf →
  reverse (take (Z.to_nat (i + 1)) (<[Z.to_nat i := x]> buf)) = x :: reverse (take (Z.to_nat i) buf).
Proof.
  intros Hi. rewrite (take_S_aget _ i x); [|lia|].
  - rewrite take_insert_ge by lia. by rewrite reverse_snoc.
  - rewrite aget_insert by lia. by rewrite decide_True by lia.
Qed.

Lemma hex_fill_spec v :
  0 < v < 2 ^ 64 →
  ok (hex_fill v) (λ '(buf, i), len buf = 16 ∧ 1 ≤ i ≤ 16 ∧
    hex_numeral (reverse (take (Z.to_nat i) buf)) ∧ hex_val (reverse (take (Z.to_nat i) buf)) = v).
Proof.
  intros Hv. unfold hex_fill. apply ok_bind, ok_loop_end.
  apply (while_ok
    (λ '(buf, i, u), len buf = 16 ∧ 0 ≤ i ≤ 16 ∧ 0 ≤ u < 16 ^ (16 - i) ∧
       Forall (λ b, b ∈ hexDigits) (reverse (take (Z.to_nat i) buf)) ∧
       (u = 0 → 1 ≤ i ∧ reverse (take (Z.to_nat i) buf) ≠ [] ∧
                head (reverse (take (Z.to_nat i) buf)) ≠ Some 48) ∧
       v = u * 16 ^ i + hex_val (reverse (take (Z.to_nat i) buf)))
    (λ '(_, i, _), 16 - i)).
  - split; [by rewrite len_replicate|]. split; [lia|]. split; [lia|]. split; [constructor|].
    split; [lia|]. unfold hex_val, base_val. simpl. lia.
  - simpl. lia.
  - intros [[buf i] u] (_ & Hi & Hu & _) Hpos%Z.ltb_lt.
    destruct (decide (i = 16)) as [->|]; [|lia]. change (16 ^ (16 - 16)) with 1 in Hu. lia.
  - intros [[buf i] u] (Hl & Hi & Hu & Hd & Hz & E) Hpos%Z.ltb_lt.
    assert (i < 16) as Hi16.
    { destruct (decide (i = 16)) as [->|]; [|lia]. change (16 ^ (16 - 16)) with 1 in Hu. lia. }
    assert (0 ≤ u `mod` 16 < 16) as Hm by (apply Z.mod_pos_bound; lia).
    destruct (hexDigits_spec (u `mod` 16) Hm) as (b & Hb & Hub & Hb0). rewrite Hb. cbn [mbind option_bind].
    rewrite aset_Some by lia. cbn [mbind option_bind ok].
    rewrite take_append by lia. set (ds := reverse (take (Z.to_nat i) buf)) in *.
    assert (len ds = i) as Hds.
    { unfold ds. rewrite len_length, length_reverse, <-len_length. apply len_take. lia. }
    split; [|lia]. split; [by rewrite len_insert|]. split; [lia|]. split; [|split; [|split]].
    + replace (16 ^ (16 - i)) with (16 * 16 ^ (16 - (i + 1))) in Hu
        by (rewrite <-Z.pow_succ_r by lia; f_equal; lia).
      split; [apply Z.div_pos; lia|]. apply Z.div_lt_upper_bound; lia.
    + constructor; [by eapply aget_elem|done].
    + intros E0. split; [lia|]. split; [done|]. simpl. intros [= Eh]. apply Hb0 in Eh. mod_lia.
    + unfold hex_val. rewrite base_val_cons by lia. fold (hex_val ds). rewrite Hub, Hds.
      rewrite Z.pow_add_r, Z.pow_1_r by lia. rewrite E. pose proof (Z.div_mod u 16). nia.
  - intros [[buf i] u] (Hl & Hi & Hu & Hd & Hz & E) Hnz%Z.ltb_ge. assert (u = 0) as -> by lia.
    destruct (Hz eq_refl) as (H1 & Hne & Hh). simpl. split; [done|]. split; [lia|].
    split; [by split|]. lia.
Qed.

(** A loop that prints the elements of [l] one by one. *)
Lemma for_do_Print `{!Console T} (g : Z → option Z) l : ∀ j (t : T),
  (∀ k, 0 ≤ k < len l → g (j + k) = aget l k) →
  for_do j (j + len l) (λ k t, b ← g k; PutRune b t) t = Print l t.
Proof.
  induction l as [|x l IH]; intros j t Hg.
  { rewrite len_nil. by rewrite for_do_done by lia. }
  pose proof (len_nonneg l). rewrite len_cons in *. rewrite for_do_step by lia.
  pose proof (Hg 0 ltac:(lia)) as H0. rewrite Z.add_0_r, aget_cons_0 in H0. rewrite H0.
  cbn [mbind option_bind Print].
  change (PutRune x t) with (putRune x t).
  destruct (putRune x t) as [t'|]; [|done]. cbn [mbind option_bind].
  replace (j + (1 + len l)) with (j + 1 + len l) by lia. apply IH. intros k Hk.
  replace (j + 1 + k) with (j + (1 + k)) by lia. rewrite Hg by lia.
  unfold aget. destruct (Z.leb_spec 0 (1 + k)); [|lia]. destruct (Z.leb_spec 0 k); [|lia].
  by replace (Z.to_nat (1 + k)) with (S (Z.to_nat k)) by lia.
Qed.

Lemma PrintHex_spec v :
  in_u64 v → ∃ text, hex_numeral text ∧ len text ≤ 16 ∧ hex_val text = v ∧
    ∀ T (H : Console T) (t : T), PrintHex v t = Print (gs "0x" ++ text) t.
Proof.
  intros Hv. unfold PrintHex. destruct (Z.eqb_spec v 0) as [->|Hnz].
  { exists [48]. assert (48 ∈ hexDigits) by (by apply (aget_elem _ 0)).
    split; [split; [by constructor|done]|]. split; [vm_compute; discriminate|]. split; [done|].
    intros T HT t. by rewrite Print_app. }
  destruct (ok_elim _ _ (hex_fill_spec v ltac:(lia))) as ([buf i] & E & Hl & Hi & Hnum & Hval).
  exists (reverse (take (Z.to_nat i) buf)).
  assert (len (reverse (take (Z.to_nat i) buf)) = i) as Hlen.
  { rewrite len_length, length_reverse, <-len_length. apply len_take. lia. }
  split; [done|]. split; [lia|]. split; [done|]. intros T HT t. rewrite Print_app.
  destruct (Print (gs "0x") t) as [t'|]; [|done]. cbn [mbind option_bind]. rewrite E. cbn [mbind option_bind].
  rewrite <-(for_do_Print (λ k, aget buf (i - 1 - k)) (reverse (take (Z.to_nat i) buf)) 0).
  - by rewrite Hlen.
  - rewrite Hlen. intros k Hk. rewrite Z.add_0_l. unfold aget. destruct (Z.leb_spec 0 (i - 1 - k)); [|lia].
    destruct (Z.leb_spec 0 k); [|lia]. symmetry.
    rewrite reverse_lookup by (rewrite length_take; rewrite len_length in Hl; lia).
    rewrite length_take, lookup_take_lt by (rewrite len_length in Hl; lia). f_equal.
    rewrite len_length in Hl. lia.
Qed.

Lemma PrintInt_spec v :
  in_i64 v → ∃ ds, numeral ds ∧ dec_val ds = Z.abs v ∧
    ∀ T (H : Console T) (t : T), PrintInt v t = Print (if v <? 0 then 45 :: ds else ds) t.
Proof.
  intros Hv. destruct (ok_elim _ _ (FormatInt_spec v Hv)) as ([buf s] & E & Hl & Hs & ds & Hn & Hd & Ht).
  exists ds. split; [done|]. split; [done|]. intros T HT t. unfold PrintInt. rewrite E.
  cbn [mbind option_bind]. by rewrite Ht.
Qed.

(** ** Properties *)

(** C31: the VGA terminal is a tape of 2000 cells with a cursor: from any state of the
    screen, [Init] followed by printing any string never writes outside video memory
    and leaves exactly what the tape model gives (characters at the cursor, newline,
    backspace, the oldest line dropped at the end), and the hardware cursor registers
    hold the position of the tape. *)
Theorem terminal_refines_tape `{!PortIO D, !DebugIO D} (t0 : term_state D) (s : list Z)
    (Hgrid : grid_ok (screen t0)) :
  ∃ t, Init t0 ≫= Print s = Some t ∧ term_ok t ∧ cursor_shown t ∧
    tape_of t = foldl (tape_put 7) (Tape (blank_screen 7) 0) s.
Proof.
  destruct (ok_elim _ _ (term_Init_spec t0 Hgrid)) as (t1 & E1 & Hok1 & Hc1 & Hcol & Ht1).
  destruct (ok_elim _ _ (Print_spec s t1 Hok1 Hc1)) as (t & E & Hok & _ & Ht & Hc).
  exists t. rewrite E1. cbn [mbind option_bind]. rewrite Hcol, Ht1 in Ht. done.
Qed.

(** [PrintInt] is exact on every 64-bit integer, the smallest included: on any
    console it prints an optional minus sign and the decimal numeral of the absolute
    value, without leading zeros, and never overruns its 20-byte buffer. *)
Theorem PrintInt_roundtrip (v : Z) (Hv : in_i64 v) :
  ∃ ds, numeral ds ∧ dec_val ds = Z.abs v ∧
    ∀ T (H : Console T) (t : T), PrintInt v t = Print (if v <? 0 then 45 :: ds else ds) t.
Proof. by apply PrintInt_spec. Qed.

(** [PrintHex] is exact on every 64-bit value: on any console it prints [0x] and the
    hexadecimal numeral of the value, at most 16 digits, without leading zeros. *)
Theorem PrintHex_roundtrip (v : Z) (Hv : in_u64 v) :
  ∃ text, hex_numeral text ∧ len text ≤ 16 ∧ hex_val text = v ∧
    ∀ T (H : Console T) (t : T), PrintHex v t = Print (gs "0x" ++ text) t.
Proof. by apply PrintHex_spec. Qed.

(** *** Witnesses *)
Definition demo_screen : list (list vcell) := replicate 25 (replicate 80 (0, 0)).
Definition demo_term : term_state recorder :=
  TermState 0 0 0 false demo_screen (Recorder [] []).

Lemma demo_grid : grid_ok demo_screen.
Proof.
  split; [apply (len_replicate 25)|]. intros r line. unfold aget. destruct (0 <=? r); [|done].
  intros [-> _]%lookup_replicate_1. apply (len_replicate 80).
Qed.

Lemma terminal_refines_tape_witness :
  ∃ t, Init demo_term ≫= Print (gs "ok") = Some t ∧ term_ok t ∧ cursor_shown t ∧
    tape_of t = foldl (tape_put 7) (Tape (blank_screen 7) 0) (gs "ok").
Proof. exact (terminal_refines_tape demo_term (gs "ok") demo_grid). Defined.

Lemma PrintInt_roundtrip_witness :
  ∃ ds, numeral ds ∧ dec_val ds = Z.abs (- 2 ^ 63) ∧
    ∀ T (H : Console T) (t : T), PrintInt (- 2 ^ 63) t = Print (if - 2 ^ 63 <? 0 then 45 :: ds else ds) t.
Proof. apply (PrintInt_roundtrip (- 2 ^ 63)). unfold in_i64. lia. Defined.

Lemma PrintHex_roundtrip_witness :
  ∃ text, hex_numeral text ∧ len text ≤ 16 ∧ hex_val text = 0xB8000 ∧
    ∀ T (H : Console T) (t : T), PrintHex 0xB8000 t = Print (gs "0x" ++ text) t.
Proof. apply (PrintHex_roundtrip 0xB8000). lia. Defined.

Example demo_numbers :
  PrintInt (-9223372036854775808) ([] : list Z) = Some (gs "-9223372036854775808") ∧
  PrintHex 0xB8000 ([] : list Z) = Some (gs "0xB8000").
Proof. vm_compute. done. Qed.
