(* ===== verification/Serial.v ===== *)
(** * Package [serial]: the frame codec and the exchange over COM1

    [src/serial/frame.go] (frames, their encoder and the byte-at-a-time decoder),
    [src/serial/transport.go] (one request, one response) and [src/serial/io_gccgo.go]
    (the UART).  The UART is reached through [PortIO]. *)
From S2P Require Import Prelude PortIO.
Local Open Scope Z_scope.

(** ** frame.go *)
Definition FrameVersion : Z := 1.
Definition MaxRequestPayload : Z := 2048.
Definition MaxResponsePayload : Z := 1024.
Definition MaxPayload : Z := MaxRequestPayload.
Definition frameHeaderSize : Z := 6.
Definition frameTrailerSize : Z := 2.
Definition MaxFrameSize : Z := frameHeaderSize + MaxPayload + frameTrailerSize.
Definition frameMagicFirst : Z := 68.
Definition frameMagicSecond : Z := 86.

(** [type FrameKind uint8]: any byte can be converted to it. *)
Abbreviation FrameKind := Z (only parsing).
Definition FrameRequest : FrameKind := 1.
Definition FrameResponse : FrameKind := 2.

Inductive Result :=
  | ResultOK
  | ResultNeedMore
  | ResultInvalidPayload
  | ResultPortUnavailable
  | ResultWriteTimeout
  | ResultReadTimeout
  | ResultPartialFrame
  | ResultMalformedFrame
  | ResultOversizedFrame
  | ResultUnexpectedFrame.

#[export] Instance Result_eq_dec : EqDecision Result.
Proof. solve_decision. Defined.

Record Frame := MkFrame {
  Kind : FrameKind;
  Payload : list Z;
  Length : Z;
}.

(** The decoder's states; [decodeOther] is any other value of the byte. *)
Inductive decode_state :=
  | decodeMagicFirst
  | decodeMagicSecond
  | decodeVersion
  | decodeKind
  | decodeLengthHigh
  | decodeLengthLow
  | decodePayload
  | decodeChecksumHigh
  | decodeChecksumLow
  | decodeOther.

Record Decoder := MkDecoder {
  frame : Frame;
  state : decode_state;
  checksum : Z;
  receivedCRC : Z;
  payloadRead : Z;
}.

Definition valid (kind : FrameKind) : bool := (kind =? FrameRequest) || (kind =? FrameResponse).

Definition maxPayload (kind : FrameKind) : Z :=
  if kind =? FrameResponse then MaxResponsePayload else MaxRequestPayload.

Definition crc_step (checksum : Z) : Z :=
  if negb (Z.land checksum 0x8000 =? 0) then Z.lxor (u16 (Z.shiftl checksum 1)) 0x1021
  else u16 (Z.shiftl checksum 1).

Definition updateChecksum (checksum value : Z) : Z :=
  Nat.iter 8 crc_step (Z.lxor checksum (u16 (Z.shiftl value 8))).

(** [None] for a nil pointer; the output array comes back with the result. *)
Definition Encode (kind : FrameKind) (payload : option (list Z)) (payloadLen : Z)
    (output : option (list Z)) : option (Z * Result * option (list Z)) :=
  match output with
  | None => Some (0, ResultInvalidPayload, output)
  | Some out =>
      if (payloadLen <? 0) || (bool_decide (payload = None) && negb (payloadLen =? 0)) then
        Some (0, ResultInvalidPayload, output)
      else if negb (valid kind) then Some (0, ResultMalformedFrame, output)
      else if (MaxPayload <? payloadLen) || (maxPayload kind <? payloadLen) then
        Some (0, ResultOversizedFrame, output)
      else
        out ← aset out 0 frameMagicFirst;
        out ← aset out 1 frameMagicSecond;
        out ← aset out 2 FrameVersion;
        out ← aset out 3 (u8 kind);
        out ← aset out 4 (u8 (Z.shiftr payloadLen 8));
        out ← aset out 5 (u8 payloadLen);
        checksum ← for_do 2 frameHeaderSize
          (λ i c, b ← aget out i; Some (updateChecksum c b)) 0xFFFF;
        r ← for_do 0 payloadLen
          (λ i '(out, c),
             p ← payload; b ← aget p i;
             out ← aset out (frameHeaderSize + i) b;
             Some (out, updateChecksum c b)) (out, checksum);
        let '(out, checksum) := r in
        let checksumOffset := frameHeaderSize + payloadLen in
        out ← aset out checksumOffset (u8 (Z.shiftr checksum 8));
        out ← aset out (checksumOffset + 1) (u8 checksum);
        Some (checksumOffset + frameTrailerSize, ResultOK, Some out)
  end.

Definition Reset (d : Decoder) : Decoder :=
  MkDecoder (MkFrame 0 (Payload (frame d)) 0) decodeMagicFirst 0xFFFF 0 0.

Definition set_state (s : decode_state) (d : Decoder) : Decoder :=
  MkDecoder (frame d) s (checksum d) (receivedCRC d) (payloadRead d).
Definition set_frame (f : Frame) (d : Decoder) : Decoder :=
  MkDecoder f (state d) (checksum d) (receivedCRC d) (payloadRead d).
Definition set_checksum (c : Z) (d : Decoder) : Decoder :=
  MkDecoder (frame d) (state d) c (receivedCRC d) (payloadRead d).
Definition set_receivedCRC (c : Z) (d : Decoder) : Decoder :=
  MkDecoder (frame d) (state d) (checksum d) c (payloadRead d).
Definition set_payloadRead (n : Z) (d : Decoder) : Decoder :=
  MkDecoder (frame d) (state d) (checksum d) (receivedCRC d) n.

Definition set_kind (k : FrameKind) (f : Frame) : Frame := MkFrame k (Payload f) (Length f).
Definition set_payload (p : list Z) (f : Frame) : Frame := MkFrame (Kind f) p (Length f).
Definition set_length (n : Z) (f : Frame) : Frame := MkFrame (Kind f) (Payload f) n.

Definition Push (value : Z) (d : Decoder) : option (Result * Decoder) :=
  match state d with
  | decodeMagicFirst =>
      if negb (value =? frameMagicFirst) then Some (ResultMalformedFrame, Reset d)
      else Some (ResultNeedMore, set_state decodeMagicSecond d)
  | decodeMagicSecond =>
      if negb (value =? frameMagicSecond) then Some (ResultMalformedFrame, Reset d)
      else Some (ResultNeedMore, set_state decodeVersion d)
  | decodeVersion =>
      if negb (value =? FrameVersion) then Some (ResultMalformedFrame, Reset d)
      else
        let d := set_checksum (updateChecksum (checksum d) value) d in
        Some (ResultNeedMore, set_state decodeKind d)
  | decodeKind =>
      let d := set_frame (set_kind value (frame d)) d in
      if negb (valid (Kind (frame d))) then Some (ResultMalformedFrame, Reset d)
      else
        let d := set_checksum (updateChecksum (checksum d) value) d in
        Some (ResultNeedMore, set_state decodeLengthHigh d)
  | decodeLengthHigh =>
      let d := set_frame (set_length (Z.shiftl value 8) (frame d)) d in
      let d := set_checksum (updateChecksum (checksum d) value) d in
      Some (ResultNeedMore, set_state decodeLengthLow d)
  | decodeLengthLow =>
      let d := set_frame (set_length (Z.lor (Length (frame d)) value) (frame d)) d in
      let d := set_checksum (updateChecksum (checksum d) value) d in
      if maxPayload (Kind (frame d)) <? Length (frame d) then Some (ResultOversizedFrame, Reset d)
      else if Length (frame d) =? 0 then Some (ResultNeedMore, set_state decodeChecksumHigh d)
      else Some (ResultNeedMore, set_state decodePayload d)
  | decodePayload =>
      p ← aset (Payload (frame d)) (payloadRead d) value;
      let d := set_frame (set_payload p (frame d)) d in
      let d := set_payloadRead (payloadRead d + 1) d in
      let d := set_checksum (updateChecksum (checksum d) value) d in
      if payloadRead d =? Length (frame d) then
        Some (ResultNeedMore, set_state decodeChecksumHigh d)
      else Some (ResultNeedMore, d)
  | decodeChecksumHigh =>
      let d := set_receivedCRC (u16 (Z.shiftl value 8)) d in
      Some (ResultNeedMore, set_state decodeChecksumLow d)
  | decodeChecksumLow =>
      let d := set_receivedCRC (Z.lor (receivedCRC d) value) d in
      if negb (receivedCRC d =? checksum d) then Some (ResultMalformedFrame, Reset d)
      else Some (ResultOK, d)
  | decodeOther => Some (ResultMalformedFrame, Reset d)
  end.

(** ** transport.go and io_gccgo.go *)
Definition maxPortPolls : Z := 1000000.
Definition com1Base : Z := 0x3F8.
Definition lineStatusPort : Z := com1Base + 5.
Definition dataReady : Z := 1.
Definition transmitReady : Z := 32.

Section io.
Context {D : Type} `{!PortIO D}.

Definition initPort (d : D) : bool * D :=
  let d := outs [(com1Base + 1, 0x00); (com1Base + 3, 0x80); (com1Base, 0x03);
                 (com1Base + 1, 0x00); (com1Base + 3, 0x03); (com1Base + 2, 0xC7);
                 (com1Base + 4, 0x1E); (com1Base, 0xAE)] d in
  let '(v, d) := inb com1Base d in
  if negb (v =? 0xAE) then (false, d)
  else (true, outb (com1Base + 4) 0x0F d).

Definition tryWriteByte (value : Z) (d : D) : bool * D :=
  let '(s, d) := inb lineStatusPort d in
  if Z.land s transmitReady =? 0 then (false, d) else (true, outb com1Base value d).

(** [None] is the second result [false]. *)
Definition tryReadByte (d : D) : option Z * D :=
  let '(s, d) := inb lineStatusPort d in
  if Z.land s dataReady =? 0 then (None, d)
  else let '(v, d) := inb com1Base d in (Some v, d).

Definition drainInput (d : D) : option D :=
  loop_end
    (for_range 0 (MaxFrameSize * 2)
       (λ _ d, match tryReadByte d with
               | (None, d) => Some (inr d)
               | (Some _, d) => Some (inl d)
               end) d)
    Some.

(** The package variables and the hardware. *)
Record serial_state := SerialState {
  encodedRequest : list Z;
  responseDecoder : Decoder;
  dev : D;
}.

Definition send_frame (buf : list Z) (frameLen : Z) (d : D) : option (Z * D) :=
  loop_end
    (for_range 0 maxPortPolls
       (λ _ '(written, d),
          if written <? frameLen then
            b ← aget buf written;
            let '(sent, d) := tryWriteByte b d in
            Some (inl (if sent : bool then written + 1 else written, d))
          else Some (inr (written, d))) (0, d))
    Some.

(** The receive loop: it leaves with the outcome of the frame ([Some]) or runs out of
    polls having seen [bytesRead] bytes ([None]). *)
Definition recv_frame (dec : Decoder) (response : list Z) (d : D)
    : option (option (Z * Result) * Z * list Z * Decoder * D) :=
  loop_end
    (for_range 0 maxPortPolls
       (λ _ '(bytesRead, dec, d),
          match tryReadByte d with
          | (None, d) => Some (inl (bytesRead, dec, d))
          | (Some value, d) =>
              let bytesRead := bytesRead + 1 in
              r ← Push value dec;
              let '(result, dec) := r in
              if decide (result = ResultNeedMore) then Some (inl (bytesRead, dec, d))
              else if decide (result ≠ ResultOK) then
                Some (inr (Some (0, result), bytesRead, response, dec, d))
              else
                if negb (Kind (frame dec) =? FrameResponse) then
                  Some (inr (Some (0, ResultUnexpectedFrame), bytesRead, response, dec, d))
                else
                  resp ← copy_into (Payload (frame dec)) 0 (Length (frame dec)) response;
                  Some (inr (Some (Length (frame dec), ResultOK), bytesRead, resp, dec, d))
          end) (0, dec, d))
    (λ '(bytesRead, dec, d), Some (None, bytesRead, response, dec, d)).

Definition Exchange (request : option (list Z)) (requestLen : Z) (response : option (list Z))
    (st : serial_state) : option (Z * Result * option (list Z) * serial_state) :=
  match response with
  | None => Some (0, ResultInvalidPayload, response, st)
  | Some resp =>
      r ← Encode FrameRequest request requestLen (Some (encodedRequest st));
      let '(frameLen, result, out) := r in
      let buf := default (encodedRequest st) out in
      let st := SerialState buf (responseDecoder st) (dev st) in
      if decide (result ≠ ResultOK) then Some (0, result, response, st)
      else
        let '(ready, d) := initPort (dev st) in
        if negb ready then
          Some (0, ResultPortUnavailable, response, SerialState buf (responseDecoder st) d)
        else
          d ← drainInput d;
          w ← send_frame buf frameLen d;
          let '(written, d) := w in
          if negb (written =? frameLen) then
            Some (0, ResultWriteTimeout, response, SerialState buf (responseDecoder st) d)
          else
            rx ← recv_frame (Reset (responseDecoder st)) resp d;
            let '(outcome, bytesRead, resp, dec, d) := rx in
            let st := SerialState buf dec d in
            match outcome with
            | Some (n, result) => Some (n, result, Some resp, st)
            | None =>
                if negb (bytesRead =? 0) then Some (0, ResultPartialFrame, Some resp, st)
                else Some (0, ResultReadTimeout, Some resp, st)
            end
  end.
End io.
Arguments serial_state D : clear implicits.

(** ** The frame format *)
Definition crc (c : Z) (bs : list Z) : Z := foldl updateChecksum c bs.

(** The bytes covered by the checksum. *)
Definition checked (kind : FrameKind) (p : list Z) : list Z :=
  [FrameVersion; kind; len p / 256; len p `mod` 256] ++ p.

Definition frame_bytes (kind : FrameKind) (p : list Z) : list Z :=
  let c := crc 0xFFFF (checked kind p) in
  [frameMagicFirst; frameMagicSecond] ++ checked kind p ++ [c / 256; c `mod` 256].

(** A kind and a payload that make a frame. *)
Definition sendable (kind : FrameKind) (p : list Z) : Prop :=
  valid kind = true ∧ len p ≤ maxPayload kind ∧ Forall (λ b, in_u8 b) p.

Lemma valid_kind kind : valid kind = true ↔ kind = 1 ∨ kind = 2.
Proof.
  unfold valid, FrameRequest, FrameResponse. rewrite orb_true_iff, !Z.eqb_eq. done.
Qed.

Lemma maxPayload_bound kind : 0 ≤ maxPayload kind ≤ 2048.
Proof. unfold maxPayload, MaxResponsePayload, MaxRequestPayload. cmp; lia. Qed.

Lemma crc_app c b1 b2 : crc c (b1 ++ b2) = crc (crc c b1) b2.
Proof. apply foldl_app. Qed.

(** *** The checksum *)
Lemma lxor_u16 x y : in_u16 x → in_u16 y → in_u16 (Z.lxor x y).
Proof.
  intros Hx Hy. rewrite <-(u16_small x), <-(u16_small y) by done.
  replace (Z.lxor (u16 x) (u16 y)) with (u16 (Z.lxor x y)); [apply u16_range|].
  apply Z.bits_inj'; intros i Hi. unfold u16. rewrite Z.lxor_spec, !wrap_testbit, Z.lxor_spec by lia.
  by case_bool_decide.
Qed.

Lemma crc_step_u16 c : in_u16 (crc_step c).
Proof.
  unfold crc_step. destruct (negb _); [|apply u16_range].
  apply lxor_u16; [apply u16_range|lia].
Qed.

(** One round of the polynomial division, bit by bit. *)
Lemma crc_step_bit c i :
  0 ≤ i < 16 →
  Z.testbit (crc_step c) i =
    xorb (bool_decide (0 < i) && Z.testbit c (i - 1)) (Z.testbit c 15 && Z.testbit 0x1021 i).
Proof.
  intros Hi. unfold crc_step. change 0x8000 with (2 ^ 15). rewrite testbit_land_pow2 by lia.
  rewrite negb_involutive. assert (Z.testbit (u16 (Z.shiftl c 1)) i =
    bool_decide (0 < i) && Z.testbit c (i - 1)) as E.
  { unfold u16. rewrite wrap_testbit, Z.shiftl_spec by lia. rewrite bool_decide_eq_true_2 by lia.
    case_bool_decide; [done|]. simpl. by rewrite Z.testbit_neg_r by lia. }
  destruct (Z.testbit c 15); [rewrite Z.lxor_spec|]; rewrite E; [done|]. simpl. by rewrite xorb_false_r.
Qed.

Lemma u16_ext x y : in_u16 x → in_u16 y → (∀ i, 0 ≤ i < 16 → Z.testbit x i = Z.testbit y i) → x = y.
Proof.
  intros Hx Hy Hb. rewrite <-(u16_small x), <-(u16_small y) by done.
  apply Z.bits_inj'; intros i Hi. unfold u16. rewrite !wrap_testbit by lia.
  case_bool_decide; [|done]. simpl. apply Hb. lia.
Qed.

Lemma crc_step_inj x y : in_u16 x → in_u16 y → crc_step x = crc_step y → x = y.
Proof.
  intros Hx Hy E.
  assert (∀ i, 0 ≤ i < 16 → Z.testbit (crc_step x) i = Z.testbit (crc_step y) i) as Hb
    by (intros; by rewrite E).
  assert (Z.testbit x 15 = Z.testbit y 15) as E15.
  { specialize (Hb 0 ltac:(lia)). rewrite !crc_step_bit in Hb by lia. simpl in Hb.
    by rewrite !andb_true_r in Hb. }
  apply u16_ext; [done..|]. intros i Hi. destruct (decide (i = 15)) as [->|]; [done|].
  specialize (Hb (i + 1) ltac:(lia)). rewrite !crc_step_bit, E15 in Hb by lia.
  rewrite !bool_decide_eq_true_2 in Hb by lia. simpl in Hb.
  replace (i + 1 - 1) with i in Hb by lia.
  apply (f_equal (λ b, xorb b (Z.testbit y 15 && Z.testbit 0x1021 (i + 1)))) in Hb.
  by rewrite !xorb_assoc, xorb_nilpotent, !xorb_false_r in Hb.
Qed.

Lemma crc_iter_inj n x y :
  in_u16 x → in_u16 y → Nat.iter n crc_step x = Nat.iter n crc_step y → x = y.
Proof.
  intros Hx Hy. induction n as [|n IH]; [done|]. rewrite !Nat.iter_succ. intros E. apply IH.
  assert (∀ z k, in_u16 z → in_u16 (Nat.iter k crc_step z)) as Hr.
  { intros z k Hz. induction k as [|k IHk]; [done|]. rewrite Nat.iter_succ. apply crc_step_u16. }
  by apply crc_step_inj in E; [|apply Hr..].
Qed.

Lemma updateChecksum_u16 c b : in_u16 (updateChecksum c b).
Proof. apply crc_step_u16. Qed.

Lemma shl8_u16 b : in_u8 b → u16 (Z.shiftl b 8) = b * 256.
Proof. intros. rewrite Z.shiftl_mul_pow2 by lia. apply u16_small. lia. Qed.

(** A different byte gives a different checksum. *)
Lemma updateChecksum_inj_byte c b b' :
  in_u16 c → in_u8 b → in_u8 b' → updateChecksum c b = updateChecksum c b' → b = b'.
Proof.
  intros Hc Hb Hb' E. unfold updateChecksum in E. rewrite !shl8_u16 in E by done.
  apply crc_iter_inj in E; [|apply lxor_u16; lia..].
  apply (f_equal (Z.lxor c)) in E. rewrite <-!Z.lxor_assoc, Z.lxor_nilpotent, !Z.lxor_0_l in E. lia.
Qed.

Lemma updateChecksum_inj_crc c c' b :
  in_u16 c → in_u16 c' → in_u8 b → updateChecksum c b = updateChecksum c' b → c = c'.
Proof.
  intros Hc Hc' Hb E. unfold updateChecksum in E. rewrite !shl8_u16 in E by done.
  apply crc_iter_inj in E; [|apply lxor_u16; lia..].
  apply (f_equal (λ z, Z.lxor z (b * 256))) in E.
  by rewrite !Z.lxor_assoc, Z.lxor_nilpotent, !Z.lxor_0_r in E.
Qed.

Lemma crc_u16 c bs : in_u16 c → in_u16 (crc c bs).
Proof.
  revert c; induction bs as [|b bs IH]; intros c Hc; [done|]. apply IH, updateChecksum_u16.
Qed.

Lemma crc_inj c c' bs :
  in_u16 c → in_u16 c' → Forall (λ b, in_u8 b) bs → crc c bs = crc c' bs → c = c'.
Proof.
  revert c c'; induction bs as [|b bs IH]; intros c c' Hc Hc' Hbs E; [done|].
  inversion_clear Hbs. apply IH in E; [|apply updateChecksum_u16..|done].
  by eapply updateChecksum_inj_crc.
Qed.

(** One corrupted byte always changes the checksum. *)
Lemma crc_detects c pre b b' post :
  in_u16 c → in_u8 b → in_u8 b' → b ≠ b' → Forall (λ b, in_u8 b) post →
  crc c (pre ++ b :: post) ≠ crc c (pre ++ b' :: post).
Proof.
  intros Hc Hb Hb' Hne Hpost. rewrite !crc_app. simpl. intros E.
  apply crc_inj in E; [|apply updateChecksum_u16..|done].
  apply updateChecksum_inj_byte in E; [done|by apply crc_u16|done..].
Qed.

(** *** The encoder *)
Definition header (kind n : Z) : list Z :=
  [frameMagicFirst; frameMagicSecond; FrameVersion; kind; n / 256; n `mod` 256].

Lemma header_bytes n : 0 ≤ n ≤ 2048 → u8 (Z.shiftr n 8) = n / 256 ∧ u8 n = n `mod` 256.
Proof.
  intros Hn. rewrite Z.shiftr_div_pow2 by lia. split; [|done]. apply u8_small.
  change (2 ^ 8) with 256. split; [apply Z.div_pos; lia|]. apply Z.div_lt_upper_bound; lia.
Qed.

(** The six header stores. *)
Lemma write_header (out : list Z) kind n (k : list Z → option (Z * Result * option (list Z))) Q :
  len out = MaxFrameSize → valid kind = true → 0 ≤ n ≤ 2048 →
  (∀ rest, len rest = MaxFrameSize - 6 → ok (k (header kind n ++ rest)) Q) →
  ok (out ← aset out 0 frameMagicFirst;
      out ← aset out 1 frameMagicSecond;
      out ← aset out 2 FrameVersion;
      out ← aset out 3 (u8 kind);
      out ← aset out 4 (u8 (Z.shiftr n 8));
      out ← aset out 5 (u8 n);
      k out) Q.
Proof.
  intros Hlen Hk Hn HQ. destruct (header_bytes n Hn) as [-> ->].
  apply valid_kind in Hk. rewrite (u8_small kind) by lia.
  unfold MaxFrameSize, frameHeaderSize, MaxPayload, MaxRequestPayload, frameTrailerSize in *.
  destruct out as [|b0 [|b1 [|b2 [|b3 [|b4 [|b5 rest]]]]]]; try (autorewrite with go in Hlen; lia).
  rewrite aset_Some by (pose proof (len_nonneg rest); len_lia). simpl.
  do 5 (rewrite aset_Some by (pose proof (len_nonneg rest); len_lia); simpl).
  apply (HQ rest). len_lia.
Qed.

Local Opaque updateChecksum.

Lemma header_crc kind n rest :
  for_do 2 frameHeaderSize (λ i c, b ← aget (header kind n ++ rest) i; Some (updateChecksum c b)) 0xFFFF
  = Some (crc 0xFFFF [FrameVersion; kind; n / 256; n `mod` 256]).
Proof.
  unfold frameHeaderSize. rewrite for_do_step by lia.
  change (aget (header kind n ++ rest) 2) with (Some FrameVersion). cbn [mbind option_bind].
  rewrite for_do_step by lia. change (aget (header kind n ++ rest) (2 + 1)) with (Some kind).
  cbn [mbind option_bind]. rewrite for_do_step by lia.
  change (aget (header kind n ++ rest) (2 + 1 + 1)) with (Some (n / 256)).
  cbn [mbind option_bind]. rewrite for_do_step by lia.
  change (aget (header kind n ++ rest) (2 + 1 + 1 + 1)) with (Some (n `mod` 256)).
  cbn [mbind option_bind]. by rewrite for_do_done by lia.
Qed.


Lemma write_payload (h p rest : list Z) (c n : Z) :
  len h = 6 → 0 ≤ n ≤ len p → n ≤ len rest →
  ok (for_do 0 n
        (λ i '(out, c),
           p ← Some p; b ← aget p i;
           out ← aset out (frameHeaderSize + i) b;
           Some (out, updateChecksum c b)) (h ++ rest, c))
     (λ '(out, c'), c' = crc c (take (Z.to_nat n) p) ∧
        ∃ rest', out = h ++ take (Z.to_nat n) p ++ rest' ∧ len rest' = len rest - n).
Proof.
  intros Hh Hp Hr.
  apply (for_do_ok (λ i '(out, c'), c' = crc c (take (Z.to_nat i) p) ∧
        ∃ rest', out = h ++ take (Z.to_nat i) p ++ rest' ∧ len rest' = len rest - i)); [lia| | |done].
  - split; [done|]. exists rest. split; [done|lia].
  - intros i [out c'] Hi (-> & rest' & -> & Hr').
    destruct (aget_Some p i) as [b Hb]; [lia|]. simpl. rewrite Hb. simpl.
    rewrite app_assoc, aset_snoc; [|rewrite len_app, len_take by lia; unfold frameHeaderSize; lia|lia].
    simpl. rewrite (take_S_aget p i b) by (done || lia). split; [by rewrite crc_app|].
    exists (tail rest'). split; [by rewrite <-!app_assoc|]. rewrite len_tail by lia. lia.
Qed.

Lemma crc_bytes c : in_u16 c → u8 (Z.shiftr c 8) = c / 256 ∧ u8 c = c `mod` 256.
Proof.
  intros Hc. rewrite Z.shiftr_div_pow2 by lia. split; [|done]. apply u8_small.
  change (2 ^ 8) with 256. split; [apply Z.div_pos; lia|]. apply Z.div_lt_upper_bound; lia.
Qed.

Lemma u16_bytes c : in_u16 c → in_u8 (c / 256) ∧ in_u8 (c `mod` 256).
Proof.
  intros Hc. split; [|apply Z.mod_pos_bound; lia].
  split; [apply Z.div_pos; lia|]. apply Z.div_lt_upper_bound; lia.
Qed.

Lemma Encode_spec kind p n out :
  valid kind = true → 0 ≤ n ≤ maxPayload kind → n ≤ len p → len out = MaxFrameSize →
  ok (Encode kind (Some p) n (Some out))
     (λ '(k, r, o), k = n + 8 ∧ r = ResultOK ∧ ∃ rest,
        o = Some (frame_bytes kind (take (Z.to_nat n) p) ++ rest) ∧ len rest = MaxPayload - n).
Proof.
  intros Hk Hn Hp Hout. pose proof (maxPayload_bound kind). unfold Encode.
  rewrite Hk, bool_decide_eq_false_2 by done. cbn [andb]. rewrite orb_false_r.
  unfold MaxPayload, MaxRequestPayload. cmp.
  apply write_header; [done|done|lia|]. intros rest Hrest. rewrite header_crc. cbn [mbind option_bind].
  unfold MaxFrameSize, frameHeaderSize, MaxPayload, MaxRequestPayload, frameTrailerSize in *.
  call (write_payload (header kind n) p rest); [done|lia|lia|].
  intros [out' c] (-> & rest' & -> & Hrest'). set (q := take (Z.to_nat n) p) in *.
  assert (len q = n) as Hq by (apply len_take; lia).
  rewrite <-(crc_app 0xFFFF).
  set (c := crc 0xFFFF _). assert (in_u16 c) as Hc by (apply crc_u16; lia).
  destruct (crc_bytes c Hc) as [-> ->].
  assert (len (header kind n) = 6) as Hh by done.
  rewrite app_assoc. rewrite aset_snoc by (rewrite ?len_app; lia). cbn [mbind option_bind].
  rewrite aset_snoc; [|rewrite !len_app, Hh, Hq; done|rewrite len_tail; lia].
  cbn [mbind option_bind ok]. split; [lia|]. split; [done|]. exists (tail (tail rest')). split.
  - f_equal. unfold frame_bytes, checked. rewrite Hq. rewrite <-!app_assoc. done.
  - rewrite !len_tail; rewrite ?len_tail; lia.
Qed.

(** *** The decoder *)

(** The decoder over a stream: bytes are pushed until a frame ends or is rejected; the
    rest of the stream is left alone. *)
Fixpoint feed (d : Decoder) (bs : list Z) : option (Result * Decoder * list Z) :=
  match bs with
  | [] => Some (ResultNeedMore, d, [])
  | b :: bs =>
      r ← Push b d;
      let '(result, d) := r in
      if decide (result = ResultNeedMore) then feed d bs else Some (result, d, bs)
  end.

Lemma feed_more d d' b bs : Push b d = Some (ResultNeedMore, d') → feed d (b :: bs) = feed d' bs.
Proof. intros E. simpl. by rewrite E. Qed.

(** The memory safety invariant of a decoder, whatever bytes it was given. *)
Definition dec_inv (d : Decoder) : Prop :=
  len (Payload (frame d)) = MaxPayload ∧
  match state d with
  | decodeMagicFirst | decodeMagicSecond | decodeVersion | decodeKind => payloadRead d = 0
  | decodeLengthHigh => payloadRead d = 0 ∧ valid (Kind (frame d)) = true
  | decodeLengthLow =>
      payloadRead d = 0 ∧ valid (Kind (frame d)) = true ∧
      ∃ h, in_u8 h ∧ Length (frame d) = Z.shiftl h 8
  | decodePayload =>
      valid (Kind (frame d)) = true ∧
      0 ≤ payloadRead d < Length (frame d) ∧ Length (frame d) ≤ maxPayload (Kind (frame d))
  | decodeChecksumHigh | decodeChecksumLow =>
      valid (Kind (frame d)) = true ∧
      0 ≤ payloadRead d ∧ payloadRead d = Length (frame d) ∧
      Length (frame d) ≤ maxPayload (Kind (frame d))
  | decodeOther => True
  end.

Lemma Reset_inv d : len (Payload (frame d)) = MaxPayload → dec_inv (Reset d).
Proof. by split. Qed.

(** A length assembled from its two bytes. *)
Lemma length_of_bytes h l : in_u8 h → in_u8 l → Z.lor (Z.shiftl h 8) l = h * 256 + l.
Proof. intros. apply (lor_shiftl_add h l 8); lia. Qed.

(** What [Push] guarantees: the invariant, a bounded frame when it accepts, and a
    decoder ready for the next frame when it rejects. *)
Definition push_post (o : Result * Decoder) : Prop :=
  let '(r, d) := o in
  dec_inv d ∧
  (r = ResultOK → valid (Kind (frame d)) = true ∧
     0 ≤ Length (frame d) ≤ maxPayload (Kind (frame d))) ∧
  (r = ResultOK ∨ r = ResultNeedMore ∨ d = Reset d).

Lemma push_more d : dec_inv d → push_post (ResultNeedMore, d).
Proof. intros. split; [done|]. split; [done|]. by right; left. Qed.

Lemma push_reject r d :
  r ≠ ResultOK → len (Payload (frame d)) = MaxPayload → push_post (r, Reset d).
Proof. intros Hr Hp. split; [by apply Reset_inv|]. split; [done|]. by right; right. Qed.

Lemma Push_inv d v : dec_inv d → in_u8 v → ok (Push v d) push_post.
Proof.
  destruct d as [[k p n] s c rc pr]. intros [Hp Hs] Hv. unfold Push. simpl in *.
  pose proof (maxPayload_bound k). destruct s.
  1-3: destruct (negb _); [by apply push_reject|by apply push_more].
  - simpl. destruct (valid v) eqn:E; [by apply push_more|by apply push_reject].
  - apply push_more. destruct Hs. split; [done|]. simpl. by eauto.
  - destruct Hs as (-> & Hk & h & Hh & ->). simpl. rewrite length_of_bytes by done.
    cmp; [by apply push_reject| |]; apply push_more; (split; [done|]); simpl; (split; [done|lia]).
  - destruct Hs as (Hk & Hpr & Hn).
    rewrite aset_Some by (unfold MaxPayload, MaxRequestPayload in Hp; lia). simpl.
    cmp; apply push_more; (split; simpl; [by rewrite len_insert|]); (split; [done|lia]).
  - apply push_more. by split.
  - simpl. destruct (negb _); [by apply push_reject|]. destruct Hs as (? & ? & ? & ?).
    split; [by split|]. split; [|by auto]. intros _. simpl. split; [done|lia].
  - by apply push_reject.
Qed.

(** **** Every frame is accepted *)
Lemma feed_payload q : ∀ k P n c rc i tl,
  len P = MaxPayload → 0 ≤ i → 0 < len q → i + len q = n → n ≤ MaxPayload →
  ∃ P', len P' = MaxPayload ∧ take (Z.to_nat n) P' = take (Z.to_nat i) P ++ q ∧
    feed (MkDecoder (MkFrame k P n) decodePayload c rc i) (q ++ tl) =
    feed (MkDecoder (MkFrame k P' n) decodeChecksumHigh (crc c q) rc n) tl.
Proof.
  induction q as [|b q IH]; intros k P n c rc i tl HP Hi Hq Hn Hmax; [len_lia|].
  rewrite len_cons in *. pose proof (len_nonneg q).
  set (P1 := <[Z.to_nat i := b]> P).
  assert (len P1 = MaxPayload) as HP1 by (unfold P1; by rewrite len_insert).
  assert (take (Z.to_nat (i + 1)) P1 = take (Z.to_nat i) P ++ [b]) as Ht.
  { rewrite (take_S_aget P1 i b); [|lia|].
    - f_equal. apply take_insert_ge. lia.
    - unfold P1. rewrite aget_insert by lia. by rewrite decide_True by lia. }
  assert (Push b (MkDecoder (MkFrame k P n) decodePayload c rc i) =
    Some (ResultNeedMore, if i + 1 =? n
      then MkDecoder (MkFrame k P1 n) decodeChecksumHigh (updateChecksum c b) rc (i + 1)
      else MkDecoder (MkFrame k P1 n) decodePayload (updateChecksum c b) rc (i + 1))) as Hpush.
  { unfold Push. simpl. rewrite aset_Some by lia. simpl. by destruct (i + 1 =? n). }
  simpl app. rewrite (feed_more _ _ _ _ Hpush). destruct (Z.eqb_spec (i + 1) n) as [E|E].
  - assert (q = []) as -> by (apply len_0_nil; lia). exists P1. rewrite <-E. done.
  - destruct (IH k P1 n (updateChecksum c b) rc (i + 1) tl) as (P' & HP' & Ht' & Hf); try done; try lia.
    exists P'. split; [done|]. split; [|done]. rewrite Ht', Ht. by rewrite <-app_assoc.
Qed.

Lemma frame_bytes_cons k p :
  frame_bytes k p = frameMagicFirst :: frameMagicSecond :: FrameVersion :: k ::
    len p / 256 :: len p `mod` 256 :: p ++
    [crc 0xFFFF (checked k p) / 256; crc 0xFFFF (checked k p) `mod` 256].
Proof. done. Qed.

Lemma len_frame_bytes k p : len (frame_bytes k p) = len p + 8.
Proof. rewrite frame_bytes_cons. autorewrite with go. lia. Qed.

(** The decoder after the header of a frame of [n] payload bytes. *)
Definition after_header (P : list Z) (k n : Z) : Decoder :=
  MkDecoder (MkFrame k P n) (if n =? 0 then decodeChecksumHigh else decodePayload)
    (crc 0xFFFF [FrameVersion; k; n / 256; n `mod` 256]) 0 0.

Lemma feed_header d k n tl :
  valid k = true → 0 ≤ n ≤ maxPayload k →
  feed (Reset d) (header k n ++ tl) = feed (after_header (Payload (frame d)) k n) tl.
Proof.
  intros Hk Hn. pose proof (maxPayload_bound k).
  assert (in_u8 (n / 256)) as Hh.
  { split; [apply Z.div_pos; lia|]. apply Z.div_lt_upper_bound; lia. }
  assert (in_u8 (n `mod` 256)) as Hl by (apply Z.mod_pos_bound; lia).
  unfold header, after_header, Reset. simpl app. do 2 (erewrite feed_more; [|reflexivity]).
  erewrite feed_more; [|reflexivity].
  erewrite feed_more; [|unfold Push; simpl; rewrite Hk; reflexivity].
  erewrite feed_more; [|reflexivity].
  erewrite feed_more; [reflexivity|].
  unfold Push. simpl. rewrite length_of_bytes by done.
  replace (n / 256 * 256 + n `mod` 256) with n by (pose proof (Z.div_mod n 256); lia).
  cmp; done.
Qed.

(** Header and payload bring the decoder to the checksum. *)
Lemma feed_body d k p tl :
  sendable k p → len (Payload (frame d)) = MaxPayload →
  ∃ P', len P' = MaxPayload ∧ take (Z.to_nat (len p)) P' = p ∧
    feed (Reset d) (header k (len p) ++ p ++ tl) =
    feed (MkDecoder (MkFrame k P' (len p)) decodeChecksumHigh (crc 0xFFFF (checked k p)) 0 (len p)) tl.
Proof.
  intros (Hk & Hp & Hb) Hd. pose proof (maxPayload_bound k). pose proof (len_nonneg p).
  rewrite feed_header by (done || lia). unfold after_header.
  destruct (Z.eqb_spec (len p) 0) as [E|E].
  - pose proof (len_0_nil p E) as ->. by exists (Payload (frame d)).
  - destruct (feed_payload p k (Payload (frame d)) (len p)
      (crc 0xFFFF [FrameVersion; k; len p / 256; len p `mod` 256]) 0 0 tl)
      as (P' & HP' & Ht & ->); try done; try lia.
    { unfold MaxPayload, MaxRequestPayload. lia. }
    rewrite <-crc_app. by exists P'.
Qed.

(** The two checksum bytes. *)
Lemma feed_trailer f c rc pr h l tl :
  in_u8 h → in_u8 l →
  feed (MkDecoder f decodeChecksumHigh c rc pr) (h :: l :: tl) =
  if h * 256 + l =? c then Some (ResultOK, MkDecoder f decodeChecksumLow c c pr, tl)
  else Some (ResultMalformedFrame, Reset (MkDecoder f decodeChecksumLow c c pr), tl).
Proof.
  intros Hh Hl. erewrite feed_more; [|reflexivity]. simpl. rewrite (shl8_u16 _ Hh).
  unfold Push. simpl. assert (Z.lor (h * 256) l = h * 256 + l) as ->.
  { rewrite <-(length_of_bytes h l), Z.shiftl_mul_pow2 by (done || lia). done. }
  by destruct (Z.eqb_spec (h * 256 + l) c) as [->|].
Qed.

Lemma feed_frame d k p rest :
  sendable k p → len (Payload (frame d)) = MaxPayload →
  ∃ d', feed (Reset d) (frame_bytes k p ++ rest) = Some (ResultOK, d', rest) ∧
    dec_inv d' ∧ Kind (frame d') = k ∧ Length (frame d') = len p ∧
    take (Z.to_nat (len p)) (Payload (frame d')) = p.
Proof.
  intros Hs Hd. pose proof (len_nonneg p).
  set (c := crc 0xFFFF (checked k p)). assert (in_u16 c) as Hc by (apply crc_u16; lia).
  assert (frame_bytes k p ++ rest = header k (len p) ++ p ++ (c / 256 :: c `mod` 256 :: rest)) as ->.
  { rewrite frame_bytes_cons. simpl. by rewrite <-app_assoc. }
  destruct (feed_body d k p (c / 256 :: c `mod` 256 :: rest) Hs Hd) as (P' & HP' & Ht & ->). fold c.
  destruct (u16_bytes c Hc) as [Hc1 Hc2]. rewrite feed_trailer by done.
  rewrite (proj2 (Z.eqb_eq _ _)) by (pose proof (Z.div_mod c 256); lia).
  eexists. split; [reflexivity|]. split; [|done]. destruct Hs as (? & ? & _).
  split; [done|]. simpl. split; [done|]. lia.
Qed.

(** **** A frame with one byte changed is rejected *)
Lemma frame_split k p :
  frame_bytes k p = header k (len p) ++ p ++
    [crc 0xFFFF (checked k p) / 256; crc 0xFFFF (checked k p) `mod` 256].
Proof. done. Qed.

Lemma feed_corrupt_payload d k pre b b' post rest :
  sendable k (pre ++ b :: post) → in_u8 b' → b ≠ b' → len (Payload (frame d)) = MaxPayload →
  let c := crc 0xFFFF (checked k (pre ++ b :: post)) in
  ∃ d', feed (Reset d) (header k (len (pre ++ b :: post)) ++ (pre ++ b' :: post) ++
                        c / 256 :: c `mod` 256 :: rest)
        = Some (ResultMalformedFrame, Reset d', rest).
Proof.
  intros (Hk & Hl & Hb) Hb' Hne Hd c.
  assert (in_u16 c) as Hc by (apply crc_u16; lia).
  apply Forall_app in Hb as [Hpre [Hbb Hpost]%Forall_cons].
  assert (len (pre ++ b :: post) = len (pre ++ b' :: post)) as El by (by autorewrite with go).
  rewrite El in *.
  destruct (feed_body d k (pre ++ b' :: post) (c / 256 :: c `mod` 256 :: rest))
    as (P' & HP' & Ht & ->); [|done|].
  { split; [done|]. split; [done|]. apply Forall_app. by split; [|apply Forall_cons]. }
  destruct (u16_bytes c Hc) as [Hc1 Hc2]. rewrite feed_trailer by done.
  rewrite (proj2 (Z.eqb_neq _ _)); [by eexists|].
  replace (c / 256 * 256 + c `mod` 256) with c by (pose proof (Z.div_mod c 256); lia).
  unfold c, checked. rewrite El, !(app_assoc _ pre). apply crc_detects; done || lia.
Qed.

Lemma feed_corrupt_trailer d k p h l rest :
  sendable k p → in_u8 h → in_u8 l → len (Payload (frame d)) = MaxPayload →
  h * 256 + l ≠ crc 0xFFFF (checked k p) →
  ∃ d', feed (Reset d) (header k (len p) ++ p ++ h :: l :: rest)
        = Some (ResultMalformedFrame, Reset d', rest).
Proof.
  intros Hs Hh Hl Hd Hne.
  destruct (feed_body d k p (h :: l :: rest) Hs Hd) as (P' & HP' & Ht & ->).
  rewrite feed_trailer by done. rewrite (proj2 (Z.eqb_neq _ _)) by done. by eexists.
Qed.

(** **** Only frames are accepted *)

(** The payload received so far, and the decoder as a function of the bytes [bs] it has
    consumed since it was reset. *)
Definition received (d : Decoder) : list Z := take (Z.to_nat (payloadRead d)) (Payload (frame d)).

Definition dec_at (d : Decoder) (bs : list Z) : Prop :=
  let k := Kind (frame d) in
  let n := Length (frame d) in
  len (Payload (frame d)) = MaxPayload ∧ Forall (λ b, in_u8 b) (received d) ∧
  match state d with
  | decodeMagicFirst => bs = [] ∧ checksum d = 0xFFFF ∧ payloadRead d = 0
  | decodeMagicSecond => bs = [frameMagicFirst] ∧ checksum d = 0xFFFF ∧ payloadRead d = 0
  | decodeVersion =>
      bs = [frameMagicFirst; frameMagicSecond] ∧ checksum d = 0xFFFF ∧ payloadRead d = 0
  | decodeKind =>
      bs = [frameMagicFirst; frameMagicSecond; FrameVersion] ∧
      checksum d = crc 0xFFFF [FrameVersion] ∧ payloadRead d = 0
  | decodeLengthHigh =>
      bs = [frameMagicFirst; frameMagicSecond; FrameVersion; k] ∧ valid k = true ∧
      checksum d = crc 0xFFFF [FrameVersion; k] ∧ payloadRead d = 0
  | decodeLengthLow =>
      ∃ h, bs = [frameMagicFirst; frameMagicSecond; FrameVersion; k; h] ∧ valid k = true ∧
        in_u8 h ∧ n = Z.shiftl h 8 ∧
        checksum d = crc 0xFFFF [FrameVersion; k; h] ∧ payloadRead d = 0
  | decodePayload =>
      bs = header k n ++ received d ∧ valid k = true ∧ 0 ≤ payloadRead d < n ∧ n ≤ maxPayload k ∧
      checksum d = crc 0xFFFF ([FrameVersion; k; n / 256; n `mod` 256] ++ received d)
  | decodeChecksumHigh =>
      bs = header k n ++ received d ∧ valid k = true ∧ 0 ≤ payloadRead d ∧ payloadRead d = n ∧
      n ≤ maxPayload k ∧
      checksum d = crc 0xFFFF ([FrameVersion; k; n / 256; n `mod` 256] ++ received d)
  | decodeChecksumLow =>
      ∃ h, bs = header k n ++ received d ++ [h] ∧ valid k = true ∧ in_u8 h ∧
        0 ≤ payloadRead d ∧ payloadRead d = n ∧ n ≤ maxPayload k ∧ receivedCRC d = h * 256 ∧
        checksum d = crc 0xFFFF ([FrameVersion; k; n / 256; n `mod` 256] ++ received d)
  | decodeOther => False
  end.

Definition accepted (d : Decoder) (bs : list Z) : Prop :=
  let p := take (Z.to_nat (Length (frame d))) (Payload (frame d)) in
  bs = frame_bytes (Kind (frame d)) p ∧ sendable (Kind (frame d)) p ∧
  Length (frame d) = len p ∧ len (Payload (frame d)) = MaxPayload.

Definition push_exact (bs : list Z) (v : Z) (o : Result * Decoder) : Prop :=
  match o.1 with
  | ResultNeedMore => dec_at o.2 (bs ++ [v])
  | ResultOK => accepted o.2 (bs ++ [v])
  | ResultMalformedFrame | ResultOversizedFrame =>
      o.2 = Reset o.2 ∧ len (Payload (frame o.2)) = MaxPayload
  | _ => False
  end.

Lemma dec_at_low k P c rc h l bs :
  len P = MaxPayload → valid k = true → in_u8 h → in_u8 l →
  bs = [frameMagicFirst; frameMagicSecond; FrameVersion; k; h] →
  c = crc 0xFFFF [FrameVersion; k; h] →
  ok (Push l (MkDecoder (MkFrame k P (Z.shiftl h 8)) decodeLengthLow c rc 0)) (push_exact bs l).
Proof.
  intros HP Hk Hh Hl -> ->. pose proof (maxPayload_bound k).
  unfold Push. simpl. rewrite length_of_bytes by done. set (n := h * 256 + l).
  assert (n / 256 = h ∧ n `mod` 256 = l) as [En Em].
  { unfold n. split; [symmetry; apply (Z.div_unique _ _ _ l); lia|symmetry; apply (Z.mod_unique _ _ h); lia]. }
  destruct (Z.ltb_spec (maxPayload k) n); [by split|].
  destruct (Z.eqb_spec n 0) as [E|E]; unfold push_exact; simpl; (split; [done|]);
    (split; [done|]); simpl; unfold header; rewrite En, Em; (split; [done|]); (split; [done|]);
    unfold received; simpl; (split; [lia|]); try (split; [lia|]); by (try (split; [lia|])).
Qed.

Lemma dec_at_payload k P n c rc pr bs v :
  dec_at (MkDecoder (MkFrame k P n) decodePayload c rc pr) bs → in_u8 v →
  ok (Push v (MkDecoder (MkFrame k P n) decodePayload c rc pr)) (push_exact bs v).
Proof.
  intros (HP & Hb & -> & Hk & Hpr & Hn & Hc) Hv. unfold received in *. simpl in *. subst c. pose proof (maxPayload_bound k).
  assert (0 ≤ pr < len P) as Hlt by (unfold MaxPayload, MaxRequestPayload in HP; lia).
  unfold Push. simpl. rewrite aset_Some by done. simpl. set (P1 := <[Z.to_nat pr := v]> P).
  assert (take (Z.to_nat (pr + 1)) P1 = take (Z.to_nat pr) P ++ [v]) as Ht.
  { rewrite (take_S_aget P1 pr v); [|lia|].
    - f_equal. apply take_insert_ge. lia.
    - unfold P1. rewrite aget_insert by lia. by rewrite decide_True by lia. }
  assert (len P1 = MaxPayload) as HP1 by (unfold P1; by rewrite len_insert).
  unfold received in *. simpl in *.
  cmp; unfold push_exact, dec_at, received; simpl; rewrite Ht; (split; [done|]);
    (split; [by apply Forall_app_2; [|apply Forall_singleton]|]);
    (split; [done|]); (split; [done|]); (split; [lia|]); (split; [lia|]); try (split; [lia|]);
    by rewrite (crc_app _ _ [v]).
Qed.

Lemma dec_at_trailer k P n c rc pr bs v :
  dec_at (MkDecoder (MkFrame k P n) decodeChecksumLow c rc pr) bs → in_u8 v →
  ok (Push v (MkDecoder (MkFrame k P n) decodeChecksumLow c rc pr)) (push_exact bs v).
Proof.
  intros (HP & Hb & h & -> & Hk & Hh & Hpr & E & Hn & Hrc & Hc) Hv. unfold received in *.
  simpl in HP, Hb, Hk, Hpr, E, Hn, Hrc, Hc. subst rc pr. unfold Push. simpl.
  rewrite <-(Z.shiftl_mul_pow2 _ 8), length_of_bytes by (done || lia).
  destruct (Z.eqb_spec (h * 256 + v) c) as [Ec|]; [|by split].
  set (q := take (Z.to_nat n) P) in *. pose proof (maxPayload_bound k).
  assert (len q = n) as Hq.
  { apply len_take. rewrite HP. unfold MaxPayload, MaxRequestPayload. lia. }
  unfold push_exact, accepted. simpl. fold q. rewrite Hq. split; [|split; [by rewrite <-Hq in Hn|done]].
  rewrite frame_bytes_cons. unfold checked, header. rewrite Hq.
  change ([FrameVersion; k; n / 256; n `mod` 256] ++ q) with
    (FrameVersion :: k :: n / 256 :: n `mod` 256 :: q) in Hc.
  simpl. rewrite Hc in Ec. simpl in Ec. rewrite <-Ec, <-app_assoc.
  replace ((h * 256 + v) / 256) with h by (apply (Z.div_unique _ _ _ v); lia).
  replace ((h * 256 + v) `mod` 256) with v by (apply (Z.mod_unique _ _ h); lia). done.
Qed.

Lemma Push_exact d bs v : dec_at d bs → in_u8 v → ok (Push v d) (push_exact bs v).
Proof.
  destruct d as [[k P n] s c rc pr]. intros Hat Hv.
  destruct s; try by (apply dec_at_payload || apply dec_at_trailer).
  - destruct Hat as (HP & Hb & -> & Hc & Hpr). simpl in Hc, Hpr. subst c pr. unfold Push. simpl.
    destruct (Z.eqb_spec v frameMagicFirst) as [->|]; simpl; [|by split]. split_and!; done.
  - destruct Hat as (HP & Hb & -> & Hc & Hpr). simpl in Hc, Hpr. subst c pr. unfold Push. simpl.
    destruct (Z.eqb_spec v frameMagicSecond) as [->|]; simpl; [|by split]. split_and!; done.
  - destruct Hat as (HP & Hb & -> & Hc & Hpr). simpl in Hc, Hpr. subst c pr. unfold Push. simpl.
    destruct (Z.eqb_spec v FrameVersion) as [->|]; simpl; [|by split]. split_and!; done.
  - destruct Hat as (HP & Hb & -> & Hc & Hpr). simpl in Hc, Hpr. subst c pr. unfold Push. simpl.
    destruct (valid v) eqn:E; simpl; [|by split]. split_and!; done.
  - destruct Hat as (HP & Hb & -> & Hk & Hc & Hpr). simpl in Hk, Hc, Hpr. subst c pr. simpl.
    split; [done|]. split; [done|]. by exists v.
  - destruct Hat as (HP & Hb & h & -> & Hk & Hh & Hn & Hc & Hpr). simpl in HP, Hk, Hn, Hc, Hpr.
    subst c pr n. by apply dec_at_low.
  - destruct Hat as (HP & Hb & -> & Hk & Hpr & E & Hn & Hc). unfold Push, push_exact. simpl.
    split; [done|]. split; [done|]. exists v. simpl in *.
    rewrite (shl8_u16 v Hv). split_and!; try done; simpl; lia.
  - by destruct Hat as (_ & _ & []).
Qed.

Lemma dec_at_reset d : len (Payload (frame d)) = MaxPayload → dec_at (Reset d) [].
Proof. intros. split_and!; done. Qed.

Lemma feed_exact bs : ∀ d pre d' rest,
  dec_at d pre → Forall (λ b, in_u8 b) bs → feed d bs = Some (ResultOK, d', rest) →
  ∃ mid, bs = mid ++ rest ∧ accepted d' (pre ++ mid).
Proof.
  induction bs as [|b bs IH]; intros d pre d' rest Hat Hbs E; [done|].
  inversion_clear Hbs as [|? ? Hb Hbs']. simpl in E.
  destruct (ok_elim _ _ (Push_exact d pre b Hat Hb)) as ([r d1] & Ep & Hpost).
  rewrite Ep in E. simpl in E. unfold push_exact in Hpost. simpl in Hpost.
  case_decide as Hr.
  - subst r. destruct (IH d1 (pre ++ [b]) d' rest Hpost Hbs' E) as (mid & -> & Hacc).
    exists (b :: mid). split; [done|]. by rewrite <-app_assoc in Hacc.
  - simplify_eq. by exists [b].
Qed.

(** Frames are accepted and nothing else is. *)
Lemma decode_iff d bs k p rest :
  len (Payload (frame d)) = MaxPayload → Forall (λ b, in_u8 b) bs →
  (∃ d', feed (Reset d) bs = Some (ResultOK, d', rest) ∧ Kind (frame d') = k ∧
     Length (frame d') = len p ∧ take (Z.to_nat (len p)) (Payload (frame d')) = p) ↔
  sendable k p ∧ bs = frame_bytes k p ++ rest.
Proof.
  intros Hd Hbs. split.
  - intros (d' & E & Hk & Hl & Hp).
    destruct (feed_exact bs (Reset d) [] d' rest) as (mid & -> & Em & Hs & _); [|done..|].
    { by apply dec_at_reset. }
    simpl in Em. subst mid. rewrite Hk, Hl, Hp in *. done.
  - intros [Hs ->]. destruct (feed_frame d k p rest Hs Hd) as (d' & E & _ & ?). by exists d'.
Qed.

(** ** The exchange *)
Section exchange.
Context {D : Type} `{PortIOLaws D}.
Implicit Types d : D.

(** The bytes that polling the UART has sent and received between two states. *)
Inductive sends : list Z → D → D → Prop :=
  | sends_nil d : sends [] d d
  | sends_busy bs b d d1 d2 :
      sends bs d d1 → tryWriteByte b d1 = (false, d2) → sends bs d d2
  | sends_byte bs b d d1 d2 :
      sends bs d d1 → tryWriteByte b d1 = (true, d2) → sends (bs ++ [b]) d d2.

Inductive receives : list Z → D → D → Prop :=
  | receives_nil d : receives [] d d
  | receives_empty bs d d1 d2 :
      receives bs d d1 → tryReadByte d1 = (None, d2) → receives bs d d2
  | receives_byte bs b d d1 d2 :
      receives bs d d1 → tryReadByte d1 = (Some b, d2) → receives (bs ++ [b]) d d2.

Lemma tryReadByte_u8 d b d' : tryReadByte d = (Some b, d') → in_u8 b.
Proof.
  unfold tryReadByte. destruct (inb lineStatusPort d) as [s d1].
  destruct (_ =? 0); [done|]. destruct (inb com1Base d1) as [v d2] eqn:E. intros [= <- _].
  pose proof (inb_u8 com1Base d1) as Hv. by rewrite E in Hv.
Qed.

Lemma drainInput_total d : ∃ d', drainInput d = Some d'.
Proof.
  destruct (ok_elim (drainInput d) (λ _, True)) as (d' & ? & _); [|by exists d'].
  apply ok_loop_end, (for_range_ok (λ _ _, True)); [done|done| |done].
  intros i s _ _. by destruct (tryReadByte s) as [[]].
Qed.

Lemma send_frame_spec (buf : list Z) n d :
  0 ≤ n ≤ len buf →
  ok (send_frame buf n d) (λ '(written, d'),
    0 ≤ written ≤ n ∧ sends (take (Z.to_nat written) buf) d d').
Proof.
  intros Hn. apply ok_loop_end.
  apply (for_range_ok (λ _ '(written, d'),
    0 ≤ written ≤ n ∧ sends (take (Z.to_nat written) buf) d d')); [done| | |].
  - split; [lia|constructor].
  - intros i [w d1] _ [Hw Hs]. destruct (Z.ltb_spec w n) as [Hlt|]; [|by split].
    destruct (aget_Some buf w) as [b Hb]; [lia|]. rewrite Hb. simpl.
    destruct (tryWriteByte b d1) as [[] d2] eqn:E; simpl; (split; [lia|]).
    + rewrite (take_S_aget buf w b) by (done || lia). by econstructor.
    + by eapply sends_busy.
  - by intros [w d1].
Qed.

(** What the receive loop may return: a response frame it received, or an error that
    leaves the response buffer alone. *)
Definition received_frame (resp : list Z) (d : D)
    (o : option (Z * Result) * Z * list Z * Decoder * D) : Prop :=
  let '(outcome, bytesRead, resp', dec, d') := o in
  len (Payload (frame dec)) = MaxPayload ∧ len resp' = len resp ∧
  match outcome with
  | Some (n, ResultOK) =>
      0 ≤ n ≤ MaxResponsePayload ∧
      receives (frame_bytes FrameResponse (take (Z.to_nat n) resp')) d d' ∧
      ∀ j, n ≤ j → aget resp' j = aget resp j
  | Some (n, r) => n = 0 ∧ resp' = resp ∧ r ≠ ResultNeedMore ∧ r ≠ ResultInvalidPayload
  | None => resp' = resp
  end.

Lemma copy_response d dec bs resp d' bytesRead :
  accepted dec bs → Kind (frame dec) = FrameResponse → len resp = MaxPayload →
  receives bs d d' →
  ok (resp ← copy_into (Payload (frame dec)) 0 (Length (frame dec)) resp;
      Some (inr (Some (Length (frame dec), ResultOK), bytesRead, resp, dec, d')))
     (λ o : (Z * Decoder * D) + _, match o with inl _ => False | inr o => received_frame resp d o end).
Proof.
  intros (-> & (_ & Hp & _) & Hl & Hd) Hk Hr Hrx. set (p := take _ _) in *.
  rewrite Hk in *. unfold maxPayload in Hp. simpl in Hp. pose proof (len_nonneg p).
  unfold MaxPayload, MaxRequestPayload, MaxResponsePayload in *.
  call copy_into_ok; [lia|lia|lia|]. intros resp' [Hlen Hget]. simpl.
  assert (take (Z.to_nat (len p)) resp' = p) as Hp'.
  { apply alist_eq; rewrite len_take by lia; [done|]. intros i Hi. rewrite aget_take by lia.
    rewrite Hget, decide_True by lia. unfold p. rewrite aget_take by lia. f_equal. lia. }
  rewrite Hl, Hp'. split_and!; try done; try lia.
  intros j Hj. rewrite Hget, decide_False by lia. done.
Qed.

Lemma recv_frame_spec dec resp d :
  len (Payload (frame dec)) = MaxPayload → len resp = MaxPayload →
  ok (recv_frame (Reset dec) resp d) (received_frame resp d).
Proof.
  intros Hdec Hresp. apply ok_loop_end.
  apply (for_range_ok (λ _ '(n, dec, d'), ∃ bs, dec_at dec bs ∧ receives bs d d')); [done| | |].
  - exists []. split; [by apply dec_at_reset|constructor].
  - intros i [[n dec1] d1] _ (bs & Hat & Hrx).
    destruct (tryReadByte d1) as [[v|] d2] eqn:E; simpl.
    2:{ exists bs. split; [done|]. by econstructor. }
    assert (receives (bs ++ [v]) d d2) as Hrx' by (by econstructor).
    apply tryReadByte_u8 in E.
    call (Push_exact dec1 bs v Hat E). intros [r dec2] Hpost. unfold push_exact in Hpost. simpl in Hpost.
    case_decide as Hm; [subst r; by exists (bs ++ [v])|]. case_decide as Ho; simpl.
    + destruct r; try done; destruct Hpost as [_ ?]; by split_and!.
    + assert (r = ResultOK) as -> by (by destruct r). clear Hm Ho.
      destruct (Z.eqb_spec (Kind (frame dec2)) FrameResponse) as [Hk|]; simpl.
      2:{ destruct Hpost as (_ & _ & _ & ?). split_and!; done. }
      eapply ok_mono; [by apply (copy_response d dec2 (bs ++ [v]))|]. by intros [|].
  - intros [[n dec1] d1] (bs & Hat & _). destruct Hat as (? & _). by split_and!.
Qed.

(** The package's storage has its declared size. *)
Definition serial_inv (st : serial_state D) : Prop :=
  len (encodedRequest st) = MaxFrameSize ∧
  len (Payload (frame (responseDecoder st))) = MaxPayload.

Definition exchange_post (p : list Z) (n : Z) (resp : list Z) (st : serial_state D)
    (o : Z * Result * option (list Z) * serial_state D) : Prop :=
  let '(k, r, resp', st') := o in
  serial_inv st' ∧ ∃ resp1, resp' = Some resp1 ∧ len resp1 = MaxPayload ∧
  match r with
  | ResultOK =>
      0 ≤ k ≤ MaxResponsePayload ∧
      (∃ d0 d1 d2, initPort (dev st) = (true, d0) ∧ drainInput d0 = Some d1 ∧
         sends (frame_bytes FrameRequest (take (Z.to_nat n) p)) d1 d2 ∧
         receives (frame_bytes FrameResponse (take (Z.to_nat k) resp1)) d2 (dev st')) ∧
      ∀ j, k ≤ j → aget resp1 j = aget resp j
  | ResultNeedMore | ResultInvalidPayload => False
  | _ => k = 0 ∧ resp1 = resp
  end.

Lemma Exchange_spec p n resp st :
  serial_inv st → len resp = MaxPayload → 0 ≤ n ≤ MaxRequestPayload → n ≤ len p →
  ok (Exchange (Some p) n (Some resp) st) (exchange_post p n resp st).
Proof.
  intros [Hbuf Hdec] Hresp Hn Hp. unfold Exchange.
  call (Encode_spec FrameRequest p n); [done..|]. intros [[k r] o] (-> & -> & rest & -> & Hrest).
  unfold exchange_post. remember (frame_bytes FrameRequest (take (Z.to_nat n) p)) as fb eqn:Efb. simpl.
  assert (len fb = n + 8) as Hfb.
  { by rewrite Efb, len_frame_bytes, len_take by lia. }
  assert (len (fb ++ rest) = MaxFrameSize) as Hlen.
  { rewrite len_app, Hfb, Hrest. unfold MaxFrameSize, frameHeaderSize, frameTrailerSize. lia. }
  destruct (initPort (dev st)) as [ready d0] eqn:Ei.
  destruct ready; simpl; [|by split; [split|exists resp]].
  destruct (drainInput_total d0) as [d1 Ed]. rewrite Ed. simpl.
  call send_frame_spec; [pose proof (len_nonneg rest); rewrite len_app; lia|].
  intros [written d2] [Hw Hs]. destruct (Z.eqb_spec written (n + 8)) as [->|]; simpl.
  2:{ split; [by split|by exists resp]. }
  rewrite take_len_app in Hs by lia.
  call recv_frame_spec; [done..|]. intros [[[[outcome nread] resp'] dec] d3] (Hd & Hl & Hout). simpl.
  assert (serial_inv (SerialState (fb ++ rest) dec d3)) as Hinv by done.
  rewrite Hresp in Hl. destruct outcome as [[k r]|].
  - split; [done|]. exists resp'. split; [done|]. split; [done|]. destruct r; try tauto.
    destruct Hout as (? & ? & ?). split; [done|]. split; [|done]. by exists d0, d1, d2.
  - subst resp'. cmp; simpl; (split; [done|]); by exists resp.
Qed.
End exchange.

Lemma insert_mid {A} (l1 l2 : list A) x y i :
  i = len l1 → <[Z.to_nat i := y]> (l1 ++ x :: l2) = l1 ++ y :: l2.
Proof.
  intros ->. replace (Z.to_nat (len l1)) with (length l1 + 0)%nat by (rewrite len_length; lia).
  by rewrite insert_app_r.
Qed.

Lemma corrupt_spec d k p rest i b b' :
  sendable k p → len (Payload (frame d)) = MaxPayload → 6 ≤ i < len p + 8 →
  aget (frame_bytes k p) i = Some b → in_u8 b' → b ≠ b' →
  ∃ d', feed (Reset d) (<[Z.to_nat i := b']> (frame_bytes k p) ++ rest)
        = Some (ResultMalformedFrame, Reset d', rest).
Proof.
  intros Hs Hd Hi Hb Hb' Hne. rewrite frame_split in *. set (c := crc 0xFFFF (checked k p)) in *.
  assert (in_u16 c) as Hc by (apply crc_u16; lia). destruct (u16_bytes c Hc) as [Hc1 Hc2].
  pose proof (Z.div_mod c 256 ltac:(lia)) as Hdm.
  assert (len (header k (len p)) = 6) as Hh by done. pose proof (len_nonneg p).
  rewrite aget_app, decide_False, Hh in Hb by lia. rewrite aget_app in Hb. case_decide as Hp.
  - assert (p !! Z.to_nat (i - 6) = Some b) as Ep by (by rewrite <-aget_nat, Z2Nat.id by lia).
    apply take_drop_middle in Ep. set (post := drop _ p) in Ep.
    assert (len (take (Z.to_nat (i - 6)) p) = i - 6) as Hpre by (apply len_take; lia).
    set (pre := take _ p) in *. clearbody pre post. subst p.
    rewrite <-(app_assoc pre), <-app_comm_cons, app_assoc, insert_mid by (rewrite len_app; lia).
    destruct (feed_corrupt_payload d k pre b b' post rest Hs Hb' Hne Hd) as [d' E].
    exists d'. rewrite <-E. fold c. f_equal. by rewrite <-!app_assoc, <-!app_comm_cons, <-app_assoc.
  - assert (i = len p + 6 ∨ i = len p + 7) as [->| ->] by lia.
    + replace (len p + 6 - 6 - len p) with 0 in Hb by lia. injection Hb as <-.
      rewrite app_assoc, insert_mid by (rewrite len_app; lia).
      destruct (feed_corrupt_trailer d k p b' (c `mod` 256) rest) as [d' E]; try done; [fold c; lia|].
      exists d'. rewrite <-E. f_equal. by rewrite <-!app_assoc.
    + replace (len p + 7 - 6 - len p) with 1 in Hb by lia. injection Hb as <-.
      change [c / 256; c `mod` 256] with ([c / 256] ++ [c `mod` 256]). rewrite !app_assoc.
      rewrite insert_mid by (rewrite !len_app, len_cons, len_nil; lia).
      destruct (feed_corrupt_trailer d k p (c / 256) b' rest) as [d' E]; try done; [fold c; lia|].
      exists d'. rewrite <-E. f_equal. by rewrite <-!app_assoc.
Qed.

(** ** Properties *)

(** C21: what [Encode] writes, the decoder gives back: for a valid kind and a payload
    within its bound, encoding succeeds with payload length + 8 bytes, and a reset
    decoder fed exactly these bytes accepts with the last one and holds the same kind,
    length and payload, whatever follows in the stream. *)
Theorem serial_roundtrip (kind : FrameKind) (p out rest : list Z) (n : Z) (d : Decoder)
    (Hkind : valid kind = true) (Hn : 0 ≤ n ≤ maxPayload kind) (Hp : len p = MaxPayload)
    (Hbytes : Forall (λ b, in_u8 b) p) (Hout : len out = MaxFrameSize)
    (Hd : len (Payload (frame d)) = MaxPayload) :
  ∃ out' d', Encode kind (Some p) n (Some out) = Some (n + 8, ResultOK, Some out') ∧
    feed (Reset d) (take (Z.to_nat (n + 8)) out' ++ rest) = Some (ResultOK, d', rest) ∧
    Kind (frame d') = kind ∧ Length (frame d') = n ∧
    take (Z.to_nat n) (Payload (frame d')) = take (Z.to_nat n) p.
Proof.
  pose proof (maxPayload_bound kind). unfold MaxPayload, MaxRequestPayload in Hp.
  destruct (ok_elim _ _ (Encode_spec kind p n out Hkind Hn ltac:(lia) Hout))
    as ([[? ?] ?] & E & -> & -> & tl & -> & _).
  assert (len (take (Z.to_nat n) p) = n) as Hl by (apply len_take; lia).
  destruct (feed_frame d kind (take (Z.to_nat n) p) rest) as (d' & Ef & _ & Hk & Hlen & Ht).
  { split; [done|]. split; [lia|]. by apply Forall_take. }
  { done. }
  eexists _, d'. split; [exact E|]. rewrite Hl in *.
  rewrite take_len_app by (by rewrite len_frame_bytes, Hl). done.
Qed.

(** C22: the decoder accepts frames and nothing else: a stream of bytes is accepted
    with kind [k] and payload [p] exactly when it starts with the frame of [k] and [p],
    and [k] and [p] are within the protocol's bounds; the rest is not consumed. *)
Theorem decode_exact (d : Decoder) (bs p rest : list Z) (k : FrameKind)
    (Hd : len (Payload (frame d)) = MaxPayload) (Hbs : Forall (λ b, in_u8 b) bs) :
  (∃ d', feed (Reset d) bs = Some (ResultOK, d', rest) ∧ Kind (frame d') = k ∧
     Length (frame d') = len p ∧ take (Z.to_nat (len p)) (Payload (frame d')) = p) ↔
  sendable k p ∧ bs = frame_bytes k p ++ rest.
Proof. by apply decode_iff. Qed.

(** C25: a frame in which one byte of the payload or of the checksum was changed is
    always rejected as malformed, and the decoder is ready for the next frame. *)
Theorem corrupted_frame_rejected (d : Decoder) (k : FrameKind) (p rest : list Z) (i b b' : Z)
    (Hs : sendable k p) (Hd : len (Payload (frame d)) = MaxPayload) (Hi : 6 ≤ i < len p + 8)
    (Hb : aget (frame_bytes k p) i = Some b) (Hb' : in_u8 b') (Hne : b ≠ b') :
  ∃ d', feed (Reset d) (<[Z.to_nat i := b']> (frame_bytes k p) ++ rest)
        = Some (ResultMalformedFrame, Reset d', rest).
Proof. by eapply corrupt_spec. Qed.

(** [Push] is memory safe for every byte in every state a decoder can be in: it
    never indexes the payload out of range, keeps the decoder's invariant, accepts only
    frames of a valid kind within the kind's bound, and after a rejection the decoder is
    reset. *)
Theorem Push_safe (d : Decoder) (v : Z) (Hd : dec_inv d) (Hv : in_u8 v) :
  ∃ r d', Push v d = Some (r, d') ∧ dec_inv d' ∧
    (r = ResultOK → valid (Kind (frame d')) = true ∧
       0 ≤ Length (frame d') ≤ maxPayload (Kind (frame d'))) ∧
    (r = ResultOK ∨ r = ResultNeedMore ∨ d' = Reset d').
Proof.
  destruct (ok_elim _ _ (Push_inv d v Hd Hv)) as ([r d'] & E & Hpost). by exists r, d'.
Qed.

(** C23: [Exchange] always returns, whatever the UART does: either the whole request
    frame was sent and the bytes then received are exactly one response frame, whose
    payload is in the response buffer; or an error is reported, the length is 0 and the
    buffer is untouched. *)
Theorem Exchange_correct `{PortIOLaws D} (p resp : list Z) (n : Z) (st : serial_state D)
    (Hst : serial_inv st) (Hresp : len resp = MaxPayload)
    (Hn : 0 ≤ n ≤ MaxRequestPayload) (Hp : len p = MaxPayload) :
  ∃ k r resp' st', Exchange (Some p) n (Some resp) st = Some (k, r, resp', st') ∧
    exchange_post p n resp st (k, r, resp', st').
Proof.
  unfold MaxPayload in Hp.
  destruct (ok_elim _ _ (Exchange_spec p n resp st Hst Hresp Hn ltac:(lia)))
    as ([[[k r] resp'] st'] & E & Hpost). by exists k, r, resp', st'.
Qed.

(** *** Witnesses *)
Definition demo_payload : list Z := gs "ping" ++ replicate 2044 0.
Definition demo_decoder : Decoder :=
  MkDecoder (MkFrame 0 (replicate 2048 0) 0) decodeMagicFirst 0 0 0.

Lemma demo_payload_bytes : Forall (λ b, in_u8 b) demo_payload.
Proof. apply Forall_app. split; [repeat constructor; lia|]. apply Forall_replicate. lia. Qed.

Lemma demo_payload_len : len demo_payload = MaxPayload.
Proof. unfold demo_payload. rewrite len_app, len_replicate. done. Qed.

Lemma demo_decoder_len : len (Payload (frame demo_decoder)) = MaxPayload.
Proof. apply (len_replicate 2048 0). Qed.

Lemma demo_sendable : sendable FrameRequest (gs "ping").
Proof. split; [done|]. split; [vm_compute; done|]. repeat constructor; lia. Qed.

Lemma serial_roundtrip_witness :
  ∃ out' d', Encode FrameRequest (Some demo_payload) 4 (Some (replicate 2056 0))
      = Some (4 + 8, ResultOK, Some out') ∧
    feed (Reset demo_decoder) (take (Z.to_nat (4 + 8)) out' ++ [7]) = Some (ResultOK, d', [7]) ∧
    Kind (frame d') = FrameRequest ∧ Length (frame d') = 4 ∧
    take (Z.to_nat 4) (Payload (frame d')) = take (Z.to_nat 4) demo_payload.
Proof.
  apply (serial_roundtrip FrameRequest demo_payload (replicate 2056 0) [7] 4 demo_decoder eq_refl
    ltac:(vm_compute; intuition discriminate) demo_payload_len demo_payload_bytes).
  - by rewrite len_replicate.
  - apply demo_decoder_len.
Defined.

Lemma decode_exact_witness :
  (∃ d', feed (Reset demo_decoder) (frame_bytes FrameRequest (gs "ping")) = Some (ResultOK, d', []) ∧
     Kind (frame d') = FrameRequest ∧ Length (frame d') = len (gs "ping") ∧
     take (Z.to_nat (len (gs "ping"))) (Payload (frame d')) = gs "ping") ↔
  sendable FrameRequest (gs "ping") ∧
  frame_bytes FrameRequest (gs "ping") = frame_bytes FrameRequest (gs "ping") ++ [].
Proof.
  apply (decode_exact demo_decoder (frame_bytes FrameRequest (gs "ping")) (gs "ping") [] FrameRequest
    demo_decoder_len).
  vm_compute. repeat constructor; discriminate.
Defined.

Lemma corrupted_frame_rejected_witness :
  ∃ d', feed (Reset demo_decoder) (<[Z.to_nat 6 := 80]> (frame_bytes FrameRequest (gs "ping")) ++ [1])
        = Some (ResultMalformedFrame, Reset d', [1]).
Proof.
  apply (corrupted_frame_rejected demo_decoder FrameRequest (gs "ping") [1] 6 112 80 demo_sendable
    demo_decoder_len); [vm_compute; intuition discriminate|vm_compute; reflexivity|lia|lia].
Defined.

Lemma demo_decoder_inv : dec_inv demo_decoder.
Proof. split; [apply demo_decoder_len|done]. Qed.

Lemma Push_safe_witness :
  ∃ r d', Push 68 demo_decoder = Some (r, d') ∧ dec_inv d' ∧
    (r = ResultOK → valid (Kind (frame d')) = true ∧
       0 ≤ Length (frame d') ≤ maxPayload (Kind (frame d'))) ∧
    (r = ResultOK ∨ r = ResultNeedMore ∨ d' = Reset d').
Proof. apply (Push_safe demo_decoder 68 demo_decoder_inv). lia. Defined.

Definition demo_serial : serial_state recorder :=
  SerialState (replicate 2056 0) demo_decoder (Recorder [] [0xAE]).

Lemma demo_serial_inv : serial_inv demo_serial.
Proof. split; [apply (len_replicate 2056 0)|apply demo_decoder_len]. Qed.

Lemma Exchange_correct_witness :
  ∃ k r resp' st', Exchange (Some demo_payload) 4 (Some (replicate 2048 0)) demo_serial
      = Some (k, r, resp', st') ∧
    exchange_post demo_payload 4 (replicate 2048 0) demo_serial (k, r, resp', st').
Proof.
  apply (Exchange_correct demo_payload (replicate 2048 0) 4 demo_serial demo_serial_inv);
    [by rewrite len_replicate|vm_compute; intuition discriminate|apply demo_payload_len].
Defined.

(** The published check value of CRC-16/CCITT-FALSE. *)
Example crc_check_value : crc 0xFFFF (gs "123456789") = 0x29B1.
Proof. vm_compute. reflexivity. Qed.
