(* ===== verification/Keyboard.v ===== *)
(** * Package [keyboard]: scancodes, layouts and the key buffer

    [src/keyboard/keyboard.go] (modifier keys and translation), [src/keyboard/irq.go]
    (the interrupt handler and the ring buffer the shell reads),
    [src/keyboard/layout/] (the US and Italian layouts) and [src/kernel/keyboard.go].
    A rune is the [Z] of its code point. *)
From S2P Require Import Prelude PortIO.
Local Open Scope Z_scope.

(** ** layout *)

(** [type Layout interface]: its two methods; [None] is the result [(0, false)]. *)
Record Layout := MkLayout {
  GetKey : Z → option Z;
  GetShiftDigitSymbol : Z → option Z;
}.

(** A composite literal [[128]rune{i: r, ...}]. *)
Definition rune_table (l : list (Z * Z)) : list Z :=
  foldl (λ t '(i, r), <[Z.to_nat i := r]> t) (replicate 128 0) l.

Definition lookupKey (keys : list Z) (sc : Z) : option Z :=
  if len keys <=? sc then None
  else r ← aget keys sc; if r =? 0 then None else Some r.

Definition usLayoutData : list Z := rune_table
  [(0x02, 49); (0x03, 50); (0x04, 51); (0x05, 52); (0x06, 53); (0x07, 54); (0x08, 55);
   (0x09, 56); (0x0A, 57); (0x0B, 48);
   (0x10, 113); (0x11, 119); (0x12, 101); (0x13, 114); (0x14, 116); (0x15, 121); (0x16, 117);
   (0x17, 105); (0x18, 111); (0x19, 112);
   (0x1E, 97); (0x1F, 115); (0x20, 100); (0x21, 102); (0x22, 103); (0x23, 104); (0x24, 106);
   (0x25, 107); (0x26, 108);
   (0x2C, 122); (0x2D, 120); (0x2E, 99); (0x2F, 118); (0x30, 98); (0x31, 110); (0x32, 109);
   (0x39, 32); (0x1C, 10); (0x0E, 8)].

Definition us_GetShiftDigitSymbol (r : Z) : option Z :=
  match r with
  | 49 => Some 33
  | 50 => Some 64
  | 51 => Some 35
  | 52 => Some 36
  | 53 => Some 37
  | 54 => Some 94
  | 55 => Some 38
  | 56 => Some 42
  | 57 => Some 40
  | 48 => Some 41
  | _ => None
  end.

Definition itLayoutData : list Z := rune_table
  [(0x02, 49); (0x03, 50); (0x04, 51); (0x05, 52); (0x06, 53); (0x07, 54); (0x08, 55);
   (0x09, 56); (0x0A, 57); (0x0B, 48);
   (0x10, 113); (0x11, 119); (0x12, 101); (0x13, 114); (0x14, 116); (0x15, 121); (0x16, 117);
   (0x17, 105); (0x18, 111); (0x19, 112);
   (0x1E, 97); (0x1F, 115); (0x20, 100); (0x21, 102); (0x22, 103); (0x23, 104); (0x24, 106);
   (0x25, 107); (0x26, 108);
   (0x2C, 122); (0x2D, 120); (0x2E, 99); (0x2F, 118); (0x30, 98); (0x31, 110); (0x32, 109);
   (0x39, 32); (0x1C, 10); (0x0E, 8)].

(** ['3'] gives the pound sign, U+00A3. *)
Definition it_GetShiftDigitSymbol (r : Z) : option Z :=
  match r with
  | 49 => Some 33
  | 50 => Some 34
  | 51 => Some 163
  | 52 => Some 36
  | 53 => Some 37
  | 54 => Some 38
  | 55 => Some 47
  | 56 => Some 40
  | 57 => Some 41
  | 48 => Some 61
  | _ => None
  end.

Definition GetUS : Layout * list Z :=
  (MkLayout (lookupKey usLayoutData) us_GetShiftDigitSymbol, gs "us").
Definition GetIT : Layout * list Z :=
  (MkLayout (lookupKey itLayoutData) it_GetShiftDigitSymbol, gs "it").

(** ** keyboard.go *)
Definition portData : Z := 0x60.
Definition portStatus : Z := 0x64.
Definition statusOutputBuffer : Z := 1.
Definition bufSize : Z := 256.

Record kbd_state := KbdState {
  leftShiftDown : bool;
  rightShiftDown : bool;
  capsLockOn : bool;
  currentLayout : option Layout;
  buf : list Z;
  head : Z;
  tail : Z;
}.

Definition set_mods (l r c : bool) (st : kbd_state) : kbd_state :=
  KbdState l r c (currentLayout st) (buf st) (head st) (tail st).
Definition set_ring (b : list Z) (h t : Z) (st : kbd_state) : kbd_state :=
  KbdState (leftShiftDown st) (rightShiftDown st) (capsLockOn st) (currentLayout st) b h t.

Definition SetLayout (l : Layout) (st : kbd_state) : kbd_state :=
  KbdState (leftShiftDown st) (rightShiftDown st) (capsLockOn st) (Some l) (buf st) (head st) (tail st).

Definition handleModifier (sc : Z) (st : kbd_state) : bool * kbd_state :=
  if sc =? 0x2A then (true, set_mods true (rightShiftDown st) (capsLockOn st) st)
  else if sc =? 0xAA then (true, set_mods false (rightShiftDown st) (capsLockOn st) st)
  else if sc =? 0x36 then (true, set_mods (leftShiftDown st) true (capsLockOn st) st)
  else if sc =? 0xB6 then (true, set_mods (leftShiftDown st) false (capsLockOn st) st)
  else if sc =? 0x3A then
    (true, set_mods (leftShiftDown st) (rightShiftDown st) (negb (capsLockOn st)) st)
  else (false, st).

Definition shiftActive (st : kbd_state) : bool := leftShiftDown st || rightShiftDown st.

Definition isASCIILetter (r : Z) : bool :=
  ((97 <=? r) && (r <=? 122)) || ((65 <=? r) && (r <=? 90)).
Definition isASCIIDigit (r : Z) : bool := (48 <=? r) && (r <=? 57).
Definition toUpperASCII (r : Z) : Z := if (97 <=? r) && (r <=? 122) then r - 97 + 65 else r.
Definition toLowerASCII (r : Z) : Z := if (65 <=? r) && (r <=? 90) then r - 65 + 97 else r.

(** The outer [None] is a call on a nil layout; the inner one the result [false]. *)
Definition translateScancode (sc : Z) (st : kbd_state) : option (option Z * kbd_state) :=
  let '(handled, st) := handleModifier sc st in
  if handled then Some (None, st)
  else if negb (Z.land sc 0x80 =? 0) then Some (None, st)
  else
    l ← currentLayout st;
    match GetKey l sc with
    | None => Some (None, st)
    | Some r =>
        if isASCIILetter r then
          let r := if negb (eqb (shiftActive st) (capsLockOn st)) then toUpperASCII r
                   else toLowerASCII r in
          Some (Some r, st)
        else if isASCIIDigit r && shiftActive st then
          match GetShiftDigitSymbol l r with
          | Some sym => Some (Some sym, st)
          | None => Some (Some r, st)
          end
        else Some (Some r, st)
    end.

(** ** irq.go *)
Definition push (r : Z) (st : kbd_state) : option kbd_state :=
  let next := Z.land (u32 (head st + 1)) (bufSize - 1) in
  if next =? tail st then Some st
  else b ← aset (buf st) (head st) r; Some (set_ring b next (tail st) st).

(** Non-blocking: the inner [None] is the result [false]. *)
Definition TryRead (st : kbd_state) : option (option Z * kbd_state) :=
  if tail st =? head st then Some (None, st)
  else
    r ← aget (buf st) (tail st);
    Some (Some r, set_ring (buf st) (head st) (Z.land (u32 (tail st + 1)) (bufSize - 1)) st).

Section io.
Context {D : Type} `{!PortIO D}.

Definition IRQHandler (st : kbd_state) (d : D) : option (kbd_state * D) :=
  let '(sc, d) := inb 0x60 d in
  r ← translateScancode sc st;
  let '(key, st) := r in
  st ← (match key with Some r => push r st | None => Some st end);
  Some (st, d).

(** The polling loops, [None] when [fuel] rounds were not enough. *)
Fixpoint readScancode (fuel : nat) (d : D) : option (Z * D) :=
  match fuel with
  | O => None
  | S fuel =>
      let '(status, d) := inb portStatus d in
      if negb (Z.land status statusOutputBuffer =? 0) then Some (inb portData d)
      else readScancode fuel d
  end.

Fixpoint ReadKey (fuel : nat) (st : kbd_state) (d : D) : option (Z * kbd_state * D) :=
  match fuel with
  | O => None
  | S fuel' =>
      sc ← readScancode fuel d;
      let '(sc, d) := sc in
      r ← translateScancode sc st;
      let '(key, st) := r in
      match key with
      | Some r => Some (r, st, d)
      | None => ReadKey fuel' st d
      end
  end.
End io.

(** src/kernel/keyboard.go *)
Definition initKeyboardLayout (st : kbd_state) : list Z * kbd_state :=
  let '(keyLayout, layoutName) := GetIT in (layoutName, SetLayout keyLayout st).

(** ** The ring buffer as a queue *)
Definition ring_inv (st : kbd_state) : Prop :=
  len (buf st) = bufSize ∧ 0 ≤ head st < bufSize ∧ 0 ≤ tail st < bufSize.

Definition cell (b : list Z) (i : Z) : Z := default 0 (aget b (i `mod` bufSize)).

Definition pending (st : kbd_state) : Z := (head st - tail st) `mod` bufSize.

(** The runes waiting to be read, oldest first. *)
Definition queue (st : kbd_state) : list Z :=
  (λ i, cell (buf st) (tail st + i)) <$> seqZ 0 (pending st).

Lemma ring_next h : 0 ≤ h < bufSize → Z.land (u32 (h + 1)) (bufSize - 1) = (h + 1) `mod` bufSize.
Proof.
  unfold bufSize. intros Hh. rewrite u32_small by lia. change (256 - 1) with (Z.ones 8).
  by rewrite Z.land_ones by lia.
Qed.

Lemma pending_range st : 0 ≤ pending st < 256.
Proof. apply Z.mod_pos_bound. done. Qed.

Lemma len_queue st : len (queue st) = pending st.
Proof.
  unfold queue. rewrite len_length, length_fmap, length_seqZ. pose proof (pending_range st). lia.
Qed.

Section ring_arith.
Context (h t : Z) (Hh : 0 ≤ h < 256) (Ht : 0 ≤ t < 256).

Lemma ring_full : (h + 1) `mod` 256 = t ↔ (h - t) `mod` 256 = 255.
Proof. mod_lia. Qed.
Lemma ring_empty : t = h ↔ (h - t) `mod` 256 = 0.
Proof. mod_lia. Qed.
Lemma ring_grow : (h - t) `mod` 256 ≠ 255 → ((h + 1) `mod` 256 - t) `mod` 256 = (h - t) `mod` 256 + 1.
Proof. mod_lia. Qed.
Lemma ring_shrink : t ≠ h → (h - (t + 1) `mod` 256) `mod` 256 = (h - t) `mod` 256 - 1.
Proof. mod_lia. Qed.
Lemma ring_cell i : 0 ≤ i ≤ (h - t) `mod` 256 → (t + i) `mod` 256 = h ↔ i = (h - t) `mod` 256.
Proof. mod_lia. Qed.
End ring_arith.

Lemma cell_insert b h v i :
  len b = bufSize → 0 ≤ h < bufSize →
  cell (<[Z.to_nat h := v]> b) i = if decide (i `mod` bufSize = h) then v else cell b i.
Proof.
  intros Hb Hh. unfold cell. rewrite aget_insert, Z2Nat.id by lia. by case_decide.
Qed.

Lemma cell_mod b i : cell b (i `mod` bufSize) = cell b i.
Proof. unfold cell. by rewrite Z.mod_mod by done. Qed.

Lemma push_spec r st :
  ring_inv st →
  ok (push r st) (λ st', ring_inv st' ∧
    queue st' = (if pending st <? 255 then queue st ++ [r] else queue st) ∧
    (∃ b h, st' = set_ring b h (tail st) st)).
Proof.
  intros (Hb & Hh & Ht). unfold push. rewrite ring_next by done.
  pose proof (ring_full (head st) (tail st) Hh Ht) as Hfull. pose proof (pending_range st) as Hpr.
  destruct (Z.eqb_spec ((head st + 1) `mod` bufSize) (tail st)) as [E|E].
  { apply Hfull in E. unfold pending, bufSize. rewrite E. simpl. split; [by split|]. split; [done|].
    exists (buf st), (head st). by destruct st. }
  assert (pending st ≠ 255) as Hp by (intros Ep; by apply E, Hfull).
  rewrite aset_Some by lia. simpl. split.
  { split; simpl; [by rewrite len_insert|]. split; [apply Z.mod_pos_bound; done|done]. }
  split; [|by eexists _, _]. destruct (Z.ltb_spec (pending st) 255); [|lia].
  pose proof (ring_grow (head st) (tail st) Hh Ht Hp) as Eg.
  assert (pending (set_ring (<[Z.to_nat (head st) := r]> (buf st)) ((head st + 1) `mod` bufSize)
    (tail st) st) = pending st + 1) as Ep' by exact Eg.
  unfold queue at 1. rewrite Ep'. rewrite seqZ_app by lia. rewrite fmap_app. f_equal.
  - apply list_fmap_ext. intros i x [-> Hi]%lookup_seqZ. simpl. rewrite cell_insert by done.
    rewrite decide_False; [done|]. intros Ec. apply (ring_cell (head st) (tail st) Hh Ht) in Ec; unfold pending, bufSize in *; lia.
  - simpl. f_equal. rewrite cell_insert by done. rewrite decide_True; [done|].
    apply (ring_cell (head st) (tail st) Hh Ht); unfold pending, bufSize in *; lia.
Qed.

Lemma TryRead_spec st :
  ring_inv st →
  ok (TryRead st) (λ '(o, st'), ring_inv st' ∧
    match o with
    | None => queue st = [] ∧ st' = st
    | Some r => queue st = r :: queue st' ∧ ∃ t, st' = set_ring (buf st) (head st) t st
    end).
Proof.
  intros (Hb & Hh & Ht). unfold TryRead. rewrite ring_next by done.
  pose proof (ring_empty (head st) (tail st) Hh Ht) as He. pose proof (pending_range st) as Hpr.
  destruct (Z.eqb_spec (tail st) (head st)) as [E|E].
  { apply He in E. simpl. split; [by split|]. split; [|done]. unfold queue, pending, bufSize. by rewrite E. }
  destruct (aget_Some (buf st) (tail st)) as [r Hr]; [lia|]. rewrite Hr. simpl. split.
  { split; simpl; [done|]. split; [done|apply Z.mod_pos_bound; done]. }
  split; [|by eexists].
  pose proof (ring_shrink (head st) (tail st) Hh Ht E) as Es.
  assert (pending st ≠ 0) as Hp by (intros Ep; by apply E, He).
  set (st' := set_ring (buf st) (head st) ((tail st + 1) `mod` bufSize) st).
  assert (pending st' = Z.pred (pending st)) as Ep' by (unfold pending, bufSize in *; simpl; lia).
  unfold queue. rewrite Ep'. rewrite (seqZ_cons 0) by lia. simpl. f_equal.
  { rewrite Z.add_0_r. unfold cell. by rewrite Z.mod_small, Hr by done. }
  change (Z.succ 0) with (1 + 0). rewrite <-fmap_add_seqZ, <-list_fmap_compose.
  apply list_fmap_ext. intros i x _. simpl. rewrite <-(cell_mod _ ((tail st + 1) `mod` bufSize + x)).
  rewrite <-(cell_mod _ (tail st + (1 + x))). f_equal. rewrite Z.add_mod_idemp_l by done. f_equal. lia.
Qed.

(** ** Interrupts and reads in any order *)
Inductive kevent := Irq | Poll.

(** What goes through the buffer: from the keys [q] in it, with [typed] coming in and [out]
    read, to the keys [q'].  Order is kept, nothing is invented, and nothing is lost as long
    as at most 255 runes are in flight. *)
Definition flow (q typed out q' : list Z) : Prop :=
  ∃ acc, acc `sublist_of` typed ∧ out ++ q' = q ++ acc ∧ (len q + len typed ≤ 255 → acc = typed).

Lemma flow_nil q : flow q [] [] q.
Proof. exists []. by rewrite app_nil_r. Qed.

Lemma flow_push q x typed out q' :
  flow (if len q <? 255 then q ++ x else q) typed out q' → flow q (x ++ typed) out q'.
Proof.
  intros (acc & Hsub & Hout & Hall). pose proof (len_nonneg typed). pose proof (len_nonneg x).
  destruct (Z.ltb_spec (len q) 255).
  - exists (x ++ acc). split; [by apply sublist_app|]. rewrite <-app_assoc in Hout.
    split; [done|]. rewrite len_app. intros Hl. f_equal. apply Hall. rewrite len_app. lia.
  - exists acc. split; [by apply sublist_inserts_l|]. split; [done|]. rewrite len_app. intros Hl.
    assert (x = []) as -> by (apply len_0_nil; lia). apply Hall. lia.
Qed.

(** One flow after the other. *)
Lemma flow_app q p1 o1 q1 p2 o2 q2 :
  flow q p1 o1 q1 → flow q1 p2 o2 q2 → flow q (p1 ++ p2) (o1 ++ o2) q2.
Proof.
  intros (a1 & Hs1 & E1 & H1) (a2 & Hs2 & E2 & H2). exists (a1 ++ a2).
  split; [by apply sublist_app|]. rewrite <-app_assoc, E2, !app_assoc, E1. split; [done|].
  rewrite len_app. pose proof (len_nonneg p2). pose proof (len_nonneg o1). intros Hl.
  assert (a1 = p1) as -> by (apply H1; lia). f_equal. apply H2.
  assert (len (o1 ++ q1) = len (q ++ p1)) as Hq by (by rewrite E1). rewrite !len_app in Hq. lia.
Qed.

Lemma flow_read r q typed out q' : flow q typed out q' → flow (r :: q) typed (r :: out) q'.
Proof.
  intros (acc & Hsub & Hout & Hall). exists acc. split; [done|]. split; [cbn; by rewrite Hout|].
  rewrite len_cons. intros Hl. apply Hall. lia.
Qed.

Section run.
Context {D : Type} `{!PortIO D}.

(** The rune the next interrupt types, if any. *)
Definition typed_by (st : kbd_state) (d : D) : list Z :=
  match translateScancode (inb 0x60 d).1 st with Some (Some r, _) => [r] | _ => [] end.

(** Runs the events; returns what was typed and what was read. *)
Fixpoint kbd_run (es : list kevent) (st : kbd_state) (d : D)
    : option (list Z * list Z * kbd_state * D) :=
  match es with
  | [] => Some ([], [], st, d)
  | Irq :: es =>
      r ← IRQHandler st d;
      let '(st', d') := r in
      r ← kbd_run es st' d';
      let '(typed, out, st', d') := r in
      Some (typed_by st d ++ typed, out, st', d')
  | Poll :: es =>
      r ← TryRead st;
      let '(o, st') := r in
      r ← kbd_run es st' d;
      let '(typed, out, st', d') := r in
      Some (typed, match o with Some r => r :: out | None => out end, st', d')
  end.

Lemma handleModifier_ring sc st :
  let st' := (handleModifier sc st).2 in
  buf st' = buf st ∧ head st' = head st ∧ tail st' = tail st ∧ currentLayout st' = currentLayout st.
Proof. unfold handleModifier. repeat (destruct (_ =? _); [done|]). done. Qed.

Lemma queue_ext st st' :
  buf st' = buf st → head st' = head st → tail st' = tail st →
  queue st' = queue st ∧ (ring_inv st → ring_inv st').
Proof. unfold queue, pending, ring_inv. intros -> -> ->. done. Qed.

(** Translation leaves the ring alone and never panics once a layout is set. *)
Lemma translate_frame sc st :
  is_Some (currentLayout st) →
  ok (translateScancode sc st) (λ '(_, st'), st' = (handleModifier sc st).2).
Proof.
  intros [l Hl]. unfold translateScancode. pose proof (handleModifier_ring sc st) as (_ & _ & _ & Hlay).
  destruct (handleModifier sc st) as [[] st']; simpl in *; [done|].
  destruct (negb _); [done|]. rewrite Hlay, Hl. simpl. destruct (GetKey l sc); [|done].
  destruct (isASCIILetter _); [done|]. destruct (_ && _); [|done]. by destruct (GetShiftDigitSymbol _ _).
Qed.

Lemma IRQHandler_spec st d :
  ring_inv st → is_Some (currentLayout st) →
  ok (IRQHandler st d) (λ '(st', _), ring_inv st' ∧ is_Some (currentLayout st') ∧
    queue st' = if pending st <? 255 then queue st ++ typed_by st d else queue st).
Proof.
  intros Hinv Hlay. unfold IRQHandler, typed_by. destruct (inb 0x60 d) as [sc d']. simpl.
  destruct (ok_elim _ _ (translate_frame sc st Hlay)) as ([o st1] & E & ->). rewrite E. simpl.
  pose proof (handleModifier_ring sc st) as (Hb & Hh & Ht & Hl).
  set (st1 := (handleModifier sc st).2) in *.
  destruct (queue_ext st st1 Hb Hh Ht) as [Hq Hinv1].
  assert (pending st1 = pending st) as Hp by (unfold pending; by rewrite Hh, Ht).
  destruct o as [r|]; simpl.
  - call push_spec; [by apply Hinv1|]. intros st2 (Hinv2 & Hq2 & b & h & ->). simpl.
    rewrite Hq2, Hp, Hq, Hl. by split.
  - rewrite Hq, Hl, app_nil_r. split; [by apply Hinv1|]. split; [done|]. by destruct (_ <? _).
Qed.

Lemma kbd_run_spec es : ∀ st d,
  ring_inv st → is_Some (currentLayout st) →
  ok (kbd_run es st d) (λ '(typed, out, st', _), ring_inv st' ∧ flow (queue st) typed out (queue st')).
Proof.
  induction es as [|[] es IH]; intros st d Hinv Hlay; simpl.
  - split; [done|]. apply flow_nil.
  - call IRQHandler_spec; [done..|]. intros [st1 d1] (Hinv1 & Hlay1 & Hq1).
    call (IH st1 d1 Hinv1 Hlay1). intros [[[typed out] st2] d2] (Hinv2 & Hflow). simpl.
    split; [done|]. rewrite Hq1, <-len_queue in Hflow. by apply flow_push.
  - call TryRead_spec; [done|]. intros [o st1] [Hinv1 Ho].
    assert (is_Some (currentLayout st1)) as Hlay1.
    { destruct o; [by destruct Ho as (_ & t & ->)|by destruct Ho as (_ & ->)]. }
    call (IH st1 d Hinv1 Hlay1). intros [[[typed out] st2] d2] (Hinv2 & Hflow). simpl.
    split; [done|]. destruct o as [r|].
    + destruct Ho as (-> & _). by apply flow_read.
    + by destruct Ho as (Eq & ->).
Qed.
End run.

(** ** The modifier keys along a history of scancodes *)

(** The scancodes that the interrupts among [es] take from the controller. *)
Fixpoint codes {D} `{!PortIO D} (es : list kevent) (d : D) : list Z :=
  match es with
  | [] => []
  | Irq :: es => let '(sc, d) := inb 0x60 d in sc :: codes es d
  | Poll :: es => codes es d
  end.

(** The key with these press and release codes is held down at the end of [scs]. *)
Definition held (down up : Z) (scs : list Z) : Prop :=
  ∃ pre post, scs = pre ++ down :: post ∧ up ∉ post.

Definition presses (down : Z) (scs : list Z) : nat := length (filter (.= down) scs).

Lemma held_snoc down up scs sc :
  down ≠ up →
  held down up (scs ++ [sc]) ↔ sc = down ∨ (sc ≠ up ∧ held down up scs).
Proof.
  intros Hne. split.
  - intros (pre & post & E & Hup). destruct post as [|x post] using rev_ind.
    + apply app_inj_tail in E as [_ ->]. by left.
    + clear IHpost. rewrite app_comm_cons, app_assoc in E. apply app_inj_tail in E as [-> ->].
      right. split; [set_solver|]. exists pre, post. set_solver.
  - intros [->|(Hsc & pre & post & -> & Hup)].
    + exists scs, []. split; [done|]. set_solver.
    + exists pre, (post ++ [sc]). rewrite <-app_assoc, <-app_comm_cons. set_solver.
Qed.

Lemma presses_snoc down scs sc :
  presses down (scs ++ [sc]) = (presses down scs + if decide (sc = down) then 1 else 0)%nat.
Proof.
  unfold presses. rewrite filter_app, length_app, filter_cons, filter_nil. by case_decide.
Qed.

(** The five modifier codes, one step. *)
Lemma handleModifier_mods sc st :
  let st' := (handleModifier sc st).2 in
  (leftShiftDown st' = true ↔ sc = 0x2A ∨ (sc ≠ 0xAA ∧ leftShiftDown st = true)) ∧
  (rightShiftDown st' = true ↔ sc = 0x36 ∨ (sc ≠ 0xB6 ∧ rightShiftDown st = true)) ∧
  capsLockOn st' = (if decide (sc = 0x3A) then negb (capsLockOn st) else capsLockOn st).
Proof.
  intros st'. subst st'. unfold handleModifier.
  cmp; simpl; (split; [|split]); try case_decide; intuition (done || lia).
Qed.

(** Right after the scancodes [scs], starting without shift or caps lock. *)
Definition mods_after (scs : list Z) (st : kbd_state) : Prop :=
  (leftShiftDown st = true ↔ held 0x2A 0xAA scs) ∧
  (rightShiftDown st = true ↔ held 0x36 0xB6 scs) ∧
  capsLockOn st = Nat.odd (presses 0x3A scs).

Lemma mods_after_nil st :
  leftShiftDown st = false → rightShiftDown st = false → capsLockOn st = false → mods_after [] st.
Proof.
  intros Hl Hr Hc. unfold mods_after. rewrite Hl, Hr, Hc. split_and!; [| |done]; split; try done;
    intros (pre & post & E & _); by destruct pre.
Qed.

Lemma mods_after_snoc scs sc st :
  mods_after scs st → mods_after (scs ++ [sc]) (handleModifier sc st).2.
Proof.
  intros (IHl & IHr & IHc). destruct (handleModifier_mods sc st) as (El & Er & Ec). unfold mods_after.
  rewrite El, Er, Ec, IHl, IHr, IHc, !held_snoc, presses_snoc by done.
  split; [done|]. split; [done|]. case_decide; [|by rewrite Nat.add_0_r].
  by rewrite Nat.add_1_r, Nat.odd_succ, Nat.negb_odd.
Qed.

(** The ring buffer holds none of it. *)
Lemma mods_after_ext scs st st' :
  leftShiftDown st' = leftShiftDown st → rightShiftDown st' = rightShiftDown st →
  capsLockOn st' = capsLockOn st → mods_after scs st → mods_after scs st'.
Proof. unfold mods_after. intros -> -> ->. done. Qed.

Section history.
Context {D : Type} `{!PortIO D}.

(** An interrupt changes the modifiers as its scancode says. *)
Lemma IRQHandler_mods scs l st d :
  ring_inv st → currentLayout st = Some l → mods_after scs st →
  ok (IRQHandler st d) (λ '(st', d'), d' = (inb 0x60 d).2 ∧ ring_inv st' ∧ currentLayout st' = Some l ∧
    mods_after (scs ++ [(inb 0x60 d).1]) st').
Proof.
  intros Hinv Hlay Hmods. unfold IRQHandler. destruct (inb 0x60 d) as [sc d']. simpl.
  destruct (ok_elim _ _ (translate_frame sc st (mk_is_Some _ _ Hlay))) as ([o st1] & E & ->). rewrite E. simpl.
  pose proof (handleModifier_ring sc st) as (Hb & Hh & Ht & Hl). pose proof (mods_after_snoc _ sc _ Hmods) as Hm.
  set (st1 := (handleModifier sc st).2) in *. destruct (queue_ext st st1 Hb Hh Ht) as [_ Hinv1].
  specialize (Hinv1 Hinv). rewrite Hlay in Hl. destruct o as [r|]; simpl; [|done].
  call push_spec; [done|]. intros st2 (Hinv2 & _ & b & h & ->). simpl. split_and!; try done.
Qed.

Lemma kbd_run_mods es : ∀ scs l st d,
  ring_inv st → currentLayout st = Some l → mods_after scs st →
  ok (kbd_run es st d) (λ '(_, _, st', _), ring_inv st' ∧ currentLayout st' = Some l ∧
    mods_after (scs ++ codes es d) st').
Proof.
  induction es as [|[] es IH]; intros scs l st d Hinv Hlay Hmods; simpl.
  - by rewrite app_nil_r.
  - call IRQHandler_mods; [done..|]. intros [st1 d1] (-> & Hinv1 & Hlay1 & Hm1). destruct (inb 0x60 d) as [sc d1].
    simpl in *. call (IH (scs ++ [sc]) l st1 d1); [done..|]. intros [[[typed out] st2] d2] (? & ? & Hm). simpl.
    split_and!; [done..|]. by rewrite <-app_assoc in Hm.
  - call TryRead_spec; [done|]. intros [o st1] [Hinv1 Ho].
    assert (currentLayout st1 = Some l ∧ mods_after scs st1) as [Hlay1 Hm1].
    { destruct o; [destruct Ho as (_ & t & ->)|by destruct Ho as (_ & ->)]. split; [done|].
      by eapply mods_after_ext; [..|exact Hmods]. }
    call (IH scs l st1 d); [done..|]. intros [[[typed out] st2] d2] (? & ? & ?). by simpl.
Qed.
End history.

(** The code of a key that types is neither a modifier nor a release. *)
Definition key_code (sc : Z) : Prop := 0 ≤ sc < 0x80 ∧ sc ≠ 0x2A ∧ sc ≠ 0x36 ∧ sc ≠ 0x3A.

Lemma key_code_plain sc st :
  key_code sc → handleModifier sc st = (false, st) ∧ Z.land sc 0x80 = 0.
Proof.
  intros (Hr & H1 & H2 & H3). split.
  - unfold handleModifier. by cmp.
  - change 0x80 with (2 ^ 7). apply Z.eqb_eq. rewrite testbit_land_pow2 by lia.
    rewrite <-(wrap_small 7 sc), wrap_testbit by lia. done.
Qed.

(** Bit 5 of an ASCII letter is its case. *)
Lemma letter_case r : isASCIILetter r = true →
  toLowerASCII r = Z.setbit r 5 ∧ toUpperASCII r = Z.clearbit r 5.
Proof.
  intros Hr. assert (65 ≤ r < 123) as Hc.
  { unfold isASCIILetter in Hr. rewrite orb_true_iff, !andb_true_iff in Hr. lia. }
  assert (Forall (λ r, isASCIILetter r = true → toLowerASCII r = Z.setbit r 5 ∧ toUpperASCII r = Z.clearbit r 5)
    (seqZ 65 58)) as H by (by apply (bool_decide_eq_true_1 _); vm_compute).
  rewrite Forall_forall in H. apply H; [|done]. apply elem_of_seqZ. lia.
Qed.

(** ** Properties *)

(** C26: for every interleaving of keyboard interrupts and reads by the shell, no step
    panics, and what was read followed by what is still in the buffer is what was there
    at the start followed by runes that were typed, in order and without repetition;
    nothing is lost as long as at most 255 runes are in flight. *)
Theorem kbd_fifo `{!PortIO D} (es : list kevent) (st : kbd_state) (d : D)
    (Hring : ring_inv st) (Hlayout : is_Some (currentLayout st)) :
  ∃ typed out st' d', kbd_run es st d = Some (typed, out, st', d') ∧ ring_inv st' ∧
    ∃ acc, acc `sublist_of` typed ∧ out ++ queue st' = queue st ++ acc ∧
      (len (queue st) + len typed ≤ 255 → acc = typed).
Proof.
  destruct (ok_elim _ _ (kbd_run_spec es st d Hring Hlayout)) as ([[[typed out] st'] d'] & E & ? & ?).
  by exists typed, out, st', d'.
Qed.

(** C27: the case of a letter follows the history of the keyboard: after any interleaving
    of keyboard interrupts and reads, an interrupt for a letter key types exactly one
    rune, that letter in upper case (bit 5 clear) when a shift key is still held down
    or caps lock was pressed an odd number of times, but not both, and in lower case
    otherwise; the rune enters the buffer unless it is full. *)
Theorem letter_case_history `{!PortIO D} (l : Layout) (es : list kevent) (st : kbd_state) (d : D)
    (Hring : ring_inv st) (Hlayout : currentLayout st = Some l)
    (Hleft : leftShiftDown st = false) (Hright : rightShiftDown st = false)
    (Hcaps : capsLockOn st = false) :
  ∃ typed out st' d', kbd_run es st d = Some (typed, out, st', d') ∧
    ∀ sc r, sc = (inb 0x60 d').1 → key_code sc → GetKey l sc = Some r → isASCIILetter r = true →
    ∃ o st'' d'', IRQHandler st' d' = Some (st'', d'') ∧ typed_by st' d' = [o] ∧
      queue st'' = (if pending st' <? 255 then queue st' ++ [o] else queue st') ∧
      let shift := held 0x2A 0xAA (codes es d) ∨ held 0x36 0xB6 (codes es d) in
      let caps := Nat.odd (presses 0x3A (codes es d)) = true in
      ((shift ↔ caps) → o = Z.setbit r 5) ∧ (¬ (shift ↔ caps) → o = Z.clearbit r 5).
Proof.
  pose proof (mods_after_nil st Hleft Hright Hcaps) as Hm.
  destruct (ok_elim _ _ (kbd_run_mods es [] l st d Hring Hlayout Hm)) as ([[[typed out] st'] d'] & E & Hring' & Hlay' & Hl & Hr & Hc).
  simpl in Hl, Hr, Hc. exists typed, out, st', d'. split; [exact E|]. intros sc r -> Hsc Hkey Hletter.
  destruct (ok_elim _ _ (IRQHandler_spec st' d' Hring' (mk_is_Some _ _ Hlay'))) as ([st'' d''] & Ei & _ & _ & Hq).
  destruct (key_code_plain (inb 0x60 d').1 st' Hsc) as [Hp Hand].
  assert (typed_by st' d' = [if negb (eqb (shiftActive st') (capsLockOn st')) then toUpperASCII r else toLowerASCII r]) as Ht.
  { unfold typed_by, translateScancode. rewrite Hp, Hand, Hlay'. simpl. by rewrite Hkey, Hletter. }
  rewrite Ht in *. eexists _, st'', d''. split; [exact Ei|]. split; [reflexivity|]. split; [exact Hq|]. cbv zeta.
  destruct (letter_case r Hletter) as [-> ->]. rewrite <-Hl, <-Hr, <-Hc. unfold shiftActive. rewrite <-orb_true_iff.
  destruct (_ || _), (capsLockOn st'); simpl; split; intros Hx; try reflexivity; exfalso; clear -Hx; naive_solver.
Qed.

(** *** Witnesses *)
Definition demo_kbd : kbd_state :=
  KbdState false false false (Some GetUS.1) (replicate 256 0) 0 0.
Definition demo_keys : recorder := Recorder [] [0x2A; 0x23; 0xAA; 0x17].
Definition demo_caps : recorder := Recorder [] [0x2A; 0x3A; 0xAA; 0x1E].

Lemma kbd_fifo_witness :
  ∃ typed out st' d', kbd_run [Irq; Irq; Irq; Poll; Irq] demo_kbd demo_keys = Some (typed, out, st', d') ∧
    ring_inv st' ∧
    ∃ acc, acc `sublist_of` typed ∧ out ++ queue st' = queue demo_kbd ++ acc ∧
      (len (queue demo_kbd) + len typed ≤ 255 → acc = typed).
Proof.
  apply (kbd_fifo [Irq; Irq; Irq; Poll; Irq] demo_kbd demo_keys).
  - split; [apply (len_replicate 256 0)|done].
  - by exists GetUS.1.
Defined.

Lemma letter_case_history_witness :
  ∃ typed out st' d', kbd_run [Irq; Irq; Poll; Irq] demo_kbd demo_caps = Some (typed, out, st', d') ∧
    ∀ sc r, sc = (inb 0x60 d').1 → key_code sc → GetKey GetUS.1 sc = Some r → isASCIILetter r = true →
    ∃ o st'' d'', IRQHandler st' d' = Some (st'', d'') ∧ typed_by st' d' = [o] ∧
      queue st'' = (if pending st' <? 255 then queue st' ++ [o] else queue st') ∧
      let scs := codes [Irq; Irq; Poll; Irq] demo_caps in
      let shift := held 0x2A 0xAA scs ∨ held 0x36 0xB6 scs in
      let caps := Nat.odd (presses 0x3A scs) = true in
      ((shift ↔ caps) → o = Z.setbit r 5) ∧ (¬ (shift ↔ caps) → o = Z.clearbit r 5).
Proof.
  apply (letter_case_history GetUS.1 [Irq; Irq; Poll; Irq] demo_kbd demo_caps); try reflexivity.
  split; [apply (len_replicate 256 0)|done].
Defined.

(** Its next scancode is the letter a, typed in upper case after shift was released. *)
Example demo_caps_letter :
  kbd_run [Irq; Irq; Poll; Irq] demo_kbd demo_caps ≫= (λ '(_, _, st, d),
    Some (codes [Irq; Irq; Poll; Irq] demo_caps, (inb 0x60 d).1, typed_by st d)) =
  Some ([0x2A; 0x3A; 0xAA], 0x1E, gs "A").
Proof. vm_compute. reflexivity. Qed.

(** Shift-h, i typed on the US layout; the rune of the first is read in between. *)
Example demo_typing :
  kbd_run [Irq; Irq; Irq; Poll; Irq] demo_kbd demo_keys ≫= (λ '(typed, out, st, _),
    Some (typed, out, queue st)) = Some (gs "Hi", gs "H", gs "i").
Proof. vm_compute. reflexivity. Qed.

(** Every rune the two layouts can type is a printable ASCII character, a space, a
    newline, a backspace or the pound sign of the Italian layout. *)
Definition typable (r : Z) : bool := (r =? 8) || (r =? 10) || (r =? 163) || ((32 <=? r) && (r <=? 126)).

Example layouts_typable :
  forallb (λ l, forallb (λ '(a, b, c), forallb (λ sc,
      match translateScancode sc (KbdState a b c (Some l) [] 0 0) with
      | Some (Some r, _) => typable r
      | Some (None, _) => true
      | None => false
      end) (seqZ 0 256))
    (a ← [false; true]; b ← [false; true]; c ← [false; true]; [(a, b, c)]))
  [GetUS.1; GetIT.1] = true.
Proof. vm_compute. reflexivity. Qed.
