(* ===== verification/Scheduler.v ===== *)
(** * Package [kernel/scheduler]: tasks, round robin and the context switch

    [src/kernel/scheduler/scheduler.go] with the context switch it calls,
    [src/asm/switch.s].  A [*Task] is an index into [taskPool]; the stacks are bytes of
    memory at the addresses the linker gives them. *)
From S2P Require Import Prelude.
Local Open Scope Z_scope.

Definition StackSize : Z := 4096.
Definition MaxTasks : Z := 16.

Inductive TaskState := TaskRunnable | TaskRunning | TaskWaiting | TaskDead.

#[export] Instance TaskState_eq_dec : EqDecision TaskState.
Proof. solve_decision. Defined.

Record Task := MkTask {
  ID : Z;
  ESP : Z;
  State : TaskState;
}.

Record sched_state := SchedState {
  tasks : list (option Z);
  taskCount : Z;
  currentTask : option Z;
  nextID : Z;
  taskPool : list Task;
  stacks : memory;
}.

Definition set_pool (p : list Task) (st : sched_state) : sched_state :=
  SchedState (tasks st) (taskCount st) (currentTask st) (nextID st) p (stacks st).
Definition set_current (c : option Z) (st : sched_state) : sched_state :=
  SchedState (tasks st) (taskCount st) c (nextID st) (taskPool st) (stacks st).

Definition with_state (s : TaskState) (t : Task) : Task := MkTask (ID t) (ESP t) s.
Definition with_esp (e : Z) (t : Task) : Task := MkTask (ID t) e (State t).

(** [p.State = s] through a task pointer; a nil pointer is a panic. *)
Definition set_task_state (p : option Z) (s : TaskState) (st : sched_state) : option sched_state :=
  i ← p; t ← aget (taskPool st) i; pool ← aset (taskPool st) i (with_state s t);
  Some (set_pool pool st).

Definition task_state (p : option Z) (st : sched_state) : option TaskState :=
  i ← p; t ← aget (taskPool st) i; Some (State t).

Definition Init (st : sched_state) : option sched_state :=
  t ← aget (taskPool st) 0;
  pool ← aset (taskPool st) 0 (MkTask 0 (ESP t) TaskRunning);
  ts ← aset (tasks st) 0 (Some 0);
  Some (SchedState ts 1 (Some 0) 1 pool (stacks st)).

Definition write64 (m : memory) (a v : Z) : memory := writeLE m 8 a v.
Definition read64 (m : memory) (a : Z) : Z := readLE m 8 a.

Section addresses.
(** The address of [taskPool[i].Stack[0]] and the entry point of [taskAutoExit], both
    chosen by the linker. *)
Variable stackAddr : Z → Z.
Variable autoExitPC : Z.

(** The entry point behind a func value: a pointer to a closure whose first word is the
    code pointer. *)
Definition funcPC (fn : Z) (m : memory) : Z := if fn =? 0 then 0 else read64 m fn.

(** The initial frame of a task: where [CpuSwitch] will find registers and return
    address. *)
Definition initial_frame (base entry : Z) (m : memory) : Z * memory :=
  let sp := u64 (base + StackSize) in
  let sp := Z.land sp (u64 (Z.lnot 15)) in
  let sp := u64 (sp - 8) in
  let m := write64 m sp autoExitPC in
  let sp := u64 (sp - 8) in
  let m := write64 m sp entry in
  let sp := u64 (sp - 32) in
  let m := write64 m (u64 (sp + 0)) 0 in
  let m := write64 m (u64 (sp + 8)) 0 in
  let m := write64 m (u64 (sp + 16)) 0 in
  let m := write64 m (u64 (sp + 24)) 0 in
  (sp, m).

(** The inner [None] is a nil result. *)
Definition NewTaskEntry (entry : Z) (st : sched_state) : option (option Z * sched_state) :=
  if MaxTasks <=? taskCount st then Some (None, st)
  else if entry =? 0 then Some (None, st)
  else
    let idx := taskCount st in
    t ← aget (taskPool st) idx;
    let '(sp, m) := initial_frame (stackAddr idx) entry (stacks st) in
    pool ← aset (taskPool st) idx (MkTask (nextID st) sp TaskRunnable);
    ts ← aset (tasks st) idx (Some idx);
    Some (Some idx,
          SchedState ts (taskCount st + 1) (currentTask st) (i64 (nextID st + 1)) pool m).

Definition NewTask (fn : Z) (st : sched_state) : option (option Z * sched_state) :=
  NewTaskEntry (funcPC fn (stacks st)) st.
End addresses.

(** A call [cpuSwitch(&old.ESP, new.ESP)], which [Schedule] makes last. *)
Record switch := Switch { sw_old : Z; sw_newESP : Z }.

Definition current_index (st : sched_state) : option Z :=
  loop_end
    (for_range 0 (taskCount st)
       (λ i (_ : unit), t ← aget (tasks st) i;
          if decide (t = currentTask st) then Some (inr i) else Some (inl tt)) tt)
    (λ _, Some (-1)).

Definition next_runnable (currentIndex : Z) (st : sched_state) : option Z :=
  loop_end
    (for_range 1 (taskCount st)
       (λ i (_ : unit),
          let idx := Z.rem (currentIndex + i) (taskCount st) in
          t ← aget (tasks st) idx;
          s ← task_state t st;
          if decide (s = TaskRunnable) then Some (inr idx) else Some (inl tt)) tt)
    (λ _, Some (-1)).

(** The part of [Schedule] that hands over to [tasks[nextIndex]]. *)
Definition switch_to (nextIndex : Z) (st : sched_state) : option (option switch * sched_state) :=
  let oldTask := currentTask st in
  newTask ← aget (tasks st) nextIndex;
  s ← task_state oldTask st;
  st ← (if decide (s = TaskDead) then Some st else set_task_state oldTask TaskRunnable st);
  st ← set_task_state newTask TaskRunning st;
  let st := set_current newTask st in
  old ← oldTask;
  new ← newTask;
  t ← aget (taskPool st) new;
  Some (Some (Switch old (ESP t)), st).

Definition Schedule (st : sched_state) : option (option switch * sched_state) :=
  if taskCount st <=? 1 then Some (None, st)
  else
    currentIndex ← current_index st;
    nextIndex ← next_runnable currentIndex st;
    if nextIndex =? -1 then
      s ← task_state (currentTask st) st;
      if decide (s = TaskDead) then switch_to 0 st
      else Some (None, st)
    else switch_to nextIndex st.

(** [Exit] never comes back to its caller once a task is running: after the switch (or
    when there is nothing to switch to) the code spins.  [inl] is the plain return. *)
Definition Exit (st : sched_state) : option (sched_state + option switch * sched_state) :=
  match currentTask st with
  | None => Some (inl st)
  | Some _ =>
      st ← set_task_state (currentTask st) TaskDead st;
      r ← Schedule st;
      Some (inr r)
  end.

Definition CurrentTaskID (st : sched_state) : option Z :=
  match currentTask st with
  | None => Some (-1)
  | Some i => t ← aget (taskPool st) i; Some (ID t)
  end.

(** ** The context switch, src/asm/switch.s *)

(** The registers a call must preserve and [CpuSwitch] does not touch: the other four
    callee-saved ones and the flags.  (The caller-saved registers are lost in any call.) *)
Record kept_regs := KeptRegs { r12 : Z; r13 : Z; r14 : Z; r15 : Z; rflags : Z }.

Record cpu := Cpu { rsp : Z; rbp : Z; rbx : Z; rsi : Z; rdi : Z; kept : kept_regs; rip : Z }.

Definition pushq (v : Z) (rsp : Z) (m : memory) : Z * memory :=
  let rsp := u64 (rsp - 8) in (rsp, write64 m rsp v).
Definition popq (rsp : Z) (m : memory) : Z * Z := (read64 m rsp, u64 (rsp + 8)).

(** [CpuSwitch(old, new)] entered with the return address on top of the stack: saves the
    four registers, stores [rsp] in [old], continues on [new].  Returns the value for
    [*old].  [r12] to [r15] and the flags go through to the task that is switched in. *)
Definition CpuSwitch (new : Z) (c : cpu) (m : memory) : Z * cpu * memory :=
  let '(sp, m) := pushq (rbp c) (rsp c) m in
  let '(sp, m) := pushq (rbx c) sp m in
  let '(sp, m) := pushq (rsi c) sp m in
  let '(sp, m) := pushq (rdi c) sp m in
  let old := sp in
  let sp := new in
  let '(rdi', sp) := popq sp m in
  let '(rsi', sp) := popq sp m in
  let '(rbx', sp) := popq sp m in
  let '(rbp', sp) := popq sp m in
  let '(rip', sp) := popq sp m in
  (old, Cpu sp rbp' rbx' rsi' rdi' (kept c) rip', m).

(** cpu_switch_gccgo.go: performing the switch [Schedule] asked for. *)
Definition cpuSwitch (sw : switch) (c : cpu) (st : sched_state) : option (cpu * sched_state) :=
  let '(old, c, m) := CpuSwitch (sw_newESP sw) c (stacks st) in
  t ← aget (taskPool st) (sw_old sw);
  pool ← aset (taskPool st) (sw_old sw) (with_esp old t);
  Some (c, SchedState (tasks st) (taskCount st) (currentTask st) (nextID st) pool m).

(** ** The invariant: only the current task can be running *)
Definition state_of (st : sched_state) (i : Z) : option TaskState := State <$> aget (taskPool st) i.

Record sched_inv (st : sched_state) : Prop := {
  si_tasks : len (tasks st) = MaxTasks;
  si_pool : len (taskPool st) = MaxTasks;
  si_count : 1 ≤ taskCount st ≤ MaxTasks;
  si_slots : ∀ i, 0 ≤ i < taskCount st → aget (tasks st) i = Some (Some i);
  si_current : ∃ c, currentTask st = Some c ∧ 0 ≤ c < taskCount st ∧
    (state_of st c = Some TaskRunning ∨ state_of st c = Some TaskDead);
  si_running : ∀ i, 0 ≤ i < taskCount st → state_of st i = Some TaskRunning → currentTask st = Some i;
}.

Lemma pool_get st i : sched_inv st → 0 ≤ i < taskCount st → ∃ t, aget (taskPool st) i = Some t.
Proof. intros Hi Hr. apply aget_Some. destruct Hi. unfold MaxTasks in *. lia. Qed.

Lemma current_index_spec st c :
  sched_inv st → currentTask st = Some c → 0 ≤ c < taskCount st → current_index st = Some c.
Proof.
  intros Hinv Hc Hr. destruct (ok_elim (current_index st) (λ i, i = c)) as (i & E & ->); [|done].
  apply ok_loop_end. apply (for_range_ok (λ i _, i ≤ c)); [destruct Hinv; lia|lia| |simpl; lia].
  intros i [] Hi Hle. rewrite (si_slots _ Hinv) by done. simpl. rewrite Hc.
  case_decide as E; simpl; [by simplify_eq|]. assert (i ≠ c) by congruence. lia.
Qed.

(** [i] is the distance to the first runnable task after [c], in cyclic order. *)
Definition first_runnable (st : sched_state) (c i : Z) : Prop :=
  1 ≤ i < taskCount st ∧
  state_of st ((c + i) `mod` taskCount st) = Some TaskRunnable ∧
  ∀ j, 1 ≤ j < i → state_of st ((c + j) `mod` taskCount st) ≠ Some TaskRunnable.

Lemma next_runnable_spec st c :
  sched_inv st → 0 ≤ c < taskCount st →
  ok (next_runnable c st) (λ idx,
    (idx = -1 ∧ ∀ i, 1 ≤ i < taskCount st → state_of st ((c + i) `mod` taskCount st) ≠ Some TaskRunnable) ∨
    (∃ i, first_runnable st c i ∧ idx = (c + i) `mod` taskCount st)).
Proof.
  intros Hinv Hc. apply ok_loop_end.
  apply (for_range_ok (λ i _, ∀ j, 1 ≤ j < i → state_of st ((c + j) `mod` taskCount st) ≠ Some TaskRunnable));
    [lia|lia| |].
  - intros i [] Hi Hno. cbv zeta. rewrite Z.rem_mod_nonneg by lia.
    assert (0 ≤ (c + i) `mod` taskCount st < taskCount st) as Hm by (apply Z.mod_pos_bound; lia).
    rewrite (si_slots _ Hinv) by done. simpl.
    destruct (pool_get st _ Hinv Hm) as [t Ht]. rewrite Ht. simpl.
    assert (state_of st ((c + i) `mod` taskCount st) = Some (State t)) as Es.
    { unfold state_of. by rewrite Ht. }
    case_decide as E; simpl.
    + right. exists i. split; [|done]. split; [done|]. split; [by rewrite Es, E|done].
    + intros j Hj. destruct (decide (j = i)) as [->|]; [|apply Hno; lia]. rewrite Es. congruence.
  - intros [] Hno. by left.
Qed.

Lemma state_of_insert st i t j :
  0 ≤ i < len (taskPool st) →
  state_of (set_pool (<[Z.to_nat i := t]> (taskPool st)) st) j =
  if decide (j = i) then Some (State t) else state_of st j.
Proof.
  intros Hi. unfold state_of. simpl. rewrite aget_insert, Z2Nat.id by lia. by case_decide.
Qed.

Lemma set_task_state_spec st i s :
  0 ≤ i < len (taskPool st) →
  ok (set_task_state (Some i) s st) (λ st',
    (∃ p, st' = set_pool p st ∧ len p = len (taskPool st) ∧
       ∀ j t, aget p j = Some t → ∃ t', aget (taskPool st) j = Some t' ∧ ESP t = ESP t' ∧ ID t = ID t') ∧
    (∀ j, state_of st' j = if decide (j = i) then Some s else state_of st j)).
Proof.
  intros Hi. destruct (aget_Some (taskPool st) i) as [t Ht]; [done|]. simpl. rewrite Ht. simpl.
  rewrite aset_Some by done. simpl. split.
  - eexists. split; [reflexivity|]. split; [apply len_insert|]. intros j t'.
    rewrite aget_insert, Z2Nat.id by lia. case_decide as E; [|by eauto].
    intros [= <-]. subst j. eauto.
  - intros j. by rewrite state_of_insert.
Qed.

(** The state after a switch to task [x]. *)
Definition switched (st : sched_state) (c x : Z) (st' : sched_state) : Prop :=
  currentTask st' = Some x ∧ tasks st' = tasks st ∧ taskCount st' = taskCount st ∧
  nextID st' = nextID st ∧ len (taskPool st') = len (taskPool st) ∧
  ∀ j, state_of st' j =
    if decide (j = x) then Some TaskRunning
    else if decide (j = c ∧ state_of st c ≠ Some TaskDead) then Some TaskRunnable
    else state_of st j.

Lemma switched_inv st c x st' :
  sched_inv st → currentTask st = Some c → 0 ≤ c < taskCount st → 0 ≤ x < taskCount st →
  switched st c x st' → sched_inv st'.
Proof.
  intros [Ht Hp Hn Hs Hcur Hrun] Hc Hcr Hx (Ec & Et & En & _ & Ep & Es). split.
  - by rewrite Et.
  - by rewrite Ep.
  - by rewrite En.
  - rewrite En, Et. done.
  - exists x. rewrite En, Es, decide_True by done. auto.
  - intros i Hi. rewrite Ec, Es. destruct (decide (i = x)) as [->|]; [done|].
    destruct (decide (i = c ∧ _)) as [|E2]; [done|].
    rewrite En in Hi. intros Hr. specialize (Hrun i Hi Hr). exfalso. apply E2.
    assert (i = c) as -> by congruence. split; [done|]. by rewrite Hr.
Qed.

Lemma switch_to_spec st c x :
  sched_inv st → currentTask st = Some c → 0 ≤ c < taskCount st → 0 ≤ x < taskCount st →
  ok (switch_to x st) (λ '(sw, st'), switched st c x st' ∧ stacks st' = stacks st ∧
    ∃ t, aget (taskPool st) x = Some t ∧ sw = Some (Switch c (ESP t))).
Proof.
  intros Hinv Hc Hcr Hx. pose proof Hinv as [Htl Hpl Hn Hs _ _]. unfold MaxTasks in *.
  unfold switch_to. rewrite Hs by done. cbn [mbind option_bind].
  destruct (aget_Some (taskPool st) c) as [tc Htc]; [lia|].
  assert (state_of st c = Some (State tc)) as Esc by (unfold state_of; by rewrite Htc).
  rewrite Hc. unfold task_state. cbn [mbind option_bind]. rewrite Htc. cbn [mbind option_bind].
  set (st1m := if decide (State tc = TaskDead) then Some st else set_task_state (Some c) TaskRunnable st).
  assert (ok st1m (λ st1, (∃ p, st1 = set_pool p st ∧ len p = len (taskPool st) ∧
       ∀ j t, aget p j = Some t → ∃ t', aget (taskPool st) j = Some t' ∧ ESP t = ESP t' ∧ ID t = ID t') ∧
     ∀ j, state_of st1 j = if decide (j = c ∧ state_of st c ≠ Some TaskDead) then Some TaskRunnable
                           else state_of st j)) as Hst1.
  { unfold st1m. case_decide as Ed; simpl.
    - split; [exists (taskPool st); split; [by destruct st|by eauto]|]. intros j.
      rewrite decide_False; [done|]. rewrite Esc, Ed. tauto.
    - eapply ok_mono; [apply set_task_state_spec; lia|]. intros st1 [Hp1 Hs1]. split; [done|].
      intros j. rewrite Hs1, Esc. repeat case_decide; try done; naive_solver. }
  apply ok_bind. eapply ok_mono; [apply Hst1|]. intros st1 [(p1 & -> & Hlp1 & Hpt1) Hs1].
  apply ok_bind. eapply ok_mono; [apply set_task_state_spec; simpl; lia|].
  intros st2 [(p2 & -> & Hlp2 & Hpt2) Hs2]. simpl in *.
  destruct (aget_Some p2 x) as [t2 Ht2]; [lia|]. rewrite Ht2. simpl.
  split; [|split; [done|]].
  - split_and!; try done; simpl; [lia|]. intros j. rewrite <-Hs1. apply Hs2.
  - apply Hpt2 in Ht2 as (t1 & Ht1 & Ee1 & _). apply Hpt1 in Ht1 as (t0 & Ht0 & Ee0 & _).
    exists t0. split; [done|]. congruence.
Qed.

(** What one call of [Schedule] may do. *)
Definition schedule_post (st : sched_state) (c : Z) (o : option switch * sched_state) : Prop :=
  let '(sw, st') := o in
  (** the first runnable task after the current one *)
  (∃ i x t, first_runnable st c i ∧ x = (c + i) `mod` taskCount st ∧ switched st c x st' ∧
     stacks st' = stacks st ∧ aget (taskPool st) x = Some t ∧ sw = Some (Switch c (ESP t))) ∨
  (** nobody else is runnable *)
  ((∀ i, ¬ first_runnable st c i) ∧
   (state_of st c = Some TaskDead ∧ 1 < taskCount st ∧ switched st c 0 st' ∧ stacks st' = stacks st ∧
      (∃ t, aget (taskPool st) 0 = Some t ∧ sw = Some (Switch c (ESP t))) ∨
    (state_of st c ≠ Some TaskDead ∨ taskCount st = 1) ∧ st' = st ∧ sw = None)).

Lemma Schedule_spec st c :
  sched_inv st → currentTask st = Some c → 0 ≤ c < taskCount st →
  ok (Schedule st) (schedule_post st c).
Proof.
  intros Hinv Hc Hcr. unfold Schedule. destruct (Z.leb_spec (taskCount st) 1).
  { right. split; [intros i [? _]; lia|]. right. split; [right; lia|done]. }
  rewrite (current_index_spec st c) by done. cbn [mbind option_bind].
  call next_runnable_spec; [done..|]. intros idx [[-> Hno]|(i & Hi & ->)].
  - rewrite Z.eqb_refl, Hc. simpl. destruct (pool_get st c Hinv Hcr) as [tc Htc]. rewrite Htc. simpl.
    assert (state_of st c = Some (State tc)) as Esc by (unfold state_of; by rewrite Htc).
    assert (∀ i, ¬ first_runnable st c i) as Hnone by (intros i (? & ? & _); by eapply Hno).
    case_decide as Ed.
    + eapply ok_mono; [by apply (switch_to_spec st c 0); [..|lia]|].
      intros [sw st'] (Hsw & Hstk & Hesp). right. split; [done|]. left. rewrite Esc, Ed. done.
    + right. split; [done|]. right. split; [left; by rewrite Esc; congruence|done].
  - destruct (Hi) as (Hir & _).
    assert (0 ≤ (c + i) `mod` taskCount st < taskCount st) as Hm by (apply Z.mod_pos_bound; lia).
    destruct (Z.eqb_spec ((c + i) `mod` taskCount st) (-1)); [lia|].
    eapply ok_mono; [by apply (switch_to_spec st c)|]. intros [sw st'] (Hsw & Hstk & t & Ht & ->).
    left. by exists i, ((c + i) `mod` taskCount st), t.
Qed.

Lemma schedule_post_inv st c sw st' :
  sched_inv st → currentTask st = Some c → 0 ≤ c < taskCount st →
  schedule_post st c (sw, st') → sched_inv st'.
Proof.
  intros Hinv Hc Hcr [(i & x & t & (? & _) & -> & Hsw & _)|
    (_ & [(_ & _ & Hsw & _)|(_ & -> & _)])]; [| |done].
  - eapply switched_inv; [done..| |done]. apply Z.mod_pos_bound. lia.
  - eapply switched_inv; [done..| |done]. destruct Hinv. lia.
Qed.

(** ** A timer tick: [Schedule], then the switch it asks for *)
Definition tick (c : cpu) (st : sched_state) : option (cpu * sched_state) :=
  r ← Schedule st;
  let '(sw, st) := r in
  match sw with None => Some (c, st) | Some sw => cpuSwitch sw c st end.

(** The switch itself changes nothing the scheduler looks at. *)
Definition same_schedule (st st' : sched_state) : Prop :=
  tasks st' = tasks st ∧ taskCount st' = taskCount st ∧ currentTask st' = currentTask st ∧
  len (taskPool st') = len (taskPool st) ∧ ∀ i, state_of st' i = state_of st i.

Lemma same_schedule_inv st st' : same_schedule st st' → sched_inv st → sched_inv st'.
Proof.
  intros (Et & En & Ec & Ep & Es) [H1 H2 H3 H4 H5 H6].
  split; rewrite ?Et, ?En, ?Ec, ?Ep; try done.
  - destruct H5 as (c & ? & ? & ?). exists c. by rewrite Es.
  - intros i. rewrite Es. apply H6.
Qed.

Lemma cpuSwitch_frame sw c st :
  0 ≤ sw_old sw < len (taskPool st) →
  ok (cpuSwitch sw c st) (λ '(_, st'), same_schedule st st').
Proof.
  intros Hr. unfold cpuSwitch. destruct (CpuSwitch (sw_newESP sw) c (stacks st)) as [[old c'] m].
  destruct (aget_Some (taskPool st) (sw_old sw)) as [t Ht]; [done|]. rewrite Ht. simpl.
  rewrite aset_Some by done. simpl. split_and!; try done; simpl; [apply len_insert|].
  intros i. unfold state_of. simpl. rewrite aget_insert, Z2Nat.id by lia. case_decide as E; [|done].
  subst i. by rewrite Ht.
Qed.

Lemma tick_spec cp st c :
  sched_inv st → currentTask st = Some c → 0 ≤ c < taskCount st →
  ok (tick cp st) (λ '(_, st'), sched_inv st' ∧
    ∃ sw st1, schedule_post st c (sw, st1) ∧ same_schedule st1 st').
Proof.
  intros Hinv Hc Hcr. unfold tick. call (Schedule_spec st c); [done..|].
  intros [sw st1] Hpost. pose proof (schedule_post_inv _ _ _ _ Hinv Hc Hcr Hpost) as Hinv1.
  destruct sw as [sw|]; simpl.
  - assert (sw_old sw = c) as Eo.
    { destruct Hpost as [(? & ? & ? & _ & _ & _ & _ & _ & [= ->])|
        (_ & [(_ & _ & _ & _ & ? & _ & [= ->])|(_ & _ & ?)])]; done. }
    assert (taskCount st1 = taskCount st) as En.
    { destruct Hpost as [(? & ? & ? & _ & _ & (_ & _ & ? & _) & _)|
        (_ & [(_ & _ & (_ & _ & ? & _) & _)|(_ & -> & _)])]; done. }
    eapply ok_mono; [apply (cpuSwitch_frame sw cp st1)|].
    { rewrite Eo, (si_pool _ Hinv1). destruct Hinv1. lia. }
    intros [c' st2] Hsame. split; [by eapply same_schedule_inv|]. by exists (Some sw), st1.
  - split; [done|]. exists None, st1. done.
Qed.

(** ** Bounded waiting *)
Fixpoint ticks (n : nat) (c : cpu) (st : sched_state) : option (cpu * sched_state) :=
  match n with
  | O => Some (c, st)
  | S n => r ← tick c st; ticks n r.1 r.2
  end.

Lemma cyclic_dist_0 t c n : 0 ≤ t < n → 0 ≤ c < n → (t - c) `mod` n = 0 → t = c.
Proof.
  intros Ht Hc E. destruct (decide (c ≤ t)).
  - rewrite Z.mod_small in E; lia.
  - rewrite <-(Z.mod_add _ 1), Z.mod_small in E; lia.
Qed.

(** A tick brings a waiting task closer, or makes it the current one. *)
Lemma tick_closer cp st c t :
  sched_inv st → currentTask st = Some c → 0 ≤ c < taskCount st → 0 ≤ t < taskCount st →
  state_of st t = Some TaskRunnable →
  ok (tick cp st) (λ '(_, st'), sched_inv st' ∧ taskCount st' = taskCount st ∧
    ∃ c', currentTask st' = Some c' ∧ 0 ≤ c' < taskCount st' ∧
      (c' = t ∨ state_of st' t = Some TaskRunnable ∧
       (t - c') `mod` taskCount st < (t - c) `mod` taskCount st)).
Proof.
  intros Hinv Hc Hcr Ht Hrun. eapply ok_mono; [by apply (tick_spec cp st c)|].
  intros [cp' st'] [Hinv' (sw & st1 & Hpost & (Et & En & Ec & Ep & Es))]. split; [done|].
  set (n := taskCount st) in *. set (dist := (t - c) `mod` n).
  assert (t ≠ c) as Hne.
  { intros ->. destruct (si_current _ Hinv) as (c' & ? & _ & [?|?]); simplify_eq; congruence. }
  assert (1 ≤ dist < n) as Hd.
  { unfold dist. pose proof (Z.mod_pos_bound (t - c) n ltac:(lia)).
    destruct (decide ((t - c) `mod` n = 0)) as [E|]; [|lia].
    by apply cyclic_dist_0 in E. }
  assert ((c + dist) `mod` n = t) as Hdt.
  { unfold dist. rewrite Z.add_mod_idemp_r by lia. replace (c + (t - c)) with t by lia.
    apply Z.mod_small. lia. }
  assert (∃ i, first_runnable st c i ∧ i ≤ dist) as Hex.
  { destruct Hpost as [(i & _ & _ & Hf & _)|(Hnone & _)].
    - exists i. split; [done|]. destruct (decide (i ≤ dist)); [done|]. destruct Hf as (_ & _ & Hmin).
      exfalso. apply (Hmin dist); [lia|]. fold n. by rewrite Hdt.
    - exfalso. clear -Hnone Hrun Hd Hdt n.
      assert (∀ k : nat, ∀ i, 1 ≤ i < n → Z.of_nat k = i → state_of st ((c + i) `mod` n) ≠ Some TaskRunnable) as H.
      { induction k as [k IH] using lt_wf_ind. intros i Hi Ek Hr. apply (Hnone i).
        split; [done|]. split; [done|]. intros j Hj. apply (IH (Z.to_nat j)); lia. }
      apply (H (Z.to_nat dist) dist); [lia|lia|]. by rewrite Hdt. }
  destruct Hpost as [(i & x & tx & Hf & -> & (Ec1 & _ & En1 & _ & _ & Es1) & _)|(Hnone & _)].
  2:{ destruct Hex as (i & Hi & _). by apply Hnone in Hi. }
  assert (i ≤ dist) as Hi.
  { destruct Hex as (i' & (? & Hr' & Hm') & ?). destruct Hf as (? & ? & Hm).
    destruct (decide (i ≤ dist)); [done|]. exfalso. apply (Hm i'); [lia|done]. }
  fold n in Ec1, En1, Es1. set (x := (c + i) `mod` n) in *.
  assert (0 ≤ x < n) as Hx by (apply Z.mod_pos_bound; lia).
  split; [congruence|]. exists x. rewrite Ec, Ec1, En, En1. split; [done|]. split; [done|].
  destruct (decide (x = t)) as [|Hxt]; [by left|]. right. split.
  - rewrite Es, Es1. rewrite decide_False by congruence. by rewrite decide_False by tauto.
  - assert ((t - x) `mod` n = dist - i) as ->; [|destruct Hf; lia].
    pose proof (proj1 Hf) as Hi1. unfold x, dist in *.
    rewrite Zminus_mod_idemp_r. symmetry. apply (Z.mod_unique_pos _ _ ((t - c) / n)); [lia|].
    pose proof (Z.div_mod (t - c) n ltac:(lia)). lia.
Qed.

Lemma ticks_reach (k : nat) : ∀ cp st c t,
  sched_inv st → currentTask st = Some c → 0 ≤ c < taskCount st → 0 ≤ t < taskCount st →
  state_of st t = Some TaskRunnable → (t - c) `mod` taskCount st ≤ Z.of_nat k →
  ∃ n cp' st', (1 ≤ n ≤ k)%nat ∧ ticks n cp st = Some (cp', st') ∧ sched_inv st' ∧
    currentTask st' = Some t.
Proof.
  induction k as [|k IH]; intros cp st c t Hinv Hc Hcr Ht Hrun Hd.
  { exfalso. destruct (si_current _ Hinv) as (c' & Hc' & _ & Hs).
    assert (c' = c) as -> by congruence.
    pose proof (Z.mod_pos_bound (t - c) (taskCount st) ltac:(lia)).
    assert (t = c) as -> by (apply (cyclic_dist_0 _ _ (taskCount st)); [done..|lia]).
    destruct Hs; congruence. }
  destruct (ok_elim _ _ (tick_closer cp st c t Hinv Hc Hcr Ht Hrun))
    as ([cp1 st1] & E & Hinv1 & En & c1 & Hc1 & Hcr1 & Hcase).
  destruct (decide (c1 = t)) as [->|Hne].
  { exists 1%nat, cp1, st1. split; [lia|]. split; [|done]. simpl. by rewrite E. }
  destruct Hcase as [|[Hrun1 Hlt]]; [done|].
  destruct (IH cp1 st1 c1 t) as (n & cp2 & st2 & Hn & E2 & Hinv2 & Hc2); try done; [lia|rewrite En; lia|].
  exists (S n), cp2, st2. split; [lia|]. split; [|done]. simpl. by rewrite E.
Qed.

(** ** Stack frames *)

(** The frame [CpuSwitch] resumes from: four registers and a return address. *)
Definition frame_at (m : memory) (sp : Z) (c : cpu) : Prop :=
  read64 m sp = rdi c ∧ read64 m (sp + 8) = rsi c ∧ read64 m (sp + 16) = rbx c ∧
  read64 m (sp + 24) = rbp c ∧ read64 m (sp + 32) = rip c ∧ rsp c = sp + 40.

Definition agree_on (m m' : memory) (a n : Z) : Prop := ∀ b, a ≤ b < a + n → mread m' b = mread m b.

Lemma read64_agree m m' a n b :
  agree_on m m' a n → a ≤ b → b + 8 ≤ a + n → 0 ≤ a → a + n ≤ 2 ^ 64 → read64 m' b = read64 m b.
Proof. intros Hag Hb Hn H0 H1. apply readLE_ext; [lia..|]. intros c Hc. apply Hag. lia. Qed.

Lemma frame_agree m m' sp c :
  agree_on m m' sp 40 → 0 ≤ sp → sp + 40 ≤ 2 ^ 64 → frame_at m sp c → frame_at m' sp c.
Proof.
  intros Hag H0 H1 (E1 & E2 & E3 & E4 & E5 & E6).
  unfold frame_at. rewrite <-E1, <-E2, <-E3, <-E4, <-E5.
  split_and!; try done; eapply read64_agree; [done|lia|lia|lia|lia|done|lia|lia|lia|lia|done|lia|lia|lia|lia|
    done|lia|lia|lia|lia|done|lia|lia|lia|lia].
Qed.

Lemma read64_write64 m a v : 0 ≤ a → a + 8 ≤ 2 ^ 64 → in_u64 v → read64 (write64 m a v) a = v.
Proof. intros. apply readLE_writeLE; [done|done|]. change (256 ^ Z.of_nat 8) with (2 ^ 64). lia. Qed.

Lemma read64_write64_ne m a b v :
  0 ≤ a → a + 8 ≤ 2 ^ 64 → 0 ≤ b → b + 8 ≤ 2 ^ 64 → b + 8 ≤ a ∨ a + 8 ≤ b →
  read64 (write64 m a v) b = read64 m b.
Proof. intros. apply readLE_writeLE_ne; simpl; lia. Qed.

Lemma mread_write64_ne m a v b :
  0 ≤ a → a + 8 ≤ 2 ^ 64 → ¬ (a ≤ b < a + 8) → mread (write64 m a v) b = mread m b.
Proof. intros. apply mread_writeLE_ne; simpl; lia. Qed.

(** Reads through a chain of stores at known distances. *)
Ltac mem64 :=
  repeat first
    [ rewrite read64_write64 by (assumption || lia)
    | rewrite read64_write64_ne by lia
    | rewrite mread_write64_ne by lia ].

(** [CpuSwitch] saves a frame below the caller's stack pointer and resumes the frame at
    [new]. *)
Lemma CpuSwitch_spec new c m :
  32 ≤ rsp c → rsp c + 8 ≤ 2 ^ 64 → 0 ≤ new → new + 40 < 2 ^ 64 →
  in_u64 (rbp c) → in_u64 (rbx c) → in_u64 (rsi c) → in_u64 (rdi c) →
  let '(old, c', m') := CpuSwitch new c m in
  old = rsp c - 32 ∧
  frame_at m' old (Cpu (rsp c + 8) (rbp c) (rbx c) (rsi c) (rdi c) (kept c) (read64 m (rsp c))) ∧
  frame_at m' new c' ∧ kept c' = kept c ∧
  (∀ b, ¬ (rsp c - 32 ≤ b < rsp c) → mread m' b = mread m b).
Proof.
  intros Hsp Hsp2 Hn0 Hn1 Hbp Hbx Hsi Hdi. unfold CpuSwitch, pushq, popq.
  assert (∀ x, 8 ≤ x → x + 8 ≤ 2 ^ 64 → u64 (x - 8) = x - 8) as Hdec by (intros; apply u64_small; lia).
  rewrite (Hdec (rsp c)), (Hdec (rsp c - 8)), (Hdec (rsp c - 8 - 8)), (Hdec (rsp c - 8 - 8 - 8)) by lia.
  rewrite (u64_small (new + 8)), (u64_small (new + 8 + 8)), (u64_small (new + 8 + 8 + 8)),
    (u64_small (new + 8 + 8 + 8 + 8)), (u64_small (new + 8 + 8 + 8 + 8 + 8)) by lia.
  set (m' := write64 _ _ _). split; [lia|]. split; [|split; [|split; [done|]]].
  - unfold frame_at, m'. simpl.
    replace (rsp c - 8 - 8 - 8 - 8 + 8) with (rsp c - 8 - 8 - 8) by lia.
    replace (rsp c - 8 - 8 - 8 - 8 + 16) with (rsp c - 8 - 8) by lia.
    replace (rsp c - 8 - 8 - 8 - 8 + 24) with (rsp c - 8) by lia.
    replace (rsp c - 8 - 8 - 8 - 8 + 32) with (rsp c) by lia.
    mem64. split_and!; try done; lia.
  - unfold frame_at. simpl. split_and!; try done; try (f_equal; lia). lia.
  - intros b Hb. unfold m'. mem64. done.
Qed.

Section task_frames.
Variable autoExitPC : Z.
Hypothesis autoExitPC_u64 : in_u64 autoExitPC.

(** The top of the stack at [base], aligned to 16 bytes. *)
Definition stack_top (base : Z) : Z := (base + StackSize) / 16 * 16.

Lemma initial_frame_spec base entry k m :
  0 ≤ base → base + StackSize < 2 ^ 64 → in_u64 entry →
  let '(sp, m') := initial_frame autoExitPC base entry m in
  let top := stack_top base in
  sp = top - 48 ∧ base ≤ sp ∧ top ≤ base + StackSize ∧
  frame_at m' sp (Cpu (top - 8) 0 0 0 0 k entry) ∧ read64 m' (top - 8) = autoExitPC ∧
  ∀ b, ¬ (sp ≤ b < top) → mread m' b = mread m b.
Proof.
  intros Hb0 Hb1 Hentry. unfold initial_frame. change 15 with (2 ^ 4 - 1).
  unfold StackSize in *. rewrite (u64_small (base + 4096)) by lia.
  rewrite land_mask_high by lia. change (2 ^ 4) with 16. unfold stack_top.
  set (top := (base + StackSize) / 16 * 16). change ((base + 4096) / 16 * 16) with top.
  assert (base + 4096 - 15 ≤ top ≤ base + 4096) as Htop by (unfold top, StackSize; mod_lia).
  clearbody top. rewrite (u64_small (top - 8)), (u64_small (top - 8 - 8)), (u64_small (top - 8 - 8 - 32)) by lia.
  rewrite !u64_small by lia. set (m' := write64 _ _ _).
  split; [lia|]. split; [lia|]. split; [unfold StackSize; lia|].
  assert (in_u64 0) as H0 by lia. split; [|split].
  - unfold frame_at, m'. simpl. replace (top - 8 - 8 - 32 + 32) with (top - 8 - 8) by lia.
    replace (top - 8 - 8 - 32) with (top - 8 - 8 - 32 + 0) at 5 by lia.
    mem64. split_and!; try done; lia.
  - unfold m'. mem64. done.
  - intros b Hb. unfold m'. mem64. done.
Qed.
End task_frames.

(** ** Operations and the invariant *)
Lemma sched_Init_spec st :
  len (tasks st) = MaxTasks → len (taskPool st) = MaxTasks →
  ok (Init st) sched_inv.
Proof.
  intros Ht Hp. unfold MaxTasks in *. unfold Init.
  destruct (aget_Some (taskPool st) 0) as [t Hg]; [lia|]. rewrite Hg. simpl.
  rewrite aset_Some by lia. simpl. rewrite aset_Some by lia. simpl.
  assert (∀ i, 0 ≤ i < 1 → i = 0) as Hz by lia.
  split; simpl; rewrite ?len_insert; try done.
  - intros i ->%Hz. by rewrite aget_insert, decide_True by lia.
  - exists 0. split; [done|]. split; [lia|]. left. unfold state_of. simpl.
    by rewrite aget_insert, decide_True by lia.
  - intros i ->%Hz _. done.
Qed.

Section operations.
Variable stackAddr : Z → Z.
Variable autoExitPC : Z.

(** Tasks are created runnable, in the next free slot, with a fresh frame. *)
Lemma NewTaskEntry_spec entry st :
  sched_inv st →
  ok (NewTaskEntry stackAddr autoExitPC entry st) (λ '(r, st'), sched_inv st' ∧
    (r = None ∧ st' = st ∧ (taskCount st = MaxTasks ∨ entry = 0) ∨
     r = Some (taskCount st) ∧ taskCount st' = taskCount st + 1 ∧
     currentTask st' = currentTask st ∧ state_of st' (taskCount st) = Some TaskRunnable ∧
     let '(sp, m) := initial_frame autoExitPC (stackAddr (taskCount st)) entry (stacks st) in
     stacks st' = m ∧ aget (taskPool st') (taskCount st) = Some (MkTask (nextID st) sp TaskRunnable))).
Proof.
  intros Hinv. pose proof Hinv as [Ht Hp Hn Hs (c & Hc & Hcr & Hcs) Hrun]. unfold NewTaskEntry.
  destruct (Z.leb_spec MaxTasks (taskCount st)); [simpl; split; [done|]; left; split; [done|]; split; [done|]; lia|].
  destruct (Z.eqb_spec entry 0) as [|Hentry]; [simpl; split; [done|]; left; by auto|].
  destruct (aget_Some (taskPool st) (taskCount st)) as [t Hg]; [lia|]. rewrite Hg. cbn [mbind option_bind].
  destruct (initial_frame _ _ _ _) as [sp m]. rewrite aset_Some by lia. cbn [mbind option_bind].
  rewrite aset_Some by lia. simpl. set (n := taskCount st) in *.
  assert (∀ i, aget (<[Z.to_nat n := MkTask (nextID st) sp TaskRunnable]> (taskPool st)) i =
    if decide (i = n) then Some (MkTask (nextID st) sp TaskRunnable) else aget (taskPool st) i) as Hpool.
  { intros i. rewrite aget_insert, Z2Nat.id by lia. done. }
  split.
  - split; simpl; rewrite ?len_insert; try done; [lia| | |].
    + intros i Hi. rewrite aget_insert, Z2Nat.id by lia. case_decide as E; [by rewrite E|]. apply Hs. lia.
    + exists c. split; [done|]. split; [lia|]. unfold state_of. simpl.
      by rewrite Hpool, decide_False by lia.
    + intros i Hi. unfold state_of. simpl. rewrite Hpool. case_decide; [done|]. apply Hrun. lia.
  - right. unfold state_of. simpl. rewrite Hpool, decide_True by done. done.
Qed.

Lemma Exit_spec st :
  sched_inv st →
  ok (Exit st) (λ o, match o with
    | inl _ => False
    | inr (sw, st') => sched_inv st' ∧
        ∃ c st1, currentTask st = Some c ∧ state_of st1 c = Some TaskDead ∧
          (∀ j, j ≠ c → state_of st1 j = state_of st j) ∧ schedule_post st1 c (sw, st')
    end).
Proof.
  intros Hinv. pose proof Hinv as [Ht Hp Hn Hs (c & Hc & Hcr & Hcs) Hrun].
  unfold Exit. rewrite Hc. call set_task_state_spec; [unfold MaxTasks in *; lia|].
  intros st1 [(p & -> & Hlp & _) Hst].
  assert (sched_inv (set_pool p st)) as Hinv1.
  { split; simpl; try done; [lia| |].
    - exists c. split; [done|]. split; [done|]. right. by rewrite Hst, decide_True.
    - intros i Hi. rewrite Hst. case_decide; [done|]. by apply Hrun. }
  call (Schedule_spec (set_pool p st) c); [done..|]. intros [sw st'] Hpost. simpl.
  split; [by eapply (schedule_post_inv (set_pool p st) c)|]. exists c, (set_pool p st).
  split; [done|]. split; [by rewrite Hst, decide_True|]. split; [|done].
  intros j Hj. by rewrite Hst, decide_False.
Qed.

(** The ways the kernel moves the scheduler. *)
Inductive sched_step : sched_state → sched_state → Prop :=
  | step_new entry r st st' :
      NewTaskEntry stackAddr autoExitPC entry st = Some (r, st') → sched_step st st'
  | step_tick cp cp' st st' :
      tick cp st = Some (cp', st') → sched_step st st'
  | step_exit sw st st' :
      Exit st = Some (inr (sw, st')) → sched_step st st'
  | step_switch sw cp cp' st st' :
      0 ≤ sw_old sw < taskCount st → cpuSwitch sw cp st = Some (cp', st') → sched_step st st'.

Lemma sched_step_inv st st' : sched_inv st → sched_step st st' → sched_inv st'.
Proof.
  intros Hinv Hstep. destruct Hstep as [entry r st st' E|cp cp' st st' E|sw st st' E|sw cp cp' st st' Hr E].
  - pose proof (NewTaskEntry_spec entry st Hinv) as H. rewrite E in H. by destruct H.
  - destruct (si_current _ Hinv) as (c & Hc & Hcr & _).
    pose proof (tick_spec cp st c Hinv Hc Hcr) as H. rewrite E in H. by destruct H.
  - pose proof (Exit_spec st Hinv) as H. rewrite E in H. by destruct H.
  - pose proof (cpuSwitch_frame sw cp st) as H. rewrite E in H.
    eapply same_schedule_inv; [apply H|done]. destruct Hinv. lia.
Qed.

Lemma sched_run_inv st st' : rtc sched_step st st' → sched_inv st → sched_inv st'.
Proof. induction 1; eauto using sched_step_inv. Qed.
End operations.

(** ** Properties *)

(** C19: from [Init] on, whatever tasks are created, end or are preempted, the table
    stays consistent and no operation panics: at most one task is running, and if one is
    it is the current one; there always is a current task, running or dead; and a task can
    be created, preempted or ended next. *)
Theorem sched_run_safe (stackAddr : Z → Z) (autoExitPC : Z) (st0 st1 st : sched_state)
    (Hinit : Init st0 = Some st1) (Htasks : len (tasks st0) = MaxTasks)
    (Hpool : len (taskPool st0) = MaxTasks) (Hrun : rtc (sched_step stackAddr autoExitPC) st1 st) :
  (∀ i j, 0 ≤ i < taskCount st → 0 ≤ j < taskCount st →
     state_of st i = Some TaskRunning → state_of st j = Some TaskRunning → i = j) ∧
  (∀ i, 0 ≤ i < taskCount st → state_of st i = Some TaskRunning → currentTask st = Some i) ∧
  (∃ c, currentTask st = Some c ∧ 0 ≤ c < taskCount st ∧
    (state_of st c = Some TaskRunning ∨ state_of st c = Some TaskDead)) ∧ taskCount st ≤ MaxTasks ∧
  (∀ entry, is_Some (NewTaskEntry stackAddr autoExitPC entry st)) ∧
  (∀ cp, is_Some (tick cp st)) ∧ is_Some (Exit st).
Proof.
  pose proof (sched_Init_spec st0 Htasks Hpool) as Hi. rewrite Hinit in Hi. simpl in Hi.
  pose proof (sched_run_inv _ _ _ _ Hrun Hi) as Hinv.
  destruct (si_current _ Hinv) as (c & Hc & Hcr & Hcs). split_and!.
  - intros i j Hi' Hj Ri Rj. apply (si_running _ Hinv) in Ri, Rj; [congruence|done..].
  - by apply (si_running _ Hinv).
  - by exists c.
  - destruct Hinv. lia.
  - intros entry. destruct (ok_elim _ _ (NewTaskEntry_spec stackAddr autoExitPC entry st Hinv)) as (o & -> & _).
    by eexists.
  - intros cp. destruct (ok_elim _ _ (tick_spec cp st c Hinv Hc Hcr)) as (o & -> & _). by eexists.
  - destruct (ok_elim _ _ (Exit_spec st Hinv)) as (o & -> & _). by eexists.
Qed.

(** C28: [Schedule] is round robin: it switches to the first runnable task after the
    current one in cyclic order, saving the old context and making the old task runnable
    again unless it is dead; when no other task is runnable it switches to task 0 if the
    current task is dead, and otherwise changes nothing. *)
Theorem Schedule_round_robin (st : sched_state) (c : Z)
    (Hinv : sched_inv st) (Hc : currentTask st = Some c) (Hr : 0 ≤ c < taskCount st) :
  ∃ o, Schedule st = Some o ∧ schedule_post st c o.
Proof. by apply ok_elim, Schedule_spec. Qed.

(** C20: no runnable task starves: it becomes the current task after at most
    [taskCount - 1] timer ticks, whatever the CPU does in between. *)
Theorem sched_fair (cp : cpu) (st : sched_state) (t : Z)
    (Hinv : sched_inv st) (Ht : 0 ≤ t < taskCount st) (Hrun : state_of st t = Some TaskRunnable) :
  ∃ n cp' st', 1 ≤ Z.of_nat n ≤ taskCount st - 1 ∧ ticks n cp st = Some (cp', st') ∧
    currentTask st' = Some t.
Proof.
  destruct (si_current _ Hinv) as (c & Hc & Hcr & _).
  pose proof (Z.mod_pos_bound (t - c) (taskCount st) ltac:(lia)).
  destruct (ticks_reach (Z.to_nat (taskCount st - 1)) cp st c t) as (n & cp' & st' & Hn & E & _ & Hct);
    try done; [lia|]. exists n, cp', st'. split; [lia|done].
Qed.

(** C29: a created task starts at its entry point: switching to it for the first time
    resumes at [entry] with cleared registers, on its own stack, aligned as the ABI
    wants and with [taskAutoExit] as the return address. *)
Theorem task_first_run (stackAddr : Z → Z) (autoExitPC entry idx : Z) (st st' : sched_state) (c : cpu)
    (Hpc : in_u64 autoExitPC) (Hentry : in_u64 entry) (Hinv : sched_inv st)
    (Hnew : NewTaskEntry stackAddr autoExitPC entry st = Some (Some idx, st'))
    (Hbase : 0 ≤ stackAddr idx ∧ stackAddr idx + StackSize < 2 ^ 64)
    (Hsp : 32 ≤ rsp c) (Hsp2 : rsp c + 8 ≤ 2 ^ 64)
    (Hregs : in_u64 (rbp c) ∧ in_u64 (rbx c) ∧ in_u64 (rsi c) ∧ in_u64 (rdi c))
    (Hother : rsp c ≤ stackAddr idx ∨ stackAddr idx + StackSize ≤ rsp c - 32) :
  ∃ t old m, aget (taskPool st') idx = Some t ∧
    CpuSwitch (ESP t) c (stacks st') = (old, Cpu (stack_top (stackAddr idx) - 8) 0 0 0 0 (kept c) entry, m) ∧
    read64 m (stack_top (stackAddr idx) - 8) = autoExitPC ∧
    (stack_top (stackAddr idx) - 8 + 8) `mod` 16 = 0 ∧
    stackAddr idx ≤ ESP t ∧ stack_top (stackAddr idx) ≤ stackAddr idx + StackSize.
Proof.
  pose proof (NewTaskEntry_spec stackAddr autoExitPC entry st Hinv) as H. rewrite Hnew in H.
  destruct H as (_ & [(? & _)|([= ->] & _ & _ & _ & Hfr)]); [done|].
  pose proof (initial_frame_spec autoExitPC Hpc (stackAddr (taskCount st)) entry (kept c) (stacks st)
    (proj1 Hbase) (proj2 Hbase) Hentry) as Hf.
  destruct (initial_frame _ _ _ _) as [sp m]. destruct Hfr as (Em & Hg). cbv zeta in Hf.
  set (base := stackAddr (taskCount st)) in *. set (top := stack_top base) in *.
  destruct Hf as (Esp & Hb & Ht & Hframe & Hret & _). destruct Hregs as (? & ? & ? & ?).
  pose proof (CpuSwitch_spec sp c m Hsp Hsp2 ltac:(lia) ltac:(lia)) as Hsw.
  rewrite Em. exists (MkTask (nextID st) sp TaskRunnable). simpl.
  destruct (CpuSwitch sp c m) as [[old c'] m'] eqn:E. exists old, m'.
  destruct Hsw as (_ & _ & Hres & Hkept & Hsame); [done..|].
  assert (frame_at m' sp (Cpu (top - 8) 0 0 0 0 (kept c) entry)) as Hframe'.
  { apply (frame_agree m); [intros b Hbb; apply Hsame|lia|lia|done]. lia. }
  split; [done|]. split; [|split_and!; try lia].
  - destruct c', Hres as (R1 & R2 & R3 & R4 & R5 & R6), Hframe' as (F1 & F2 & F3 & F4 & F5 & F6); simpl in *.
    do 2 f_equal. f_equal; congruence.
  - rewrite (read64_agree m m' (top - 8) 8); [done| |lia..]. intros b Hbb. apply Hsame. lia.
  - unfold top, stack_top. mod_lia.
Qed.

(** C30: what a context switch preserves for the task that is switched out: when it is
    switched back in, from any other stack, it continues at its return address with the
    same stack pointer, [rbp], [rbx], [rsi] and [rdi], provided nobody wrote to its saved
    frame; [r12] to [r15] and the flags are not restored, they are those of the task [c2]
    that switched back. *)
Theorem switch_roundtrip (new old : Z) (c c1 c2 : cpu) (m m1 m2 : memory)
    (Hsp : 32 ≤ rsp c) (Hsp2 : rsp c + 8 < 2 ^ 64) (Hnew : 0 ≤ new ∧ new + 40 < 2 ^ 64)
    (Hregs : in_u64 (rbp c) ∧ in_u64 (rbx c) ∧ in_u64 (rsi c) ∧ in_u64 (rdi c))
    (Hout : CpuSwitch new c m = (old, c1, m1))
    (Hkept : agree_on m1 m2 old 40)
    (Hsp3 : 32 ≤ rsp c2) (Hsp4 : rsp c2 + 8 ≤ 2 ^ 64)
    (Hregs2 : in_u64 (rbp c2) ∧ in_u64 (rbx c2) ∧ in_u64 (rsi c2) ∧ in_u64 (rdi c2))
    (Hother : rsp c2 ≤ old ∨ old + 40 ≤ rsp c2 - 32) :
  ∃ old2 m3, CpuSwitch old c2 m2 =
    (old2, Cpu (rsp c + 8) (rbp c) (rbx c) (rsi c) (rdi c) (kept c2) (read64 m (rsp c)), m3).
Proof.
  destruct Hregs as (? & ? & ? & ?), Hregs2 as (? & ? & ? & ?), Hnew.
  pose proof (CpuSwitch_spec new c m Hsp ltac:(lia)) as Hs1. rewrite Hout in Hs1.
  destruct Hs1 as (-> & Hsaved & _); [done..|].
  pose proof (CpuSwitch_spec (rsp c - 32) c2 m2 Hsp3 Hsp4 ltac:(lia) ltac:(lia)) as Hs2.
  destruct (CpuSwitch (rsp c - 32) c2 m2) as [[old2 c3] m3]. exists old2, m3.
  destruct Hs2 as (_ & _ & Hres & Hk2 & Hsame); [done..|].
  apply (frame_agree m1 m3) in Hsaved; [|intros b Hb; rewrite Hsame by lia; by apply Hkept|lia|lia].
  destruct c3, Hres as (R1 & R2 & R3 & R4 & R5 & R6), Hsaved as (F1 & F2 & F3 & F4 & F5 & F6); simpl in *.
  do 2 f_equal. f_equal; congruence.
Qed.

(** *** Witnesses: three tasks on stacks at 0x200000, 0x201000, ... *)
Definition demo_stack (i : Z) : Z := 0x200000 + 4096 * i.
Definition demo_blank : sched_state :=
  SchedState (replicate 16 None) 0 None 1 (replicate 16 (MkTask 0 0 TaskRunnable)) ∅.
Definition demo_sched1 : sched_state := default demo_blank (Init demo_blank).
Definition demo_new (entry : Z) (st : sched_state) : sched_state :=
  match NewTaskEntry demo_stack 0x9000 entry st with Some (_, st') => st' | None => st end.
Definition demo_sched : sched_state := demo_new 0x8100 (demo_new 0x8000 demo_sched1).
Definition demo_cpu : cpu := Cpu 0x300000 1 2 3 4 (KeptRegs 5 6 7 8 0x202) 0x7000.
Definition demo_back : cpu := Cpu 0x201F00 0 0 0 0 (KeptRegs 15 16 17 18 0x246) 0x8000.

Lemma demo_blank_lens : len (tasks demo_blank) = MaxTasks ∧ len (taskPool demo_blank) = MaxTasks.
Proof. split; [apply (len_replicate 16 None)|apply (len_replicate 16 (MkTask 0 0 TaskRunnable))]. Qed.

Lemma demo_new_step entry st :
  sched_inv st → sched_step demo_stack 0x9000 st (demo_new entry st).
Proof.
  intros Hinv. unfold demo_new.
  destruct (ok_elim _ _ (NewTaskEntry_spec demo_stack 0x9000 entry st Hinv)) as ([r st'] & E & _).
  rewrite E. by econstructor.
Qed.

Lemma demo_sched1_inv : sched_inv demo_sched1.
Proof.
  destruct demo_blank_lens as [Ht Hp]. pose proof (sched_Init_spec demo_blank Ht Hp) as H.
  unfold demo_sched1. by destruct (Init demo_blank).
Qed.

Lemma demo_sched_run : rtc (sched_step demo_stack 0x9000) demo_sched1 demo_sched.
Proof.
  pose proof (demo_new_step 0x8000 _ demo_sched1_inv) as H1.
  eapply rtc_l; [exact H1|]. eapply rtc_l; [|apply rtc_refl].
  apply demo_new_step. by eapply sched_step_inv; [apply demo_sched1_inv|].
Qed.

Lemma demo_sched_inv : sched_inv demo_sched.
Proof. eapply sched_run_inv; [apply demo_sched_run|apply demo_sched1_inv]. Qed.

Lemma sched_run_safe_witness :
  (∀ i j, 0 ≤ i < taskCount demo_sched → 0 ≤ j < taskCount demo_sched →
     state_of demo_sched i = Some TaskRunning → state_of demo_sched j = Some TaskRunning → i = j) ∧
  (∀ i, 0 ≤ i < taskCount demo_sched → state_of demo_sched i = Some TaskRunning →
     currentTask demo_sched = Some i) ∧
  (∃ c, currentTask demo_sched = Some c ∧ 0 ≤ c < taskCount demo_sched ∧
    (state_of demo_sched c = Some TaskRunning ∨ state_of demo_sched c = Some TaskDead)) ∧
  taskCount demo_sched ≤ MaxTasks ∧
  (∀ entry, is_Some (NewTaskEntry demo_stack 0x9000 entry demo_sched)) ∧
  (∀ cp, is_Some (tick cp demo_sched)) ∧ is_Some (Exit demo_sched).
Proof.
  apply (sched_run_safe demo_stack 0x9000 demo_blank demo_sched1 demo_sched);
    [vm_compute; reflexivity|apply demo_blank_lens|apply demo_blank_lens|apply demo_sched_run].
Defined.

Lemma Schedule_round_robin_witness :
  ∃ o, Schedule demo_sched = Some o ∧ schedule_post demo_sched 0 o.
Proof.
  apply (Schedule_round_robin demo_sched 0 demo_sched_inv);
    [vm_compute; reflexivity|vm_compute; intuition discriminate].
Defined.

Lemma sched_fair_witness :
  ∃ n cp' st', 1 ≤ Z.of_nat n ≤ taskCount demo_sched - 1 ∧
    ticks n demo_cpu demo_sched = Some (cp', st') ∧ currentTask st' = Some 2.
Proof.
  apply (sched_fair demo_cpu demo_sched 2 demo_sched_inv);
    [vm_compute; intuition discriminate|vm_compute; reflexivity].
Defined.

Lemma task_first_run_witness :
  ∃ t old m, aget (taskPool (demo_new 0x8000 demo_sched1)) 1 = Some t ∧
    CpuSwitch (ESP t) demo_cpu (stacks (demo_new 0x8000 demo_sched1)) =
      (old, Cpu (stack_top (demo_stack 1) - 8) 0 0 0 0 (KeptRegs 5 6 7 8 0x202) 0x8000, m) ∧
    read64 m (stack_top (demo_stack 1) - 8) = 0x9000 ∧
    (stack_top (demo_stack 1) - 8 + 8) `mod` 16 = 0 ∧
    demo_stack 1 ≤ ESP t ∧ stack_top (demo_stack 1) ≤ demo_stack 1 + StackSize.
Proof.
  apply (task_first_run demo_stack 0x9000 0x8000 1 demo_sched1 (demo_new 0x8000 demo_sched1) demo_cpu);
    try apply demo_sched1_inv; try (vm_compute; reflexivity);
    vm_compute; intuition discriminate.
Defined.

(** The main task is switched out to the first new task and back. *)
Definition demo_out : Z * cpu * memory := CpuSwitch (0x202000 - 48) demo_cpu (stacks demo_sched).

Lemma switch_roundtrip_witness :
  ∃ old2 m3, CpuSwitch 0x2FFFE0 demo_back demo_out.2 =
    (old2, Cpu (rsp demo_cpu + 8) 1 2 3 4 (KeptRegs 15 16 17 18 0x246) (read64 (stacks demo_sched) (rsp demo_cpu)), m3).
Proof.
  apply (switch_roundtrip (0x202000 - 48) 0x2FFFE0 demo_cpu demo_out.1.2 demo_back
    (stacks demo_sched) demo_out.2 demo_out.2);
    [vm_compute; discriminate|vm_compute; reflexivity|vm_compute; intuition discriminate
    |vm_compute; intuition discriminate|vm_compute; reflexivity|intros b Hb; reflexivity
    |vm_compute; discriminate|vm_compute; discriminate|vm_compute; intuition discriminate
    |left; vm_compute; discriminate].
Defined.
