(* ===== verification/Tables.v ===== *)
(** * Descriptor tables, interrupt controller and timer

    The tables the CPU reads and the two chips the kernel programs at boot:
    [src/kernel/gdt.go], [src/kernel/gdt/gdt.go], [src/kernel/tss.go],
    [src/kernel/tss/tss.go], the table half of [src/kernel/idt.go],
    [src/kernel/selectors.go], [src/kernel/pic.go] and [src/kernel/pit.go].
    The theorems decode the tables the way the processor does. *)
From S2P Require Import Prelude PortIO.
Local Open Scope Z_scope.

(** ** Stores into byte arrays *)
Fixpoint put_bytes (out : list Z) (off : Z) (bs : list Z) : option (list Z) :=
  match bs with
  | [] => Some out
  | b :: bs => out ← aset out off b; put_bytes out (off + 1) bs
  end.

(** gdt/gdt.go *)
Definition PackGDTR (limit base : Z) (out : list Z) : option (list Z) :=
  put_bytes out 0
    [u8 limit; u8 (Z.shiftr limit 8);
     u8 base; u8 (Z.shiftr base 8); u8 (Z.shiftr base 16); u8 (Z.shiftr base 24);
     u8 (Z.shiftr base 32); u8 (Z.shiftr base 40); u8 (Z.shiftr base 48); u8 (Z.shiftr base 56)].

(** tss/tss.go *)
Definition TSSSize : Z := 104.
Definition tssRSP0Offset : Z := 4.
Definition tssIomapBaseOffset : Z := 102.

Definition put16 (dst : list Z) (off value : Z) : option (list Z) :=
  put_bytes dst off [u8 value; u8 (Z.shiftr value 8)].

Definition put64 (dst : list Z) (off value : Z) : option (list Z) :=
  put_bytes dst off
    [u8 value; u8 (Z.shiftr value 8); u8 (Z.shiftr value 16); u8 (Z.shiftr value 24);
     u8 (Z.shiftr value 32); u8 (Z.shiftr value 40); u8 (Z.shiftr value 48); u8 (Z.shiftr value 56)].

Definition SetRSP0 (tss : list Z) (rsp0 : Z) : option (list Z) := put64 tss tssRSP0Offset rsp0.
Definition SetIomapBase (tss : list Z) (iomapBase : Z) : option (list Z) :=
  put16 tss tssIomapBaseOffset iomapBase.

Definition EncodeTSSDescriptor (base limit : Z) : Z * Z :=
  let base64 := base in
  let limit64 := limit in
  let low :=
    Z.lor (Z.lor (Z.lor (Z.lor
      (Z.land limit64 0xFFFF)
      (u64 (Z.shiftl (Z.land base64 0xFFFFFF) 16)))
      (u64 (Z.shiftl 0x89 40)))
      (u64 (Z.shiftl (Z.land (Z.shiftr limit64 16) 0xF) 48)))
      (u64 (Z.shiftl (Z.land (Z.shiftr base64 24) 0xFF) 56)) in
  (low, Z.shiftr base64 32).

(** selectors.go *)
Definition kernelCodeSelector : Z := 0x08.
Definition kernelDataSelector : Z := 0x10.
Definition userCodeSelector : Z := 0x1B.
Definition userDataSelector : Z := 0x23.
Definition tssSelector : Z := 0x28.

(** gdt.go *)
Definition kernelCodeDescriptor : Z := 0x00AF9A000000FFFF.
Definition kernelDataDescriptor : Z := 0x00CF92000000FFFF.
Definition userCodeDescriptor : Z := 0x00AFFA000000FFFF.
Definition userDataDescriptor : Z := 0x00CFF2000000FFFF.

(** idt.go *)
Definition idtSize : Z := 256.
Definition intGateKernelFlags : Z := 0x8E.
Definition intGateUserFlags : Z := 0xEE.

Record idtEntry := IdtEntry {
  offsetLow : Z;
  selector : Z;
  ist : Z;
  flags : Z;
  offsetMid : Z;
  offsetHigh : Z;
  zero : Z;
}.

Definition packIDTR (limit base : Z) (out : list Z) : option (list Z) :=
  put_bytes out 0
    [u8 limit; u8 (Z.shiftr limit 8);
     u8 base; u8 (Z.shiftr base 8); u8 (Z.shiftr base 16); u8 (Z.shiftr base 24);
     u8 (Z.shiftr base 32); u8 (Z.shiftr base 40); u8 (Z.shiftr base 48); u8 (Z.shiftr base 56)].

Definition setIDTEntry (vec handler sel fl : Z) (idt : list idtEntry) : option (list idtEntry) :=
  aset idt vec
    (IdtEntry (u16 (Z.land handler 0xFFFF)) sel 0 fl
       (u16 (Z.land (Z.shiftr handler 16) 0xFFFF))
       (u32 (Z.land (Z.shiftr handler 32) 0xFFFFFFFF)) 0).

(** The privileged instructions behind the assembly hooks. *)
Class CpuTables (D : Type) := {
  LoadGDT : list Z → D → D;
  LoadDataSegments : Z → D → D;
  LoadTR : Z → D → D;
  LoadIDT : list Z → D → D;
  GetCS : D → Z;
}.

Section tables.
Context {D : Type} `{!CpuTables D}.
(** Where the linker put the tables, the trap stack and the entry stubs. *)
Variable gdtAddr tssAddr trapStackAddr idtAddr : Z.
Variable dfaultStub gpfaultStub pfaultStub irq0Stub irq1Stub int80Stub : Z.

Record tables := Tables {
  gdt : list Z;
  gdtRegister : list Z;
  cpuTSS : list Z;
  idt : list idtEntry;
  idtr : list Z;
  hw : D;
}.

Definition set_gdt (g : list Z) (t : tables) : tables :=
  Tables g (gdtRegister t) (cpuTSS t) (idt t) (idtr t) (hw t).
Definition set_tss (s : list Z) (t : tables) : tables :=
  Tables (gdt t) (gdtRegister t) s (idt t) (idtr t) (hw t).

Definition initGDT (t : tables) : option tables :=
  g ← put_bytes (gdt t) 0
        [0; kernelCodeDescriptor; kernelDataDescriptor; userCodeDescriptor; userDataDescriptor];
  Some (set_gdt g t).

Definition setTSSDescriptor (base limit : Z) (t : tables) : option tables :=
  let '(low, high) := EncodeTSSDescriptor base limit in
  g ← put_bytes (gdt t) 5 [low; high]; Some (set_gdt g t).

Definition loadGDT (t : tables) : option tables :=
  r ← PackGDTR (u16 (len (gdt t) * 8 - 1)) gdtAddr (gdtRegister t);
  let d := LoadGDT r (hw t) in
  let d := LoadDataSegments kernelDataSelector d in
  Some (Tables (gdt t) r (cpuTSS t) (idt t) (idtr t) d).

Definition defaultKernelTrapStackTop : Z :=
  let top := u64 (trapStackAddr + 4096) in Z.ldiff top 0xF.

Definition SetKernelRSP0 (rsp0 : Z) (t : tables) : option tables :=
  s ← SetRSP0 (cpuTSS t) rsp0; Some (set_tss s t).

Definition InitGDTAndTSS (t : tables) : option tables :=
  t ← initGDT t;
  s ← SetIomapBase (cpuTSS t) TSSSize;
  t ← SetKernelRSP0 defaultKernelTrapStackTop (set_tss s t);
  t ← setTSSDescriptor tssAddr (TSSSize - 1) t;
  t ← loadGDT t;
  Some (Tables (gdt t) (gdtRegister t) (cpuTSS t) (idt t) (idtr t) (LoadTR tssSelector (hw t))).

Definition InitIDT (t : tables) : option tables :=
  let cs := GetCS (hw t) in
  i ← setIDTEntry 0x08 dfaultStub cs intGateKernelFlags (idt t);
  i ← setIDTEntry 0x0D gpfaultStub cs intGateKernelFlags i;
  i ← setIDTEntry 0x0E pfaultStub cs intGateKernelFlags i;
  i ← setIDTEntry 0x20 irq0Stub cs intGateKernelFlags i;
  i ← setIDTEntry 0x21 irq1Stub cs intGateKernelFlags i;
  i ← setIDTEntry 0x80 int80Stub cs intGateUserFlags i;
  r ← packIDTR (u16 (idtSize * 16 - 1)) idtAddr (idtr t);
  Some (Tables (gdt t) (gdtRegister t) (cpuTSS t) i r (LoadIDT r (hw t))).
End tables.
Arguments tables D : clear implicits.

(** ** pic.go and pit.go *)
Definition pic1Cmd : Z := 0x20.
Definition pic1Data : Z := 0x21.
Definition pic2Cmd : Z := 0xA0.
Definition pic2Data : Z := 0xA1.
Definition icw1Init : Z := 0x11.
Definition icw4_8086 : Z := 0x01.
Definition eoi : Z := 0x20.
Definition pitFreq : Z := 1193182.

Section chips.
Context {D : Type} `{!PortIO D}.

Definition PICRemap (offset1 offset2 : Z) (d : D) : D :=
  outs [(pic1Cmd, icw1Init); (pic2Cmd, icw1Init);
        (pic1Data, offset1); (pic2Data, offset2);
        (pic1Data, 0x04); (pic2Data, 0x02);
        (pic1Data, icw4_8086); (pic2Data, icw4_8086)] d.

Definition PICSetMask (masterMask slaveMask : Z) (d : D) : D :=
  outs [(pic1Data, masterMask); (pic2Data, slaveMask)] d.

Definition PICEOI (irq : Z) (d : D) : D :=
  let d := if 8 <=? irq then outb pic2Cmd eoi d else d in
  outb pic1Cmd eoi d.

Definition pit_divisor (hz : Z) : Z :=
  let hz := if hz =? 0 then 100 else hz in u16 (pitFreq / hz).

Definition PITInit (hz : Z) (d : D) : D :=
  let div := pit_divisor hz in
  outs [(0x43, 0x36); (0x40, u8 (Z.land div 0xFF)); (0x40, u8 (Z.shiftr div 8))] d.
End chips.

(** ** Reading the tables back *)

(** The value of little-endian bytes. *)
Definition le_val (bs : list Z) : Z := foldr (λ b acc, b + 256 * acc) 0 bs.

Fixpoint le_bytes (n : nat) (v : Z) : list Z :=
  match n with O => [] | S n => v `mod` 256 :: le_bytes n (v / 256) end.

Lemma le_val_bytes n : ∀ v, 0 ≤ v < 256 ^ Z.of_nat n → le_val (le_bytes n v) = v.
Proof.
  induction n as [|n IH]; intros v Hv; simpl.
  { change (256 ^ Z.of_nat 0) with 1 in Hv. lia. }
  rewrite Nat2Z.inj_succ, Z.pow_succ_r in Hv by lia.
  rewrite IH; [pose proof (Z.div_mod v 256); lia|].
  split; [apply Z.div_pos; lia|]. apply Z.div_lt_upper_bound; lia.
Qed.

Lemma le16_bytes v : [u8 v; u8 (Z.shiftr v 8)] = le_bytes 2 v.
Proof.
  unfold u8, wrap. simpl. rewrite !Z.shiftr_div_pow2 by lia. done.
Qed.

Lemma le64_bytes v :
  [u8 v; u8 (Z.shiftr v 8); u8 (Z.shiftr v 16); u8 (Z.shiftr v 24);
   u8 (Z.shiftr v 32); u8 (Z.shiftr v 40); u8 (Z.shiftr v 48); u8 (Z.shiftr v 56)] = le_bytes 8 v.
Proof.
  unfold u8, wrap, le_bytes. rewrite !Z.shiftr_div_pow2, !Z.div_div by lia. done.
Qed.

Section bytes.
Context {A : Type}.

(** [n] elements from [off] on. *)
Definition slice (l : list A) (off n : Z) : list A := take (Z.to_nat n) (drop (Z.to_nat off) l).

Lemma aget_slice (l : list A) off n i :
  0 ≤ off → 0 ≤ i < n → aget (slice l off n) i = aget l (off + i).
Proof. intros. unfold slice. rewrite aget_take, aget_drop by lia. done. Qed.

Lemma len_slice (l : list A) off n : 0 ≤ off → 0 ≤ n → off + n ≤ len l → len (slice l off n) = n.
Proof.
  intros. unfold slice. apply len_take. rewrite !len_length in *. rewrite length_drop. lia.
Qed.
End bytes.

Lemma put_bytes_spec bs : ∀ out off,
  0 ≤ off → off + len bs ≤ len out →
  ok (put_bytes out off bs) (λ out', len out' = len out ∧ slice out' off (len bs) = bs ∧
    ∀ j, ¬ (off ≤ j < off + len bs) → aget out' j = aget out j).
Proof.
  intros out off Hoff Hlen.
  enough (ok (put_bytes out off bs) (λ out', len out' = len out ∧
    ∀ j, aget out' j = if decide (off ≤ j < off + len bs) then aget bs (j - off) else aget out j)) as H.
  { eapply ok_mono; [exact H|]. intros out' [Hl Hj]. split; [done|]. split.
    - pose proof (len_nonneg bs). apply alist_eq; rewrite len_slice by lia; [done|].
      intros i Hi. rewrite aget_slice, Hj, decide_True by lia. f_equal. lia.
    - intros j Hn. by rewrite Hj, decide_False. }
  revert out off Hoff Hlen. induction bs as [|b bs IH]; intros out off Hoff Hlen; simpl.
  { split; [done|]. intros j. by rewrite decide_False by (rewrite len_nil; lia). }
  rewrite len_cons in *. pose proof (len_nonneg bs). rewrite aset_Some by lia. simpl.
  eapply ok_mono; [apply IH; [lia|rewrite len_insert; lia]|]. intros out' [Hl Hj].
  rewrite len_insert in Hl. split; [done|]. intros j. rewrite Hj, aget_insert, Z2Nat.id by lia.
  destruct (decide (j = off)) as [->|Hne].
  - rewrite decide_False, decide_True by lia. by rewrite Z.sub_diag.
  - destruct (decide (off + 1 ≤ j < off + 1 + len bs)).
    + rewrite decide_True by lia. unfold aget. destruct (Z.leb_spec 0 (j - off)); [|lia].
      destruct (Z.leb_spec 0 (j - (off + 1))); [|lia].
      by replace (Z.to_nat (j - off)) with (S (Z.to_nat (j - (off + 1)))) by lia.
    + by rewrite decide_False by lia.
Qed.

(** The table register as the processor reads it: a 16-bit limit, a 64-bit base. *)
Definition pseudo_descriptor (r : list Z) (limit base : Z) : Prop :=
  len r = 10 ∧ le_val (slice r 0 2) = limit ∧ le_val (slice r 2 8) = base.

Lemma PackGDTR_spec limit base out :
  in_u16 limit → in_u64 base → len out = 10 →
  ok (PackGDTR limit base out) (λ r, pseudo_descriptor r limit base).
Proof.
  intros Hl Hb Ho. unfold PackGDTR.
  change (λ r, pseudo_descriptor r limit base) with (λ r, pseudo_descriptor r limit base).
  assert ([u8 limit; u8 (Z.shiftr limit 8); u8 base; u8 (Z.shiftr base 8); u8 (Z.shiftr base 16);
    u8 (Z.shiftr base 24); u8 (Z.shiftr base 32); u8 (Z.shiftr base 40); u8 (Z.shiftr base 48);
    u8 (Z.shiftr base 56)] = le_bytes 2 limit ++ le_bytes 8 base) as ->.
  { rewrite <-le16_bytes, <-le64_bytes. done. }
  assert (len (le_bytes 2 limit ++ le_bytes 8 base) = 10) as Hlen by done.
  eapply ok_mono; [apply put_bytes_spec; lia|]. rewrite Hlen, Ho. intros r (Hr & Hs & _).
  split; [done|]. assert (r = le_bytes 2 limit ++ le_bytes 8 base) as ->.
  { rewrite <-Hs. unfold slice. rewrite drop_0, take_len by lia. done. }
  split; [apply (le_val_bytes 2 limit)|apply (le_val_bytes 8 base)]; simpl; lia.
Qed.

(** *** The TSS descriptor *)
Definition desc_base (low high : Z) : Z :=
  (low / 2 ^ 16) `mod` 2 ^ 24 + (low / 2 ^ 56) `mod` 2 ^ 8 * 2 ^ 24 + high `mod` 2 ^ 32 * 2 ^ 32.
Definition desc_limit (low : Z) : Z := low `mod` 2 ^ 16 + (low / 2 ^ 48) `mod` 2 ^ 4 * 2 ^ 16.
Definition desc_access (low : Z) : Z := (low / 2 ^ 40) `mod` 2 ^ 8.
Definition desc_flags (low : Z) : Z := (low / 2 ^ 52) `mod` 2 ^ 4.

(** What the processor reads in the descriptor of a code or data segment: present (bit
    47), not a system segment (44), its privilege (45, 46), executable or not (43), not
    conforming or expand-down (42).  A code segment is 64-bit (53 set, 54 clear), a data
    segment writable (41); both are flat. *)
Definition flat_segment (d dpl : Z) : Prop :=
  Z.testbit d 47 = true ∧ Z.testbit d 44 = true ∧ (d / 2 ^ 45) `mod` 4 = dpl ∧
  Z.testbit d 42 = false ∧ desc_base d 0 = 0 ∧ desc_limit d = 0xFFFFF ∧ Z.testbit d 55 = true.
Definition code_segment (d dpl : Z) : Prop :=
  flat_segment d dpl ∧ Z.testbit d 43 = true ∧ Z.testbit d 53 = true ∧ Z.testbit d 54 = false.
Definition data_segment (d dpl : Z) : Prop :=
  flat_segment d dpl ∧ Z.testbit d 43 = false ∧ Z.testbit d 41 = true.

(** Extracting the field [f] of [w] bits at bit [k]. *)
Lemma field_at lo f hi k w :
  0 ≤ k → 0 ≤ w → 0 ≤ lo < 2 ^ k → 0 ≤ f < 2 ^ w →
  ((lo + f * 2 ^ k + hi * 2 ^ (k + w)) / 2 ^ k) `mod` 2 ^ w = f.
Proof.
  intros Hk Hw Hlo Hf. rewrite Z.pow_add_r by lia.
  replace (lo + f * 2 ^ k + hi * (2 ^ k * 2 ^ w)) with (lo + (f + hi * 2 ^ w) * 2 ^ k) by ring.
  rewrite Z.div_add, (Z.div_small lo), Z.add_0_l, Z.mod_add, Z.mod_small by lia. done.
Qed.

Lemma EncodeTSSDescriptor_spec base limit :
  in_u64 base → in_u32 limit →
  let '(low, high) := EncodeTSSDescriptor base limit in
  desc_base low high = base ∧ desc_limit low = limit `mod` 2 ^ 20 ∧
  desc_access low = 0x89 ∧ desc_flags low = 0 ∧ in_u64 low ∧ in_u32 high.
Proof.
  intros Hb Hl. unfold EncodeTSSDescriptor.
  change 0xFFFFFF with (Z.ones 24). change 0xFFFF with (Z.ones 16). change 0xFF with (Z.ones 8).
  change 0xF with (Z.ones 4). rewrite !Z.land_ones, !Z.shiftr_div_pow2 by lia.
  set (a := limit `mod` 2 ^ 16). set (b := base `mod` 2 ^ 24).
  set (c := (limit / 2 ^ 16) `mod` 2 ^ 4). set (d := (base / 2 ^ 24) `mod` 2 ^ 8).
  assert (0 ≤ a < 2 ^ 16) by (apply Z.mod_pos_bound; lia).
  assert (0 ≤ b < 2 ^ 24) by (apply Z.mod_pos_bound; lia).
  assert (0 ≤ c < 2 ^ 4) by (apply Z.mod_pos_bound; lia).
  assert (0 ≤ d < 2 ^ 8) by (apply Z.mod_pos_bound; lia).
  rewrite !(u64_small (Z.shiftl _ _)) by (rewrite Z.shiftl_mul_pow2; lia).
  rewrite (lor_add_shiftl b a 16) by lia. rewrite (lor_add_shiftl 0x89 _ 40) by lia.
  rewrite (lor_add_shiftl c _ 48) by lia. rewrite (lor_add_shiftl d _ 56) by lia.
  unfold desc_base, desc_limit, desc_access, desc_flags.
  set (low := a + b * 2 ^ 16 + 0x89 * 2 ^ 40 + c * 2 ^ 48 + d * 2 ^ 56).
  assert (low `mod` 2 ^ 16 = a) as ->.
  { rewrite <-(field_at 0 a (b + 0x89 * 2 ^ 24 + c * 2 ^ 32 + d * 2 ^ 40) 0 16) by lia.
    rewrite Z.div_1_r. f_equal. unfold low. lia. }
  assert ((low / 2 ^ 16) `mod` 2 ^ 24 = b) as ->.
  { rewrite <-(field_at a b (0x89 + c * 2 ^ 8 + d * 2 ^ 16) 16 24) by lia. do 2 f_equal. unfold low. lia. }
  assert ((low / 2 ^ 40) `mod` 2 ^ 8 = 0x89) as ->.
  { rewrite <-(field_at (a + b * 2 ^ 16) 0x89 (c + d * 2 ^ 8) 40 8) by lia. do 2 f_equal. unfold low. lia. }
  assert ((low / 2 ^ 48) `mod` 2 ^ 4 = c) as ->.
  { rewrite <-(field_at (a + b * 2 ^ 16 + 0x89 * 2 ^ 40) c (d * 2 ^ 4) 48 4) by lia.
    do 2 f_equal. unfold low. lia. }
  assert ((low / 2 ^ 52) `mod` 2 ^ 4 = 0) as ->.
  { rewrite <-(field_at (a + b * 2 ^ 16 + 0x89 * 2 ^ 40 + c * 2 ^ 48) 0 d 52 4) by lia.
    do 2 f_equal. unfold low. lia. }
  assert ((low / 2 ^ 56) `mod` 2 ^ 8 = d) as ->.
  { rewrite <-(field_at (a + b * 2 ^ 16 + 0x89 * 2 ^ 40 + c * 2 ^ 48) d 0 56 8) by lia.
    do 2 f_equal. unfold low. lia. }
  split_and!; try done; [| |lia|lia|apply Z.div_pos; lia|apply Z.div_lt_upper_bound; lia].
  - rewrite (Z.mod_small (base / 2 ^ 32)) by
      (split; [apply Z.div_pos; lia|apply Z.div_lt_upper_bound; lia]).
    change (2 ^ 32) with (2 ^ 24 * 2 ^ 8) at 1. rewrite <-Z.div_div by lia.
    pose proof (Z.div_mod base (2 ^ 24)). pose proof (Z.div_mod (base / 2 ^ 24) (2 ^ 8)).
    unfold b, d. lia.
  - change (2 ^ 20) with (2 ^ 16 * 2 ^ 4). rewrite Z.rem_mul_r by lia. unfold a, c. lia.
Qed.

(** *** Gates *)
Definition gate_offset (e : idtEntry) : Z := offsetLow e + offsetMid e * 2 ^ 16 + offsetHigh e * 2 ^ 32.
Definition gate_is (e : idtEntry) (handler sel fl : Z) : Prop :=
  gate_offset e = handler ∧ selector e = sel ∧ flags e = fl ∧ ist e = 0 ∧ zero e = 0.
(** The privilege level that may call the gate. *)
Definition gate_dpl (e : idtEntry) : Z := (flags e / 2 ^ 5) `mod` 4.

Lemma setIDTEntry_spec vec handler sel fl idt :
  0 ≤ vec < len idt → in_u64 handler →
  ok (setIDTEntry vec handler sel fl idt) (λ idt', len idt' = len idt ∧
    (∃ e, aget idt' vec = Some e ∧ gate_is e handler sel fl) ∧
    ∀ v, v ≠ vec → aget idt' v = aget idt v).
Proof.
  intros Hv Hh. unfold setIDTEntry. rewrite aset_Some by done. simpl.
  split; [by rewrite len_insert|]. split.
  - eexists. rewrite aget_insert, Z2Nat.id, decide_True by lia. split; [reflexivity|].
    split; [|done]. unfold gate_offset. simpl. change 0xFFFFFFFF with (Z.ones 32).
    change 0xFFFF with (Z.ones 16). rewrite !Z.land_ones, !Z.shiftr_div_pow2 by lia.
    rewrite !u16_small, u32_small by (apply Z.mod_pos_bound; lia). mod_lia.
  - intros v Hne. rewrite aget_insert, Z2Nat.id, decide_False by lia. done.
Qed.

(** ** Boot-time initialisation *)
Section boot_gdt.
Context {D : Type} `{!CpuTables D}.
Variable gdtAddr tssAddr trapStackAddr : Z.
Hypothesis gdtAddr_u64 : in_u64 gdtAddr.
Hypothesis tssAddr_u64 : in_u64 tssAddr.
Hypothesis trapStack_u64 : 0 ≤ trapStackAddr ∧ trapStackAddr + 4096 < 2 ^ 64.
Implicit Types t : tables D.

(** The arrays have their declared sizes. *)
Definition tables_ok t : Prop :=
  len (gdt t) = 7 ∧ len (gdtRegister t) = 10 ∧ len (cpuTSS t) = TSSSize ∧
  len (idt t) = idtSize ∧ len (idtr t) = 10.

(** The segment a selector names. *)
Definition segment t (sel : Z) : option Z := aget (gdt t) (sel / 8).

(** A selector of privilege [dpl] (its low two bits) that names a descriptor of the GDT
    (bit 2 clear) with the property [P]. *)
Definition names t (sel dpl : Z) (P : Z → Z → Prop) : Prop :=
  sel `mod` 4 = dpl ∧ Z.testbit sel 2 = false ∧ ∃ d, segment t sel = Some d ∧ P d dpl.

Definition gdt_ready t : Prop :=
  names t kernelCodeSelector 0 code_segment ∧ names t kernelDataSelector 0 data_segment ∧
  names t userCodeSelector 3 code_segment ∧ names t userDataSelector 3 data_segment ∧
  aget (gdt t) 0 = Some 0 ∧
  (∃ low high, segment t tssSelector = Some low ∧ aget (gdt t) (tssSelector / 8 + 1) = Some high ∧
     desc_base low high = tssAddr ∧ desc_limit low = TSSSize - 1 ∧ desc_access low = 0x89) ∧
  pseudo_descriptor (gdtRegister t) (7 * 8 - 1) gdtAddr.

(** The stack the CPU loads on a trap from user mode, and no I/O permission map. *)
Definition tss_ready t (tss0 : list Z) : Prop :=
  let rsp0 := le_val (slice (cpuTSS t) 4 8) in
  rsp0 `mod` 16 = 0 ∧ trapStackAddr < rsp0 ≤ trapStackAddr + 4096 ∧
  le_val (slice (cpuTSS t) 102 2) = TSSSize ∧
  ∀ j, ¬ (4 ≤ j < 12) → ¬ (102 ≤ j < 104) → aget (cpuTSS t) j = aget tss0 j.

Lemma stack_top_spec :
  let top := defaultKernelTrapStackTop trapStackAddr in
  top `mod` 16 = 0 ∧ trapStackAddr < top ≤ trapStackAddr + 4096.
Proof.
  unfold defaultKernelTrapStackTop. rewrite u64_small by lia. change 0xF with (Z.ones 4).
  rewrite Z.ldiff_ones_r, Z.shiftr_div_pow2, Z.shiftl_mul_pow2 by lia. change (2 ^ 4) with 16. mod_lia.
Qed.

Lemma tss_stores_spec tss rsp0 :
  len tss = TSSSize → in_u64 rsp0 →
  ok (s ← SetIomapBase tss TSSSize; SetRSP0 s rsp0) (λ s, len s = TSSSize ∧
    le_val (slice s 4 8) = rsp0 ∧ le_val (slice s 102 2) = TSSSize ∧
    ∀ j, ¬ (4 ≤ j < 12) → ¬ (102 ≤ j < 104) → aget s j = aget tss j).
Proof.
  intros Hl Hr. unfold SetIomapBase, SetRSP0, put16, put64, tssIomapBaseOffset, tssRSP0Offset.
  rewrite (le16_bytes TSSSize), (le64_bytes rsp0). unfold TSSSize in *.
  assert (len (le_bytes 2 104) = 2) as H2 by done. assert (len (le_bytes 8 rsp0) = 8) as H8 by done.
  call put_bytes_spec; [lia|lia|]. intros s1 (Hl1 & Hs1 & Hf1).
  eapply ok_mono; [apply put_bytes_spec; lia|]. intros s (Hls & Hs & Hf).
  rewrite H2 in *. rewrite H8 in *. split; [lia|]. split_and!.
  - rewrite Hs. apply (le_val_bytes 8). simpl. lia.
  - transitivity (le_val (slice s1 102 2)); [|by rewrite Hs1]. f_equal.
    apply alist_eq; rewrite !len_slice by lia; [done|]. intros i Hi. rewrite !aget_slice by lia.
    apply Hf. lia.
  - intros j Hj1 Hj2. rewrite Hf by lia. apply Hf1. lia.
Qed.

Lemma aget_of_slice {A} (l bs : list A) off n i :
  slice l off n = bs → 0 ≤ off → 0 ≤ i < n → aget l (off + i) = aget bs i.
Proof. intros <- Ho Hi. by rewrite aget_slice by lia. Qed.

Lemma gdt_stores_spec g low high :
  len g = 7 →
  ok (g ← put_bytes g 0
        [0; kernelCodeDescriptor; kernelDataDescriptor; userCodeDescriptor; userDataDescriptor];
      put_bytes g 5 [low; high]) (λ g', g' =
    [0; kernelCodeDescriptor; kernelDataDescriptor; userCodeDescriptor; userDataDescriptor; low; high]).
Proof.
  intros Hl. destruct g as [|x0 [|x1 [|x2 [|x3 [|x4 [|x5 [|x6 [|x7 g]]]]]]]];
    rewrite ?len_cons, ?len_nil in Hl; try lia; [done|]. pose proof (len_nonneg g). lia.
Qed.

(** The four constants of gdt.go as the processor reads them. *)
Lemma boot_segments :
  code_segment kernelCodeDescriptor 0 ∧ data_segment kernelDataDescriptor 0 ∧
  code_segment userCodeDescriptor 3 ∧ data_segment userDataDescriptor 3.
Proof. by vm_compute. Qed.

Lemma InitGDTAndTSS_spec t :
  tables_ok t →
  ok (InitGDTAndTSS gdtAddr tssAddr trapStackAddr t) (λ t', tables_ok t' ∧ gdt_ready t' ∧
    tss_ready t' (cpuTSS t) ∧ idt t' = idt t ∧
    hw t' = LoadTR tssSelector (LoadDataSegments kernelDataSelector (LoadGDT (gdtRegister t') (hw t)))).
Proof.
  intros (Hg & Hgr & Ht & Hi & Hir). unfold InitGDTAndTSS, initGDT, SetKernelRSP0, setTSSDescriptor, loadGDT.
  destruct stack_top_spec as [Htop1 Htop2]. set (rsp0 := defaultKernelTrapStackTop trapStackAddr) in *.
  pose proof (EncodeTSSDescriptor_spec tssAddr (TSSSize - 1) tssAddr_u64 ltac:(unfold TSSSize; lia)) as He.
  destruct (EncodeTSSDescriptor tssAddr (TSSSize - 1)) as [low high]. destruct He as (Eb & El & Ea & _).
  pose proof (gdt_stores_spec (gdt t) low high Hg) as Hgs.
  pose proof (tss_stores_spec (cpuTSS t) rsp0 Ht ltac:(lia)) as Hts.
  destruct (put_bytes (gdt t) 0 _) as [g1|]; [|done]. cbn [mbind option_bind] in Hgs |- *.
  cbn [cpuTSS set_gdt].
  destruct (SetIomapBase (cpuTSS t) TSSSize) as [s1|]; [|done]. cbn [mbind option_bind] in Hts |- *.
  cbn [cpuTSS set_tss]. destruct (SetRSP0 s1 rsp0) as [s|]; [|done]. simpl in Hts.
  cbn [mbind option_bind gdt set_tss set_gdt].
  destruct (put_bytes g1 5 [low; high]) as [g|]; [|done]. simpl in Hgs. subst g.
  cbn [mbind option_bind gdt set_tss set_gdt gdtRegister cpuTSS idt idtr hw].
  set (g := [0; _; _; _; _; low; high]). assert (len g = 7) as Hlg by done. rewrite Hlg.
  change (u16 (7 * 8 - 1)) with 55.
  destruct (ok_elim _ _ (PackGDTR_spec 55 gdtAddr (gdtRegister t) ltac:(lia) gdtAddr_u64 Hgr))
    as (r & Er & Hr). rewrite Er. simpl. destruct Hts as (Hls & Hv & Hio & Hf).
  split; [destruct Hr as (? & _); by split_and!|]. split; [|split; [|done]].
  - destruct boot_segments as (? & ? & ? & ?).
    assert (∀ sel dpl (P : Z → Z → Prop) d, sel `mod` 4 = dpl → Z.testbit sel 2 = false →
      aget g (sel / 8) = Some d → P d dpl → sel `mod` 4 = dpl ∧ Z.testbit sel 2 = false ∧
      ∃ d, aget g (sel / 8) = Some d ∧ P d dpl) as Hn by eauto 6.
    unfold gdt_ready, names, segment. simpl.
    do 4 (split; [by eapply Hn|]). split; [done|]. split; [|done]. exists low, high. by split_and!.
  - split_and!; simpl; try done; rewrite Hv; done || lia.
Qed.

End boot_gdt.

Section boot_idt.
Context {D : Type} `{!CpuTables D}.
Variable idtAddr : Z.
Variable dfaultStub gpfaultStub pfaultStub irq0Stub irq1Stub int80Stub : Z.
Hypothesis idtAddr_u64 : in_u64 idtAddr.
Hypothesis stubs_u64 :
  Forall (λ a, in_u64 a) [dfaultStub; gpfaultStub; pfaultStub; irq0Stub; irq1Stub; int80Stub].
Implicit Types t : tables D.

(** Vectors and handlers, in the order of [InitIDT]. *)
Definition idt_vectors : list (Z * Z * Z) :=
  [(0x08, dfaultStub, intGateKernelFlags); (0x0D, gpfaultStub, intGateKernelFlags);
   (0x0E, pfaultStub, intGateKernelFlags); (0x20, irq0Stub, intGateKernelFlags);
   (0x21, irq1Stub, intGateKernelFlags); (0x80, int80Stub, intGateUserFlags)].

Fixpoint set_all (cs : Z) (vs : list (Z * Z * Z)) (i : list idtEntry) : option (list idtEntry) :=
  match vs with
  | [] => Some i
  | (vec, h, fl) :: vs => i ← setIDTEntry vec h cs fl i; set_all cs vs i
  end.

Lemma set_all_spec cs vs : ∀ i,
  NoDup (vs.*1.*1) → Forall (λ '(vec, h, _), 0 ≤ vec < len i ∧ in_u64 h) vs →
  ok (set_all cs vs i) (λ i', len i' = len i ∧
    (∀ vec h fl, (vec, h, fl) ∈ vs → ∃ e, aget i' vec = Some e ∧ gate_is e h cs fl) ∧
    ∀ v, v ∉ vs.*1.*1 → aget i' v = aget i v).
Proof.
  induction vs as [|[[vec h] fl] vs IH]; intros i Hnd Hall; simpl.
  { split; [done|]. split; [intros ? ? ? []%elem_of_nil|done]. }
  apply NoDup_cons in Hnd as [Hnin Hnd]. apply Forall_cons in Hall as [[Hv Hh] Hall].
  call (setIDTEntry_spec vec h cs fl i); [done..|]. intros i1 (Hl1 & (e & He & Hgate) & Hf1).
  eapply ok_mono; [apply IH; [done|by rewrite Hl1]|]. intros i' (Hl & Hin & Hf).
  split; [lia|]. split.
  - intros v0 h0 f0 [E|Hel]%elem_of_cons; [|by apply Hin]. injection E as -> -> ->.
    exists e. split; [|done]. by rewrite Hf.
  - intros v [Hne Hnot]%not_elem_of_cons. rewrite Hf by done. by apply Hf1.
Qed.

Lemma InitIDT_spec t :
  tables_ok t →
  ok (InitIDT idtAddr dfaultStub gpfaultStub pfaultStub irq0Stub irq1Stub int80Stub t) (λ t',
    tables_ok t' ∧ gdt t' = gdt t ∧ cpuTSS t' = cpuTSS t ∧
    (∀ vec h fl, (vec, h, fl) ∈ idt_vectors →
       ∃ e, aget (idt t') vec = Some e ∧ gate_is e h (GetCS (hw t)) fl) ∧
    (∀ v, v ∉ idt_vectors.*1.*1 → aget (idt t') v = aget (idt t) v) ∧
    pseudo_descriptor (idtr t') (256 * 16 - 1) idtAddr).
Proof.
  intros (Hg & Hgr & Ht & Hi & Hir).
  assert (ok (set_all (GetCS (hw t)) idt_vectors (idt t)) (λ i', len i' = len (idt t) ∧
    (∀ vec h fl, (vec, h, fl) ∈ idt_vectors → ∃ e, aget i' vec = Some e ∧ gate_is e h (GetCS (hw t)) fl) ∧
    ∀ v, v ∉ idt_vectors.*1.*1 → aget i' v = aget (idt t) v)) as Hset.
  { apply set_all_spec.
    - simpl. repeat constructor; set_solver by lia.
    - unfold idtSize in Hi. repeat (apply Forall_cons in stubs_u64 as [? stubs_u64]).
      repeat (apply Forall_cons; split; [split; [rewrite Hi; lia|done]|]). done. }
  unfold InitIDT. unfold set_all, idt_vectors in Hset. cbn [fst snd] in Hset.
  do 6 (destruct (setIDTEntry _ _ _ _ _) as [?i|]; cbn [mbind option_bind] in Hset |- *; [|done]).
  simpl in Hset. destruct Hset as (Hl & Hin & Hf).
  destruct (ok_elim _ _ (PackGDTR_spec (u16 (idtSize * 16 - 1)) idtAddr (idtr t) ltac:(apply u16_range)
    idtAddr_u64 Hir)) as (r & Er & Hr). change packIDTR with PackGDTR. rewrite Er. simpl.
  split; [destruct Hr as (? & _); split_and!; simpl; try done; lia|].
  split_and!; done.
Qed.
End boot_idt.

(** ** Properties *)

(** C32: after [InitGDTAndTSS] the tables say what the processor needs: the kernel's
    selectors name a present flat 64-bit code segment and a writable data segment of
    privilege 0, the user's the same of privilege 3, the TSS descriptor decodes to the address and size
    of the TSS, the table register to the address and size of the table; a trap from user
    mode gets a 16-byte aligned stack inside the trap stack, and there is no I/O map; the
    processor is given the table register, the kernel's data segment and the TSS. *)
Theorem InitGDTAndTSS_correct `{!CpuTables D} (gdtAddr tssAddr trapStackAddr : Z) (t : tables D)
    (Hgdt : in_u64 gdtAddr) (Htss : in_u64 tssAddr)
    (Hstack : 0 ≤ trapStackAddr ∧ trapStackAddr + 4096 < 2 ^ 64) (Hok : tables_ok t) :
  ∃ t', InitGDTAndTSS gdtAddr tssAddr trapStackAddr t = Some t' ∧ tables_ok t' ∧
    gdt_ready gdtAddr tssAddr t' ∧ tss_ready trapStackAddr t' (cpuTSS t) ∧ idt t' = idt t ∧
    hw t' = LoadTR tssSelector (LoadDataSegments kernelDataSelector (LoadGDT (gdtRegister t') (hw t))).
Proof. by apply ok_elim, InitGDTAndTSS_spec. Qed.

(** C33: after [InitIDT] every handler is reachable through its vector: the six gates
    decode to the address of their stub in the kernel's code segment, only the system
    call gate may be called from user mode, every other vector is as before, and the
    table register decodes to the address and size of the table. *)
Theorem InitIDT_correct `{!CpuTables D}
    (idtAddr dfaultStub gpfaultStub pfaultStub irq0Stub irq1Stub int80Stub : Z) (t : tables D)
    (Hidt : in_u64 idtAddr)
    (Hstubs : Forall (λ a, in_u64 a) [dfaultStub; gpfaultStub; pfaultStub; irq0Stub; irq1Stub; int80Stub])
    (Hok : tables_ok t) :
  let vectors := idt_vectors dfaultStub gpfaultStub pfaultStub irq0Stub irq1Stub int80Stub in
  ∃ t', InitIDT idtAddr dfaultStub gpfaultStub pfaultStub irq0Stub irq1Stub int80Stub t = Some t' ∧
    (∀ vec h fl, (vec, h, fl) ∈ vectors →
       ∃ e, aget (idt t') vec = Some e ∧ gate_is e h (GetCS (hw t)) fl ∧ (gate_dpl e = 3 ↔ vec = 0x80)) ∧
    (∀ v, v ∉ vectors.*1.*1 → aget (idt t') v = aget (idt t) v) ∧
    pseudo_descriptor (idtr t') (256 * 16 - 1) idtAddr.
Proof.
  intros vectors.
  destruct (ok_elim _ _ (InitIDT_spec idtAddr dfaultStub gpfaultStub pfaultStub irq0Stub irq1Stub int80Stub
    Hidt Hstubs t Hok)) as (t' & E & _ & _ & _ & Hin & Hf & Hr).
  exists t'. split; [done|]. split; [|done]. intros vec h fl Hel.
  destruct (Hin vec h fl Hel) as (e & He & Hg). exists e. split; [done|]. split; [done|].
  destruct Hg as (_ & _ & Efl & _). unfold gate_dpl. rewrite Efl. clear -Hel.
  unfold vectors, idt_vectors in Hel. rewrite !elem_of_cons in Hel.
  destruct Hel as [E|[E|[E|[E|[E|[E|[]%elem_of_nil]]]]]]; injection E as -> _ ->; vm_compute; intuition discriminate.
Qed.

(** [PITInit] programs the rate that was asked for: for every frequency from 19 Hz
    to the chip's own, the two bytes sent, low byte first, are the integer quotient of
    the two frequencies, which fits the 16-bit counter and is not 0. *)
Theorem PITInit_correct `{!PortIO D} (hz : Z) (d : D) (Hhz : 19 ≤ hz ≤ pitFreq) :
  ∃ lo hi, PITInit hz d = outs [(0x43, 0x36); (0x40, lo); (0x40, hi)] d ∧ in_u8 lo ∧ in_u8 hi ∧
    lo + 256 * hi = pitFreq / hz ∧ 1 ≤ pitFreq / hz < 2 ^ 16.
Proof.
  unfold PITInit, pit_divisor. destruct (Z.eqb_spec hz 0); [lia|].
  assert (1 ≤ pitFreq / hz < 2 ^ 16) as Hd.
  { unfold pitFreq in *. split; [apply Z.div_le_lower_bound; lia|apply Z.div_lt_upper_bound; lia]. }
  rewrite u16_small by lia. set (q := pitFreq / hz) in *. clearbody q.
  change 0xFF with (Z.ones 8). rewrite Z.land_ones, Z.shiftr_div_pow2 by lia. change (2 ^ 8) with 256.
  eexists _, _. split; [reflexivity|]. rewrite !u8_small by mod_lia. mod_lia.
Qed.

(** *** Witnesses *)
#[export] Instance recorder_tables : CpuTables recorder := {
  LoadGDT _ d := d;
  LoadDataSegments _ d := d;
  LoadTR _ d := d;
  LoadIDT _ d := d;
  GetCS _ := 0x08;
}.

Definition demo_tables : tables recorder :=
  Tables (replicate 7 0) (replicate 10 0) (replicate 104 0)
    (replicate 256 (IdtEntry 0 0 0 0 0 0 0)) (replicate 10 0) (Recorder [] []).

Lemma demo_tables_ok : tables_ok demo_tables.
Proof.
  split_and!; [apply (len_replicate 7)|apply (len_replicate 10)|apply (len_replicate 104)|
    apply (len_replicate 256)|apply (len_replicate 10)].
Qed.

Lemma InitGDTAndTSS_correct_witness :
  ∃ t', InitGDTAndTSS 0x180000 0x181000 0x182000 demo_tables = Some t' ∧ tables_ok t' ∧
    gdt_ready 0x180000 0x181000 t' ∧ tss_ready 0x182000 t' (cpuTSS demo_tables) ∧ idt t' = idt demo_tables ∧
    hw t' = LoadTR tssSelector (LoadDataSegments kernelDataSelector (LoadGDT (gdtRegister t') (hw demo_tables))).
Proof.
  apply (InitGDTAndTSS_correct 0x180000 0x181000 0x182000 demo_tables); [lia|lia|lia|apply demo_tables_ok].
Defined.

Lemma InitIDT_correct_witness :
  let vectors := idt_vectors 0x100100 0x100200 0x100300 0x100400 0x100500 0x100600 in
  ∃ t', InitIDT 0x183000 0x100100 0x100200 0x100300 0x100400 0x100500 0x100600 demo_tables = Some t' ∧
    (∀ vec h fl, (vec, h, fl) ∈ vectors →
       ∃ e, aget (idt t') vec = Some e ∧ gate_is e h (GetCS (hw demo_tables)) fl ∧
            (gate_dpl e = 3 ↔ vec = 0x80)) ∧
    (∀ v, v ∉ vectors.*1.*1 → aget (idt t') v = aget (idt demo_tables) v) ∧
    pseudo_descriptor (idtr t') (256 * 16 - 1) 0x183000.
Proof.
  apply (InitIDT_correct 0x183000 0x100100 0x100200 0x100300 0x100400 0x100500 0x100600 demo_tables);
    [lia|repeat (apply Forall_cons; split; [lia|]); apply Forall_nil; exact I|apply demo_tables_ok].
Defined.

Lemma PITInit_correct_witness :
  ∃ lo hi, PITInit 100 (Recorder [] []) = outs [(0x43, 0x36); (0x40, lo); (0x40, hi)] (Recorder [] []) ∧
    in_u8 lo ∧ in_u8 hi ∧ lo + 256 * hi = pitFreq / 100 ∧ 1 ≤ pitFreq / 100 < 2 ^ 16.
Proof. apply (PITInit_correct 100 (Recorder [] [])). unfold pitFreq. lia. Defined.

(** Below 19 Hz the quotient does not fit the counter and its low 16 bits are sent: 10 Hz
    programs 53782 instead of 119318. *)
Example PITInit_truncates : pit_divisor 10 = 53782 ∧ pitFreq / 10 = 119318.
Proof. vm_compute. done. Qed.
