(* ===== verification/Syscall.v ===== *)
(** * Package [kernel/syscall] and the fault handlers

    [src/kernel/syscall/abi.go], [common.go], [dispatch.go] and [runtime.go],
    [src/kernel/syscall_bridge.go] and the fault handlers of [src/kernel/idt.go].
    The console is any [Console]; user memory is the machine's memory. *)
From S2P Require Import Prelude PortIO Terminal Tables.
Local Open Scope Z_scope.

(** ** abi.go *)
Definition SysWrite : Z := 1.
Definition SysExit : Z := 2.
Definition SysGetTicks : Z := 3.

Record TrapFrame := MkTrapFrame {
  R15 : Z; R14 : Z; R13 : Z; R12 : Z; R11 : Z; R10 : Z; R9 : Z; R8 : Z;
  RDI : Z; RSI : Z; RBP : Z; RBX : Z; RDX : Z; RCX : Z; RAX : Z;
  ErrorCode : Z; RIP : Z; CS : Z; RFLAGS : Z; RSP : Z; SS : Z;
}.

Definition set_RAX (v : Z) (tf : TrapFrame) : TrapFrame :=
  MkTrapFrame (R15 tf) (R14 tf) (R13 tf) (R12 tf) (R11 tf) (R10 tf) (R9 tf) (R8 tf)
    (RDI tf) (RSI tf) (RBP tf) (RBX tf) (RDX tf) (RCX tf) v
    (ErrorCode tf) (RIP tf) (CS tf) (RFLAGS tf) (RSP tf) (SS tf).

(** ** common.go *)
Definition MSREFER : Z := 0xC0000080.
Definition MSRSTAR : Z := 0xC0000081.
Definition MSRLSTAR : Z := 0xC0000082.
Definition MSRSFMASK : Z := 0xC0000084.
Definition eferSCEBit : Z := 1.
Definition syscallIFBit : Z := 512.

Definition STARValue (kernelCS userCS : Z) : Z :=
  let userSYSRETBase := Z.ldiff (u16 (userCS - 16)) 3 in
  Z.lor (u64 (Z.shiftl (Z.ldiff kernelCS 3) 32)) (u64 (Z.shiftl userSYSRETBase 48)).

Definition SFMASKValue : Z := syscallIFBit.
Definition EnableSCE (efer : Z) : Z := Z.lor efer eferSCEBit.

(** runtime.go: the model-specific registers are reached through two functions. *)
Section msr.
Context {D : Type}.
Variable readMSR : Z → D → Z * D.
Variable writeMSR : Z → Z → D → D.

Definition InitMSR (lstar kernelCS userCS : Z) (d : D) : D :=
  let d := writeMSR MSRSTAR (STARValue kernelCS userCS) d in
  let d := writeMSR MSRLSTAR lstar d in
  let d := writeMSR MSRSFMASK SFMASKValue d in
  let '(efer, d) := readMSR MSREFER d in
  writeMSR MSREFER (EnableSCE efer) d.

(** syscall_bridge.go *)
Definition InitSyscall (syscallEntry : Z) (d : D) : D :=
  InitMSR syscallEntry kernelCodeSelector userCodeSelector d.
End msr.

(** ** dispatch.go *)
Definition userVAStart : Z := 0x40000000.
Definition userVAEnd : Z := 0x40002000.
Definition maxSysWriteBytes : Z := 4096.
Definition syscallError : Z := 2 ^ 64 - 1.

Definition validUserRange (start length : Z) : bool :=
  if length =? 0 then true
  else if (start <? userVAStart) || (userVAEnd <=? start) then false
  else (length <=? userVAEnd - userVAStart) && (start <=? u64 (userVAEnd - length)).

Section dispatch.
Context {T : Type} `{!Console T}.

Record sys_state := SysState {
  sysWriteBuffer : list Z;
  memory_ : memory;
  console : T;
}.

Definition set_buffer (b : list Z) (st : sys_state) : sys_state :=
  SysState b (memory_ st) (console st).
Definition set_console (c : T) (st : sys_state) : sys_state :=
  SysState (sysWriteBuffer st) (memory_ st) c.

Definition print (s : list Z) (st : sys_state) : option sys_state :=
  c ← Print s (console st); Some (set_console c st).
Definition print_int (v : Z) (st : sys_state) : option sys_state :=
  c ← PrintInt v (console st); Some (set_console c st).
Definition print_hex (v : Z) (st : sys_state) : option sys_state :=
  c ← PrintHex v (console st); Some (set_console c st).

Definition copyFromUserBytes (dst : list Z) (count userPtr : Z) (m : memory)
    : option (bool * list Z) :=
  if (count <? 0) || (maxSysWriteBytes <? count) then Some (false, dst)
  else if negb (validUserRange userPtr count) then Some (false, dst)
  else
    dst ← for_do 0 count (λ i dst, aset dst i (mread m (u64 (userPtr + i)))) dst;
    Some (true, dst).

Definition sysWriteWithCopier (fd buf n : Z)
    (copier : list Z → Z → Z → memory → option (bool * list Z)) (st : sys_state)
    : option (Z * sys_state) :=
  if negb (fd =? 1) then Some (syscallError, st)
  else if n =? 0 then Some (0, st)
  else
    let n := if maxSysWriteBytes <? n then maxSysWriteBytes else n in
    let count := n in
    r ← copier (sysWriteBuffer st) count buf (memory_ st);
    let '(copied, dst) := r in
    let st := set_buffer dst st in
    if negb copied then Some (syscallError, st)
    else
      st ← for_do 0 count
             (λ i st, b ← aget (sysWriteBuffer st) i;
                c ← PutRune b (console st); Some (set_console c st)) st;
      Some (n, st).

Definition sysWrite (fd buf n : Z) (st : sys_state) : option (Z * sys_state) :=
  sysWriteWithCopier fd buf n copyFromUserBytes st.

(** [getTicks] and [returnToKernel] may be nil; the last result tells whether the call
    to [returnToKernel] was made. *)
Definition Dispatch (tf : TrapFrame) (getTicks : option Z) (returnToKernel : bool) (st : sys_state)
    : option (TrapFrame * sys_state * bool) :=
  let nr := u32 (RAX tf) in
  if nr =? SysWrite then
    r ← sysWrite (RDI tf) (RSI tf) (RDX tf) st;
    let '(v, st) := r in Some (set_RAX v tf, st, false)
  else if nr =? SysExit then
    let status := i64 (RDI tf) in
    if Z.land (CS tf) 3 =? 3 then
      st ← print (gs "Process exited with status ") st;
      st ← print_int status st;
      st ← print [10] st;
      Some (tf, st, returnToKernel)
    else
      st ← print (gs "kernel-mode SYS_EXIT rejected (status ") st;
      st ← print_int status st;
      st ← print (gs ")" ++ [10]) st;
      Some (set_RAX syscallError tf, st, false)
  else if nr =? SysGetTicks then
    match getTicks with
    | None => Some (set_RAX 0 tf, st, false)
    | Some t => Some (set_RAX t tf, st, false)
    end
  else
    st ← print (gs "unknown syscall" ++ [10]) st;
    Some (set_RAX syscallError tf, st, false).

(** syscall_bridge.go *)
Definition Int80Handler (tf : TrapFrame) (ticks : Z) (st : sys_state) :=
  Dispatch tf (Some ticks) true st.
Definition SyscallHandler (tf : TrapFrame) (ticks : Z) (st : sys_state) :=
  Dispatch tf (Some ticks) true st.

(** idt.go: the last result tells whether the user program is ended ([ReturnToKernel]);
    in kernel mode the machine halts in the handler. *)
Inductive fault_end := Returned | Halted.

Definition printFaultDiagnostics (name : list Z) (tf : TrapFrame) (st : sys_state) : option sys_state :=
  st ← print (gs "Fault: ") st;
  st ← print name st;
  st ← print ([10] ++ gs "RIP: ") st;
  st ← print_hex (RIP tf) st;
  st ← print ([10] ++ gs "Error Code: ") st;
  st ← print_hex (ErrorCode tf) st;
  print [10] st.

Definition GPFaultHandler (tf : TrapFrame) (st : sys_state) : option (fault_end * sys_state) :=
  if Z.land (CS tf) 3 =? 3 then
    st ← print ([10] ++ gs "#GP in user mode" ++ [10]) st;
    st ← printFaultDiagnostics (gs "General Protection Fault") tf st;
    Some (Returned, st)
  else
    st ← print ([10] ++ gs "#GP in kernel mode" ++ [10]) st;
    st ← printFaultDiagnostics (gs "General Protection Fault") tf st;
    Some (Halted, st).

Definition PFaultHandler (cr2 : Z) (tf : TrapFrame) (st : sys_state) : option (fault_end * sys_state) :=
  if Z.land (CS tf) 3 =? 3 then
    st ← print ([10] ++ gs "#PF in user mode" ++ [10]) st;
    st ← printFaultDiagnostics (gs "Page Fault") tf st;
    st ← print (gs "CR2: ") st;
    st ← print_hex cr2 st;
    st ← print [10] st;
    Some (Returned, st)
  else
    st ← print ([10] ++ gs "#PF in kernel mode" ++ [10]) st;
    st ← printFaultDiagnostics (gs "Page Fault") tf st;
    st ← print (gs "CR2: ") st;
    st ← print_hex cr2 st;
    st ← print [10] st;
    Some (Halted, st).
End dispatch.
Arguments sys_state T : clear implicits.

(** ** The user window *)
Lemma validUserRange_spec start n :
  in_u64 start → in_u64 n →
  validUserRange start n = true ↔ n = 0 ∨ (userVAStart ≤ start ∧ start + n ≤ userVAEnd).
Proof.
  unfold validUserRange, userVAStart, userVAEnd. intros Hs Hn.
  destruct (Z.eqb_spec n 0); [tauto|].
  destruct (Z.ltb_spec start 0x40000000); simpl; [split; [done|lia]|].
  destruct (Z.leb_spec 0x40002000 start); simpl; [split; [done|lia]|].
  change (0x40002000 - 0x40000000) with 0x2000.
  destruct (Z.leb_spec n 0x2000); simpl; [|split; [done|lia]].
  rewrite u64_small by lia. rewrite Z.leb_le. lia.
Qed.

(** The bytes a program passes to [write]. *)
Definition user_bytes (m : memory) (a n : Z) : list Z := (λ i, mread m (a + i)) <$> seqZ 0 n.

Lemma copyFromUserBytes_spec dst count a m :
  len dst = maxSysWriteBytes → 0 ≤ count ≤ maxSysWriteBytes → in_u64 a →
  ok (copyFromUserBytes dst count a m) (λ '(b, dst'),
    b = validUserRange a count ∧ len dst' = maxSysWriteBytes ∧
    if b then ∀ j, aget dst' j = if decide (0 ≤ j < count) then Some (mread m (a + j)) else aget dst j
    else dst' = dst).
Proof.
  unfold maxSysWriteBytes. intros Hl Hc Ha. unfold copyFromUserBytes, maxSysWriteBytes. cmp.
  destruct (validUserRange a count) eqn:Hv; simpl; [|done]. apply ok_bind.
  apply (for_do_ok (λ i d, len d = 4096 ∧
    ∀ j, aget d j = if decide (0 ≤ j < i) then Some (mread m (a + j)) else aget dst j)); [lia| | |].
  - split; [done|]. intros j. by rewrite decide_False by lia.
  - intros i d Hi [Hd Hj]. rewrite aset_Some by lia. simpl. split; [by rewrite len_insert|].
    intros j. rewrite aget_insert, Z2Nat.id by lia. destruct (decide (j = i)) as [->|].
    + rewrite decide_True by lia. rewrite u64_small; [done|].
      apply validUserRange_spec in Hv; [|done|lia]. unfold userVAEnd, userVAStart in Hv. lia.
    + rewrite Hj. repeat case_decide; done || lia.
  - intros d [Hd Hj]. simpl. done.
Qed.

Section write.
Context {T : Type} `{!Console T}.
Implicit Types st : sys_state T.

Lemma print_loop l : ∀ j st,
  (∀ k, 0 ≤ k < len l → aget (sysWriteBuffer st) (j + k) = aget l k) →
  for_do j (j + len l)
    (λ i st, b ← aget (sysWriteBuffer st) i; c ← PutRune b (console st); Some (set_console c st)) st
  = print l st.
Proof.
  induction l as [|x l IH]; intros j st Hg.
  { rewrite len_nil, for_do_done by lia. unfold print. simpl. by destruct st. }
  pose proof (len_nonneg l). rewrite len_cons in *. rewrite for_do_step by lia.
  pose proof (Hg 0 ltac:(lia)) as H0. rewrite Z.add_0_r, aget_cons_0 in H0. rewrite H0.
  unfold print. cbn [mbind option_bind Print]. change (PutRune x) with (putRune x).
  destruct (putRune x (console st)) as [c|]; [|done]. cbn [mbind option_bind].
  replace (j + (1 + len l)) with (j + 1 + len l) by lia. rewrite IH; [done|].
  intros k Hk. simpl. replace (j + 1 + k) with (j + (1 + k)) by lia. rewrite Hg by lia.
  unfold aget. destruct (Z.leb_spec 0 (1 + k)); [|lia]. destruct (Z.leb_spec 0 k); [|lia].
  by replace (Z.to_nat (1 + k)) with (S (Z.to_nat k)) by lia.
Qed.

(** [write] as a function of the window: the value returned and the bytes printed. *)
Definition write_result (fd a n : Z) (m : memory) : Z * list Z :=
  let n' := Z.min n maxSysWriteBytes in
  if negb (fd =? 1) then (syscallError, [])
  else if validUserRange a n' then (n', user_bytes m a n')
  else (syscallError, []).

Definition write_buffer (fd a n : Z) (m : memory) (dst : list Z) : list Z :=
  let n' := Z.min n maxSysWriteBytes in
  if (fd =? 1) && validUserRange a n' then user_bytes m a n' ++ drop (Z.to_nat n') dst else dst.

Lemma sysWrite_spec fd a n st :
  len (sysWriteBuffer st) = maxSysWriteBytes → in_u64 a → in_u64 n →
  sysWrite fd a n st =
    (st' ← print (write_result fd a n (memory_ st)).2
             (set_buffer (write_buffer fd a n (memory_ st) (sysWriteBuffer st)) st);
     Some ((write_result fd a n (memory_ st)).1, st')).
Proof.
  intros Hl Ha Hn. unfold sysWrite, sysWriteWithCopier, write_result, write_buffer.
  destruct (Z.eqb_spec fd 1) as [->|]; simpl; [|by destruct st].
  destruct (Z.eqb_spec n 0) as [->|Hnz].
  { unfold maxSysWriteBytes. simpl. by destruct st. }
  replace (if maxSysWriteBytes <? n then maxSysWriteBytes else n) with (Z.min n maxSysWriteBytes)
    by (destruct (Z.ltb_spec maxSysWriteBytes n); lia).
  set (n' := Z.min n maxSysWriteBytes). assert (0 ≤ n' ≤ maxSysWriteBytes) as Hn'.
  { unfold n', maxSysWriteBytes in *. lia. }
  destruct (ok_elim _ _ (copyFromUserBytes_spec (sysWriteBuffer st) n' a (memory_ st) Hl Hn' Ha))
    as ([b dst] & E & -> & Hdl & Hdst). rewrite E. simpl.
  destruct (validUserRange a n'); simpl; [|by subst dst; destruct st].
  assert (len (user_bytes (memory_ st) a n') = n') as Hub by (unfold user_bytes; by rewrite len_fmap_seqZ by lia).
  assert (dst = user_bytes (memory_ st) a n' ++ drop (Z.to_nat n') (sysWriteBuffer st)) as Ed.
  { apply alist_eq.
    - rewrite len_app, Hub, Hdl, <-Hl. rewrite !len_length, length_drop.
      rewrite len_length in Hl. unfold maxSysWriteBytes in *. lia.
    - intros i Hi. rewrite Hdst, aget_app, Hub. unfold user_bytes.
      repeat case_decide; try lia.
      + rewrite aget_fmap_seqZ, decide_True by lia. done.
      + rewrite aget_drop by lia. f_equal. lia. }
  rewrite <-Ed. rewrite <-(Z.add_0_l n') at 1. rewrite <-Hub at 1.
  rewrite (print_loop (user_bytes (memory_ st) a n') 0); [done|].
  rewrite Hub. intros k Hk. simpl. rewrite Ed, aget_app, Hub, decide_True by lia. done.
Qed.

(** Two memories a program cannot tell apart. *)
Definition same_window (m m' : memory) : Prop :=
  ∀ b, userVAStart ≤ b < userVAEnd → mread m' b = mread m b.

Lemma user_bytes_window m m' a n :
  in_u64 a → 0 ≤ n < 2 ^ 64 → validUserRange a n = true → same_window m m' →
  user_bytes m' a n = user_bytes m a n.
Proof.
  intros Ha Hn Hv Hw. apply validUserRange_spec in Hv; [|done..].
  apply fmap_seqZ_ext. intros i Hi. apply Hw. lia.
Qed.

Lemma write_window fd a n m m' dst :
  in_u64 a → in_u64 n → same_window m m' →
  write_result fd a n m' = write_result fd a n m ∧
  write_buffer fd a n m' dst = write_buffer fd a n m dst.
Proof.
  intros Ha Hn Hw. unfold write_result, write_buffer. set (n' := Z.min n maxSysWriteBytes).
  assert (0 ≤ n' < 2 ^ 64) as Hn' by (unfold n', maxSysWriteBytes; lia).
  destruct (validUserRange a n') eqn:Hv; rewrite ?andb_false_r; [|done].
  by rewrite !(user_bytes_window m m' a n').
Qed.

Definition set_memory (m : memory) (st : sys_state T) : sys_state T :=
  SysState (sysWriteBuffer st) m (console st).

Lemma print_memory s m st :
  print s (set_memory m st) = (st' ← print s st; Some (set_memory m st')).
Proof. unfold print. simpl. by destruct (Print s (console st)). Qed.

Lemma print_int_memory v m st :
  print_int v (set_memory m st) = (st' ← print_int v st; Some (set_memory m st')).
Proof. unfold print_int. simpl. by destruct (PrintInt v (console st)). Qed.
End write.

Section safety.
Context {T : Type} `{ConsoleLaws T}.
Implicit Types st : sys_state T.

Definition sys_ok st : Prop :=
  len (sysWriteBuffer st) = maxSysWriteBytes ∧ console_ok (console st).

Lemma print_ok s st : sys_ok st → ok (print s st) sys_ok.
Proof.
  intros [Hl Hc]. unfold print. call Print_ok; [done|]. intros c Hc'. by split.
Qed.

Lemma print_int_ok v st : in_i64 v → sys_ok st → ok (print_int v st) sys_ok.
Proof.
  intros Hv [Hl Hc]. unfold print_int. destruct (PrintInt_spec v Hv) as (ds & _ & _ & E). rewrite E.
  call Print_ok; [done|]. intros c Hc'. by split.
Qed.

Lemma i64_range v : in_i64 (i64 v).
Proof. unfold in_i64, i64. pose proof (Z.mod_pos_bound (v + 2 ^ 63) (2 ^ 64)). lia. Qed.

Lemma write_buffer_len fd a n m dst :
  len dst = maxSysWriteBytes → 0 ≤ n → len (write_buffer fd a n m dst) = maxSysWriteBytes.
Proof.
  intros Hl Hn. unfold write_buffer. destruct (_ && _); [|done].
  set (n' := Z.min n maxSysWriteBytes). unfold user_bytes.
  assert (0 ≤ n' ≤ 4096) as Hn' by (unfold n', maxSysWriteBytes; lia).
  rewrite len_app, len_fmap_seqZ by lia. rewrite len_length, length_drop.
  rewrite len_length in Hl. unfold maxSysWriteBytes in *. lia.
Qed.

(** [Dispatch] returns for every trap frame; it changes no register but [RAX], and hands
    control back to the kernel only for an exit from user mode. *)
Lemma Dispatch_ok tf g r st :
  sys_ok st → in_u64 (RSI tf) → in_u64 (RDX tf) →
  ok (Dispatch tf g r st) (λ '(tf', st', b), sys_ok st' ∧ (∃ v, tf' = set_RAX v tf) ∧
    (b = true → u32 (RAX tf) = SysExit ∧ Z.land (CS tf) 3 = 3)).
Proof.
  intros Hok Hsi Hdx. unfold Dispatch.
  destruct (u32 (RAX tf) =? SysWrite).
  { rewrite sysWrite_spec by (done || apply Hok). apply ok_bind. apply ok_bind.
    eapply ok_mono; [apply print_ok|].
    { split; [|apply Hok]. apply write_buffer_len; [apply Hok|lia]. }
    intros st' Hok'. simpl. split; [done|]. split; [by eexists|done]. }
  destruct (Z.eqb_spec (u32 (RAX tf)) SysExit) as [Ee|].
  { destruct (Z.eqb_spec (Z.land (CS tf) 3) 3) as [Ec|].
    - call print_ok; [done|]. intros st1 Hok1. call print_int_ok; [apply i64_range|done|].
      intros st2 Hok2. call print_ok; [done|]. intros st3 Hok3. simpl.
      split; [done|]. split; [exists (RAX tf); by destruct tf|done].
    - call print_ok; [done|]. intros st1 Hok1. call print_int_ok; [apply i64_range|done|].
      intros st2 Hok2. call print_ok; [done|]. intros st3 Hok3. simpl.
      split; [done|]. split; [by eexists|done]. }
  destruct (_ =? SysGetTicks).
  { destruct g; simpl; (split; [done|]); (split; [by eexists|done]). }
  call print_ok; [done|]. intros st1 Hok1. simpl. split; [done|]. split; [by eexists|done].
Qed.

Lemma Dispatch_isolated tf g r st m' :
  len (sysWriteBuffer st) = maxSysWriteBytes → in_u64 (RSI tf) → in_u64 (RDX tf) →
  same_window (memory_ st) m' →
  Dispatch tf g r (set_memory m' st) =
  (x ← Dispatch tf g r st; let '(tf', st', b) := x in Some (tf', set_memory m' st', b)).
Proof.
  intros Hl Hsi Hdx Hw. unfold Dispatch.
  destruct (u32 (RAX tf) =? SysWrite).
  { rewrite !sysWrite_spec by done. simpl.
    destruct (write_window (RDI tf) (RSI tf) (RDX tf) (memory_ st) m' (sysWriteBuffer st) Hsi Hdx Hw) as [-> ->].
    change (set_buffer ?b (set_memory m' st)) with (set_memory m' (set_buffer b st)).
    rewrite print_memory. by destruct (print _ (set_buffer _ st)). }
  destruct (u32 (RAX tf) =? SysExit).
  { destruct (Z.land (CS tf) 3 =? 3); rewrite print_memory;
      destruct (print _ st) as [st1|]; try done; cbn [mbind option_bind]; rewrite print_int_memory;
      destruct (print_int _ st1) as [st2|]; try done; cbn [mbind option_bind]; rewrite print_memory;
      by destruct (print _ st2). }
  destruct (_ =? SysGetTicks); [by destruct g|].
  rewrite print_memory. by destruct (print _ st).
Qed.
End safety.

(** ** Properties *)

(** C18: a system call cannot read memory outside the user window: replace everything
    outside [userVAStart, userVAEnd) by anything else, and the call returns the same
    registers, prints the same output and leaves the same kernel buffer. *)
Theorem syscall_isolation `{!Console T} (tf : TrapFrame) (g : option Z) (r : bool)
    (st : sys_state T) (m' : memory)
    (Hbuf : len (sysWriteBuffer st) = maxSysWriteBytes)
    (Hsi : in_u64 (RSI tf)) (Hdx : in_u64 (RDX tf)) (Hw : same_window (memory_ st) m') :
  Dispatch tf g r (set_memory m' st) =
  (x ← Dispatch tf g r st; let '(tf', st', b) := x in Some (tf', set_memory m' st', b)).
Proof. by apply Dispatch_isolated. Qed.

(** C34: [write] prints exactly what the program passed: for file descriptor 1 and a
    range inside the user window, the first 4096 bytes at most are printed in order and
    their number is returned; for any other descriptor or range nothing is printed and
    the error value is returned. *)
Theorem syscall_write `{!Console T} (tf : TrapFrame) (g : option Z) (r : bool) (st : sys_state T)
    (Hnr : u32 (RAX tf) = SysWrite) (Hbuf : len (sysWriteBuffer st) = maxSysWriteBytes)
    (Hsi : in_u64 (RSI tf)) (Hdx : in_u64 (RDX tf)) :
  let n := Z.min (RDX tf) maxSysWriteBytes in
  let accepted := RDI tf = 1 ∧ (n = 0 ∨ userVAStart ≤ RSI tf ∧ RSI tf + n ≤ userVAEnd) in
  ∃ buf, Dispatch tf g r st =
    (c ← Print (if decide accepted then user_bytes (memory_ st) (RSI tf) n else []) (console st);
     Some (set_RAX (if decide accepted then n else syscallError) tf,
           SysState buf (memory_ st) c, false)).
Proof.
  intros n accepted. unfold Dispatch. rewrite Hnr. simpl. rewrite sysWrite_spec by done.
  assert (write_result (RDI tf) (RSI tf) (RDX tf) (memory_ st) =
    if decide accepted then (n, user_bytes (memory_ st) (RSI tf) n) else (syscallError, [])) as ->.
  { unfold write_result. fold n. assert (in_u64 n) as Hn by (unfold n, maxSysWriteBytes; lia).
    pose proof (validUserRange_spec (RSI tf) n Hsi Hn) as Hv. unfold accepted.
    destruct (Z.eqb_spec (RDI tf) 1); simpl; [|by rewrite decide_False by tauto].
    destruct (validUserRange (RSI tf) n); [rewrite decide_True|rewrite decide_False]; try done;
      [split; [done|by apply Hv]|]. intros [_ E]. by apply Hv in E. }
  eexists. destruct (decide accepted); simpl; unfold print; simpl;
    match goal with |- context [Print ?s ?c] => destruct (Print s c); done | _ => reflexivity end.
Qed.

(** Every system call returns to its caller, whatever the registers hold: only [RAX]
    changes, and the kernel is re-entered only by an exit request from user mode. *)
Theorem syscall_total `{ConsoleLaws T} (tf : TrapFrame) (g : option Z) (r : bool) (st : sys_state T)
    (Hok : sys_ok st) (Hsi : in_u64 (RSI tf)) (Hdx : in_u64 (RDX tf)) :
  ∃ v st' b, Dispatch tf g r st = Some (set_RAX v tf, st', b) ∧ sys_ok st' ∧
    (b = true → u32 (RAX tf) = SysExit ∧ Z.land (CS tf) 3 = 3).
Proof.
  destruct (ok_elim _ _ (Dispatch_ok tf g r st Hok Hsi Hdx)) as ([[tf' st'] b] & E & Hok' & (v & ->) & Hb).
  by exists v, st', b.
Qed.

(** *** Witnesses *)
Definition demo_frame : TrapFrame :=
  MkTrapFrame 0 0 0 0 0 0 0 0 1 0x40000000 0 0 2 0 1 0 0x40000010 0x1B 0x202 0x40001FF0 0x23.
Definition demo_user : memory := mwrite (mwrite ∅ 0x40000000 104) 0x40000001 105.
Definition demo_sys : sys_state (list Z) := SysState (replicate 4096 0) demo_user [].

Lemma demo_buffer_len : len (sysWriteBuffer demo_sys) = maxSysWriteBytes.
Proof. apply (len_replicate 4096). Qed.

Lemma demo_same_window : same_window (memory_ demo_sys) (mwrite demo_user 0x200000 42).
Proof.
  intros b Hb. unfold userVAStart, userVAEnd in Hb. apply mread_mwrite_ne. lia.
Qed.

Lemma syscall_isolation_witness :
  Dispatch demo_frame None true (set_memory (mwrite demo_user 0x200000 42) demo_sys) =
  (x ← Dispatch demo_frame None true demo_sys;
   let '(tf', st', b) := x in Some (tf', set_memory (mwrite demo_user 0x200000 42) st', b)).
Proof.
  apply (syscall_isolation demo_frame None true demo_sys (mwrite demo_user 0x200000 42) demo_buffer_len);
    [simpl; lia|simpl; lia|apply demo_same_window].
Defined.

Lemma syscall_write_witness :
  let n := Z.min (RDX demo_frame) maxSysWriteBytes in
  let accepted := RDI demo_frame = 1 ∧ (n = 0 ∨ userVAStart ≤ RSI demo_frame ∧ RSI demo_frame + n ≤ userVAEnd) in
  ∃ buf, Dispatch demo_frame None true demo_sys =
    (c ← Print (if decide accepted then user_bytes (memory_ demo_sys) (RSI demo_frame) n else []) (console demo_sys);
     Some (set_RAX (if decide accepted then n else syscallError) demo_frame,
           SysState buf (memory_ demo_sys) c, false)).
Proof.
  apply (syscall_write demo_frame None true demo_sys eq_refl demo_buffer_len); simpl; lia.
Defined.

Lemma syscall_total_witness :
  ∃ v st' b, Dispatch demo_frame None true demo_sys = Some (set_RAX v demo_frame, st', b) ∧ sys_ok st' ∧
    (b = true → u32 (RAX demo_frame) = SysExit ∧ Z.land (CS demo_frame) 3 = 3).
Proof.
  apply (syscall_total demo_frame None true demo_sys); [split; [apply demo_buffer_len|exact I]|simpl; lia|simpl; lia].
Defined.

(** The selectors a SYSRET loads from the STAR register: the code segment is the user's,
    the stack segment (base + 8) is not. *)
Example star_selectors :
  let star := STARValue kernelCodeSelector userCodeSelector in
  Z.land (Z.shiftr star 32) 0xFFFF = kernelCodeSelector ∧
  Z.lor (Z.shiftr star 48 + 16) 3 = userCodeSelector ∧
  Z.lor (Z.shiftr star 48 + 8) 3 ≠ userDataSelector.
Proof. vm_compute. done. Qed.
