(* ===== verification/AgentTypes.v ===== *)
(** * Package [agent]: the data model

    [src/agent/types.go] and the host-side names of [src/agent/types_host.go].  Every
    enumeration of the package is a [uint8]; its type here has the source's constants as
    constructors and one more for the values the source gives no name. *)
From S2P Require Import Prelude.
Local Open Scope Z_scope.

Definition MaxActions : Z := 4.
Definition MaxTraceEntries : Z := 8.
Definition MaxNameLen : Z := 16.
Definition MaxDataLen : Z := 128.
Definition MaxRecentItems : Z := 4.
Definition MaxContextInput : Z := 128.

(** ** Enumerations *)
Inductive PlannerMode :=
  | PlannerModeDeterministic
  | PlannerModeLLM
  | PlannerModeOther (v : Z).

Inductive IntentKind :=
  | IntentUnknown
  | IntentListFiles
  | IntentReadFile
  | IntentWriteFile
  | IntentDeleteFile
  | IntentStatFile
  | IntentShowHelp
  | IntentShowHistory
  | IntentShowVersion
  | IntentShowTicks
  | IntentShowMemoryMap
  | IntentSetMode
  | IntentOther (v : Z).

Inductive ActionKind :=
  | ActionUnknown
  | ActionListFiles
  | ActionReadFile
  | ActionWriteFile
  | ActionDeleteFile
  | ActionStatFile
  | ActionShowHelp
  | ActionShowHistory
  | ActionShowVersion
  | ActionShowTicks
  | ActionShowMemoryMap
  | ActionSetMode
  | ActionOther (v : Z).

Definition ActionNone : ActionKind := ActionUnknown.

Inductive RiskLevel :=
  | RiskSafe
  | RiskRisky
  | RiskOther (v : Z).

Inductive SafetyStatus :=
  | SafetyRejected
  | SafetyAllowed
  | SafetyConfirmationRequired
  | SafetyOther (v : Z).

Inductive MessageKind :=
  | MessageNone
  | MessagePlannerFailed
  | MessagePlannerMissing
  | MessageValidationFailed
  | MessagePlanHasNoActions
  | MessagePlanHasTooManyActions
  | MessagePlanContainsUnsupportedAction
  | MessageActionRiskInvalid
  | MessageActionTargetInvalid
  | MessageActionDataInvalid
  | MessageConfirmationRequired
  | MessageActionCancelled
  | MessageExecutorNotConfigured
  | MessageExecutorMissing
  | MessageUnsupportedAction
  | MessageActionUnavailable
  | MessageNoResult
  | MessageCompletedPlan
  | MessageOK
  | MessageFilesListed
  | MessageNoFiles
  | MessageFileRead
  | MessageFileStat
  | MessageMissingFile
  | MessageFileNotFound
  | MessageAgentHelp
  | MessageHistoryListed
  | MessageVersionShown
  | MessageTicksShown
  | MessageMemoryMapShown
  | MessageDeterministicMode
  | MessageLLMMode
  | MessagePlannerSwitchedDeterministic
  | MessagePlannerSwitchedLLM
  | MessageLLMModeNotConfigured
  | MessageUnsupportedMode
  | MessageReadFailed
  | MessageHelp
  | MessageOne
  | MessageTwo
  | MessageLLMBridgeNotConfigured
  | MessageLLMBridgeFailed
  | MessageBridgeTimeout
  | MessageOther (v : Z).

Inductive TraceKind :=
  | TraceNone
  | TracePlanner
  | TraceIntent
  | TraceValidation
  | TraceSafety
  | TraceExecutor
  | TraceFormatter
  | TraceOther (v : Z).

Inductive TraceDetail :=
  | TraceDetailNone
  | TraceDetailMissing
  | TraceDetailFailed
  | TraceDetailOK
  | TraceDetailAllowed
  | TraceDetailRejected
  | TraceDetailConfirmationRequired
  | TraceDetailSuccess
  | TraceDetailStructured
  | TraceDetailDeterministic
  | TraceDetailLLM
  | TraceDetailListFiles
  | TraceDetailReadFile
  | TraceDetailWriteFile
  | TraceDetailDeleteFile
  | TraceDetailStatFile
  | TraceDetailShowHelp
  | TraceDetailShowHistory
  | TraceDetailShowVersion
  | TraceDetailShowTicks
  | TraceDetailShowMemoryMap
  | TraceDetailSetMode
  | TraceDetailOther (v : Z).

#[export] Instance PlannerMode_eq_dec : EqDecision PlannerMode.
Proof. solve_decision. Defined.
#[export] Instance IntentKind_eq_dec : EqDecision IntentKind.
Proof. solve_decision. Defined.
#[export] Instance ActionKind_eq_dec : EqDecision ActionKind.
Proof. solve_decision. Defined.
#[export] Instance RiskLevel_eq_dec : EqDecision RiskLevel.
Proof. solve_decision. Defined.
#[export] Instance MessageKind_eq_dec : EqDecision MessageKind.
Proof. solve_decision. Defined.
#[export] Instance SafetyStatus_eq_dec : EqDecision SafetyStatus.
Proof. solve_decision. Defined.

Definition Valid (k : ActionKind) : bool :=
  match k with
  | ActionListFiles | ActionReadFile | ActionWriteFile | ActionStatFile | ActionShowHelp
  | ActionShowHistory | ActionShowVersion | ActionShowTicks | ActionShowMemoryMap
  | ActionSetMode | ActionDeleteFile => true
  | _ => false
  end.

Definition ExpectedRisk (k : ActionKind) : RiskLevel :=
  if decide (k = ActionDeleteFile ∨ k = ActionWriteFile) then RiskRisky else RiskSafe.

(** ** Structs *)
Record Action := MkAction {
  act_Kind : ActionKind;
  act_Risk : RiskLevel;
  act_Target : list Z;
  act_TargetLen : Z;
  act_Data : list Z;
  act_DataLen : Z;
}.

Record Plan := MkPlan {
  plan_Planner : PlannerMode;
  plan_Intent : IntentKind;
  plan_Confidence : Z;
  plan_Actions : list Action;
  plan_ActionCount : Z;
}.

Record PlanningResult := MkPlanningResult {
  pr_OK : bool;
  pr_Plan : Plan;
  pr_Reason : MessageKind;
}.

Record ValidationResult := MkValidationResult {
  val_OK : bool;
  val_Reason : MessageKind;
}.

Record SafetyDecision := MkSafetyDecision {
  saf_Status : SafetyStatus;
  saf_Reason : MessageKind;
}.

Record ActionResult := MkActionResult {
  ar_OK : bool;
  ar_Message : MessageKind;
}.

Record TraceEntry := MkTraceEntry {
  tr_Stage : TraceKind;
  tr_Detail : TraceDetail;
}.

Record Response := MkResponse {
  resp_Trace : list TraceEntry;
  resp_TraceCount : Z;
  resp_Result : ActionResult;
  resp_Safety : SafetyDecision;
}.

Record Context := MkContext {
  ctx_CurrentTask : ActionKind;
  ctx_LastInput : list Z;
  ctx_LastInputLen : Z;
  ctx_LastIntent : IntentKind;
  ctx_LastAction : ActionKind;
  ctx_LastResultSummary : MessageKind;
  ctx_RequestCount : Z;
  ctx_PlannerMode : PlannerMode;
  ctx_RecentCount : Z;
  ctx_PendingPlan : Plan;
  ctx_ConfirmationPending : bool;
}.

(** Go's zero values. *)
Definition zero_Action : Action :=
  MkAction ActionUnknown RiskSafe (replicate 16 0) 0 (replicate 128 0) 0.
Definition zero_Plan : Plan :=
  MkPlan PlannerModeDeterministic IntentUnknown 0 (replicate 4 zero_Action) 0.
Definition zero_ActionResult : ActionResult := MkActionResult false MessageNone.
Definition zero_Response : Response :=
  MkResponse (replicate 8 (MkTraceEntry TraceNone TraceDetailNone)) 0 zero_ActionResult
    (MkSafetyDecision SafetyRejected MessageNone).
Definition zero_Context : Context :=
  MkContext ActionUnknown (replicate 128 0) 0 IntentUnknown ActionUnknown MessageNone 0
    PlannerModeDeterministic 0 zero_Plan false.

(** Field updates. *)
Definition set_CurrentTask (k : ActionKind) (c : Context) : Context :=
  MkContext k (ctx_LastInput c) (ctx_LastInputLen c) (ctx_LastIntent c) (ctx_LastAction c)
    (ctx_LastResultSummary c) (ctx_RequestCount c) (ctx_PlannerMode c) (ctx_RecentCount c)
    (ctx_PendingPlan c) (ctx_ConfirmationPending c).
Definition set_Pending (p : Plan) (b : bool) (c : Context) : Context :=
  MkContext (ctx_CurrentTask c) (ctx_LastInput c) (ctx_LastInputLen c) (ctx_LastIntent c)
    (ctx_LastAction c) (ctx_LastResultSummary c) (ctx_RequestCount c) (ctx_PlannerMode c)
    (ctx_RecentCount c) p b.
Definition set_ctx_PlannerMode (m : PlannerMode) (c : Context) : Context :=
  MkContext (ctx_CurrentTask c) (ctx_LastInput c) (ctx_LastInputLen c) (ctx_LastIntent c)
    (ctx_LastAction c) (ctx_LastResultSummary c) (ctx_RequestCount c) m (ctx_RecentCount c)
    (ctx_PendingPlan c) (ctx_ConfirmationPending c).
Definition set_Last (i : IntentKind) (a : ActionKind) (m : MessageKind) (c : Context) : Context :=
  MkContext (ctx_CurrentTask c) (ctx_LastInput c) (ctx_LastInputLen c) i a m
    (ctx_RequestCount c) (ctx_PlannerMode c) (ctx_RecentCount c) (ctx_PendingPlan c)
    (ctx_ConfirmationPending c).

(** ** Methods of [Response] and [Context] *)
Definition AddTrace (r : Response) (stage : TraceKind) (detail : TraceDetail) : option Response :=
  if MaxTraceEntries <=? resp_TraceCount r then Some r
  else
    tr ← aset (resp_Trace r) (resp_TraceCount r) (MkTraceEntry stage detail);
    Some (MkResponse tr (resp_TraceCount r + 1) (resp_Result r) (resp_Safety r)).

(** A [*Context] is [None] when nil; a method returns the struct it leaves behind it. *)
Definition BeginRequest (c : option Context) (input : option (list Z)) (inputLen : Z)
    (planner : PlannerMode) : option (option Context) :=
  match c with
  | None => Some None
  | Some c =>
      let inputLen := if inputLen <? 0 then 0 else inputLen in
      let inputLen := if MaxContextInput <? inputLen then MaxContextInput else inputLen in
      let inputLen := match input with None => 0 | Some _ => inputLen end in
      last ← copy_into (default [] input) 0 inputLen (ctx_LastInput c);
      Some (Some (MkContext ActionNone last inputLen (ctx_LastIntent c) (ctx_LastAction c)
        (ctx_LastResultSummary c) (u64 (ctx_RequestCount c + 1)) planner
        (if ctx_RecentCount c <? MaxRecentItems then ctx_RecentCount c + 1 else ctx_RecentCount c)
        (ctx_PendingPlan c) (ctx_ConfirmationPending c)))
  end.

Definition Remember (c : option Context) (intent : IntentKind) : option Context :=
  match c with
  | None => None
  | Some c =>
      Some (MkContext (ctx_CurrentTask c) (ctx_LastInput c) (ctx_LastInputLen c) intent
        (ctx_LastAction c) (ctx_LastResultSummary c) (ctx_RequestCount c) (ctx_PlannerMode c)
        (if ctx_RecentCount c <? MaxRecentItems then ctx_RecentCount c + 1 else ctx_RecentCount c)
        (ctx_PendingPlan c) (ctx_ConfirmationPending c))
  end.

Definition BeginStringRequest (c : Context) (input : list Z) (planner : PlannerMode)
    : option (option Context) :=
  let inputLen := if MaxContextInput <? len input then MaxContextInput else len input in
  request ← copy_into input 0 inputLen (replicate 128 0);
  BeginRequest (Some c) (Some request) inputLen planner.

(** ** types_host.go: names *)
Definition stringUnknown : list Z := gs "unknown".
Definition stringDeterministic : list Z := gs "deterministic".
Definition stringLLM : list Z := gs "llm".
Definition stringListFiles : list Z := gs "list_files".
Definition stringReadFile : list Z := gs "read_file".
Definition stringWriteFile : list Z := gs "write_file".
Definition stringDeleteFile : list Z := gs "delete_file".
Definition stringStatFile : list Z := gs "stat_file".
Definition stringShowHelp : list Z := gs "show_help".
Definition stringShowHistory : list Z := gs "show_history".
Definition stringShowVersion : list Z := gs "show_version".
Definition stringShowTicks : list Z := gs "show_ticks".
Definition stringShowMemoryMap : list Z := gs "show_memory_map".
Definition stringSetMode : list Z := gs "set_mode".
Definition stringAllowed : list Z := gs "allowed".
Definition stringConfirmationRequired : list Z := gs "confirmation_required".
Definition stringRejected : list Z := gs "rejected".
Definition errLLMBridgeNotConfigured : list Z := gs "agent: llm bridge not configured".

Definition lines (l : list string) : list Z :=
  match gs <$> l with
  | [] => []
  | x :: r => x ++ mjoin ((λ y, 10 :: y) <$> r)
  end.

Definition agent_help : list Z :=
  lines [ "Agent commands:";
          "  agent show files    - Show files managed by the agent";
          "  agent show history  - Show command history stored by the agent";
          "  agent show version  - Show OS version through the agent";
          "  agent show ticks    - Show PIT ticks through the agent";
          "  agent show memorymap - Show memory map through the agent";
          "  agent read <name>   - Read a file through the agent";
          "  agent stat <name>   - Show file metadata through the agent";
          "  agent delete <name> - Delete a file after confirmation";
          "  agent mode [mode]   - Show or switch agent mode";
          "  agent transport ping - Probe the guest-host transport";
          "  agent context       - Show current agent context";
          "  agent help          - Show agent commands" ].

Definition PlannerMode_String (m : PlannerMode) : list Z :=
  match m with
  | PlannerModeDeterministic => stringDeterministic
  | PlannerModeLLM => stringLLM
  | _ => stringUnknown
  end.

Definition IntentKind_String (i : IntentKind) : list Z :=
  match i with
  | IntentListFiles => stringListFiles
  | IntentReadFile => stringReadFile
  | IntentWriteFile => stringWriteFile
  | IntentDeleteFile => stringDeleteFile
  | IntentStatFile => stringStatFile
  | IntentShowHelp => stringShowHelp
  | IntentShowHistory => stringShowHistory
  | IntentShowVersion => stringShowVersion
  | IntentShowTicks => stringShowTicks
  | IntentShowMemoryMap => stringShowMemoryMap
  | IntentSetMode => stringSetMode
  | _ => stringUnknown
  end.

Definition ActionKind_String (k : ActionKind) : list Z :=
  match k with
  | ActionListFiles => stringListFiles
  | ActionReadFile => stringReadFile
  | ActionWriteFile => stringWriteFile
  | ActionDeleteFile => stringDeleteFile
  | ActionStatFile => stringStatFile
  | ActionShowHelp => stringShowHelp
  | ActionShowHistory => stringShowHistory
  | ActionShowVersion => stringShowVersion
  | ActionShowTicks => stringShowTicks
  | ActionShowMemoryMap => stringShowMemoryMap
  | ActionSetMode => stringSetMode
  | _ => stringUnknown
  end.

Definition RiskLevel_String (r : RiskLevel) : list Z :=
  match r with
  | RiskRisky => gs "risky"
  | _ => gs "safe"
  end.

Definition SafetyStatus_String (s : SafetyStatus) : list Z :=
  match s with
  | SafetyAllowed => stringAllowed
  | SafetyConfirmationRequired => stringConfirmationRequired
  | _ => stringRejected
  end.

Definition MessageKind_String (m : MessageKind) : list Z :=
  match m with
  | MessagePlannerFailed => gs "agent: planner failed"
  | MessagePlannerMissing => gs "planner_missing"
  | MessageValidationFailed => gs "validation_failed"
  | MessagePlanHasNoActions => gs "agent: plan has no actions"
  | MessagePlanHasTooManyActions => gs "agent: plan has too many actions"
  | MessagePlanContainsUnsupportedAction => gs "agent: plan contains unsupported action"
  | MessageActionRiskInvalid => gs "agent: action risk is invalid"
  | MessageActionTargetInvalid => gs "agent: action target is invalid"
  | MessageActionDataInvalid => gs "agent: action data is invalid"
  | MessageConfirmationRequired => gs "agent: confirmation required"
  | MessageActionCancelled => gs "agent: action cancelled"
  | MessageExecutorNotConfigured => gs "agent: executor not configured"
  | MessageExecutorMissing => gs "missing"
  | MessageUnsupportedAction => gs "agent: unsupported action"
  | MessageActionUnavailable => gs "agent: action unavailable"
  | MessageNoResult => gs "agent: no result"
  | MessageCompletedPlan => gs "agent: completed plan"
  | MessageOK => gs "ok"
  | MessageFilesListed => gs "agent: files listed"
  | MessageNoFiles => gs "agent: no files"
  | MessageFileRead => gs "agent: file read"
  | MessageFileStat => gs "agent: file stat"
  | MessageMissingFile => gs "agent: missing file"
  | MessageFileNotFound => gs "agent: file not found"
  | MessageAgentHelp => agent_help
  | MessageHistoryListed => gs "agent: history listed"
  | MessageVersionShown => gs "agent: version shown"
  | MessageTicksShown => gs "agent: ticks shown"
  | MessageMemoryMapShown => gs "agent: memory map shown"
  | MessageDeterministicMode => gs "Current planner: deterministic"
  | MessageLLMMode => gs "Current planner: llm"
  | MessagePlannerSwitchedDeterministic => gs "Planner switched to: deterministic"
  | MessagePlannerSwitchedLLM => gs "Planner switched to: llm"
  | MessageLLMModeNotConfigured => gs "agent: llm bridge unavailable"
  | MessageUnsupportedMode => gs "agent: unsupported mode"
  | MessageReadFailed => gs "read failed"
  | MessageHelp => gs "help"
  | MessageOne => gs "one"
  | MessageTwo => gs "two"
  | MessageLLMBridgeNotConfigured => errLLMBridgeNotConfigured
  | MessageLLMBridgeFailed => gs "agent: llm bridge failed"
  | MessageBridgeTimeout => gs "bridge timeout"
  | _ => []
  end.

Definition TraceKind_String (t : TraceKind) : list Z :=
  match t with
  | TracePlanner => gs "Planner"
  | TraceIntent => gs "Intent"
  | TraceValidation => gs "Validation"
  | TraceSafety => gs "Safety"
  | TraceExecutor => gs "Executor"
  | TraceFormatter => gs "Formatter"
  | _ => []
  end.

Definition TraceDetail_String (d : TraceDetail) : list Z :=
  match d with
  | TraceDetailMissing => gs "missing"
  | TraceDetailFailed => gs "failed"
  | TraceDetailOK => gs "ok"
  | TraceDetailAllowed => stringAllowed
  | TraceDetailRejected => stringRejected
  | TraceDetailConfirmationRequired => stringConfirmationRequired
  | TraceDetailSuccess => gs "success"
  | TraceDetailStructured => gs "structured"
  | TraceDetailDeterministic => stringDeterministic
  | TraceDetailLLM => stringLLM
  | TraceDetailListFiles => stringListFiles
  | TraceDetailReadFile => stringReadFile
  | TraceDetailWriteFile => stringWriteFile
  | TraceDetailDeleteFile => stringDeleteFile
  | TraceDetailStatFile => stringStatFile
  | TraceDetailShowHelp => stringShowHelp
  | TraceDetailShowHistory => stringShowHistory
  | TraceDetailShowVersion => stringShowVersion
  | TraceDetailShowTicks => stringShowTicks
  | TraceDetailShowMemoryMap => stringShowMemoryMap
  | TraceDetailSetMode => stringSetMode
  | _ => []
  end.


(** Corresponding intents and actions have the same name. *)
Lemma intent_action_names i k :
  match i, k with
  | IntentListFiles, ActionListFiles | IntentReadFile, ActionReadFile
  | IntentWriteFile, ActionWriteFile | IntentDeleteFile, ActionDeleteFile
  | IntentStatFile, ActionStatFile | IntentShowHelp, ActionShowHelp
  | IntentShowHistory, ActionShowHistory | IntentShowVersion, ActionShowVersion
  | IntentShowTicks, ActionShowTicks | IntentShowMemoryMap, ActionShowMemoryMap
  | IntentSetMode, ActionSetMode | IntentUnknown, ActionUnknown => True
  | _, _ => False
  end → IntentKind_String i = ActionKind_String k.
Proof. by destruct i, k. Qed.
