(* ===== verification/Agent.v ===== *)
(** * Package [agent]: planners, safety gate and executor

    [src/agent/executor.go], [runtime.go], [runtime_host.go], [planner.go],
    [planner_host.go], [planner_impl_host.go], [planner_llm.go], [defaults_host.go].
    The handlers act on a world [W] that the package does not look into; handlers and
    planners receive the [*Context] and return what they leave in it. *)
From S2P Require Import Prelude AgentTypes.
Local Open Scope Z_scope.

(** ** planner.go *)
Definition singleActionPlan (mode : PlannerMode) (intent : IntentKind) (actionKind : ActionKind)
    (risk : RiskLevel) : Plan :=
  MkPlan mode intent 100
    (MkAction actionKind risk (replicate 16 0) 0 (replicate 128 0) 0 :: replicate 3 zero_Action) 1.

(** [plan.Actions[0].Target = target; plan.Actions[0].TargetLen = n]. *)
Definition set_target (target : list Z) (n : Z) (plan : Plan) : option Plan :=
  a ← aget (plan_Actions plan) 0;
  acts ← aset (plan_Actions plan) 0
    (MkAction (act_Kind a) (act_Risk a) target n (act_Data a) (act_DataLen a));
  Some (MkPlan (plan_Planner plan) (plan_Intent plan) (plan_Confidence plan) acts
    (plan_ActionCount plan)).

(** ** runtime.go: checks that need no executor *)
Definition setResponseResult (response : Response) (ok : bool) (message : MessageKind) : Response :=
  MkResponse (resp_Trace response) (resp_TraceCount response) (MkActionResult ok message)
    (resp_Safety response).

Definition setSafety (response : Response) (status : SafetyStatus) (reason : MessageKind) : Response :=
  MkResponse (resp_Trace response) (resp_TraceCount response) (resp_Result response)
    (MkSafetyDecision status reason).

Definition finishPlanContext (response : Response) (context : option Context) (plan : Plan)
    : option (Response * option Context) :=
  match context with
  | None => Some (response, None)
  | Some c =>
      last ←
        (if 0 <? plan_ActionCount plan then
           let actionIndex := plan_ActionCount plan - 1 in
           let actionIndex := if MaxActions <=? actionIndex then MaxActions - 1 else actionIndex in
           a ← aget (plan_Actions plan) actionIndex; Some (act_Kind a)
         else Some ActionNone);
      let c := set_Last (plan_Intent plan) last (ar_Message (resp_Result response)) c in
      let c := if decide (last = ActionSetMode) then c else set_ctx_PlannerMode (plan_Planner plan) c in
      let c := if decide (saf_Status (resp_Safety response) = SafetyConfirmationRequired) then c
               else set_CurrentTask ActionNone c in
      Some (response, Some c)
  end.

Definition allowedPlanAction (kind : ActionKind) : bool :=
  match kind with
  | ActionListFiles | ActionReadFile | ActionDeleteFile | ActionStatFile | ActionShowHelp
  | ActionShowHistory | ActionShowVersion | ActionShowTicks | ActionShowMemoryMap
  | ActionSetMode => true
  | _ => false
  end.

Definition actionRequiresTarget (kind : ActionKind) : bool :=
  match kind with
  | ActionReadFile | ActionDeleteFile | ActionStatFile => true
  | _ => false
  end.

Definition actionRisk (kind : ActionKind) : RiskLevel :=
  if decide (kind = ActionDeleteFile) then RiskRisky else RiskSafe.

Definition validRiskLevel (risk : RiskLevel) : bool :=
  match risk with RiskSafe | RiskRisky => true | _ => false end.

(** The body of [validatePlan]'s loop: the reason to reject [action], if any. *)
Definition check_action (planner : PlannerMode) (action : Action) : option MessageKind :=
  if negb (Valid (act_Kind action))
     || bool_decide (planner = PlannerModeLLM) && negb (allowedPlanAction (act_Kind action))
  then Some MessagePlanContainsUnsupportedAction
  else if negb (validRiskLevel (act_Risk action)) then Some MessageActionRiskInvalid
  else if (act_TargetLen action <? 0) || (MaxNameLen <? act_TargetLen action)
  then Some MessageActionTargetInvalid
  else if (act_DataLen action <? 0) || (MaxDataLen <? act_DataLen action)
  then Some MessageActionDataInvalid
  else if negb (act_DataLen action =? 0) then Some MessageActionDataInvalid
  else if actionRequiresTarget (act_Kind action) && (act_TargetLen action =? 0)
  then Some MessageActionTargetInvalid
  else if bool_decide (planner = PlannerModeLLM)
          && bool_decide (actionRisk (act_Kind action) ≠ act_Risk action)
  then Some MessageActionRiskInvalid
  else None.

Definition validatePlan (plan : Plan) : option ValidationResult :=
  if plan_ActionCount plan <=? 0 then Some (MkValidationResult false MessagePlanHasNoActions)
  else if MaxActions <? plan_ActionCount plan
  then Some (MkValidationResult false MessagePlanHasTooManyActions)
  else
    loop_end
      (for_range 0 (plan_ActionCount plan)
         (λ i (_ : unit), action ← aget (plan_Actions plan) i;
            match check_action (plan_Planner plan) action with
            | Some reason => Some (inr (MkValidationResult false reason))
            | None => Some (inl tt)
            end) tt)
      (λ _, Some (MkValidationResult true MessageOK)).

(** Returns the context too: a risky plan that waits for the user is stored in it. *)
Definition evaluateSafetyWithConfirmation (plan : Plan) (context : option Context) (confirmed : bool)
    : option (SafetyDecision * option Context) :=
  loop_end
    (for_range 0 (plan_ActionCount plan)
       (λ i (_ : unit), action ← aget (plan_Actions plan) i;
          if decide (act_Risk action = RiskRisky) then
            if confirmed then Some (inr (MkSafetyDecision SafetyAllowed MessageOK, context))
            else Some (inr (MkSafetyDecision SafetyConfirmationRequired MessageConfirmationRequired,
                            set_Pending plan true <$> context))
          else Some (inl tt)) tt)
    (λ _, Some (MkSafetyDecision SafetyAllowed MessageOK, context)).

Definition evaluateSafety (plan : Plan) (context : option Context)
    : option (SafetyDecision * option Context) :=
  evaluateSafetyWithConfirmation plan context false.

Definition formatResult (results : list ActionResult) (resultCount : Z) : option ActionResult :=
  if resultCount <=? 0 then Some (MkActionResult false MessageNoResult)
  else if resultCount =? 1 then aget results 0
  else Some (MkActionResult true MessageCompletedPlan).

Definition plannerTrace (mode : PlannerMode) : TraceDetail :=
  if decide (mode = PlannerModeLLM) then TraceDetailLLM else TraceDetailDeterministic.

Definition intentTrace (intent : IntentKind) : TraceDetail :=
  match intent with
  | IntentListFiles => TraceDetailListFiles
  | IntentReadFile => TraceDetailReadFile
  | IntentWriteFile => TraceDetailWriteFile
  | IntentDeleteFile => TraceDetailDeleteFile
  | IntentStatFile => TraceDetailStatFile
  | IntentShowHelp => TraceDetailShowHelp
  | IntentShowHistory => TraceDetailShowHistory
  | IntentShowVersion => TraceDetailShowVersion
  | IntentShowTicks => TraceDetailShowTicks
  | IntentShowMemoryMap => TraceDetailShowMemoryMap
  | IntentSetMode => TraceDetailSetMode
  | _ => TraceDetailNone
  end.

Definition safetyTrace (status : SafetyStatus) : TraceDetail :=
  match status with
  | SafetyAllowed => TraceDetailAllowed
  | SafetyConfirmationRequired => TraceDetailConfirmationRequired
  | _ => TraceDetailRejected
  end.

Definition traceFromMessage (message : MessageKind) : TraceDetail :=
  match message with MessageOK => TraceDetailOK | _ => TraceDetailFailed end.

(** ** executor.go and runtime.go *)
Section runtime.
Context {W : Type}.

(** A handler that panics is [None]. *)
Definition ActionHandler : Type :=
  Action → option Context → W → option (ActionResult * option Context * W).

(** A nil handler is [None]. *)
Record AllowedActionExecutor := MkExecutor {
  ex_ListFiles : option ActionHandler;
  ex_ReadFile : option ActionHandler;
  ex_WriteFile : option ActionHandler;
  ex_DeleteFile : option ActionHandler;
  ex_StatFile : option ActionHandler;
  ex_ShowHelp : option ActionHandler;
  ex_ShowHistory : option ActionHandler;
  ex_ShowVersion : option ActionHandler;
  ex_ShowTicks : option ActionHandler;
  ex_ShowMemoryMap : option ActionHandler;
  ex_SetMode : option ActionHandler;
}.

Definition callHandler (handler : option ActionHandler) : ActionHandler := λ action context w,
  match handler with
  | None => Some (MkActionResult false MessageActionUnavailable, context, w)
  | Some h => h action context w
  end.

Definition Execute (e : AllowedActionExecutor) : ActionHandler := λ action context w,
  match act_Kind action with
  | ActionListFiles => callHandler (ex_ListFiles e) action context w
  | ActionReadFile => callHandler (ex_ReadFile e) action context w
  | ActionWriteFile => callHandler (ex_WriteFile e) action context w
  | ActionDeleteFile => callHandler (ex_DeleteFile e) action context w
  | ActionStatFile => callHandler (ex_StatFile e) action context w
  | ActionShowHelp => callHandler (ex_ShowHelp e) action context w
  | ActionShowHistory => callHandler (ex_ShowHistory e) action context w
  | ActionShowVersion => callHandler (ex_ShowVersion e) action context w
  | ActionShowTicks => callHandler (ex_ShowTicks e) action context w
  | ActionShowMemoryMap => callHandler (ex_ShowMemoryMap e) action context w
  | ActionSetMode => callHandler (ex_SetMode e) action context w
  | _ => Some (MkActionResult false MessageUnsupportedAction, context, w)
  end.

Record Runtime := MkRuntime {
  rt_Executor : AllowedActionExecutor;
  rt_ExecutorConfigured : bool;
  rt_plannerMode : PlannerMode;
  rt_llmConfigured : bool;
}.

Definition NewDeterministicAgent (executor : AllowedActionExecutor) : Runtime :=
  MkRuntime
    (MkExecutor (ex_ListFiles executor) (ex_ReadFile executor) (ex_WriteFile executor)
       (ex_DeleteFile executor) (ex_StatFile executor) (ex_ShowHelp executor)
       (ex_ShowHistory executor) (ex_ShowVersion executor) (ex_ShowTicks executor)
       (ex_ShowMemoryMap executor) (ex_SetMode executor))
    true PlannerModeDeterministic false.

Definition CurrentPlanner (r : Runtime) : ActionResult :=
  if decide (rt_plannerMode r = PlannerModeLLM) then MkActionResult true MessageLLMMode
  else MkActionResult true MessageDeterministicMode.

Definition set_plannerMode (m : PlannerMode) (r : Runtime) : Runtime :=
  MkRuntime (rt_Executor r) (rt_ExecutorConfigured r) m (rt_llmConfigured r).

(** A method with a [*Runtime] receiver: [None] is nil. *)
Definition SetPlannerMode (r : option Runtime) (mode : PlannerMode) : ActionResult * option Runtime :=
  match r with
  | None => (MkActionResult false MessagePlannerMissing, None)
  | Some r =>
      match mode with
      | PlannerModeDeterministic =>
          (MkActionResult true MessagePlannerSwitchedDeterministic,
           Some (set_plannerMode PlannerModeDeterministic r))
      | PlannerModeLLM =>
          if negb (rt_llmConfigured r) then (MkActionResult false MessageLLMModeNotConfigured, Some r)
          else (MkActionResult true MessagePlannerSwitchedLLM, Some (set_plannerMode PlannerModeLLM r))
      | _ => (MkActionResult false MessageUnsupportedMode, Some r)
      end
  end.

Definition CopyPlannerConfiguration (r source : option Runtime) : option Runtime :=
  match r with
  | None => None
  | Some r =>
      match source with
      | None =>
          Some (MkRuntime (rt_Executor r) (rt_ExecutorConfigured r) PlannerModeDeterministic false)
      | Some s =>
          Some (MkRuntime (rt_Executor r) (rt_ExecutorConfigured r) (rt_plannerMode s)
                  (rt_llmConfigured s))
      end
  end.

(** What a request leaves behind: the response, the context and the world. *)
Abbreviation outcome := (Response * option Context * W)%type.

Definition finish (response : Response) (context : option Context) (plan : Plan) (w : W)
    : option outcome :=
  '(response, context) ← finishPlanContext response context plan; Some (response, context, w).

(** One round of the loop over the actions: goes on with the results so far, the context
    and the world, or leaves with the outcome of the action that failed. *)
Definition run_step (r : Runtime) (plan : Plan) (response : Response) (i : Z)
    (s : list ActionResult * option Context * W)
    : option (list ActionResult * option Context * W + outcome) :=
  let '(results, context, w) := s in
  action ← aget (plan_Actions plan) i;
  let context := set_CurrentTask (act_Kind action) <$> context in
  '(res, context, w) ← Execute (rt_Executor r) action context w;
  results ← aset results i res;
  if negb (ar_OK res) then
    response ← AddTrace response TraceExecutor TraceDetailFailed;
    let response := setResponseResult response (ar_OK res) (ar_Message res) in
    o ← finish response context plan w;
    Some (inr o)
  else Some (inl (results, context, w)).

Definition run_actions (r : Runtime) (plan : Plan) (response : Response) (context : option Context)
    (w : W) : option (list ActionResult * option Context * W + outcome) :=
  for_range 0 (plan_ActionCount plan) (run_step r plan response)
    (replicate 4 zero_ActionResult, context, w).

(** After the last action: format the results. *)
Definition run_done (plan : Plan) (response : Response)
    (s : list ActionResult * option Context * W) : option outcome :=
  let '(results, context, w) := s in
  response ← AddTrace response TraceExecutor TraceDetailSuccess;
  result ← formatResult results (plan_ActionCount plan);
  let response := setResponseResult response (ar_OK result) (ar_Message result) in
  response ← AddTrace response TraceFormatter TraceDetailStructured;
  finish response context plan w.

Definition runPlanWithConfirmation (r : Runtime) (plan : Plan) (context : option Context)
    (confirmed : bool) (w : W) : option outcome :=
  response ← AddTrace zero_Response TracePlanner (plannerTrace (plan_Planner plan));
  response ← AddTrace response TraceIntent (intentTrace (plan_Intent plan));
  validation ← validatePlan plan;
  if negb (val_OK validation) then
    let response := setResponseResult response false (val_Reason validation) in
    let response := setSafety response SafetyRejected MessageValidationFailed in
    response ← AddTrace response TraceValidation (traceFromMessage (val_Reason validation));
    finish response context plan w
  else
    response ← AddTrace response TraceValidation TraceDetailOK;
    first ← aget (plan_Actions plan) 0;
    let context := set_CurrentTask (act_Kind first) <$> context in
    '(safety, context) ← evaluateSafetyWithConfirmation plan context confirmed;
    let response := setSafety response (saf_Status safety) (saf_Reason safety) in
    response ← AddTrace response TraceSafety (safetyTrace (saf_Status safety));
    if decide (saf_Status safety ≠ SafetyAllowed) then
      finish (setResponseResult response false (saf_Reason safety)) context plan w
    else if negb (rt_ExecutorConfigured r) then
      let response := setResponseResult response false MessageExecutorNotConfigured in
      response ← AddTrace response TraceExecutor TraceDetailMissing;
      finish response context plan w
    else
      loop_end (run_actions r plan response context w) (run_done plan response).

Definition runPlan (r : Runtime) (plan : Plan) (context : option Context) (w : W) : option outcome :=
  runPlanWithConfirmation r plan context false w.

Definition runAction (r : Runtime) (kind : ActionKind) (intent : IntentKind) (risk : RiskLevel)
    (target : option (list Z)) (targetLen : Z) (context : option Context) (w : W) : option outcome :=
  let plan := singleActionPlan (rt_plannerMode r) intent kind risk in
  plan ←
    match target with
    | Some target =>
        if 0 <? targetLen then
          let targetLen := if MaxNameLen <? targetLen then MaxNameLen else targetLen in
          a ← aget (plan_Actions plan) 0;
          name ← copy_into target 0 targetLen (act_Target a);
          set_target name targetLen plan
        else Some plan
    | None => Some plan
    end;
  runPlan r plan context w.

Definition RunAction (r : Runtime) (kind : ActionKind) (intent : IntentKind) (risk : RiskLevel)
    (target : option (list Z)) (targetLen : Z) (context : option Context) (w : W) : option outcome :=
  context ← BeginRequest context None 0 (rt_plannerMode r);
  runAction r kind intent risk target targetLen context w.

Definition RunActionRequest (r : Runtime) (kind : ActionKind) (intent : IntentKind) (risk : RiskLevel)
    (target : option (list Z)) (targetLen : Z) (input : option (list Z)) (inputLen : Z)
    (context : option Context) (w : W) : option outcome :=
  context ← BeginRequest context input inputLen (rt_plannerMode r);
  runAction r kind intent risk target targetLen context w.

Definition RunActionMessage (r : option Runtime) (kind : ActionKind) (intent : IntentKind)
    (risk : RiskLevel) (target : option (list Z)) (targetLen : Z) (context : option Context) (w : W)
    : option (MessageKind * option Context * W) :=
  match r with
  | None => Some (MessageExecutorNotConfigured, context, w)
  | Some r =>
      if (targetLen <? 0) || (MaxNameLen <? targetLen)
      then Some (MessageActionTargetInvalid, context, w)
      else
        '(resp, context, w) ← RunAction r kind intent risk target targetLen context w;
        Some (ar_Message (resp_Result resp), context, w)
  end.

Definition RunActionRequestMessage (r : option Runtime) (kind : ActionKind) (intent : IntentKind)
    (risk : RiskLevel) (target : option (list Z)) (targetLen : Z) (input : option (list Z))
    (inputLen : Z) (context : option Context) (w : W) : option (MessageKind * option Context * W) :=
  match r with
  | None => Some (MessageExecutorNotConfigured, context, w)
  | Some r =>
      if (targetLen <? 0) || (MaxNameLen <? targetLen)
      then Some (MessageActionTargetInvalid, context, w)
      else
        '(resp, context, w) ←
          RunActionRequest r kind intent risk target targetLen input inputLen context w;
        Some (ar_Message (resp_Result resp), context, w)
  end.

Definition ConfirmAction (r : Runtime) (confirmed : bool) (context : option Context) (w : W)
    : option outcome :=
  let cancelled := setSafety (setResponseResult zero_Response false MessageActionCancelled)
                     SafetyRejected MessageActionCancelled in
  match context with
  | None => Some (cancelled, context, w)
  | Some c =>
      if negb (ctx_ConfirmationPending c) then Some (cancelled, context, w)
      else
        let plan := ctx_PendingPlan c in
        let context := Some (set_Pending zero_Plan false c) in
        if negb confirmed then
          response ← AddTrace cancelled TraceSafety TraceDetailRejected;
          finish response context plan w
        else runPlanWithConfirmation r plan context true w
  end.

Definition ConfirmActionMessage (r : option Runtime) (confirmed : bool) (context : option Context)
    (w : W) : option (MessageKind * option Context * W) :=
  match r with
  | None => Some (MessageExecutorNotConfigured, context, w)
  | Some r =>
      '(resp, context, w) ← ConfirmAction r confirmed context w;
      Some (ar_Message (resp_Result resp), context, w)
  end.
End runtime.

Arguments ActionHandler : clear implicits.
Arguments AllowedActionExecutor : clear implicits.
Arguments Runtime : clear implicits.

(** ** planner_impl_host.go: the deterministic planner *)
Definition lowerASCII (c : Z) : Z := if (65 <=? c) && (c <=? 90) then u8 (u8 (c - 65) + 97) else c.

Definition isPlannerSpace (c : Z) : bool := (c =? 32) || (c =? 9).

Definition contains (text token : list Z) : option bool :=
  if len token =? 0 then Some true
  else if len text <? len token then Some false
  else
    loop_end
      (for_range 0 (len text - len token + 1)
         (λ i (_ : unit),
            m ← match_bytes (len token) (λ j, lowerASCII <$> aget text (i + j))
                  (λ j, lowerASCII <$> aget token j);
            if m : bool then Some (inr true) else Some (inl tt)) tt)
      (λ _, Some false).

(** [for pos > 0 && isPlannerSpace(text[pos-1]) == want { pos-- }]. *)
Definition back_while (want : bool) (text : list Z) (pos : Z) : option Z :=
  loop_end
    (while (Z.to_nat pos) (λ p, 0 <? p)
       (λ p, c ← aget text (p - 1);
          if Bool.eqb (isPlannerSpace c) want then Some (inl (p - 1)) else Some (inr p)) pos)
    Some.

Definition lastToken (text : list Z) : option (Z * Z) :=
  last ← back_while true text (len text);
  start ← back_while false text last;
  Some (start, last).

Definition tokenEquals (text : list Z) (start last : Z) (token : list Z) : option bool :=
  if negb (last - start =? len token) then Some false
  else match_bytes (len token) (λ i, lowerASCII <$> aget text (start + i)) (λ i, aget token i).

(** [a || b], the right operand evaluated only when the left one is false. *)
Definition or_else (a b : option bool) : option bool :=
  x ← a; if x : bool then Some true else b.
Definition and_then (a b : option bool) : option bool :=
  x ← a; if x : bool then b else Some false.

Definition isActionWord (text : list Z) (start last : Z) : option bool :=
  or_else (tokenEquals text start last (gs "read"))
  (or_else (tokenEquals text start last (gs "cat"))
  (or_else (tokenEquals text start last (gs "delete"))
  (or_else (tokenEquals text start last (gs "remove"))
  (or_else (tokenEquals text start last (gs "show"))
  (or_else (tokenEquals text start last (gs "stat"))
  (or_else (tokenEquals text start last (gs "status"))
           (tokenEquals text start last (gs "mode")))))))).

Definition singleTargetPlan (mode : PlannerMode) (intent : IntentKind) (actionKind : ActionKind)
    (risk : RiskLevel) (input : list Z) : option Plan :=
  let plan := singleActionPlan mode intent actionKind risk in
  '(targetStart, targetEnd) ← lastToken input;
  named ← and_then (Some (targetStart <? targetEnd))
                   (negb <$> isActionWord input targetStart targetEnd);
  if named : bool then
    let targetLen := targetEnd - targetStart in
    let targetLen := if MaxNameLen <? targetLen then MaxNameLen else targetLen in
    a ← aget (plan_Actions plan) 0;
    name ← for_do 0 targetLen
             (λ i d, v ← aget input (targetStart + i); aset d i v) (act_Target a);
    set_target name targetLen plan
  else Some plan.

Definition successfulPlan (plan : Plan) : PlanningResult := MkPlanningResult true plan MessageNone.

Definition if_contains (c : option bool) (yes no : option PlanningResult) : option PlanningResult :=
  b ← c; if b : bool then yes else no.

Definition deterministicPlan (input : list Z) : option PlanningResult :=
  let has token := contains input (gs token) in
  let single intent kind :=
    Some (successfulPlan (singleActionPlan PlannerModeDeterministic intent kind RiskSafe)) in
  let target intent kind risk :=
    successfulPlan <$> singleTargetPlan PlannerModeDeterministic intent kind risk input in
  if_contains (or_else (has "help") (or_else (has "commands") (has "what can you do")))
    (single IntentShowHelp ActionShowHelp)
  (if_contains (or_else (has "memorymap") (and_then (has "memory") (has "map")))
    (single IntentShowMemoryMap ActionShowMemoryMap)
  (if_contains (has "version") (single IntentShowVersion ActionShowVersion)
  (if_contains (has "ticks") (single IntentShowTicks ActionShowTicks)
  (if_contains (has "history") (single IntentShowHistory ActionShowHistory)
  (if_contains (has "mode") (target IntentSetMode ActionSetMode RiskSafe)
  (if_contains (or_else (has "delete") (has "remove"))
    (target IntentDeleteFile ActionDeleteFile RiskRisky)
  (if_contains (or_else (has "read") (has "cat")) (target IntentReadFile ActionReadFile RiskSafe)
  (if_contains (or_else (has "stat") (has "status")) (target IntentStatFile ActionStatFile RiskSafe)
  (if_contains (or_else (has "ls") (or_else (has "list") (or_else (has "files") (has "file"))))
    (single IntentListFiles ActionListFiles)
  (if_contains (has "show")
    (plan ← singleTargetPlan PlannerModeDeterministic IntentReadFile ActionReadFile RiskSafe input;
     a ← aget (plan_Actions plan) 0;
     if 0 <? act_TargetLen a then Some (successfulPlan plan)
     else single IntentUnknown ActionUnknown)
    (single IntentUnknown ActionUnknown))))))))))).

(** ** planner_llm.go: plans that come over the bridge *)
Definition MaxBridgeAllowedActions : Z := 8.

Record BridgeRequest := MkBridgeRequest {
  bq_Input : list Z;
  bq_Context : option Context;
  bq_AllowedActions : list ActionKind;
  bq_AllowedActionCount : Z;
}.

Record BridgeResponse := MkBridgeResponse {
  br_Intent : IntentKind;
  br_Action : ActionKind;
  br_Risk : RiskLevel;
  br_Target : list Z;
  br_TargetLen : Z;
}.

Record BridgeResult := MkBridgeResult {
  bres_OK : bool;
  bres_Response : BridgeResponse;
  bres_Reason : MessageKind;
}.

Definition newBridgeRequest (input : list Z) (context : option Context) : BridgeRequest :=
  MkBridgeRequest input context
    [ActionListFiles; ActionReadFile; ActionStatFile; ActionDeleteFile; ActionShowHistory;
     ActionShowVersion; ActionShowTicks; ActionShowMemoryMap] MaxBridgeAllowedActions.

Definition allows (r : BridgeRequest) (kind : ActionKind) : option bool :=
  loop_end
    (for_range 0 (bq_AllowedActionCount r)
       (λ i (_ : unit), k ← aget (bq_AllowedActions r) i;
          if decide (k = kind) then Some (inr true) else Some (inl tt)) tt)
    (λ _, Some false).

Definition bridgeActionIntent (kind : ActionKind) : IntentKind :=
  match kind with
  | ActionListFiles => IntentListFiles
  | ActionReadFile => IntentReadFile
  | ActionStatFile => IntentStatFile
  | ActionDeleteFile => IntentDeleteFile
  | ActionShowHistory => IntentShowHistory
  | ActionShowVersion => IntentShowVersion
  | ActionShowTicks => IntentShowTicks
  | ActionShowMemoryMap => IntentShowMemoryMap
  | _ => IntentUnknown
  end.

Definition failedPlan (reason : MessageKind) : PlanningResult :=
  MkPlanningResult false zero_Plan reason.

Section planners.
Context {W : Type}.

(** [type BridgeClient interface]: the other end of the transport, given the request
    (with the pointer to the context) and the world. *)
Definition BridgeClient : Type :=
  BridgeRequest → W → option (BridgeResult * option Context * W).

(** [type Planner interface]. *)
Record Planner := MkPlanner {
  pl_Plan : list Z → option Context → W → option (PlanningResult * option Context * W);
  pl_Available : bool;
}.

Definition DeterministicPlanner : Planner :=
  MkPlanner (λ input context w, r ← deterministicPlan input; Some (r, context, w)) true.

Definition LLM_Plan (Bridge : option BridgeClient) (input : list Z) (context : option Context) (w : W)
    : option (PlanningResult * option Context * W) :=
  match Bridge with
  | None => Some (failedPlan MessageLLMBridgeNotConfigured, context, w)
  | Some bridge =>
      let request := newBridgeRequest input context in
      '(result, context, w) ← bridge request w;
      if negb (bres_OK result) then
        let reason := match bres_Reason result with
                      | MessageNone => MessageLLMBridgeFailed
                      | m => m
                      end in
        Some (failedPlan reason, context, w)
      else
        let resp := bres_Response result in
        allowed ← allows request (br_Action resp);
        if negb allowed then Some (failedPlan MessagePlanContainsUnsupportedAction, context, w)
        else if decide (bridgeActionIntent (br_Action resp) ≠ br_Intent resp)
        then Some (failedPlan MessagePlannerFailed, context, w)
        else
          plan ← set_target (br_Target resp) (br_TargetLen resp)
                   (singleActionPlan PlannerModeLLM (br_Intent resp) (br_Action resp) (br_Risk resp));
          validation ← validatePlan plan;
          if negb (val_OK validation) then Some (failedPlan (val_Reason validation), context, w)
          else Some (successfulPlan plan, context, w)
  end.

Definition LLMPlanner (Bridge : option BridgeClient) : Planner :=
  MkPlanner (LLM_Plan Bridge) (match Bridge with Some _ => true | None => false end).

(** ** runtime_host.go: the planner in use is the global [configuredLLMPlanner] *)
Definition ConfigureLLMPlanner (r : option (Runtime W)) (planner configured : option Planner)
    : option (Runtime W) * option Planner :=
  match r with
  | None => (None, configured)
  | Some r =>
      if match planner with None => true | Some p => negb (pl_Available p) end then
        (Some (MkRuntime (rt_Executor r) (rt_ExecutorConfigured r)
                 (if decide (rt_plannerMode r = PlannerModeLLM) then PlannerModeDeterministic
                  else rt_plannerMode r) false), None)
      else (Some (MkRuntime (rt_Executor r) (rt_ExecutorConfigured r) (rt_plannerMode r) true), planner)
  end.

Definition Run (r : Runtime W) (configured : option Planner) (input : list Z)
    (context : option Context) (w : W) : option (Response * option Context * W) :=
  let mode := rt_plannerMode r in
  context ← match context with None => Some None | Some c => BeginStringRequest c input mode end;
  '(planning, context, w) ←
    match mode, configured with
    | PlannerModeLLM, None => Some (failedPlan MessageLLMBridgeNotConfigured, context, w)
    | PlannerModeLLM, Some p => pl_Plan p input context w
    | _, _ => r ← deterministicPlan input; Some (r, context, w)
    end;
  if negb (pr_OK planning) then
    let response := setSafety (setResponseResult zero_Response false (pr_Reason planning))
                      SafetyRejected MessagePlannerFailed in
    response ← AddTrace response TracePlanner (traceFromMessage (pr_Reason planning));
    let context := (λ c, set_CurrentTask ActionNone
                     (set_Last IntentUnknown ActionNone (pr_Reason planning) c)) <$> context in
    Some (response, context, w)
  else runPlan r (pr_Plan planning) context w.
End planners.

Arguments BridgeClient : clear implicits.
Arguments Planner : clear implicits.
