(* ===== verification/AgentGate.v ===== *)
(** * Package [agent]: the safety gate

    What the runtime promises about executed actions.  A reference definition of a
    request ([plan_problem], [needs_confirmation], [exec_actions], [request_outcome]) and
    the theorem that [runPlanWithConfirmation] computes it; the protocol of pending plans
    as a transition relation ([gate_step]), refined by every entry point; the containment
    of plans that come from text, whichever planner made them. *)
From S2P Require Import Prelude AgentTypes Agent.
Local Open Scope Z_scope.

(** ** Reference definitions *)
(** The arrays of a plan and of a context have their declared lengths. *)
Definition plan_wf (p : Plan) : Prop := len (plan_Actions p) = MaxActions.

Definition ctx_wf (c : Context) : Prop :=
  len (ctx_LastInput c) = MaxContextInput ∧ plan_wf (ctx_PendingPlan c).

(** The actions a plan asks for. *)
Definition plan_actions (p : Plan) : list Action :=
  take (Z.to_nat (plan_ActionCount p)) (plan_Actions p).

(** The reason to reject a plan. *)
Definition plan_problem (p : Plan) : option MessageKind :=
  if plan_ActionCount p <=? 0 then Some MessagePlanHasNoActions
  else if MaxActions <? plan_ActionCount p then Some MessagePlanHasTooManyActions
  else head (omap (check_action (plan_Planner p)) (plan_actions p)).

Definition risky (a : Action) : Prop := act_Risk a = RiskRisky.
#[export] Instance risky_dec a : Decision (risky a).
Proof. unfold risky. apply _. Defined.

Definition needs_confirmation (p : Plan) : bool := bool_decide (Exists risky (plan_actions p)).

(** The actions in order, up to the first that fails. *)
Fixpoint exec_actions {W} (e : AllowedActionExecutor W) (acts : list Action)
    (context : option Context) (w : W) : option (list ActionResult * option Context * W) :=
  match acts with
  | [] => Some ([], context, w)
  | a :: rest =>
      '(res, context, w) ← Execute e a (set_CurrentTask (act_Kind a) <$> context) w;
      if ar_OK res then
        '(l, context, w) ← exec_actions e rest context w; Some (res :: l, context, w)
      else Some ([res], context, w)
  end.

(** The failed result that ended a run, if one did. *)
Definition failure (l : list ActionResult) : option ActionResult :=
  head (filter (λ res, ar_OK res = false) l).

(** A response with the given trace. *)
Definition response_of (tr : list TraceEntry) (res : ActionResult) (saf : SafetyDecision) : Response :=
  MkResponse (tr ++ replicate (8 - length tr) (MkTraceEntry TraceNone TraceDetailNone)) (len tr) res saf.

Definition last_action (p : Plan) : ActionKind :=
  if 0 <? plan_ActionCount p
  then default ActionNone (act_Kind <$> aget (plan_Actions p) (Z.min (plan_ActionCount p) MaxActions - 1))
  else ActionNone.

(** The context at the end of a request that answered [message]. *)
Definition finished (p : Plan) (message : MessageKind) (waits : bool) (c : Context) : Context :=
  let c := set_Last (plan_Intent p) (last_action p) message c in
  let c := if decide (last_action p = ActionSetMode) then c
           else set_ctx_PlannerMode (plan_Planner p) c in
  if waits then c else set_CurrentTask ActionNone c.

Definition trace_head (p : Plan) : list TraceEntry :=
  [MkTraceEntry TracePlanner (plannerTrace (plan_Planner p));
   MkTraceEntry TraceIntent (intentTrace (plan_Intent p))].

Definition first_kind (p : Plan) : ActionKind :=
  default ActionNone (act_Kind <$> aget (plan_Actions p) 0).

(** The end of a request with the given trace, result and safety decision. *)
Definition closing {W} (p : Plan) (tr : list TraceEntry) (res : ActionResult) (saf : SafetyDecision)
    (context : option Context) (w : W) : Response * option Context * W :=
  (response_of tr res saf,
   finished p (ar_Message res) (bool_decide (saf_Status saf = SafetyConfirmationRequired)) <$> context,
   w).

(** The end of a request whose actions ran with [results]. *)
Definition executed {W} (p : Plan) (tr : list TraceEntry) (saf : SafetyDecision)
    (results : list ActionResult) (context : option Context) (w : W) : Response * option Context * W :=
  let done := [MkTraceEntry TraceExecutor TraceDetailSuccess;
               MkTraceEntry TraceFormatter TraceDetailStructured] in
  match failure results with
  | Some res => closing p (tr ++ [MkTraceEntry TraceExecutor TraceDetailFailed])
                  (MkActionResult false (ar_Message res)) saf context w
  | None => closing p (tr ++ done)
              (match results with [res] => res | _ => MkActionResult true MessageCompletedPlan end)
              saf context w
  end.

(** What a request for the plan [p] does, from the reference definitions. *)
Definition request_outcome {W} (r : Runtime W) (p : Plan) (context : option Context)
    (confirmed : bool) (w : W) : option (Response * option Context * W) :=
  match plan_problem p with
  | Some reason =>
      Some (closing p (trace_head p ++ [MkTraceEntry TraceValidation TraceDetailFailed])
        (MkActionResult false reason) (MkSafetyDecision SafetyRejected MessageValidationFailed) context w)
  | None =>
      let context := set_CurrentTask (first_kind p) <$> context in
      let tr := trace_head p ++ [MkTraceEntry TraceValidation TraceDetailOK] in
      if needs_confirmation p && negb confirmed then
        Some (closing p (tr ++ [MkTraceEntry TraceSafety TraceDetailConfirmationRequired])
          (MkActionResult false MessageConfirmationRequired)
          (MkSafetyDecision SafetyConfirmationRequired MessageConfirmationRequired)
          (set_Pending p true <$> context) w)
      else
        let tr := tr ++ [MkTraceEntry TraceSafety TraceDetailAllowed] in
        let saf := MkSafetyDecision SafetyAllowed MessageOK in
        if rt_ExecutorConfigured r then
          '(results, context, w) ← exec_actions (rt_Executor r) (plan_actions p) context w;
          Some (executed p tr saf results context w)
        else Some (closing p (tr ++ [MkTraceEntry TraceExecutor TraceDetailMissing])
               (MkActionResult false MessageExecutorNotConfigured) saf context w)
  end.

(** ** The pieces of the runtime compute their references *)
Lemma AddTrace_response tr res saf st d :
  (length tr < 8)%nat →
  AddTrace (response_of tr res saf) st d = Some (response_of (tr ++ [MkTraceEntry st d]) res saf).
Proof.
  intros Hl. unfold AddTrace, response_of, MaxTraceEntries. cbn [resp_TraceCount resp_Trace resp_Result resp_Safety].
  pose proof (len_length tr) as Ht.
  destruct (Z.leb_spec 8 (len tr)); [lia|].
  rewrite aset_snoc by (rewrite ?len_replicate; lia). cbn [mbind option_bind].
  do 2 f_equal; [|by rewrite len_app].
  rewrite length_app. cbn [length]. replace (8 - length tr)%nat with (S (8 - (length tr + 1)))%nat by lia.
  done.
Qed.

Lemma zero_Response_of : zero_Response = response_of [] zero_ActionResult (MkSafetyDecision SafetyRejected MessageNone).
Proof. done. Qed.

Lemma setResponseResult_of tr res saf ok m :
  setResponseResult (response_of tr res saf) ok m = response_of tr (MkActionResult ok m) saf.
Proof. done. Qed.
Lemma setSafety_of tr res saf st m :
  setSafety (response_of tr res saf) st m = response_of tr res (MkSafetyDecision st m).
Proof. done. Qed.

Lemma check_action_failed pl a m : check_action pl a = Some m → traceFromMessage m = TraceDetailFailed.
Proof. unfold check_action. intros H. by repeat case_match; simplify_eq. Qed.

Lemma validatePlan_spec p :
  plan_wf p →
  validatePlan p = Some (match plan_problem p with
                         | Some m => MkValidationResult false m
                         | None => MkValidationResult true MessageOK end).
Proof.
  unfold plan_wf, validatePlan, plan_problem. intros Hw.
  destruct (Z.leb_spec (plan_ActionCount p) 0); [done|].
  destruct (Z.ltb_spec MaxActions (plan_ActionCount p)); [done|].
  rewrite (for_range_find (λ a, MkValidationResult false <$> check_action (plan_Planner p) a) (plan_Actions p)); [|lia|].
  - unfold plan_actions. generalize (take (Z.to_nat (plan_ActionCount p)) (plan_Actions p)) as l.
    induction l as [|a l IH]; [done|]. cbn [omap list_omap].
    destruct (check_action (plan_Planner p) a); [done|]. apply IH.
  - intros i x ->. cbn. by destruct (check_action _ _).
Qed.

Lemma plan_problem_count p : plan_problem p = None → 0 < plan_ActionCount p ≤ MaxActions.
Proof. unfold plan_problem. by cmp. Qed.

Lemma plan_problem_actions p :
  plan_problem p = None → Forall (λ a, check_action (plan_Planner p) a = None) (plan_actions p).
Proof. unfold plan_problem. cmp; try done. apply head_omap_None. Qed.

Lemma plan_problem_failed p m : plan_problem p = Some m → traceFromMessage m = TraceDetailFailed.
Proof.
  unfold plan_problem. cmp; try by intros [= <-].
  induction (plan_actions p) as [|a l IH]; [done|]. cbn [omap list_omap].
  destruct (check_action (plan_Planner p) a) eqn:E; [|done]. intros [= <-]. by eapply check_action_failed.
Qed.

Lemma evaluateSafety_spec p context confirmed :
  plan_ActionCount p ≤ len (plan_Actions p) →
  evaluateSafetyWithConfirmation p context confirmed =
    Some (if needs_confirmation p && negb confirmed
          then (MkSafetyDecision SafetyConfirmationRequired MessageConfirmationRequired,
                set_Pending p true <$> context)
          else (MkSafetyDecision SafetyAllowed MessageOK, context)).
Proof.
  intros Hc. unfold evaluateSafetyWithConfirmation.
  set (no := (MkSafetyDecision SafetyAllowed MessageOK, context)).
  set (yes := (MkSafetyDecision SafetyConfirmationRequired _, _)).
  rewrite (for_range_find (λ a, if decide (risky a) then Some (if confirmed then no else yes) else None)
             (plan_Actions p)); [|done|].
  2:{ intros i x ->. cbn. unfold risky. by destruct (decide _), confirmed. }
  unfold needs_confirmation, plan_actions.
  induction (take (Z.to_nat (plan_ActionCount p)) (plan_Actions p)) as [|a l IH]; [done|].
  cbn [omap list_omap]. destruct (decide (risky a)) as [Ha|Ha].
  - rewrite bool_decide_eq_true_2 by (by constructor). by destruct confirmed.
  - rewrite (bool_decide_ext _ (Exists risky l)); [exact IH|].
    rewrite Exists_cons. tauto.
Qed.

Lemma finishPlanContext_spec tr res saf context p :
  plan_wf p →
  finishPlanContext (response_of tr res saf) context p =
    Some (response_of tr res saf,
          finished p (ar_Message res) (bool_decide (saf_Status saf = SafetyConfirmationRequired)) <$> context).
Proof.
  unfold plan_wf, MaxActions. intros Hw. destruct context as [c|]; [|done]. cbn [fmap option_fmap option_map].
  unfold finishPlanContext, finished, last_action, MaxActions.
  destruct (Z.ltb_spec 0 (plan_ActionCount p)) as [Hp|Hp].
  - replace (if 4 <=? plan_ActionCount p - 1 then 4 - 1 else plan_ActionCount p - 1)
      with (Z.min (plan_ActionCount p) 4 - 1) by (cmp; lia).
    destruct (aget_Some (plan_Actions p) (Z.min (plan_ActionCount p) 4 - 1)) as [a Ha]; [lia|].
    rewrite Ha. cbn. by repeat case_decide; case_bool_decide.
  - cbn. by repeat case_decide; case_bool_decide.
Qed.

Lemma finish_spec {W} tr res saf context p (w : W) :
  plan_wf p → finish (response_of tr res saf) context p w = Some (closing p tr res saf context w).
Proof. intros. unfold finish. by rewrite finishPlanContext_spec. Qed.

Lemma failure_app l1 l2 : failure (l1 ++ l2) = match failure l1 with None => failure l2 | r => r end.
Proof.
  unfold failure. rewrite filter_app. by destruct (filter _ l1).
Qed.

(** How the loop over the actions ends, [l] being all the results. *)
Definition loop_outcome {W} (p : Plan) (tr : list TraceEntry) (saf : SafetyDecision)
    (l : list ActionResult) (context : option Context) (w : W)
    : (list ActionResult * option Context * W) + (Response * option Context * W) :=
  match failure l with
  | Some res => inr (closing p (tr ++ [MkTraceEntry TraceExecutor TraceDetailFailed])
                       (MkActionResult false (ar_Message res)) saf context w)
  | None => inl (l ++ replicate (4 - length l) zero_ActionResult, context, w)
  end.

(** The loop from action [i] on, the earlier ones having succeeded with results [done]. *)
Lemma run_actions_from {W} (r : Runtime W) p tr res0 saf :
  plan_wf p → (length tr < 8)%nat → ∀ acts i dn context w,
  len dn = i → failure dn = None → i + len acts = plan_ActionCount p → plan_ActionCount p ≤ 4 →
  (∀ j, 0 ≤ j < len acts → aget (plan_Actions p) (i + j) = aget acts j) →
  for_range i (plan_ActionCount p) (run_step r p (response_of tr res0 saf))
    (dn ++ replicate (4 - length dn) zero_ActionResult, context, w) =
  '(l, context, w) ← exec_actions (rt_Executor r) acts context w;
  Some (loop_outcome p tr saf (dn ++ l) context w).
Proof.
  intros Hw Htr. induction acts as [|a acts IH]; intros i dn context w Hi Hdn Hc H4 Hget.
  { rewrite len_nil in Hc. rewrite for_range_done by lia. cbn. unfold loop_outcome. by rewrite app_nil_r, Hdn. }
  pose proof (len_nonneg acts). pose proof (len_nonneg dn). rewrite len_cons in Hc.
  rewrite for_range_step by lia. unfold run_step at 1.
  assert (aget (plan_Actions p) i = Some a) as ->.
  { rewrite <-(Z.add_0_r i), Hget by len_lia. done. }
  cbn [mbind option_bind exec_actions].
  destruct (Execute (rt_Executor r) a _ w) as [[[res context'] w']|]; [|done].
  cbn [mbind option_bind].
  assert (0 < 4 - length dn)%nat as Hlt by (rewrite len_length in Hi; lia).
  rewrite aset_snoc by (rewrite ?len_replicate; lia). cbn [mbind option_bind].
  assert (tail (replicate (4 - length dn) zero_ActionResult) =
          replicate (4 - length (dn ++ [res])) zero_ActionResult) as ->.
  { rewrite length_app. cbn [length]. by replace (4 - length dn)%nat with (S (4 - (length dn + 1)))%nat by lia. }
  destruct res as [[] m]; cbn [negb ar_OK].
  - rewrite IH; [|by len_lia|by rewrite failure_app, Hdn|lia|done|].
    + destruct (exec_actions _ acts context' w') as [[[l ?] ?]|]; [|done].
      cbn [mbind option_bind]. by rewrite <-(app_assoc dn).
    + intros j Hj. rewrite <-Z.add_assoc, Hget by len_lia. rewrite <-(aget_drop (a :: acts) 1) by lia. done.
  - rewrite AddTrace_response by done. cbn [mbind option_bind]. rewrite setResponseResult_of, finish_spec by done.
    cbn. unfold loop_outcome. by rewrite failure_app, Hdn.
Qed.

Lemma plan_actions_get p :
  plan_wf p → 0 ≤ plan_ActionCount p ≤ 4 →
  len (plan_actions p) = plan_ActionCount p ∧
  ∀ j, 0 ≤ j < plan_ActionCount p → aget (plan_Actions p) j = aget (plan_actions p) j.
Proof.
  unfold plan_wf, plan_actions, MaxActions. intros Hw Hc. split; [apply len_take; lia|].
  intros j Hj. symmetry. apply aget_take. lia.
Qed.

Lemma run_actions_spec {W} (r : Runtime W) p tr res0 saf context w :
  plan_wf p → (length tr < 8)%nat → 0 ≤ plan_ActionCount p ≤ 4 →
  run_actions r p (response_of tr res0 saf) context w =
  '(l, context, w) ← exec_actions (rt_Executor r) (plan_actions p) context w;
  Some (loop_outcome p tr saf l context w).
Proof.
  intros Hw Htr Hc. destruct (plan_actions_get p) as [Hl Hget]; [done..|].
  apply (run_actions_from r p tr res0 saf Hw Htr _ 0 []); rewrite ?len_nil; [done..|lia|lia|].
  intros j Hj. apply Hget. lia.
Qed.

(** Without a failure every action ran. *)
Lemma exec_actions_length {W} (e : AllowedActionExecutor W) acts : ∀ context w l context' w',
  exec_actions e acts context w = Some (l, context', w') → failure l = None → length l = length acts.
Proof.
  induction acts as [|a acts IH]; intros context w l context' w' He Hf; cbn in He; [by simplify_eq|].
  destruct (Execute _ _ _ _) as [[[[[] m] c1] w1]|]; cbn in He; [| |done].
  - destruct (exec_actions e acts c1 w1) as [[[l1 c2] w2]|] eqn:E; cbn in He; simplify_eq.
    cbn. f_equal. by eapply IH.
  - by simplify_eq.
Qed.

Ltac trace := rewrite ?setResponseResult_of, ?setSafety_of, AddTrace_response by (cbn; lia);
  cbn [mbind option_bind app trace_head].

Lemma run_finished {W} (r : Runtime W) p tr res0 saf context w :
  plan_wf p → 0 < plan_ActionCount p ≤ 4 → (length tr < 6)%nat →
  loop_end (run_actions r p (response_of tr res0 saf) context w) (run_done p (response_of tr res0 saf)) =
  '(results, context, w) ← exec_actions (rt_Executor r) (plan_actions p) context w;
  Some (executed p tr saf results context w).
Proof.
  intros Hw Hc Htr. rewrite run_actions_spec by (done || lia).
  destruct (exec_actions _ _ context w) as [[[l c1] w1]|] eqn:He; [|done]. cbn [mbind option_bind].
  unfold loop_outcome, executed. destruct (failure l) as [res|] eqn:Hf; [done|]. cbn [loop_end].
  pose proof (exec_actions_length _ _ _ _ _ _ _ He Hf) as Hl.
  destruct (plan_actions_get p) as [Hla _]; [done|lia|]. rewrite len_length, <-Hl in Hla.
  unfold run_done. rewrite AddTrace_response by lia. cbn [mbind option_bind]. unfold formatResult.
  destruct (Z.leb_spec (plan_ActionCount p) 0); [lia|].
  destruct l as [|[ok m] [|y l]]; cbn [length] in Hla; [lia| |].
  - rewrite <-Hla. change (Z.of_nat 1 =? 1) with true. cbv iota. cbn [app]. rewrite aget_cons_0.
    cbn [mbind option_bind ar_OK ar_Message].
    rewrite setResponseResult_of, AddTrace_response by (rewrite length_app; cbn; lia).
    cbn [mbind option_bind]. rewrite finish_spec by done. by rewrite <-app_assoc.
  - destruct (Z.eqb_spec (plan_ActionCount p) 1); [lia|]. cbn -[response_of finish AddTrace setResponseResult].
    rewrite setResponseResult_of, AddTrace_response by (rewrite length_app; cbn; lia).
    cbn [mbind option_bind]. rewrite finish_spec by done. by rewrite <-app_assoc.
Qed.

Lemma runPlan_spec {W} (r : Runtime W) p context confirmed w :
  plan_wf p →
  runPlanWithConfirmation r p context confirmed w = request_outcome r p context confirmed w.
Proof.
  intros Hw. unfold runPlanWithConfirmation, request_outcome. rewrite zero_Response_of.
  do 2 trace. rewrite validatePlan_spec by done. cbn [mbind option_bind].
  destruct (plan_problem p) as [reason|] eqn:Hp; cbn [val_OK val_Reason negb].
  { trace. rewrite (plan_problem_failed _ _ Hp). by apply finish_spec. }
  apply plan_problem_count in Hp as Hc. unfold MaxActions in Hc.
  trace. unfold first_kind. destruct (aget_Some (plan_Actions p) 0) as [a Ha].
  { unfold plan_wf, MaxActions in Hw. lia. }
  rewrite Ha. cbn [mbind option_bind fmap option_fmap option_map default].
  rewrite evaluateSafety_spec by (unfold plan_wf, MaxActions in Hw; lia). cbn [mbind option_bind].
  destruct (needs_confirmation p && negb confirmed); cbn [saf_Status saf_Reason safetyTrace]; trace.
  { rewrite setResponseResult_of. by apply finish_spec. }
  destruct (rt_ExecutorConfigured r); cbn [negb].
  - rewrite run_finished by (done || lia || (cbn; lia)). done.
  - trace. by apply finish_spec.
Qed.

(** ** The protocol of pending plans *)
Definition pending (context : option Context) : option Plan :=
  c ← context; if ctx_ConfirmationPending c then Some (ctx_PendingPlan c) else None.

Definition opt_ctx_wf (context : option Context) : Prop :=
  match context with Some c => ctx_wf c | None => True end.

(** A callee that got the pointer [c] and left [c'] did not touch the pending plan. *)
Definition ctx_frame (c c' : option Context) : Prop :=
  match c, c' with
  | Some c, Some c' =>
      len (ctx_LastInput c') = len (ctx_LastInput c) ∧ ctx_PendingPlan c' = ctx_PendingPlan c ∧
      ctx_ConfirmationPending c' = ctx_ConfirmationPending c
  | None, None => True
  | _, _ => False
  end.

#[export] Instance ctx_frame_preorder : PreOrder ctx_frame.
Proof.
  split; [by intros [c|]|]. intros [c1|] [c2|] [c3|]; cbn; try done.
  intros (?&?&?) (?&?&?). split_and!; congruence.
Qed.

Lemma ctx_frame_pending c c' : ctx_frame c c' → pending c' = pending c.
Proof. destruct c, c'; cbn; try done. by intros (?&->&->). Qed.
Lemma ctx_frame_wf c c' : ctx_frame c c' → opt_ctx_wf c → opt_ctx_wf c'.
Proof. destruct c, c'; cbn; try done. unfold ctx_wf. by intros (->&->&?). Qed.
Lemma ctx_frame_is_Some c c' : ctx_frame c c' → is_Some c → is_Some c'.
Proof. by destruct c, c'. Qed.

Lemma ctx_frame_CurrentTask k c : ctx_frame c (set_CurrentTask k <$> c).
Proof. by destruct c. Qed.
Lemma ctx_frame_finished p m b c : ctx_frame c (finished p m b <$> c).
Proof. destruct c; [|done]. cbn. unfold finished. by destruct (decide _), b. Qed.

Create HintDb agent discriminated.
#[export] Hint Resolve ctx_frame_CurrentTask ctx_frame_finished : agent.

Definition handlers {W} (e : AllowedActionExecutor W) : list (option (ActionHandler W)) :=
  [ex_ListFiles e; ex_ReadFile e; ex_WriteFile e; ex_DeleteFile e; ex_StatFile e; ex_ShowHelp e;
   ex_ShowHistory e; ex_ShowVersion e; ex_ShowTicks e; ex_ShowMemoryMap e; ex_SetMode e].

(** What the runtime needs of the handlers wired into its executor: they return, leave
    the pending plan alone, and [log] observes the actions they are called on. *)
Class ExecutorLaws {W} (log : W → list Action) (e : AllowedActionExecutor W) : Prop :=
  handler_law : ∀ h a c w, Some h ∈ handlers e →
    ok (h a c w) (λ '(_, c', w'), log w' = log w ++ [a] ∧ ctx_frame c c').

(** An action that may destroy data. *)
Definition destructive (k : ActionKind) : Prop := k = ActionDeleteFile ∨ k = ActionWriteFile.

(** A plan for one action, marked risky if the action is destructive. *)
Definition contained (p : Plan) : Prop :=
  plan_wf p ∧ ∃ a, plan_actions p = [a] ∧ (destructive (act_Kind a) → risky a).

(** What the runtime needs of a planner: it returns, executes nothing, leaves the pending
    plan alone, and its plans are contained. *)
Class PlannerLaws {W} (log : W → list Action) (p : Planner W) : Prop :=
  planner_law : ∀ input c w,
    ok (pl_Plan p input c w)
       (λ '(res, c', w'), log w' = log w ∧ ctx_frame c c' ∧ (pr_OK res = true → contained (pr_Plan res))).

Section execution.
Context {W : Type} (log : W → list Action) (e : AllowedActionExecutor W).
Context `{!ExecutorLaws log e}.

Lemma callHandler_ok h a c w :
  h ∈ handlers e →
  ok (callHandler h a c w)
     (λ '(res, c', w'), (log w' = log w ++ [a] ∨ log w' = log w ∧ ar_OK res = false) ∧ ctx_frame c c').
Proof.
  destruct h as [h|]; intros Hh; cbn; [|split; [by right|reflexivity]].
  eapply ok_mono; [by apply handler_law|]. intros [[??]?] [??]. auto.
Qed.

Lemma Execute_ok a c w :
  ok (Execute e a c w)
     (λ '(res, c', w'), (log w' = log w ++ [a] ∨ log w' = log w ∧ ar_OK res = false) ∧ ctx_frame c c').
Proof.
  unfold Execute. destruct (act_Kind a); try (apply callHandler_ok; unfold handlers; set_solver);
    split; [by right|reflexivity| by right|reflexivity].
Qed.

(** A run executes a prefix of the actions, all of them if none failed. *)
Lemma exec_actions_ok acts : ∀ c w,
  ok (exec_actions e acts c w)
     (λ '(l, c', w'), ∃ ran, ran `prefix_of` acts ∧ log w' = log w ++ ran ∧ ctx_frame c c' ∧
        (failure l = None → ran = acts)).
Proof.
  induction acts as [|a acts IH]; intros c w; cbn.
  { exists []. rewrite app_nil_r. split_and!; done. }
  call Execute_ok. intros [[res c1] w1] [Hlog Hf].
  assert (ctx_frame c c1) as Hf' by (etrans; [apply ctx_frame_CurrentTask|done]).
  destruct (ar_OK res) eqn:Hok.
  - destruct Hlog as [Hlog|[_ ?]]; [|done].
    call IH. intros [[l c2] w2] (ran&Hp&Hl&Hf2&Hall). exists (a :: ran). split_and!.
    + by apply prefix_cons.
    + by rewrite Hl, Hlog, <-app_assoc.
    + by etrans.
    + unfold failure. rewrite filter_cons, decide_False by congruence. intros Hn.
      by rewrite Hall.
  - destruct Hlog as [Hlog|[Hlog _]]; [exists [a]|exists []]; split_and!;
      rewrite ?app_nil_r; try done; try (by apply prefix_cons, prefix_nil); try apply prefix_nil;
      unfold failure; rewrite filter_cons, decide_True by done; done.
Qed.
End execution.

(** What serving the plan [p] does to the pending plan. *)
Definition pending_after (p : Plan) (confirmed : bool) (pd : option Plan) : option Plan :=
  match plan_problem p with
  | None => if needs_confirmation p && negb confirmed then Some p else pd
  | Some _ => pd
  end.

(** The actions of [p] that may run: none unless the plan is valid and either safe or
    confirmed. *)
Definition may_run (p : Plan) (confirmed : bool) (ran : list Action) : Prop :=
  ran `prefix_of` plan_actions p ∧
  (ran ≠ [] → plan_problem p = None ∧ (needs_confirmation p = true → confirmed = true)).

Section serving.
Context {W : Type} (log : W → list Action) (r : Runtime W).
Context `{!ExecutorLaws log (rt_Executor r)}.

Lemma may_run_nil p confirmed : may_run p confirmed [].
Proof. split; [apply prefix_nil|done]. Qed.

Lemma runPlan_ok p c confirmed w :
  plan_wf p →
  ok (runPlanWithConfirmation r p (Some c) confirmed w)
     (λ '(_, c', w'), ∃ ran c1, c' = Some c1 ∧ may_run p confirmed ran ∧ log w' = log w ++ ran ∧
        pending c' = pending_after p confirmed (pending (Some c)) ∧ (ctx_wf c → ctx_wf c1)).
Proof.
  intros Hw. rewrite runPlan_spec by done. unfold request_outcome, pending_after.
  assert (∀ c0 c' w' ran pd, may_run p confirmed ran → log w' = log w ++ ran →
    ctx_frame (Some c0) c' → pending (Some c0) = pd → (ctx_wf c → ctx_wf c0) →
    ∃ ran c1, c' = Some c1 ∧ may_run p confirmed ran ∧ log w' = log w ++ ran ∧
        pending c' = pd ∧ (ctx_wf c → ctx_wf c1)) as Hend.
  { intros c0 c' w' ran pd Hran Hlog Hf <- Hcw. destruct c' as [c1|]; [|done].
    exists ran, c1. split_and!; try done; [by apply ctx_frame_pending|].
    intros. apply (ctx_frame_wf (Some c0) (Some c1)); [done|]. by apply Hcw. }
  pose proof (may_run_nil p confirmed) as Hnil.
  destruct (plan_problem p) as [m|] eqn:Hp.
  { apply (Hend c _ w []); rewrite ?app_nil_r; try done. apply (ctx_frame_finished _ _ _ (Some c)). }
  destruct (needs_confirmation p && negb confirmed) eqn:Hn.
  { apply (Hend (set_Pending p true (set_CurrentTask (first_kind p) c)) _ w []); rewrite ?app_nil_r; try done.
    - apply (ctx_frame_finished _ _ _ (Some _)).
    - intros [??]. by split. }
  destruct (rt_ExecutorConfigured r).
  - call (exec_actions_ok log); [done|]. intros [[l c1] w1] (ran&Hpre&Hlog&Hf&_). unfold executed, closing, ok.
    assert (may_run p confirmed ran) as Hran.
    { split; [done|]. intros _. split; [done|]. intros Hne. rewrite Hne in Hn. by destruct confirmed. }
    assert (ctx_frame (Some c) c1) as Hf' by (etrans; [|done]; apply (ctx_frame_CurrentTask _ (Some c))).
    destruct (failure l); apply (Hend c _ w1 ran); try done; (etrans; [done|apply ctx_frame_finished]).
  - apply (Hend c _ w []); rewrite ?app_nil_r; try done.
    etrans; [apply (ctx_frame_CurrentTask (first_kind p) (Some c))|apply ctx_frame_finished].
Qed.
End serving.

(** ** Planning from text *)
(** The same character, case ignored; the same text. *)
Definition same_letter (x y : Z) : Prop :=
  x = y ∨ (65 ≤ x ≤ 90 ∧ y = x + 32) ∨ (65 ≤ y ≤ 90 ∧ x = y + 32).
Definition same_text : list Z → list Z → Prop := Forall2 same_letter.

#[export] Instance same_letter_dec x y : Decision (same_letter x y).
Proof. unfold same_letter. apply _. Defined.
#[export] Instance same_text_dec a b : Decision (same_text a b).
Proof. unfold same_text. apply _. Defined.

(** [token] is a substring of [text], case ignored; it need not be a word of its own. *)
Definition occurs (token text : list Z) : Prop :=
  ∃ pre mid post, text = pre ++ mid ++ post ∧ same_text mid token.

Definition blank (c : Z) : Prop := c = 32 ∨ c = 9.

(** [tok] is the last word of [text] between blanks, empty when [text] is all blank. *)
Definition last_word (text tok : list Z) : Prop :=
  ∃ pre blanks, text = pre ++ tok ++ blanks ∧ Forall blank blanks ∧ Forall (λ c, ¬ blank c) tok ∧
    (pre = [] ∨ tok ≠ [] ∧ ∃ pre' c, pre = pre' ++ [c] ∧ blank c).

Lemma isPlannerSpace_blank c : isPlannerSpace c = true ↔ blank c.
Proof. unfold isPlannerSpace, blank. rewrite orb_true_iff, !Z.eqb_eq. done. Qed.
Lemma isPlannerSpace_not_blank c : isPlannerSpace c = false ↔ ¬ blank c.
Proof. rewrite <-isPlannerSpace_blank. by destruct (isPlannerSpace c). Qed.

Lemma lowerASCII_lower c : lowerASCII c = if (65 <=? c) && (c <=? 90) then c + 32 else c.
Proof.
  unfold lowerASCII. destruct (Z.leb_spec 65 c), (Z.leb_spec c 90); cbn; try done.
  rewrite (u8_small (c - 65)), u8_small by lia. lia.
Qed.

Lemma lowerASCII_same x y : lowerASCII x = lowerASCII y ↔ same_letter x y.
Proof. rewrite !lowerASCII_lower. unfold same_letter. cmp; lia. Qed.

(** Against a character that is not upper case. *)
Lemma lowerASCII_same_l x y : ¬ (65 ≤ y ≤ 90) → lowerASCII x = y ↔ same_letter x y.
Proof. intros Hy. rewrite lowerASCII_lower. unfold same_letter. cmp; lia. Qed.

(** A relation on the characters of a range, position by position. *)
Lemma same_text_subrange text i token :
  0 ≤ i → i + len token ≤ len text →
  same_text (subrange text i (len token)) token ↔
  ∀ j x y, 0 ≤ j < len token → aget text (i + j) = Some x → aget token j = Some y → same_letter x y.
Proof.
  intros Hi Hl. pose proof (len_nonneg token). destruct (subrange_split text i (len token)) as (_&Hn&Hg); [lia..|].
  unfold same_text. rewrite Forall2_lookup. split.
  - intros H2 j x y Hj Hx Hy. rewrite <-Hg in Hx by lia. unfold aget in Hx, Hy.
    destruct (Z.leb_spec 0 j); [|lia]. specialize (H2 (Z.to_nat j)). rewrite Hx, Hy in H2. by inversion H2.
  - intros Hj k. destruct (decide (Z.of_nat k < len token)) as [Hk|Hk].
    + destruct (aget_Some token (Z.of_nat k)) as [y Hy]; [lia|].
      destruct (aget_Some text (i + Z.of_nat k)) as [x Hx]; [lia|].
      pose proof (Hj (Z.of_nat k) x y ltac:(lia) Hx Hy) as Hs. rewrite <-Hg in Hx by lia. unfold aget in Hx, Hy.
      destruct (Z.leb_spec 0 (Z.of_nat k)); [|lia]. rewrite Nat2Z.id in Hx, Hy. rewrite Hx, Hy. by constructor.
    + rewrite !lookup_ge_None_2; [constructor| |]; rewrite ?len_length in *; lia.
Qed.

Lemma occurs_at text token :
  occurs token text ↔ ∃ i, 0 ≤ i ≤ len text - len token ∧ same_text (subrange text i (len token)) token.
Proof.
  split.
  - intros (pre&mid&post&->&Hm). assert (len mid = len token) as Hl.
    { rewrite !len_length. by rewrite (Forall2_length _ _ _ Hm). }
    exists (len pre). pose proof (len_nonneg post). pose proof (len_nonneg pre). split; [rewrite !len_app; lia|].
    unfold subrange. rewrite <-Hl, !len_length, !Nat2Z.id, drop_app_length, take_app_length. done.
  - intros (i&Hi&Hm). pose proof (len_nonneg token).
    destruct (subrange_split text i (len token)) as (Hs&_&_); [lia..|]. by eexists _, _, _.
Qed.

Lemma contains_ok text token : ok (contains text token) (λ b, b = true ↔ occurs token text).
Proof.
  unfold contains. pose proof (len_nonneg token). pose proof (len_nonneg text).
  destruct (Z.eqb_spec (len token) 0) as [Hz|Hz].
  { split; [intros _|done]. exists [], [], text. rewrite (len_0_nil token Hz). by split; [|constructor]. }
  destruct (Z.ltb_spec (len text) (len token)) as [Hlt|Hge].
  { split; [done|]. rewrite occurs_at. intros (i&?&?). lia. }
  apply ok_loop_end.
  apply (for_range_ok (λ i _, ∀ k, 0 ≤ k < i → ¬ same_text (subrange text k (len token)) token)).
  - lia.
  - lia.
  - intros i [] Hi Hinv. call match_bytes_ok.
    { intros j Hj. destruct (aget_Some text (i + j)) as [x Hx]; [lia|].
      destruct (aget_Some token j) as [y Hy]; [lia|]. rewrite Hx, Hy. by split. }
    intros m Hb. assert (m = true ↔ same_text (subrange text i (len token)) token) as Hm.
    { rewrite Hb, same_text_subrange by lia. split.
      - intros Hj j x y Hr Hx Hy. specialize (Hj j Hr). rewrite Hx, Hy in Hj. injection Hj as Hj.
        by apply lowerASCII_same.
      - intros Hj j Hr. destruct (aget_Some text (i + j)) as [x Hx]; [lia|].
        destruct (aget_Some token j) as [y Hy]; [lia|]. rewrite Hx, Hy. cbn. f_equal.
        apply lowerASCII_same. by apply (Hj j). }
    destruct m; cbn.
    + split; [|done]. intros _. apply occurs_at. exists i. split; [lia|]. by apply Hm.
    + intros k Hk. destruct (decide (k = i)) as [->|]; [|apply Hinv; lia]. by rewrite <-Hm.
  - intros [] Hinv. cbn. split; [done|]. rewrite occurs_at. intros (i&Hi&Hj).
    by destruct (Hinv i ltac:(lia)).
Qed.

Lemma back_while_ok want text pos :
  0 ≤ pos ≤ len text →
  ok (back_while want text pos) (λ p, 0 ≤ p ≤ pos ∧
    (∀ i, p ≤ i < pos → ∃ c, aget text i = Some c ∧ isPlannerSpace c = want) ∧
    (p = 0 ∨ ∃ c, aget text (p - 1) = Some c ∧ isPlannerSpace c = negb want)).
Proof.
  intros Hpos. apply ok_loop_end.
  apply (while_ok (λ p, 0 ≤ p ≤ pos ∧
    ∀ i, p ≤ i < pos → ∃ c, aget text i = Some c ∧ isPlannerSpace c = want) (λ p, p)).
  - split; [lia|]. lia.
  - lia.
  - intros p Hp Hc. cmp. by apply Z.ltb_lt.
  - intros p [Hp Hi] Hc%Z.ltb_lt. destruct (aget_Some text (p - 1)) as [c Hc']; [lia|].
    rewrite Hc'. cbn. destruct (Bool.eqb (isPlannerSpace c) want) eqn:E; cbn.
    + apply eqb_prop in E. split; [|lia]. split; [lia|]. intros i Hr.
      destruct (decide (i = p - 1)) as [->|]; [by exists c|]. apply Hi. lia.
    + split_and!; [lia|lia|done|]. right. exists c. split; [done|].
      by destruct (isPlannerSpace c), want.
  - intros p [Hp Hi] Hc%Z.ltb_ge. split_and!; [lia|lia|done|]. left. lia.
Qed.

Lemma lastToken_ok text :
  ok (lastToken text) (λ '(s, e), 0 ≤ s ≤ e ∧ e ≤ len text ∧ last_word text (subrange text s (e - s))).
Proof.
  pose proof (len_nonneg text). call back_while_ok; [lia|]. intros e (He&Hblank&Hend).
  call back_while_ok; [lia|]. intros s (Hs&Htok&Hstop). cbn.
  split_and!; [lia..|]. destruct (subrange_split text s (e - s)) as (Heq&Hlen&_); [lia..|].
  replace (s + (e - s)) with e in Heq by lia.
  assert (drop (Z.to_nat e) text = subrange text e (len text - e)) as Hd.
  { unfold subrange. rewrite take_ge; [done|]. rewrite length_drop, len_length. lia. }
  exists (take (Z.to_nat s) text), (drop (Z.to_nat e) text). split_and!; [done| | |].
  - rewrite Hd. eapply Forall_impl; [apply Forall_subrange; [lia..|]; intros k Hk; apply (Hblank k); lia|].
    intros c. apply isPlannerSpace_blank.
  - eapply Forall_impl; [apply Forall_subrange; [lia..|]; intros k Hk; apply (Htok k); lia|].
    intros c. apply isPlannerSpace_not_blank.
  - destruct Hstop as [->|(c&Hc&Hsp)]; [by left|]. apply aget_inv in Hc as Hr. right. split.
    + intros Hn. rewrite Hn, len_nil in Hlen. replace s with e in Hc by lia.
      destruct Hend as [->|(c'&Hc'&Hsp')]; [lia|]. cbn in Hsp, Hsp'. congruence.
    + exists (take (Z.to_nat (s - 1)) text), c. split; [|by apply isPlannerSpace_blank].
      replace s with (s - 1 + 1) at 1 by lia. apply take_S_aget; [lia|done].
Qed.

Lemma tokenEquals_ok text s e token :
  0 ≤ s ≤ e → e ≤ len text → Forall (λ c, ¬ (65 ≤ c ≤ 90)) token →
  ok (tokenEquals text s e token) (λ b, b = true ↔ same_text (subrange text s (e - s)) token).
Proof.
  intros Hs He Hlow. unfold tokenEquals. destruct (Z.eqb_spec (e - s) (len token)) as [Hl|Hl]; cbn.
  - assert (∀ j, 0 ≤ j < len token → ∃ x y, aget text (s + j) = Some x ∧ aget token j = Some y ∧ ¬ (65 ≤ y ≤ 90)) as Hj.
    { intros j Hj. destruct (aget_Some text (s + j)) as [x Hx]; [lia|].
      destruct (aget_Some token j) as [y Hy]; [lia|]. exists x, y. split_and!; [done..|].
      rewrite Forall_forall in Hlow. by eapply Hlow, aget_elem. }
    eapply ok_mono; [apply match_bytes_ok|].
    { intros j Hr. destruct (Hj j Hr) as (x&y&->&->&_). by split. }
    cbn. intros m ->. rewrite Hl, same_text_subrange by lia. split.
    + intros Ha j x y Hr Hx Hy. destruct (Hj j Hr) as (x'&y'&Hx'&Hy'&Hlo). specialize (Ha j Hr).
      rewrite Hx, Hy in *. simplify_eq/=. by apply lowerASCII_same_l.
    + intros Ha j Hr. destruct (Hj j Hr) as (x&y&Hx&Hy&Hlo). rewrite Hx, Hy. cbn. f_equal.
      apply lowerASCII_same_l; [done|]. by apply (Ha j).
  - split; [done|]. intros Hm%Forall2_length. destruct (subrange_split text s (e - s)) as (_&Hn&_); [lia..|].
    rewrite !len_length in *. lia.
Qed.

Lemma or_else_ok a b P Q :
  ok a (λ x, x = true ↔ P) → ok b (λ x, x = true ↔ Q) → ok (or_else a b) (λ x, x = true ↔ P ∨ Q).
Proof.
  intros Ha Hb. call Ha. intros [] HP; cbn; [naive_solver|]. eapply ok_mono; [exact Hb|]. naive_solver.
Qed.
Lemma and_then_ok a b P Q :
  ok a (λ x, x = true ↔ P) → ok b (λ x, x = true ↔ Q) → ok (and_then a b) (λ x, x = true ↔ P ∧ Q).
Proof.
  intros Ha Hb. call Ha. intros [] HP; cbn; [|naive_solver]. eapply ok_mono; [exact Hb|]. naive_solver.
Qed.

(** The words that are never taken for a name. *)
Definition action_words : list (list Z) :=
  [gs "read"; gs "cat"; gs "delete"; gs "remove"; gs "show"; gs "stat"; gs "status"; gs "mode"].
Definition action_word (tok : list Z) : Prop := Exists (same_text tok) action_words.

(** The name in a text whose last word is [tok]: that word, cut to the length of a name,
    unless it is the name of an action. *)
Definition target_name (tok : list Z) : list Z :=
  if decide (action_word tok) then [] else take (Z.to_nat MaxNameLen) tok.

Lemma isActionWord_ok text s e :
  0 ≤ s ≤ e → e ≤ len text →
  ok (isActionWord text s e) (λ b, b = true ↔ action_word (subrange text s (e - s))).
Proof.
  intros Hs He. unfold isActionWord.
  eapply ok_mono; [repeat (apply or_else_ok; [apply tokenEquals_ok; [done..|by apply (bool_decide_eq_true_1 _)]|]);
    apply tokenEquals_ok; [done..|by apply (bool_decide_eq_true_1 _)]|].
  intros b ->. unfold action_word, action_words. rewrite !Exists_cons, Exists_nil. tauto.
Qed.

(** The plan of one action on the named file, every other field as in a fresh plan. *)
Definition one_action (mode : PlannerMode) (intent : IntentKind) (kind : ActionKind)
    (risk : RiskLevel) (name : list Z) : Plan :=
  MkPlan mode intent 100
    (MkAction kind risk (name ++ replicate (16 - length name) 0) (len name) (replicate 128 0) 0
       :: replicate 3 zero_Action) 1.

Lemma set_target_single mode intent kind risk target n :
  set_target target n (singleActionPlan mode intent kind risk) =
    Some (MkPlan mode intent 100
      (MkAction kind risk target n (replicate 128 0) 0 :: replicate 3 zero_Action) 1).
Proof. done. Qed.

(** Copying [n] bytes of [src] from [off] to the front of [dst]. *)
Lemma copy_from_ok (src dst : list Z) off n :
  0 ≤ off → 0 ≤ n → off + n ≤ len src → n ≤ len dst →
  ok (for_do 0 n (λ i d, v ← aget src (off + i); aset d i v) dst)
     (λ d, d = subrange src off n ++ drop (Z.to_nat n) dst).
Proof.
  intros Hoff Hn Hs Hd. destruct (subrange_split src off n) as (_&Hsl&Hsg); [done..|].
  apply (for_do_ok (λ i d, len d = len dst ∧ (∀ j, 0 ≤ j < i → aget d j = aget src (off + j)) ∧
    ∀ j, i ≤ j → aget d j = aget dst j)).
  - lia.
  - split_and!; [done|lia|done].
  - intros i d Hi (Hl & Hg & Hr). destruct (aget_Some src (off + i)) as [v Hv]; [lia|]. rewrite Hv. cbn.
    rewrite aset_Some by lia. cbn. split_and!; [by rewrite len_insert| |]; intros j Hj;
      rewrite aget_insert, Z2Nat.id by lia; case_decide; subst; try done; try lia; [apply Hg; lia|apply Hr; lia].
  - intros d (Hl & Hg & Hr). apply alist_eq.
    { rewrite len_app, Hsl, !len_length, length_drop in *. lia. }
    intros j Hj. rewrite aget_app, Hsl. case_decide.
    + rewrite Hsg by lia. apply Hg. lia.
    + rewrite Hr by lia. unfold aget. destruct (Z.leb_spec 0 j), (Z.leb_spec 0 (j - n)); try lia.
      rewrite lookup_drop. f_equal. lia.
Qed.

Lemma singleTargetPlan_spec text :
  ∃ tok, last_word text tok ∧ ∀ mode intent kind risk,
    singleTargetPlan mode intent kind risk text = Some (one_action mode intent kind risk (target_name tok)).
Proof.
  destruct (ok_elim _ _ (lastToken_ok text)) as ([s e]&E&Hs&He&Hlast).
  exists (subrange text s (e - s)). split; [done|]. intros mode intent kind risk.
  unfold singleTargetPlan. rewrite E. unfold and_then. cbn [mbind option_bind].
  destruct (subrange_split text s (e - s)) as (_&Hl&_); [lia..|]. unfold target_name.
  destruct (Z.ltb_spec s e) as [Hlt|Hge].
  2:{ replace (subrange text s (e - s)) with (@nil Z); [by destruct (decide _)|].
      symmetry. apply len_0_nil. lia. }
  destruct (ok_elim _ _ (isActionWord_ok text s e Hs He)) as (w&->&Hw).
  cbn [fmap option_fmap option_map mbind option_bind].
  destruct w; cbn [negb].
  { rewrite decide_True by (by apply Hw). done. }
  rewrite decide_False by (intros ?%Hw; done).
  set (n := if MaxNameLen <? e - s then MaxNameLen else e - s).
  assert (n = Z.min (e - s) MaxNameLen) as Hn by (unfold n, MaxNameLen; cmp; lia).
  unfold MaxNameLen in *. cbn [plan_Actions singleActionPlan]. rewrite aget_cons_0. cbn [mbind option_bind act_Target].
  destruct (ok_elim _ _ (copy_from_ok text (replicate 16 0) s n ltac:(lia) ltac:(lia) ltac:(lia)
    ltac:(rewrite len_replicate; lia))) as (d&Ed&->). rewrite Ed. cbn [mbind option_bind].
  rewrite set_target_single. unfold one_action.
  assert (subrange text s n = take (Z.to_nat 16) (subrange text s (e - s))) as Hsub.
  { unfold subrange. rewrite take_take. f_equal. lia. }
  assert (length (subrange text s n) = Z.to_nat n) as Hln.
  { destruct (subrange_split text s n) as (_&Hn'&_); [lia..|]. rewrite len_length in Hn'. lia. }
  rewrite <-Hsub, drop_replicate, len_length, Hln. do 4 f_equal; lia.
Qed.

(** ** The rules of the deterministic planner

    A text is matched against the rules in this order.  A rule applies when for one of its
    alternatives every listed token is a substring of the text, case ignored; the last
    rule also needs a name. *)
Record rule := Rule {
  r_tokens : list (list (list Z));
  r_intent : IntentKind;
  r_kind : ActionKind;
  r_risk : RiskLevel;
  r_named : bool;
  r_needs_name : bool;
}.

Definition planner_rules : list rule :=
  [ Rule [[gs "help"]; [gs "commands"]; [gs "what can you do"]] IntentShowHelp ActionShowHelp RiskSafe false false;
    Rule [[gs "memorymap"]; [gs "memory"; gs "map"]] IntentShowMemoryMap ActionShowMemoryMap RiskSafe false false;
    Rule [[gs "version"]] IntentShowVersion ActionShowVersion RiskSafe false false;
    Rule [[gs "ticks"]] IntentShowTicks ActionShowTicks RiskSafe false false;
    Rule [[gs "history"]] IntentShowHistory ActionShowHistory RiskSafe false false;
    Rule [[gs "mode"]] IntentSetMode ActionSetMode RiskSafe true false;
    Rule [[gs "delete"]; [gs "remove"]] IntentDeleteFile ActionDeleteFile RiskRisky true false;
    Rule [[gs "read"]; [gs "cat"]] IntentReadFile ActionReadFile RiskSafe true false;
    Rule [[gs "stat"]] IntentStatFile ActionStatFile RiskSafe true false;
    Rule [[gs "ls"]; [gs "list"]; [gs "file"]] IntentListFiles ActionListFiles RiskSafe false false;
    Rule [[gs "show"]] IntentReadFile ActionReadFile RiskSafe true true ].
Definition unknown_rule : rule := Rule [] IntentUnknown ActionUnknown RiskSafe false false.

Definition mentions (text : list Z) (alts : list (list (list Z))) : Prop :=
  Exists (Forall (λ tok, occurs tok text)) alts.
Definition applies (text name : list Z) (r : rule) : Prop :=
  mentions text (r_tokens r) ∧ (r_needs_name r = true → name ≠ []).

(** The first rule that applies, or the unknown request. *)
Inductive chosen (text name : list Z) : list rule → rule → Prop :=
  | chosen_none : chosen text name [] unknown_rule
  | chosen_here r rs : applies text name r → chosen text name (r :: rs) r
  | chosen_later r rs r' : ¬ applies text name r → chosen text name rs r' → chosen text name (r :: rs) r'.

Definition rule_plan (r : rule) (name : list Z) : Plan :=
  one_action PlannerModeDeterministic (r_intent r) (r_kind r) (r_risk r) (if r_named r then name else []).

(** The answer of the planner when only [rules] are left to try. *)
Definition answers (text name : list Z) (rules : list rule) (res : PlanningResult) : Prop :=
  ∃ r, chosen text name rules r ∧ res = MkPlanningResult true (rule_plan r name) MessageNone.

Lemma rule_step text name c yes no r rs :
  r_needs_name r = false → ok c (λ b, b = true ↔ mentions text (r_tokens r)) →
  ok yes (λ res, res = MkPlanningResult true (rule_plan r name) MessageNone) →
  ok no (answers text name rs) → ok (if_contains c yes no) (answers text name (r :: rs)).
Proof.
  intros Hn Hc Hy Hno. call Hc. intros [] Hb.
  - eapply ok_mono; [exact Hy|]. intros res ->. exists r. split; [|done]. apply chosen_here.
    split; [by apply Hb|by rewrite Hn].
  - eapply ok_mono; [exact Hno|]. intros res (r'&Hr&->). exists r'. split; [|done]. apply chosen_later; [|done].
    intros [Hm _]. by apply Hb in Hm.
Qed.

Lemma mentions_ok text alts c (P : Prop) :
  ok c (λ b, b = true ↔ P) → (P ↔ mentions text alts) → ok c (λ b, b = true ↔ mentions text alts).
Proof. intros Hc HP. eapply ok_mono; [exact Hc|]. intros b ->. done. Qed.

(** [mentions] for a condition of the code. *)
Ltac solve_mentions :=
  eapply mentions_ok;
  [ repeat first [apply or_else_ok | apply and_then_ok | apply contains_ok]
  | unfold mentions; cbn [r_tokens]; rewrite ?Exists_cons, ?Exists_nil, ?Forall_cons, ?Forall_nil;
    try tauto ].

(** A longer token that a shorter one of the same rule covers. *)
Lemma occurs_prefix a b text : occurs (a ++ b) text → occurs a text.
Proof.
  intros (pre&mid&post&->&Hm). apply Forall2_app_inv_r in Hm as (m1&m2&H1&_&->).
  exists pre, m1, (m2 ++ post). by rewrite <-app_assoc.
Qed.

Lemma deterministicPlan_spec text :
  ∃ tok, last_word text tok ∧
    ok (deterministicPlan text) (answers text (target_name tok) planner_rules).
Proof.
  destruct (singleTargetPlan_spec text) as (tok&Hlast&Hplan). exists tok. split; [done|].
  pose proof (occurs_prefix (gs "stat") (gs "us") text) as Hstat.
  pose proof (occurs_prefix (gs "file") (gs "s") text) as Hfile.
  unfold deterministicPlan, planner_rules. rewrite !Hplan.
  do 10 (apply rule_step; [done|solve_mentions|done|]).
  unfold if_contains. call contains_ok. intros b Hb.
  set (r := Rule _ _ _ _ _ _). assert (applies text (target_name tok) r ↔ b = true ∧ target_name tok ≠ []) as Ha.
  { unfold applies, mentions. cbn [r_tokens r_needs_name r]. rewrite Exists_cons, Exists_nil, Forall_cons, Forall_nil.
    rewrite Hb. tauto. }
  assert (¬ applies text (target_name tok) r → answers text (target_name tok) [r]
    (successfulPlan (singleActionPlan PlannerModeDeterministic IntentUnknown ActionUnknown RiskSafe))) as Hno.
  { intros Hn. exists unknown_rule. split; [|done]. apply chosen_later; [done|]. constructor. }
  destruct b; cbn [mbind option_bind].
  2:{ apply Hno. rewrite Ha. by intros []. }
  cbn [plan_Actions one_action]. rewrite aget_cons_0. cbn [mbind option_bind act_TargetLen].
  destruct (Z.ltb_spec 0 (len (target_name tok))) as [Hl|Hl]; cbn [ok].
  - exists r. split; [|done]. apply chosen_here, Ha. split; [done|]. intros Hn. rewrite Hn in Hl. by vm_compute in Hl.
  - apply Hno. rewrite Ha. intros [_ Hne]. apply Hne, len_0_nil. pose proof (len_nonneg (target_name tok)). lia.
Qed.

(** The rule that is chosen is one of the table. *)
Lemma chosen_rule text name rs r : chosen text name rs r → r = unknown_rule ∨ r ∈ rs.
Proof. induction 1; set_solver. Qed.

Lemma rule_plan_contained text name r :
  len name ≤ MaxNameLen → chosen text name planner_rules r → contained (rule_plan r name).
Proof.
  intros Hl Hc. split; [done|]. eexists. split; [done|]. unfold risky. cbn [act_Kind act_Risk rule_plan one_action].
  apply chosen_rule in Hc. unfold planner_rules in Hc. rewrite !elem_of_cons, elem_of_nil in Hc.
  destruct_or?; subst r; try done; intros Hd; destruct Hd; done.
Qed.

Lemma target_name_len tok : len (target_name tok) ≤ MaxNameLen.
Proof.
  unfold target_name. case_decide; [done|]. rewrite len_length, length_take. unfold MaxNameLen. lia.
Qed.

#[export] Instance deterministic_laws {W} (log : W → list Action) : PlannerLaws log DeterministicPlanner.
Proof.
  intros input c w. cbn. destruct (deterministicPlan_spec input) as (tok&_&Hp). call Hp.
  intros res (r&Hr&->). cbn. split; [done|]. split; [reflexivity|]. intros _.
  eapply rule_plan_contained; [apply target_name_len|done].
Qed.

(** What the runtime needs of the other end of the bridge, which may answer anything: it
    answers, executes nothing and leaves the pending plan alone. *)
Class BridgeLaws {W} (log : W → list Action) (bridge : BridgeClient W) : Prop :=
  bridge_law : ∀ request w,
    ok (bridge request w) (λ '(_, c', w'), log w' = log w ∧ ctx_frame (bq_Context request) c').

Lemma allows_spec input c kind :
  allows (newBridgeRequest input c) kind =
    Some (bool_decide (kind ∈ [ActionListFiles; ActionReadFile; ActionStatFile; ActionDeleteFile;
      ActionShowHistory; ActionShowVersion; ActionShowTicks; ActionShowMemoryMap])).
Proof. by destruct kind. Qed.

(** A plan accepted from the bridge. *)
Definition llm_plan (p : Plan) : Prop :=
  plan_wf p ∧ plan_Planner p = PlannerModeLLM ∧
  ∃ a, plan_actions p = [a] ∧ check_action PlannerModeLLM a = None ∧
    plan_Intent p = bridgeActionIntent (act_Kind a) ∧ plan_Intent p ≠ IntentUnknown.

Lemma LLM_Plan_ok {W} (log : W → list Action) bridge input c (w : W) :
  (∀ b, bridge = Some b → BridgeLaws log b) →
  ok (LLM_Plan bridge input c w)
     (λ '(res, c', w'), log w' = log w ∧ ctx_frame c c' ∧ (pr_OK res = true → llm_plan (pr_Plan res))).
Proof.
  intros Hb. unfold LLM_Plan. destruct bridge as [b|]; [|split; [done|split; [reflexivity|done]]].
  pose proof (Hb b eq_refl (newBridgeRequest input c) w) as Hl.
  destruct (b (newBridgeRequest input c) w) as [[[[okb [intent kind risk target n] reason] c'] w']|]; [|done].
  destruct Hl as [Hlog Hf]. cbn -[allows set_target validatePlan singleActionPlan].
  destruct okb; [|done]. cbn -[allows set_target validatePlan singleActionPlan].
  rewrite allows_spec. cbn [mbind option_bind].
  destruct (bool_decide (kind ∈ _)) eqn:Hin; [|done]. apply bool_decide_eq_true in Hin. cbn [negb].
  destruct (decide _) as [|Hi]; [done|]. apply dec_stable in Hi. rewrite set_target_single. cbn [mbind option_bind].
  rewrite validatePlan_spec by done. cbn [mbind option_bind].
  destruct (plan_problem _) as [m|] eqn:Hp; [done|]. cbn. split_and!; [done..|]. intros _.
  apply plan_problem_actions in Hp. split; [done|]. split; [done|]. eexists. split; [done|].
  split; [by apply Forall_inv in Hp|]. cbn. subst intent. split; [done|].
  set_unfold. by destruct Hin as [->|[->|[->|[->|[->|[->|[->|[->|[]]]]]]]]].
Qed.

(** The validator refuses an LLM plan whose destructive action is not marked risky. *)
Lemma llm_check_contained a :
  check_action PlannerModeLLM a = None → act_Kind a ≠ ActionWriteFile ∧ (destructive (act_Kind a) → risky a).
Proof.
  unfold check_action, destructive, risky. rewrite !(bool_decide_eq_true_2 (PlannerModeLLM = PlannerModeLLM)) by done.
  intros H. repeat case_match; try done. cbn [andb] in *. case_bool_decide; [done|].
  unfold actionRisk in *. destruct (act_Kind a); split; try done; intros [?|?]; try done.
Qed.

Lemma llm_plan_contained p : llm_plan p → contained p.
Proof.
  intros (Hw&_&a&Ha&Hc&_). split; [done|]. exists a. split; [done|]. by apply llm_check_contained.
Qed.

#[export] Instance llm_laws {W} (log : W → list Action) (b : BridgeClient W) :
  BridgeLaws log b → PlannerLaws log (LLMPlanner (Some b)).
Proof.
  intros Hb input c w. eapply ok_mono; [apply (LLM_Plan_ok log)|].
  - by intros b' [= <-].
  - intros [[res c'] w'] (?&?&Hp). split_and!; [done..|]. intros Hok. by apply llm_plan_contained, Hp.
Qed.

(** ** Sessions: the entry points, one after the other *)
Inductive request :=
  | ReqAction (kind : ActionKind) (intent : IntentKind) (risk : RiskLevel)
      (target : option (list Z)) (targetLen : Z) (input : option (list Z)) (inputLen : Z)
  | ReqText (input : list Z)
  | ReqConfirm (confirmed : bool)
  | ReqMode (mode : PlannerMode).

(** The arguments have the array types of the source. *)
Definition request_wf (q : request) : Prop :=
  match q with
  | ReqAction _ _ _ target _ input _ =>
      (∀ t, target = Some t → len t = MaxNameLen) ∧ (∀ i, input = Some i → len i = MaxContextInput)
  | _ => True
  end.

(** The plans a request can stand for. *)
Definition asks (q : request) (p : Plan) : Prop :=
  match q with
  | ReqAction kind intent risk target n _ _ =>
      plan_wf p ∧ plan_Intent p = intent ∧
      ∃ a, plan_actions p = [a] ∧ act_Kind a = kind ∧ act_Risk a = risk ∧
        take (Z.to_nat (act_TargetLen a)) (act_Target a) =
          match target with Some t => take (Z.to_nat n) t | None => [] end
  | ReqText _ => contained p
  | _ => False
  end.

(** The abstract protocol: from the pending plan, a request runs some actions and leaves a
    pending plan. *)
Inductive gate_step : request → option Plan → list Action → option Plan → Prop :=
  | gate_none q pd : (∀ b, q = ReqConfirm b → pd = None) → gate_step q pd [] pd
  | gate_run q pd p ran :
      asks q p → plan_problem p = None → needs_confirmation p = false →
      ran `prefix_of` plan_actions p → gate_step q pd ran pd
  | gate_hold q pd p :
      asks q p → plan_problem p = None → needs_confirmation p = true → gate_step q pd [] (Some p)
  | gate_confirm p ran :
      ran `prefix_of` plan_actions p → gate_step (ReqConfirm true) (Some p) ran None
  | gate_cancel p : gate_step (ReqConfirm false) (Some p) [] None.

Section sessions.
Context {W : Type} (log : W → list Action) (e : AllowedActionExecutor W) (configured : option (Planner W)).

Record session := MkSession { s_runtime : Runtime W; s_context : option Context; s_world : W }.

Definition serve (q : request) (s : session) : option session :=
  match q with
  | ReqAction kind intent risk target targetLen input inputLen =>
      '(_, c, w) ← RunActionRequestMessage (Some (s_runtime s)) kind intent risk target targetLen
                     input inputLen (s_context s) (s_world s);
      Some (MkSession (s_runtime s) c w)
  | ReqText input =>
      '(_, c, w) ← Run (s_runtime s) configured input (s_context s) (s_world s);
      Some (MkSession (s_runtime s) c w)
  | ReqConfirm b =>
      '(_, c, w) ← ConfirmActionMessage (Some (s_runtime s)) b (s_context s) (s_world s);
      Some (MkSession (s_runtime s) c w)
  | ReqMode m =>
      match SetPlannerMode (Some (s_runtime s)) m with
      | (_, Some r) => Some (MkSession r (s_context s) (s_world s))
      | (_, None) => None
      end
  end.

Fixpoint serve_all (qs : list request) (s : session) : option session :=
  match qs with
  | [] => Some s
  | q :: qs => s ← serve q s; serve_all qs s
  end.

Definition session_wf (s : session) : Prop :=
  rt_Executor (s_runtime s) = e ∧ ∃ c, s_context s = Some c ∧ ctx_wf c.

Context `{!ExecutorLaws log e}.
Context (Hplanner : ∀ p, configured = Some p → PlannerLaws log p).

Lemma BeginRequest_ok c input n mode :
  ctx_wf c → (∀ i, input = Some i → len i = MaxContextInput) →
  ok (BeginRequest (Some c) input n mode) (λ c', ∃ c1, c' = Some c1 ∧ ctx_frame (Some c) (Some c1)).
Proof.
  intros [Hl _] Hi. unfold BeginRequest.
  set (m := match input with None => 0 | Some _ => _ end).
  assert (0 ≤ m ≤ len (default [] input) ∧ m ≤ 128) as [Hm1 Hm2].
  { unfold m, MaxContextInput in *. destruct input as [i|]; cbn.
    2:{ pose proof (@len_nil Z). lia. }
    rewrite (Hi i) by done. cmp; lia. }
  unfold MaxContextInput in *. call copy_into_ok; [lia..|]. intros d [Hd _]. eexists. split; [done|].
  cbn. split_and!; [lia|done..].
Qed.

(** What one request that reaches [runPlan] does. *)
Lemma serve_plan q r p c w :
  rt_Executor r = e → ctx_wf c → asks q p →
  ok (runPlan r p (Some c) w)
     (λ '(_, c', w'), ∃ c1 ran, c' = Some c1 ∧ ctx_wf c1 ∧ log w' = log w ++ ran ∧
        gate_step q (pending (Some c)) ran (pending c')).
Proof.
  intros He Hc Ha. subst e.
  assert (plan_wf p) as Hw. { destruct q; [exact (proj1 Ha)|exact (proj1 Ha)|done|done]. }
  eapply ok_mono; [by apply (runPlan_ok log)|].
  intros [[res c'] w'] (ran&c1&->&[Hpre Hran]&Hlog&Hpd&Hcw). exists c1, ran. split_and!; auto.
  rewrite Hpd. unfold pending_after. destruct (plan_problem p) eqn:Hp.
  { destruct ran; [|by destruct Hran]. apply gate_none. intros b ->. done. }
  cbn [negb]. rewrite andb_true_r. destruct (needs_confirmation p) eqn:Hn.
  - destruct ran; [|destruct Hran as [_ Hran]; [done|by specialize (Hran eq_refl)]]. by eapply gate_hold.
  - by eapply gate_run.
Qed.

Definition steps_to (q : request) (s s' : session) : Prop :=
  session_wf s' ∧ ∃ ran, log (s_world s') = log (s_world s) ++ ran ∧
    gate_step q (pending (s_context s)) ran (pending (s_context s')).

Lemma steps_nothing q s c1 r :
  session_wf s → (∀ b, q ≠ ReqConfirm b) → rt_Executor r = e → ctx_frame (s_context s) (Some c1) →
  ∀ w, log w = log (s_world s) → steps_to q s (MkSession r (Some c1) w).
Proof.
  intros (_&c&Hc&Hw) Hq Hr Hf w Hlog. rewrite Hc in Hf.
  assert (ctx_wf c1) as Hw1 by exact (ctx_frame_wf (Some c) (Some c1) Hf Hw).
  split; [split; [done|by exists c1]|].
  exists []. cbn [s_world s_context]. rewrite app_nil_r. split; [done|].
  rewrite Hc, (ctx_frame_pending (Some c) (Some c1)) by done.
  apply gate_none. intros b ->. by destruct (Hq b).
Qed.

(** A request served by [runPlan] on the context [c]. *)
Lemma serve_plan_steps q s p c w :
  rt_Executor (s_runtime s) = e → ctx_wf c → asks q p → log w = log (s_world s) →
  pending (Some c) = pending (s_context s) →
  ok (runPlan (s_runtime s) p (Some c) w) (λ '(_, c', w'), steps_to q s (MkSession (s_runtime s) c' w')).
Proof.
  intros Hr Hc Ha Hlog Hpd. eapply ok_mono; [by apply (serve_plan q)|].
  intros [[res c'] w'] (c1&ran&->&Hw&Hl&Hg). split; [split; [done|by exists c1]|].
  exists ran. cbn [s_world s_context]. by rewrite <-Hlog, <-Hpd.
Qed.

Lemma serve_action_ok kind intent risk target n input m s :
  session_wf s → request_wf (ReqAction kind intent risk target n input m) →
  ok (serve (ReqAction kind intent risk target n input m) s)
     (steps_to (ReqAction kind intent risk target n input m) s).
Proof.
  intros Hs [Ht Hi]. pose proof Hs as (Hr&c&Hc&Hw).
  cbn [serve RunActionRequestMessage]. destruct ((n <? 0) || (MaxNameLen <? n)) eqn:Hn.
  { cbn. rewrite Hc. apply steps_nothing; [done..|by rewrite Hc|done]. }
  apply orb_false_iff in Hn as [Hn1%Z.ltb_ge Hn2%Z.ltb_ge]. unfold MaxNameLen in *.
  do 2 apply ok_bind. unfold RunActionRequest. rewrite Hc.
  call BeginRequest_ok; [done..|]. intros c' (c1&->&Hf).
  assert (ctx_wf c1) as Hw1 by exact (ctx_frame_wf (Some c) (Some c1) Hf Hw).
  apply ctx_frame_pending in Hf. rewrite <-Hc in Hf.
  assert (∀ p, asks (ReqAction kind intent risk target n input m) p →
    ok (runPlan (s_runtime s) p (Some c1) (s_world s))
      (λ a, ok (let '(resp, context, w) := a in Some (ar_Message (resp_Result resp), context, w))
         (λ a, ok (let '(_, c, w) := a in Some (MkSession (s_runtime s) c w))
            (steps_to (ReqAction kind intent risk target n input m) s)))) as Hrun.
  { intros p Ha. eapply ok_mono; [by apply serve_plan_steps|]. by intros [[??]?]. }
  assert (∀ name k, take (Z.to_nat k) name = match target with Some t => take (Z.to_nat n) t | None => [] end →
    asks (ReqAction kind intent risk target n input m)
    (MkPlan (rt_plannerMode (s_runtime s)) intent 100
      (MkAction kind risk name k (replicate 128 0) 0 :: replicate 3 zero_Action) 1)) as Hasks.
  { intros. split; [done|]. split; [done|]. by eexists. }
  unfold runAction. destruct target as [t|]; [|cbn [mbind option_bind]; by apply Hrun, Hasks].
  destruct (Z.ltb_spec 0 n).
  2:{ cbn [mbind option_bind]. apply Hrun, Hasks. by replace n with 0 by lia. }
  unfold MaxNameLen. destruct (Z.ltb_spec 16 n); [lia|]. cbn [plan_Actions singleActionPlan].
  rewrite aget_cons_0. cbn [mbind option_bind act_Target].
  do 2 apply ok_bind. pose proof (Ht t eq_refl).
  eapply ok_mono; [apply copy_into_ok; rewrite ?len_replicate; lia|]. intros d [Hd Hg].
  rewrite set_target_single. cbn [mbind option_bind ok]. apply Hrun, Hasks.
  rewrite len_replicate in Hd. apply alist_eq; rewrite !len_take by lia; [done|]. intros j Hj.
  rewrite !aget_take by lia. rewrite Hg, decide_True by lia. f_equal. lia.
Qed.

Lemma BeginStringRequest_ok c input mode :
  ctx_wf c →
  ok (BeginStringRequest c input mode) (λ c', ∃ c1, c' = Some c1 ∧ ctx_frame (Some c) (Some c1)).
Proof.
  intros Hc. unfold BeginStringRequest, MaxContextInput. pose proof (len_nonneg input).
  call copy_into_ok; [lia|cmp; lia|rewrite len_replicate; cmp; lia|].
  intros d [Hd _]. apply BeginRequest_ok; [done|]. intros i [= <-]. by rewrite Hd, len_replicate.
Qed.

(** The planner that answers in the current mode. *)
Lemma planning_ok (r : Runtime W) input c1 w :
  ok (match rt_plannerMode r, configured with
      | PlannerModeLLM, None => Some (failedPlan MessageLLMBridgeNotConfigured, Some c1, w)
      | PlannerModeLLM, Some p => pl_Plan p input (Some c1) w
      | _, _ => r ← deterministicPlan input; Some (r, Some c1, w)
      end)
     (λ '(res, c', w'), log w' = log w ∧ ctx_frame (Some c1) c' ∧ (pr_OK res = true → contained (pr_Plan res))).
Proof.
  pose proof (deterministic_laws log input (Some c1) w) as Hdet.
  destruct (rt_plannerMode r); [exact Hdet| |exact Hdet].
  destruct configured as [p|]; [by apply (Hplanner p eq_refl)|]. split; [done|]. split; [reflexivity|done].
Qed.

Lemma serve_text_ok input s : session_wf s → ok (serve (ReqText input) s) (steps_to (ReqText input) s).
Proof.
  intros Hs. pose proof Hs as (Hr&c&Hc&Hw). cbn [serve]. unfold Run. rewrite Hc.
  apply ok_bind. call BeginStringRequest_ok; [done|]. intros c' (c1&->&Hf).
  call planning_ok. intros [[res c2] w2] (Hlog&Hf2&Hcon).
  destruct c2 as [c2|]; [|done]. assert (ctx_frame (Some c) (Some c2)) as Hf3 by (by etrans).
  destruct (pr_OK res) eqn:Hok; cbn [negb].
  - eapply ok_mono; [apply (serve_plan_steps (ReqText input) s (pr_Plan res) c2 w2)|].
    + done.
    + exact (ctx_frame_wf (Some c) (Some c2) Hf3 Hw).
    + by apply Hcon.
    + done.
    + rewrite Hc. by apply ctx_frame_pending.
    + by intros [[??]?].
  - rewrite zero_Response_of, setResponseResult_of, setSafety_of, AddTrace_response by (cbn; lia).
    cbn [mbind option_bind ok]. apply steps_nothing; [done..| |done]. rewrite Hc.
    etrans; [exact Hf3|done].
Qed.

Lemma serve_confirm_ok b s : session_wf s → ok (serve (ReqConfirm b) s) (steps_to (ReqConfirm b) s).
Proof.
  intros Hs. pose proof Hs as (Hr&c&Hc&Hw). cbn [serve ConfirmActionMessage]. unfold ConfirmAction.
  rewrite Hc. destruct (ctx_ConfirmationPending c) eqn:Hp; cbn [negb].
  2:{ cbn. split; [split; [done|by exists c]|]. exists []. cbn [s_world s_context]. rewrite app_nil_r.
      split; [done|]. rewrite Hc. cbn. rewrite Hp. by apply gate_none. }
  assert (pending (s_context s) = Some (ctx_PendingPlan c)) as Hpd by (rewrite Hc; cbn; by rewrite Hp).
  destruct Hw as [Hli Hpw]. do 2 apply ok_bind. destruct b; cbn [negb].
  - assert (ExecutorLaws log (rt_Executor (s_runtime s))) by (by rewrite Hr).
    eapply ok_mono; [by apply (runPlan_ok log)|].
    intros [[res c'] w'] (ran&c1&->&[Hpre _]&Hlog&Hpd'&Hcw). cbn.
    split; [split; [done|exists c1; split; [done|by apply Hcw]]|]. exists ran. cbn [s_world s_context]. split; [done|].
    rewrite Hpd, Hpd'. unfold pending_after. rewrite andb_false_r. cbn. destruct (plan_problem _); by apply gate_confirm.
  - rewrite zero_Response_of, setResponseResult_of, setSafety_of, AddTrace_response by (cbn; lia).
    cbn [mbind option_bind]. rewrite finish_spec by done. cbn -[response_of].
    set (c1 := set_Pending zero_Plan false c). set (f := finished _ _ _ c1).
    assert (ctx_frame (Some c1) (Some f)) as Hf by apply (ctx_frame_finished _ _ _ (Some c1)).
    split; [split; [done|]|].
    + exists f. split; [done|]. apply (ctx_frame_wf (Some c1) (Some f)); done.
    + exists []. cbn [s_world s_context]. rewrite app_nil_r. split; [done|].
      rewrite Hpd, (ctx_frame_pending (Some c1) (Some f)) by done. apply gate_cancel.
Qed.

Lemma serve_ok q s : session_wf s → request_wf q → ok (serve q s) (steps_to q s).
Proof.
  intros Hs Hq. destruct q.
  - by apply serve_action_ok.
  - by apply serve_text_ok.
  - by apply serve_confirm_ok.
  - pose proof Hs as (Hr&c&Hc&Hw). cbn [serve SetPlannerMode].
    destruct mode; [|destruct (rt_llmConfigured _)|]; cbn; rewrite Hc;
      apply steps_nothing; try done; rewrite Hc; reflexivity.
Qed.
End sessions.

(** ** Sequences of abstract steps *)
Inductive gate_steps : list request → option Plan → list Action → option Plan → Prop :=
  | gate_steps_nil pd : gate_steps [] pd [] pd
  | gate_steps_cons q qs pd ran pd1 ran' pd2 :
      gate_step q pd ran pd1 → gate_steps qs pd1 ran' pd2 → gate_steps (q :: qs) pd (ran ++ ran') pd2.

(** A pending plan was held by a request that asked for it. *)
Lemma gate_steps_pending qs pd ran p :
  gate_steps qs pd ran (Some p) →
  pd = Some p ∨
  ∃ qs0 q qs1, qs = qs0 ++ q :: qs1 ∧ asks q p ∧ needs_confirmation p = true.
Proof.
  intros H. remember (Some p) as pd2 eqn:E. revert E.
  induction H as [|q qs pd ran pd1 ran' pd2 Hstep _ IH]; intros E; [by left|].
  destruct (IH E) as [->|(qs0&q0&qs1&->&?&?)].
  - inversion Hstep; simplify_eq; try (by left). right. by exists [], q, qs.
  - right. by exists (q :: qs0), q0, qs1.
Qed.

Lemma needs_confirmation_false p a :
  needs_confirmation p = false → a ∈ plan_actions p → ¬ risky a.
Proof.
  unfold needs_confirmation. intros Hn Ha Hr. apply bool_decide_eq_false in Hn. apply Hn.
  apply Exists_exists. by exists a.
Qed.

Lemma prefix_elem_of {A} (l k : list A) x : l `prefix_of` k → x ∈ l → x ∈ k.
Proof. intros [k' ->]. set_solver. Qed.

(** A risky action that ran belonged to the plan pending at a confirmation. *)
Lemma gate_steps_risky qs pd ran pd' a :
  gate_steps qs pd ran pd' → a ∈ ran → risky a →
  ∃ qs1 qs2 ran1 p, qs = qs1 ++ ReqConfirm true :: qs2 ∧ gate_steps qs1 pd ran1 (Some p) ∧
    a ∈ plan_actions p.
Proof.
  intros H Ha Hr. induction H as [|q qs pd ran pd1 ran' pd2 Hstep Hrest IH]; [set_solver|].
  apply elem_of_app in Ha as [Ha|Ha].
  - inversion Hstep; subst; try set_solver.
    + exfalso. eapply needs_confirmation_false; [done|by eapply prefix_elem_of|done].
    + exists [], qs, [], p. split_and!; [done|constructor|by eapply prefix_elem_of].
  - destruct (IH Ha) as (qs1&qs2&ran1&p&->&Hs&?). exists (q :: qs1), qs2, (ran ++ ran1), p.
    split_and!; [done|by econstructor|done].
Qed.

Lemma gate_step_text input pd ran pd' :
  gate_step (ReqText input) pd ran pd' →
  ran = [] ∨ ∃ p, contained p ∧ needs_confirmation p = false ∧ ran `prefix_of` plan_actions p.
Proof. inversion 1; subst; auto. right. by exists p. Qed.

Section session_theorems.
Context {W : Type} (log : W → list Action) (e : AllowedActionExecutor W) (configured : option (Planner W)).
Context `{!ExecutorLaws log e}.
Context (Hplanner : ∀ p, configured = Some p → PlannerLaws log p).

Lemma serve_all_ok qs : ∀ s,
  session_wf e s → Forall request_wf qs →
  ok (serve_all configured qs s)
     (λ s', session_wf e s' ∧ ∃ ran, log (s_world s') = log (s_world s) ++ ran ∧
        gate_steps qs (pending (s_context s)) ran (pending (s_context s'))).
Proof.
  induction qs as [|q qs IH]; intros s Hs Hq; cbn.
  { split; [done|]. exists []. rewrite app_nil_r. split; [done|constructor]. }
  inversion Hq as [|? ? Hq1 Hq2]; subst.
  apply ok_bind. eapply ok_mono; [by apply (serve_ok log e)|]. intros s1 (Hs1&ran&Hlog&Hstep).
  eapply ok_mono; [by apply IH|]. intros s2 (Hs2&ran'&Hlog'&Hsteps). split; [done|].
  exists (ran ++ ran'). split; [by rewrite Hlog', Hlog, app_assoc|by econstructor].
Qed.

(** C4: Over any sequence of requests (actions, free text for either planner, confirmations,
    mode switches) the agent returns, refines the abstract confirmation protocol, and
    every risky action it executed was asked for by an earlier request whose plan was
    held and then explicitly confirmed. *)
Theorem risky_action_confirmed qs s :
  session_wf e s → pending (s_context s) = None → Forall request_wf qs →
  ok (serve_all configured qs s)
     (λ s', ∃ ran, log (s_world s') = log (s_world s) ++ ran ∧
        gate_steps qs None ran (pending (s_context s')) ∧
        ∀ a, a ∈ ran → risky a →
          ∃ qs0 q qs1 qs2 p, qs = qs0 ++ q :: qs1 ++ ReqConfirm true :: qs2 ∧
            asks q p ∧ needs_confirmation p = true ∧ a ∈ plan_actions p).
Proof.
  intros Hs Hpd Hq. eapply ok_mono; [by apply serve_all_ok|].
  intros s' (_&ran&Hlog&Hsteps). rewrite Hpd in Hsteps. exists ran. split_and!; [done..|].
  intros a Ha Hr. destruct (gate_steps_risky _ _ _ _ _ Hsteps Ha Hr) as (qs1&qs2&ran1&p&->&Hs1&Hap).
  destruct (gate_steps_pending _ _ _ _ Hs1) as [?|(qs0&q&qs3&->&?&?)]; [done|].
  exists qs0, q, qs3, qs2, p. split_and!; try done. by rewrite <-app_assoc.
Qed.
End session_theorems.

(** C17: [runPlan] computes the reference outcome of a request; confirming runs exactly the
    pending plan with the pending slot cleared first, cancelling drops it and touches
    nothing; with nothing pending neither does anything. *)
Theorem runPlan_correct {W} (r : Runtime W) (p : Plan) (c : Context) (w : W) :
  plan_wf p → plan_wf (ctx_PendingPlan c) →
  runPlan r p (Some c) w = request_outcome r p (Some c) false w ∧
  (ctx_ConfirmationPending c = true →
     let c0 := set_Pending zero_Plan false c in
     ConfirmAction r true (Some c) w = request_outcome r (ctx_PendingPlan c) (Some c0) true w ∧
     ConfirmAction r false (Some c) w =
       Some (closing (ctx_PendingPlan c) [MkTraceEntry TraceSafety TraceDetailRejected]
               (MkActionResult false MessageActionCancelled)
               (MkSafetyDecision SafetyRejected MessageActionCancelled) (Some c0) w)) ∧
  (ctx_ConfirmationPending c = false → ∀ b,
     ConfirmAction r b (Some c) w =
       Some (response_of [] (MkActionResult false MessageActionCancelled)
               (MkSafetyDecision SafetyRejected MessageActionCancelled), Some c, w)).
Proof.
  intros Hw Hpw. split_and!.
  - by apply runPlan_spec.
  - intros Hp. unfold ConfirmAction. rewrite Hp. cbn [negb]. split; [by apply runPlan_spec|].
    rewrite zero_Response_of, setResponseResult_of, setSafety_of, AddTrace_response by (cbn; lia).
    cbn [mbind option_bind]. by apply finish_spec.
  - intros Hp b. unfold ConfirmAction. by rewrite Hp.
Qed.

(** C16: Whatever the text, whatever mode the runtime is in and whatever the other end of the
    bridge answers, a text request executes at most one action, which is neither risky
    nor destructive. *)
Theorem text_request_contained {W} (log : W → list Action) (r : Runtime W) (bridge : BridgeClient W)
    (input : list Z) (c : Context) (w : W) :
  ExecutorLaws log (rt_Executor r) → BridgeLaws log bridge → ctx_wf c →
  ok (Run r (Some (LLMPlanner (Some bridge))) input (Some c) w)
     (λ '(_, _, w'), log w' = log w ∨
        ∃ a, log w' = log w ++ [a] ∧ ¬ risky a ∧ ¬ destructive (act_Kind a)).
Proof.
  intros He Hb Hc.
  assert (∀ p, Some (LLMPlanner (Some bridge)) = Some p → PlannerLaws log p) as Hpl.
  { intros p [= <-]. apply _. }
  pose proof (serve_text_ok log (rt_Executor r) _ Hpl input (MkSession r (Some c) w)) as Hserve.
  specialize (Hserve ltac:(split; [done|by exists c])). cbn [serve s_runtime s_context s_world] in Hserve.
  destruct (Run r _ input (Some c) w) as [[[resp c'] w']|]; [|done].
  cbn [mbind option_bind ok] in *. destruct Hserve as (_&ran&Hlog&Hstep). cbn [s_world s_context] in *.
  destruct ran as [|a ran]; [left; by rewrite Hlog, app_nil_r|right].
  apply gate_step_text in Hstep as [?|(p&(_&a'&Ha'&Hcon)&Hn&Hpre)]; [done|]. rewrite Ha' in Hpre.
  assert (a = a' ∧ ran = []) as [-> ->].
  { destruct Hpre as [k Hk]. destruct ran; cbn in Hk; by simplify_eq. }
  assert (¬ risky a') as Hr. { eapply needs_confirmation_false; [done|]. rewrite Ha'. set_solver. }
  exists a'. split_and!; [done..|]. intros Hd. by apply Hr, Hcon.
Qed.

(** C35: The deterministic planner answers every text with the plan of the first rule of its
    table that applies, and with the unknown action when none does: the tokens of a rule
    are looked for as substrings, case ignored; a plan that works on a file names the last
    word of the text, cut to 16 bytes, or no file when that word is missing or is itself
    the name of an action.  A deletion is marked risky. *)
Theorem deterministicPlan_correct (text : list Z) :
  ∃ tok r, last_word text tok ∧ chosen text (target_name tok) planner_rules r ∧
    deterministicPlan text = Some (MkPlanningResult true (rule_plan r (target_name tok)) MessageNone).
Proof.
  destruct (deterministicPlan_spec text) as (tok&Hlast&Hok). exists tok.
  destruct (ok_elim _ _ Hok) as (res&E&r&Hr&->). by exists r.
Qed.

(** Two of its plans: a deletion with its target, and a command word that is no target. *)
Example demo_plans :
  deterministicPlan (gs "please Delete notes ") =
    Some (MkPlanningResult true
      (one_action PlannerModeDeterministic IntentDeleteFile ActionDeleteFile RiskRisky (gs "notes")) MessageNone) ∧
  deterministicPlan (gs "a file to READ") =
    Some (MkPlanningResult true
      (one_action PlannerModeDeterministic IntentReadFile ActionReadFile RiskSafe []) MessageNone).
Proof. vm_compute. split; reflexivity. Qed.

(** ** A concrete environment: handlers that only record their actions *)
Definition demo_handler : ActionHandler (list Action) :=
  λ a c w, Some (MkActionResult true MessageOK, c, w ++ [a]).
Definition demo_executor : AllowedActionExecutor (list Action) :=
  MkExecutor (Some demo_handler) (Some demo_handler) None (Some demo_handler) (Some demo_handler)
    (Some demo_handler) (Some demo_handler) (Some demo_handler) (Some demo_handler)
    (Some demo_handler) (Some demo_handler).
(** A bridge that asks for the deletion of a file, whatever it is told. *)
Definition demo_bridge : BridgeClient (list Action) := λ request w,
  Some (MkBridgeResult true
          (MkBridgeResponse IntentDeleteFile ActionDeleteFile RiskRisky
             (gs "notes" ++ replicate 11 0) 5) MessageNone, bq_Context request, w).
Definition demo_runtime : Runtime (list Action) :=
  MkRuntime demo_executor true PlannerModeLLM true.
Definition demo_session : session := MkSession demo_runtime (Some zero_Context) [].
Definition demo_requests : list request :=
  [ReqText (gs "tidy up"); ReqMode PlannerModeDeterministic; ReqText (gs "show version"); ReqConfirm true].

Lemma demo_executor_laws : ExecutorLaws id demo_executor.
Proof.
  intros h a c w Hh. assert (h = demo_handler) as ->.
  { unfold handlers, demo_executor in Hh. cbn in Hh. set_unfold. naive_solver. }
  split; [done|reflexivity].
Qed.
Lemma demo_bridge_laws : BridgeLaws id demo_bridge.
Proof. intros request w. split; [done|reflexivity]. Qed.
Lemma zero_ctx_wf : ctx_wf zero_Context.
Proof. done. Qed.

(** The bridge's deletion is held while another request runs, and executed once confirmed. *)
Lemma risky_action_confirmed_witness :
  option_map (λ s, map act_Kind (s_world s))
    (serve_all (Some (LLMPlanner (Some demo_bridge))) demo_requests demo_session) =
    Some [ActionShowVersion; ActionDeleteFile] ∧
  ok (serve_all (Some (LLMPlanner (Some demo_bridge))) demo_requests demo_session)
     (λ s', ∃ ran, s_world s' = [] ++ ran ∧ gate_steps demo_requests None ran (pending (s_context s')) ∧
        ∀ a, a ∈ ran → risky a →
          ∃ qs0 q qs1 qs2 p, demo_requests = qs0 ++ q :: qs1 ++ ReqConfirm true :: qs2 ∧
            asks q p ∧ needs_confirmation p = true ∧ a ∈ plan_actions p).
Proof.
  split; [vm_compute; reflexivity|].
  refine (risky_action_confirmed id demo_executor _ (ExecutorLaws0 := demo_executor_laws) _
            demo_requests demo_session _ _ _).
  - intros p [= <-]. apply llm_laws, demo_bridge_laws.
  - split; [done|]. exists zero_Context. split; [done|apply zero_ctx_wf].
  - done.
  - repeat constructor.
Defined.

Definition demo_plan : Plan :=
  singleActionPlan PlannerModeDeterministic IntentShowTicks ActionShowTicks RiskSafe.
Definition demo_pending : Context :=
  set_Pending (MkPlan PlannerModeDeterministic IntentDeleteFile 100
    (MkAction ActionDeleteFile RiskRisky (gs "notes" ++ replicate 11 0) 5 (replicate 128 0) 0
       :: replicate 3 zero_Action) 1) true zero_Context.

Lemma runPlan_correct_witness :
  runPlan demo_runtime demo_plan (Some demo_pending) [] =
    request_outcome demo_runtime demo_plan (Some demo_pending) false [] ∧
  ConfirmAction demo_runtime true (Some demo_pending) [] =
    request_outcome demo_runtime (ctx_PendingPlan demo_pending)
      (Some (set_Pending zero_Plan false demo_pending)) true [] ∧
  option_map (λ o, map act_Kind o.2) (ConfirmAction demo_runtime true (Some demo_pending) []) =
    Some [ActionDeleteFile].
Proof.
  destruct (runPlan_correct demo_runtime demo_plan demo_pending []) as (H1&H2&_); [done..|].
  split; [exact H1|]. split; [by apply H2|]. vm_compute. reflexivity.
Defined.

Lemma text_request_contained_witness :
  ok (Run demo_runtime (Some (LLMPlanner (Some demo_bridge))) (gs "tidy up") (Some zero_Context) [])
     (λ '(_, _, w'), w' = [] ∨ ∃ a, w' = [] ++ [a] ∧ ¬ risky a ∧ ¬ destructive (act_Kind a)).
Proof.
  exact (text_request_contained id demo_runtime demo_bridge (gs "tidy up") zero_Context []
           demo_executor_laws demo_bridge_laws zero_ctx_wf).
Defined.
