(* ===== verification/Disk.v ===== *)
(** * The disk interface

    What [src/fs/fat16] uses of [src/drivers/ata]: [ReadSector] fills a 512-byte buffer,
    [WriteSector] stores one; both report success.  [DiskLaws] is the contract that the
    file system is proved against and that the driver discharges. *)
From S2P Require Import Prelude.
Local Open Scope Z_scope.

Definition sector_size : Z := 512.

(** A sector is 512 bytes. *)
Definition sector_ok (b : list Z) : Prop := len b = sector_size ∧ Forall (λ x, in_u8 x) b.

Class Disk (D : Type) := {
  ReadSector : Z → list Z → D → option (bool * list Z * D);
  WriteSector : Z → list Z → D → option (bool * D);
}.

(** The contents of a disk with sector [lba] replaced. *)
Definition with_sector (lba : Z) (b : list Z) (f : Z → list Z) : Z → list Z :=
  λ l, if decide (l = lba) then b else f l.

(** [sectors d] is what is stored; [disk_ok d] an invariant of the device; [answers d lba]
    says that the device completes transfers of the sector [lba]. *)
Class DiskLaws (D : Type) `{!Disk D} := {
  disk_ok : D → Prop;
  sectors : D → Z → list Z;
  answers : D → Z → Prop;
  sectors_ok d lba : disk_ok d → sector_ok (sectors d lba);
  read_law lba buf d :
    disk_ok d → 0 ≤ lba < 2 ^ 28 → sector_ok buf →
    ok (ReadSector lba buf d) (λ '(r, buf', d'),
      disk_ok d' ∧ (∀ l, sectors d' l = sectors d l) ∧ (∀ l, answers d l → answers d' l) ∧
      (if r : bool then buf' = sectors d lba else buf' = buf) ∧ (answers d lba → r = true));
  write_law lba buf d :
    disk_ok d → 0 ≤ lba < 2 ^ 28 → sector_ok buf →
    ok (WriteSector lba buf d) (λ '(r, d'),
      disk_ok d' ∧ (∀ l, answers d l → answers d' l) ∧ (answers d lba → r = true) ∧
      ((∀ l, sectors d' l = with_sector lba buf (sectors d) l) ∨
       r = false ∧ (∀ l, sectors d' l = sectors d l)));
}.

(** ** A disk in memory, for the examples: [capacity] sectors, zero when never written *)
Record ramdisk := RamDisk { rd_data : gmap Z (list Z); rd_capacity : Z }.

Definition rd_sector (d : ramdisk) (lba : Z) : list Z := default (replicate 512 0) (rd_data d !! lba).

#[export] Instance ramdisk_disk : Disk ramdisk := {
  ReadSector lba buf d :=
    if lba <? rd_capacity d then Some (true, rd_sector d lba, d) else Some (false, buf, d);
  WriteSector lba buf d :=
    if lba <? rd_capacity d then Some (true, RamDisk (<[lba := buf]> (rd_data d)) (rd_capacity d))
    else Some (false, d);
}.

Lemma zero_sector_ok : sector_ok (replicate 512 0).
Proof. split; [by rewrite len_replicate|]. by apply Forall_replicate. Qed.

#[export, refine] Instance ramdisk_laws : DiskLaws ramdisk := {
  disk_ok d := ∀ lba b, rd_data d !! lba = Some b → sector_ok b;
  sectors := rd_sector;
  answers d lba := lba < rd_capacity d;
}.
Proof.
  - intros d lba Hd. unfold rd_sector. destruct (rd_data d !! lba) eqn:E; [by eapply Hd|apply zero_sector_ok].
  - intros lba buf d Hd Hlba Hbuf. cbn. destruct (Z.ltb_spec lba (rd_capacity d)); cbn; split_and!; try done; lia.
  - intros lba buf d Hd Hlba Hbuf. cbn. destruct (Z.ltb_spec lba (rd_capacity d)); cbn; split_and!; try done.
    + intros l b. destruct (decide (l = lba)) as [->|]; [rewrite lookup_insert_eq; by intros [= <-]|].
      rewrite lookup_insert_ne by done. apply Hd.
    + left. intros l. unfold rd_sector, with_sector. cbn. case_decide; [subst; by rewrite lookup_insert_eq|].
      by rewrite lookup_insert_ne.
    + lia.
    + by right.
Defined.

(** ** Totality: what the code relies on before anything is known about the volume.  A
    transfer returns, with a whole sector, for every 32-bit sector number. *)
Class DiskTotal (D : Type) `{!Disk D} := {
  disk_safe : D → Prop;
  read_total lba buf d :
    disk_safe d → in_u32 lba → sector_ok buf →
    ok (ReadSector lba buf d) (λ '(_, b, d'), sector_ok b ∧ disk_safe d');
  write_total lba buf d :
    disk_safe d → in_u32 lba → sector_ok buf →
    ok (WriteSector lba buf d) (λ '(_, d'), disk_safe d');
}.

#[export, refine] Instance ramdisk_total : DiskTotal ramdisk := {
  disk_safe d := ∀ lba b, rd_data d !! lba = Some b → sector_ok b;
}.
Proof.
  - intros lba buf d Hd _ Hb. cbn. destruct (lba <? rd_capacity d); cbn; [|done]. split; [|done].
    unfold rd_sector. destruct (rd_data d !! lba) eqn:E; [by eapply Hd|apply zero_sector_ok].
  - intros lba buf d Hd _ Hb. cbn. destruct (lba <? rd_capacity d); cbn; [|done].
    intros l b. destruct (decide (l = lba)) as [->|]; [rewrite lookup_insert_eq; by intros [= <-]|].
    rewrite lookup_insert_ne by done. apply Hd.
Defined.
