(* ===== verification/Ata.v ===== *)
(** * Package [drivers/ata]: the PIO disk driver

    [src/drivers/ata/ata.go] over the port instructions ([insw] and [outsw] are the
    string instructions of [src/boot/stubs_amd64.s]).  [AtaDevice] states what a drive
    does with its registers; under it the driver discharges the disk contract of
    [Disk.v]. *)
From S2P Require Import Prelude PortIO Disk.
Local Open Scope Z_scope.

Definition Data : Z := 0x1F0.
Definition ErrFeat : Z := 0x1F1.
Definition SecCount : Z := 0x1F2.
Definition LBALo : Z := 0x1F3.
Definition LBAMid : Z := 0x1F4.
Definition LBAHi : Z := 0x1F5.
Definition DriveHead : Z := 0x1F6.
Definition StatusCmd : Z := 0x1F7.
Definition CmdRead : Z := 0x20.
Definition CmdWrite : Z := 0x30.
Definition CmdFlush : Z := 0xE7.
Definition ataTimeout : Z := 100000.

Record LBARegs := MkLBARegs { rDriveHead : Z; rLBALo : Z; rLBAMid : Z; rLBAHi : Z }.

Definition LBA28ToRegs (lba : Z) : LBARegs :=
  MkLBARegs (Z.lor 0xE0 (u8 (Z.land (Z.shiftr lba 24) 0x0F))) (u8 lba) (u8 (Z.shiftr lba 8))
    (u8 (Z.shiftr lba 16)).

Section driver.
Context {D : Type} `{!PortIO D}.

Definition waitBusy (d : D) : option (bool * D) :=
  loop_end
    (for_range 0 ataTimeout
       (λ _ d, let '(status, d) := inb StatusCmd d in
          if Z.land status 0x80 =? 0 then Some (inr (true, d)) else Some (inl d)) d)
    (λ d, Some (false, d)).

Definition waitDRQ (d : D) : option (bool * D) :=
  loop_end
    (for_range 0 ataTimeout
       (λ _ d, let '(status, d) := inb StatusCmd d in
          if negb (Z.land status 0x01 =? 0) then Some (inr (false, d))
          else if negb (Z.land status 0x08 =? 0) then Some (inr (true, d)) else Some (inl d)) d)
    (λ d, Some (false, d)).

(** [rep insw]: [count] words, each stored low byte first. *)
Fixpoint insw (port : Z) (count : nat) (d : D) : list Z * D :=
  match count with
  | O => ([], d)
  | S n =>
      let '(v, d) := inw port d in
      let '(rest, d) := insw port n d in
      (v `mod` 256 :: v / 256 :: rest, d)
  end.

(** [rep outsw]: the words of a buffer, low byte first. *)
Fixpoint outsw (port : Z) (bytes : list Z) (d : D) : D :=
  match bytes with
  | lo :: hi :: rest => outsw port rest (outw port (lo + 256 * hi) d)
  | _ => d
  end.

Definition program (lba cmd : Z) (d : D) : D :=
  let regs := LBA28ToRegs lba in
  let d := outb DriveHead (rDriveHead regs) d in
  let d := outb SecCount 1 d in
  let d := outb LBALo (rLBALo regs) d in
  let d := outb LBAMid (rLBAMid regs) d in
  let d := outb LBAHi (rLBAHi regs) d in
  outb StatusCmd cmd d.

Definition ata_ReadSector (lba : Z) (buf : list Z) (d : D) : option (bool * list Z * D) :=
  '(ready, d) ← waitBusy d;
  if negb ready then Some (false, buf, d)
  else
    let d := program lba CmdRead d in
    '(drq, d) ← waitDRQ d;
    if negb drq then Some (false, buf, d)
    else let '(bytes, d) := insw Data 256 d in Some (true, bytes, d).

Definition ata_WriteSector (lba : Z) (data : list Z) (d : D) : option (bool * D) :=
  '(ready, d) ← waitBusy d;
  if negb ready then Some (false, d)
  else
    let d := program lba CmdWrite d in
    '(drq, d) ← waitDRQ d;
    if negb drq then Some (false, d)
    else
      let d := outsw Data data d in
      let d := outb StatusCmd CmdFlush d in
      waitBusy d.

#[export] Instance ata_disk : Disk D := {
  ReadSector := ata_ReadSector;
  WriteSector := ata_WriteSector;
}.
End driver.

(** ** What the drive does *)
(** What a drive is doing: nothing; a command accepted and the data not yet announced; the
    bytes still to deliver; the bytes received so far for a sector; a write that failed
    after its data was taken. *)
Inductive phase :=
  | Idle
  | Fetch (lba : Z)
  | Deliver (bytes : list Z)
  | Accept (lba : Z)
  | Collect (lba : Z) (bytes : list Z)
  | Failed.

(** The registers; whether the drive has been seen not busy since the last command; the
    phase; the sectors, and which of them cannot be written. *)
Record drive := MkDrive {
  v_head : Z; v_count : Z; v_lo : Z; v_mid : Z; v_hi : Z;
  v_ready : bool;
  v_phase : phase;
  v_store : Z → list Z;
  v_bad : Z → bool;
}.

Definition set_regs (head count lo mid hi : Z) (v : drive) : drive :=
  MkDrive head count lo mid hi (v_ready v) (v_phase v) (v_store v) (v_bad v).
Definition set_phase (ready : bool) (p : phase) (v : drive) : drive :=
  MkDrive (v_head v) (v_count v) (v_lo v) (v_mid v) (v_hi v) ready p (v_store v) (v_bad v).
Definition set_sector (lba : Z) (b : list Z) (v : drive) : drive :=
  MkDrive (v_head v) (v_count v) (v_lo v) (v_mid v) (v_hi v) (v_ready v) (v_phase v)
    (with_sector lba b (v_store v)) (v_bad v).

(** The sector the registers name: with the LBA bit (6) set and the drive bit (4) clear in
    the head register, and a count of one sector, it is the 28-bit address; other settings
    (cylinder addressing, the second drive, several sectors) are not described here. *)
Definition addressed (v : drive) : option Z :=
  if Z.testbit (v_head v) 6 && negb (Z.testbit (v_head v) 4) && (v_count v =? 1)
  then Some ((v_head v) `mod` 16 * 2 ^ 24 + v_hi v * 2 ^ 16 + v_mid v * 2 ^ 8 + v_lo v)
  else None.

(** The bits of the status: busy, data request, error. *)
Definition BSY (s : Z) : bool := Z.testbit s 7.
Definition DRQ (s : Z) : bool := Z.testbit s 3.
Definition ERR (s : Z) : bool := Z.testbit s 0.
Arguments BSY : simpl never.
Arguments DRQ : simpl never.
Arguments ERR : simpl never.

(** The data phase that follows the command phase [p]. *)
Definition data_phase (f : Z → list Z) (p : phase) : phase :=
  match p with Fetch lba => Deliver (f lba) | Accept lba => Collect lba [] | p => p end.

(** A command that ends with an error. *)
Definition aborted (p : phase) : phase :=
  match p with Fetch _ | Accept _ => Idle | p => p end.

(** What reading the status [s] shows: while the drive is busy nothing; then an error ends
    the command, and a data request without error announces the data phase. *)
Definition after_status (s : Z) (v : drive) : drive :=
  if BSY s then v
  else if ERR s then set_phase true (aborted (v_phase v)) v
  else if DRQ s then set_phase true (data_phase (v_store v) (v_phase v)) v
  else set_phase true (v_phase v) v.

(** A word of a sector that is being written.  The 256th completes it: the drive turns busy
    and stores the sector, or fails on one that cannot be written and leaves it with
    whatever contents. *)
Definition after_word (lo hi : Z) (v v' : drive) : Prop :=
  ∀ lba bytes, v_phase v = Collect lba bytes →
    if decide (len bytes + 2 = sector_size) then
      if v_bad v lba
      then ∃ junk, sector_ok junk ∧ v' = set_sector lba junk (set_phase false Failed v)
      else v' = set_sector lba (bytes ++ [lo; hi]) (set_phase false Idle v)
    else v' = set_phase (v_ready v) (Collect lba (bytes ++ [lo; hi])) v.

(** The behaviour of the registers that the driver relies on, through a view of the
    hardware state.  Registers and commands are only described for a drive seen not busy.
    [status_busy]: while busy preparing a transfer a drive keeps DRQ and ERR clear
    ([waitDRQ] does not look at BSY).  [flush_law]: a flush right after the last word, which
    the driver sends without waiting, is executed or ignored.  [drive_responds d lba] says
    that the drive leaves the busy state and accepts commands for the sector [lba] within
    the driver's poll budget. *)
Class AtaDevice (D : Type) `{!PortIO D} := {
  view : D → drive;
  drive_responds : D → Z → Prop;
  status_law d :
    let '(s, d') := inb StatusCmd d in
    in_u8 s ∧ view d' = after_status s (view d) ∧ (∀ l, drive_responds d l → drive_responds d' l);
  status_busy d : let s := (inb StatusCmd d).1 in BSY s = true → DRQ s = false ∧ ERR s = false;
  status_failed d : let s := (inb StatusCmd d).1 in
    v_phase (view d) = Failed → BSY s = false → ERR s = true;
  register_law x d : let v := view d in v_ready v = true →
    view (outb DriveHead x d) = set_regs x (v_count v) (v_lo v) (v_mid v) (v_hi v) v ∧
    view (outb SecCount x d) = set_regs (v_head v) x (v_lo v) (v_mid v) (v_hi v) v ∧
    view (outb LBALo x d) = set_regs (v_head v) (v_count v) x (v_mid v) (v_hi v) v ∧
    view (outb LBAMid x d) = set_regs (v_head v) (v_count v) (v_lo v) x (v_hi v) v ∧
    view (outb LBAHi x d) = set_regs (v_head v) (v_count v) (v_lo v) (v_mid v) x v;
  command_law d l :
    v_ready (view d) = true → addressed (view d) = Some l →
    view (outb StatusCmd CmdRead d) = set_phase false (Fetch l) (view d) ∧
    view (outb StatusCmd CmdWrite d) = set_phase false (Accept l) (view d);
  flush_law d :
    v_phase (view d) = Idle ∨ v_phase (view d) = Failed →
    view (outb StatusCmd CmdFlush d) = set_phase false (v_phase (view d)) (view d);
  word_in_law d lo hi rest :
    v_phase (view d) = Deliver (lo :: hi :: rest) →
    (inw Data d).1 = lo + 256 * hi ∧ view (inw Data d).2 = set_phase (v_ready (view d)) (Deliver rest) (view d);
  word_out_law lo hi d :
    in_u8 lo → in_u8 hi → after_word lo hi (view d) (view (outw Data (lo + 256 * hi) d));
  responds_ports d l p v :
    drive_responds d l → drive_responds (outb p v d) l ∧ drive_responds (outw p v d) l ∧
      drive_responds (inw p d).2 l;
  responds_busy d l : drive_responds d l → ok (waitBusy d) (λ '(r, _), r = true);
  responds_drq d l :
    drive_responds d l → v_phase (view d) = Fetch l ∨ v_phase (view d) = Accept l →
    ok (waitDRQ d) (λ '(r, _), r = true);
}.

(** ** The driver against the device *)
Lemma lba28_roundtrip lba :
  0 ≤ lba →
  let r := LBA28ToRegs lba in
  in_u8 (rDriveHead r) ∧ in_u8 (rLBALo r) ∧ in_u8 (rLBAMid r) ∧ in_u8 (rLBAHi r) ∧
  (rDriveHead r) / 16 = 14 ∧
  (rDriveHead r) `mod` 16 * 2 ^ 24 + rLBAHi r * 2 ^ 16 + rLBAMid r * 2 ^ 8 + rLBALo r = lba `mod` 2 ^ 28.
Proof.
  intros Hlba. cbn -[Z.pow Z.lor].
  assert (u8 (Z.land (Z.shiftr lba 24) 15) = (lba / 2 ^ 24) `mod` 16) as ->.
  { change 15 with (Z.ones 4). rewrite Z.land_ones, Z.shiftr_div_pow2 by lia.
    apply u8_small. change (2 ^ 4) with 16. mod_lia. }
  change 224 with (Z.shiftl 14 4). rewrite lor_shiftl_add by (mod_lia || lia).
  rewrite !Z.shiftr_div_pow2 by lia. unfold u8, wrap. split_and!; mod_lia.
Qed.

(** The registers of [LBA28ToRegs] with a count of 1 name the sector. *)
Lemma addressed_regs lba v :
  0 ≤ lba < 2 ^ 28 → let r := LBA28ToRegs lba in
  addressed (set_regs (rDriveHead r) 1 (rLBALo r) (rLBAMid r) (rLBAHi r) v) = Some lba.
Proof.
  intros Hlba. destruct (lba28_roundtrip lba) as (_&_&_&_&Hh&Hv); [lia|]. cbv zeta in *.
  rewrite (Z.mod_small lba) in Hv by lia. unfold addressed. cbn [v_head v_count v_hi v_mid v_lo set_regs].
  assert (∀ k, 0 ≤ k → Z.testbit (rDriveHead (LBA28ToRegs lba)) (k + 4) = Z.testbit 14 k) as Hbit.
  { intros k Hk. rewrite <-Hh. change 16 with (2 ^ 4). rewrite <-Z.shiftr_div_pow2 by lia.
    by rewrite Z.shiftr_spec. }
  pose proof (Hbit 0 ltac:(lia)) as H4. pose proof (Hbit 2 ltac:(lia)) as H6.
  change (0 + 4) with 4 in H4. change (2 + 4) with 6 in H6. rewrite H4, H6.
  change (Z.testbit 14 2 && negb (Z.testbit 14 0) && (1 =? 1)) with true. cbv iota. by rewrite Hv.
Qed.

(** The status bits as the driver tests them. *)
Lemma status_bits s :
  (Z.land s 0x80 =? 0) = negb (BSY s) ∧ (Z.land s 0x08 =? 0) = negb (DRQ s) ∧ (Z.land s 0x01 =? 0) = negb (ERR s).
Proof.
  split_and!; [apply (testbit_land_pow2 s 7)|apply (testbit_land_pow2 s 3)|apply (testbit_land_pow2 s 0)]; lia.
Qed.

Section correctness.
Context {D : Type} `{!PortIO D} `{!AtaDevice D}.

Abbreviation store d := (v_store (view d)).

(** Polls and transfers keep the sectors, the media and the readiness to respond. *)
Definition kept (d d' : D) : Prop :=
  store d' = store d ∧ v_bad (view d') = v_bad (view d) ∧ ∀ l, drive_responds d l → drive_responds d' l.

#[local] Instance kept_po : PreOrder kept.
Proof. split; [by intros d|]. intros d1 d2 d3 (?&?&?) (?&?&?). split_and!; [congruence..|auto]. Qed.

Lemma kept_status d : let '(_, d') := inb StatusCmd d in kept d d'.
Proof.
  pose proof (status_law d) as Hl. destruct (inb StatusCmd d) as [s d']. destruct Hl as (_&Hv&Hr).
  unfold kept. rewrite Hv. unfold after_status. by destruct (BSY s), (ERR s), (DRQ s).
Qed.

Lemma waitBusy_ok d :
  ok (waitBusy d) (λ '(r, d'), kept d d' ∧ (r = true → v_ready (view d') = true)).
Proof.
  apply ok_loop_end. apply (for_range_ok (λ _ d', kept d d')).
  - unfold ataTimeout; lia.
  - done.
  - intros _ d' _ Hk. pose proof (kept_status d') as Hks. pose proof (status_law d') as Hl.
    destruct (inb StatusCmd d') as [s d'']. destruct Hl as (_&Hv&_). destruct (status_bits s) as (->&_&_).
    assert (kept d d'') by (by etrans). unfold after_status in Hv. destruct (BSY s); cbn; [done|].
    split; [done|]. intros _. rewrite Hv. by destruct (ERR s), (DRQ s).
  - intros d' H. cbn. by split.
Qed.

(** An early success of [waitDRQ] is impossible: the status it saw was not busy. *)
Lemma waitDRQ_ok d :
  ok (waitDRQ d) (λ '(r, d'), kept d d' ∧
    (r = true → v_phase (view d') = data_phase (store d) (v_phase (view d)))).
Proof.
  apply ok_loop_end. apply (for_range_ok (λ _ d', kept d d' ∧ v_phase (view d') = v_phase (view d))).
  - unfold ataTimeout; lia.
  - done.
  - intros _ d' _ [Hk Hp]. pose proof (kept_status d') as Hks. pose proof (status_law d') as Hl.
    pose proof (status_busy d') as Hb. destruct (inb StatusCmd d') as [s d'']. destruct Hl as (_&Hv&_).
    destruct (status_bits s) as (_&->&->). assert (kept d d'') as Hk' by (by etrans). cbn in Hb.
    unfold after_status in Hv. destruct (BSY s); [destruct (Hb eq_refl) as [-> ->]; cbn; by rewrite Hv|].
    destruct (ERR s); cbn; [done|]. destruct (DRQ s); cbn; rewrite Hv; cbn; [|done].
    split; [done|]. intros _. destruct Hk as (->&_&_). by rewrite Hp.
  - intros d' [H _]. by cbn.
Qed.

Lemma insw_ok n : ∀ d bytes,
  v_phase (view d) = Deliver bytes → length bytes = (2 * n)%nat → Forall (λ x, in_u8 x) bytes →
  (insw Data n d).1 = bytes ∧ kept d (insw Data n d).2.
Proof.
  induction n as [|n IH]; intros d bytes Hp Hl Hb; cbn [insw].
  { by destruct bytes. }
  destruct bytes as [|lo [|hi rest]]; [done..|cbn in Hl; lia|].
  destruct (word_in_law d lo hi rest Hp) as [Hv Hview].
  pose proof (λ l, responds_ports d l Data 0) as Hr.
  destruct (inw Data d) as [v d1]. cbn in Hv, Hview, Hr. subst v.
  assert (kept d d1) as Hk by (split_and!; [by rewrite Hview..|]; intros l Hd; by apply Hr).
  apply Forall_cons in Hb as [Hlo Hb]. apply Forall_cons in Hb as [Hhi Hb].
  destruct (IH d1 rest) as (H1&H2); [by rewrite Hview|cbn in Hl; lia|done|].
  destruct (insw Data n d1) as [bytes d2]. cbn in *. split; [|by etrans].
  rewrite H1. f_equal; [mod_lia|f_equal; mod_lia].
Qed.

(** The sector [lba] was written with [bytes]: other sectors are as before; it holds the
    bytes unless the medium is bad there. *)
Definition wrote (lba : Z) (bytes : list Z) (d d' : D) : Prop :=
  (∀ l, l ≠ lba → store d' l = store d l) ∧ (v_bad (view d) lba = false → store d' lba = bytes) ∧
  sector_ok (store d' lba) ∧ v_bad (view d') = v_bad (view d) ∧
  ∀ l, drive_responds d l → drive_responds d' l.

Lemma bytes_snoc2 acc lo hi :
  Forall (λ x, in_u8 x) acc → in_u8 lo → in_u8 hi → Forall (λ x, in_u8 x) (acc ++ [lo; hi]).
Proof. intros Ha Hlo Hhi. apply Forall_app. split; [done|]. apply Forall_cons. split; [done|]. by apply Forall_singleton. Qed.

Lemma outsw_ok n : ∀ d lba acc bytes,
  v_phase (view d) = Collect lba acc → length bytes = (2 * S n)%nat →
  Forall (λ x, in_u8 x) acc → Forall (λ x, in_u8 x) bytes → len acc + len bytes = sector_size →
  let d' := outsw Data bytes d in
  wrote lba (acc ++ bytes) d d' ∧ (v_phase (view d') = Idle ∨ v_phase (view d') = Failed).
Proof.
  induction n as [|n IH]; intros d lba acc bytes Hp Hl Ha Hb Hsz;
    (destruct bytes as [|lo [|hi rest]]; [done|cbn in Hl; lia|]);
    apply Forall_cons in Hb as [Hlo Hb]; apply Forall_cons in Hb as [Hhi Hb]; cbn [outsw].
  - destruct rest; [|done]. cbn [outsw]. pose proof (word_out_law lo hi d Hlo Hhi lba acc Hp) as Hw.
    assert (sector_ok (acc ++ [lo; hi])) as Hso.
    { split; [rewrite len_app; done|]. by apply bytes_snoc2. }
    autorewrite with go in *. rewrite decide_True in Hw by lia. unfold wrote.
    assert (∀ l, drive_responds d l → drive_responds (outw Data (lo + 256 * hi) d) l) as Hr.
    { intros l Hd. by apply (responds_ports d l Data (lo + 256 * hi)). }
    destruct (v_bad (view d) lba) eqn:Hbad; [destruct Hw as (junk&Hj&Hw)|]; rewrite Hw; cbn; unfold with_sector;
      (split; [|by auto]); split_and!; try done; intros; by rewrite ?decide_True, ?decide_False by done.
  - set (d1 := outw Data (lo + 256 * hi) d).
    assert (view d1 = set_phase (v_ready (view d)) (Collect lba (acc ++ [lo; hi])) (view d)) as Hv.
    { pose proof (word_out_law lo hi d Hlo Hhi lba acc Hp) as Hw. rewrite decide_False in Hw; [done|].
      autorewrite with go in *. rewrite (len_length rest) in Hsz. cbn in Hl. lia. }
    destruct (IH d1 lba (acc ++ [lo; hi]) rest) as [(H1&H2&H3&H4&H5) H6];
      [by rewrite Hv|cbn in Hl; lia|by apply bytes_snoc2|done|len_lia|].
    rewrite Hv in *. rewrite <-app_assoc in H2. split; [|done]. split_and!; try done.
    intros l Hd. apply H5. by apply (responds_ports d l Data (lo + 256 * hi)).
Qed.

Lemma program_ok lba cmd d :
  0 ≤ lba < 2 ^ 28 → v_ready (view d) = true →
  cmd = CmdRead ∨ cmd = CmdWrite → let d' := program lba cmd d in
  kept d d' ∧ v_phase (view d') = if decide (cmd = CmdRead) then Fetch lba else Accept lba.
Proof.
  intros Hlba Hready Hcmd. cbv zeta. unfold program. cbv zeta. set (r := LBA28ToRegs lba).
  set (d1 := outb DriveHead (rDriveHead r) d).
  assert (view d1 = _) as H1 by apply (register_law (rDriveHead r) d Hready).
  assert (v_ready (view d1) = true) as R1 by by rewrite H1.
  set (d2 := outb SecCount 1 d1). assert (view d2 = _) as H2 by apply (register_law 1 d1 R1).
  rewrite H1 in H2. assert (v_ready (view d2) = true) as R2 by by rewrite H2.
  set (d3 := outb LBALo (rLBALo r) d2). assert (view d3 = _) as H3 by apply (register_law (rLBALo r) d2 R2).
  rewrite H2 in H3. assert (v_ready (view d3) = true) as R3 by by rewrite H3.
  set (d4 := outb LBAMid (rLBAMid r) d3). assert (view d4 = _) as H4 by apply (register_law (rLBAMid r) d3 R3).
  rewrite H3 in H4. assert (v_ready (view d4) = true) as R4 by by rewrite H4.
  set (d5 := outb LBAHi (rLBAHi r) d4). assert (view d5 = _) as H5 by apply (register_law (rLBAHi r) d4 R4).
  rewrite H4 in H5. assert (v_ready (view d5) = true) as R5 by by rewrite H5.
  assert (addressed (view d5) = Some lba) as Had by (rewrite H5; apply (addressed_regs lba (view d) Hlba)).
  destruct (command_law d5 lba R5 Had) as [HR HW].
  assert (∀ l, drive_responds d l → drive_responds (outb StatusCmd cmd d5) l) as Hr.
  { intros l Hd. unfold d5, d4, d3, d2, d1. repeat apply responds_ports. done. }
  destruct Hcmd as [->| ->]; [rewrite decide_True by done|rewrite decide_False by done];
    unfold kept; rewrite ?HR, ?HW; cbn; rewrite H5; cbn; by split_and!.
Qed.

(** What a read leaves behind, whatever the drive does. *)
Lemma ata_read_ok lba buf d :
  0 ≤ lba < 2 ^ 28 → (∀ l, sector_ok (store d l)) →
  ok (ata_ReadSector lba buf d) (λ '(r, buf', d'), kept d d' ∧
    (if r : bool then buf' = store d lba else buf' = buf) ∧ (drive_responds d lba → r = true)).
Proof.
  intros Hlba Hok. unfold ata_ReadSector.
  pose proof (waitBusy_ok d) as Hw. pose proof (responds_busy d lba) as Hb.
  destruct (waitBusy d) as [[r d1]|]; [|done]. cbn [mbind option_bind ok] in *. destruct Hw as [Hk1 Hready].
  destruct r; cbn [negb]; [|by cbn].
  destruct (program_ok lba CmdRead d1 Hlba (Hready eq_refl)) as [Hk2 Hpf]; [by left|].
  rewrite decide_True in Hpf by done. set (d2 := program lba CmdRead d1) in *.
  pose proof (waitDRQ_ok d2) as Hw. pose proof (responds_drq d2 lba) as Hdrq.
  destruct (waitDRQ d2) as [[r d3]|]; [|done]. destruct Hw as [Hk3 Hph]. cbn [mbind option_bind ok] in *.
  assert (kept d d2) as Hkd by (etrans; [exact Hk1|exact Hk2]).
  assert (kept d d3) as Hk by (etrans; [exact Hkd|exact Hk3]).
  destruct r; cbn [negb].
  2:{ cbn. split_and!; [done|done|]. intros Hd. apply Hdrq; [|by left]. by apply Hkd. }
  specialize (Hph eq_refl). rewrite Hpf in Hph. cbn in Hph. pose proof Hkd as (Hsd&_&_). rewrite Hsd in Hph.
  destruct (Hok lba) as [Hlen Hbytes]. unfold sector_size in Hlen. rewrite len_length in Hlen.
  destruct (insw_ok 256 d3 (store d lba)) as (H1&H2); [done|lia|done|].
  destruct (insw Data 256 d3) as [bytes d4]. cbn in *. split_and!; [by etrans|done|done].
Qed.

(** What a write leaves behind: nothing, or the sector written. *)
Lemma ata_write_ok lba buf d :
  0 ≤ lba < 2 ^ 28 → sector_ok buf →
  ok (ata_WriteSector lba buf d) (λ '(r, d'), (drive_responds d lba → r = true) ∧
    (wrote lba buf d d' ∨ r = false ∧ kept d d')).
Proof.
  intros Hlba [Hlen Hbytes]. unfold ata_WriteSector.
  pose proof (waitBusy_ok d) as Hw. pose proof (responds_busy d lba) as Hb.
  destruct (waitBusy d) as [[r d1]|]; [|done]. destruct Hw as [Hk1 Hready]. cbn [mbind option_bind ok] in *.
  destruct r; cbn [negb]; [|cbn; split; [done|by right]].
  destruct (program_ok lba CmdWrite d1 Hlba (Hready eq_refl)) as [Hk2 Hpf]; [by right|].
  rewrite decide_False in Hpf by done. set (d2 := program lba CmdWrite d1) in *.
  pose proof (waitDRQ_ok d2) as Hw. pose proof (responds_drq d2 lba) as Hdrq.
  destruct (waitDRQ d2) as [[r d3]|]; [|done]. destruct Hw as [Hk3 Hph]. cbn [mbind option_bind ok] in *.
  assert (kept d d2) as Hkd by (etrans; [exact Hk1|exact Hk2]).
  assert (kept d d3) as Hk by (etrans; [exact Hkd|exact Hk3]).
  destruct r; cbn [negb].
  2:{ cbn. split; [intros Hd; apply Hdrq; [by apply Hkd|by right]|]. by right. }
  specialize (Hph eq_refl). rewrite Hpf in Hph. cbn in Hph.
  unfold sector_size in Hlen. pose proof Hlen as Hlen'. rewrite len_length in Hlen'.
  destruct (outsw_ok 255 d3 lba [] buf) as [(H1&H2&H3&H4&H5) H6]; [done|lia|constructor|done|by rewrite len_nil|].
  set (d4 := outsw Data buf d3) in *. pose proof (flush_law d4 H6) as Hfl.
  set (d5 := outb StatusCmd CmdFlush d4) in *.
  assert (∀ l, drive_responds d l → drive_responds d5 l) as Hr5.
  { intros l Hd. apply responds_ports, H5. by apply Hk. }
  pose proof (waitBusy_ok d5) as Hw. pose proof (responds_busy d5 lba) as Hb5.
  destruct (waitBusy d5) as [[r d6]|]; [|done]. destruct Hw as [(Hs6&Hb6&Hr6) _]. cbn in *.
  destruct Hk as (Hs&Hbad&_). rewrite Hs, Hbad in *. rewrite Hfl in *. cbn in *.
  split; [auto|left]. unfold wrote. rewrite Hs6, Hb6. split_and!; auto.
Qed.
End correctness.

(** The driver on any drive that behaves as described, with a medium without bad sectors, is
    a disk. *)
#[export, refine] Instance ata_disk_laws {D} `{!PortIO D} `{!AtaDevice D} : DiskLaws D := {
  disk_ok d := (∀ l, sector_ok (v_store (view d) l)) ∧ ∀ l, v_bad (view d) l = false;
  sectors d := v_store (view d);
  answers := drive_responds;
}.
Proof.
  - intros d lba Hd. apply Hd.
  - intros lba buf d Hd Hlba Hbuf. eapply ok_mono; [by apply ata_read_ok; [|apply Hd]|].
    intros [[r buf'] d'] ((Hs&Hb&Hr)&Hbuf'&Ha). by rewrite Hs, Hb.
  - intros lba buf d [Hd Hg] Hlba Hbuf. eapply ok_mono; [by apply ata_write_ok|].
    intros [r d'] (Ha&[(Hne&Heq&Hso&Hb&Hr)|[-> (Hs&Hb&Hr)]]); [|rewrite Hs, Hb; by auto 10].
    rewrite Hb. assert (∀ l, v_store (view d') l = with_sector lba buf (v_store (view d)) l) as Hs.
    { intros l. unfold with_sector. case_decide as Hl; [subst; by apply Heq|by apply Hne]. }
    split_and!; try done; [|by left]. intros l. rewrite Hs. unfold with_sector. by case_decide.
Defined.

(** ** A drive that is always ready, for the examples *)
Definition sim_status (d : drive) : Z :=
  match v_phase d with Fetch _ | Accept _ => 0x48 | Failed => 0x41 | _ => 0x40 end.

Definition sim_word (v : Z) (d : drive) : drive :=
  match v_phase d with
  | Collect lba bytes =>
      let bytes := bytes ++ [v `mod` 256; v / 256] in
      if decide (len bytes = sector_size) then
        if v_bad d lba then set_sector lba (replicate 512 255) (set_phase false Failed d)
        else set_sector lba bytes (set_phase false Idle d)
      else set_phase (v_ready d) (Collect lba bytes) d
  | _ => d
  end.

Definition sim_command (v : Z) (d : drive) : drive :=
  match addressed d with
  | Some l =>
      if v =? CmdRead then set_phase false (Fetch l) d
      else if v =? CmdWrite then set_phase false (Accept l) d
      else set_phase false (v_phase d) d
  | None => set_phase false (v_phase d) d
  end.

#[export] Instance sim_io : PortIO drive := {
  inb p d := if p =? StatusCmd then (sim_status d, after_status (sim_status d) d) else (0, d);
  outb p x d :=
    if p =? DriveHead then set_regs x (v_count d) (v_lo d) (v_mid d) (v_hi d) d
    else if p =? SecCount then set_regs (v_head d) x (v_lo d) (v_mid d) (v_hi d) d
    else if p =? LBALo then set_regs (v_head d) (v_count d) x (v_mid d) (v_hi d) d
    else if p =? LBAMid then set_regs (v_head d) (v_count d) (v_lo d) x (v_hi d) d
    else if p =? LBAHi then set_regs (v_head d) (v_count d) (v_lo d) (v_mid d) x d
    else if p =? StatusCmd then sim_command x d
    else d;
  inw p d :=
    match v_phase d with
    | Deliver (lo :: hi :: rest) => (lo + 256 * hi, set_phase (v_ready d) (Deliver rest) d)
    | _ => (0, d)
    end;
  outw p v d := sim_word v d;
}.

Lemma sim_waitBusy (d : drive) : ok (waitBusy d) (λ '(r, _), r = true).
Proof.
  unfold waitBusy. rewrite for_range_step by (unfold ataTimeout; lia). cbn.
  unfold sim_status. by destruct (v_phase d).
Qed.

Lemma sim_waitDRQ (d : drive) l :
  v_phase d = Fetch l ∨ v_phase d = Accept l → ok (waitDRQ d) (λ '(r, _), r = true).
Proof.
  intros Hp. unfold waitDRQ. rewrite for_range_step by (unfold ataTimeout; lia). cbn.
  unfold sim_status. by destruct Hp as [-> | ->].
Qed.

#[export, refine] Instance sim_device : AtaDevice drive := {
  view := id;
  drive_responds _ _ := True;
}.
Proof.
  - intros d. cbn. split; [|by split]. unfold sim_status. destruct (v_phase d); lia.
  - intros d. cbn. unfold sim_status. by destruct (v_phase d).
  - intros d. cbn. unfold sim_status. by intros ->.
  - intros x d. done.
  - intros d l _ Ha. cbn in *. unfold sim_command. by rewrite Ha.
  - intros d _. cbn. unfold sim_command. by destruct (addressed d).
  - intros d lo hi rest Hp. cbn in *. by rewrite Hp.
  - intros lo hi d Hlo Hhi lba bytes Hp. cbn in *. unfold sim_word. rewrite Hp.
    replace ((lo + 256 * hi) `mod` 256) with lo by mod_lia. replace ((lo + 256 * hi) / 256) with hi by mod_lia.
    rewrite len_app. change (len [lo; hi]) with 2. case_decide; [|done]. destruct (v_bad d lba); [|done].
    eexists. split; [|done]. split; [by rewrite len_replicate|by apply Forall_replicate].
  - done.
  - intros d l _. apply sim_waitBusy.
  - intros d l _. apply sim_waitDRQ.
Defined.


Definition demo_drive : drive :=
  MkDrive 0 0 0 0 0 false Idle (λ _, replicate 512 0) (λ l, bool_decide (l = 7)).


(** [WriteSector] looks only at BSY after the transfer: on a sector that cannot be written the
    drive answers with ERR, and the driver reports success. *)
Theorem WriteSector_ignores_error :
  ∃ d1, ata_WriteSector 7 (replicate 512 65) demo_drive = Some (true, d1) ∧
    ERR (inb StatusCmd d1).1 = true ∧ v_store d1 7 ≠ replicate 512 65.
Proof. eexists. split; [vm_compute; reflexivity|]. split; [reflexivity|]. vm_compute. discriminate. Qed.

(** ** Totality: the driver returns whatever the hardware answers *)
Section total.
Context {D : Type} `{!PortIO D} `{!PortIOLaws D}.

Lemma waitBusy_total d : ok (waitBusy d) (λ _, True).
Proof.
  apply ok_loop_end. apply (for_range_ok (λ _ _, True)); [unfold ataTimeout; lia|done| |done].
  intros _ d' _ _. destruct (inb StatusCmd d'). by destruct (_ =? 0).
Qed.

Lemma waitDRQ_total d : ok (waitDRQ d) (λ _, True).
Proof.
  apply ok_loop_end. apply (for_range_ok (λ _ _, True)); [unfold ataTimeout; lia|done| |done].
  intros _ d' _ _. destruct (inb StatusCmd d'). by destruct (_ =? 0); [destruct (_ =? 0)|].
Qed.

Lemma insw_bytes port n : ∀ d,
  length (insw port n d).1 = (2 * n)%nat ∧ Forall (λ x, in_u8 x) (insw port n d).1.
Proof.
  induction n as [|n IH]; intros d; cbn [insw]; [done|].
  pose proof (inw_u16 port d) as Hv. destruct (inw port d) as [v d1]. cbn in Hv.
  destruct (IH d1) as [Hl Hf]. destruct (insw port n d1) as [rest d2]. cbn in *. split; [lia|].
  repeat constructor; try done; mod_lia.
Qed.

#[export, refine] Instance ata_total : DiskTotal D := { disk_safe _ := True }.
Proof.
  - intros lba buf d _ _ Hb. cbn. unfold ata_ReadSector. call waitBusy_total. intros [r d1] _.
    destruct r; cbn [negb ok]; [|done]. call waitDRQ_total. intros [r d2] _. destruct r; cbn [negb ok]; [|done].
    destruct (insw_bytes Data 256 d2) as [Hl Hf]. destruct (insw Data 256 d2) as [bytes d3].
    cbn [fst ok] in *. split; [|done]. split; [rewrite len_length, Hl; done|done].
  - intros lba buf d _ _ Hb. cbn. unfold ata_WriteSector. call waitBusy_total. intros [r d1] _.
    destruct r; cbn [negb]; [|done]. call waitDRQ_total. intros [r d2] _. destruct r; cbn [negb]; [|done].
    eapply ok_mono; [apply waitBusy_total|]. by intros [r d3] _.
Defined.
End total.
