(* ===== verification/Fat16.v ===== *)
(** * Package [fs/fat16]: files on the disk

    [src/fs/fat16/fat16.go], over the disk of [Disk.v] and any console.  The package's
    variables are the record [fat]; [fatBuf], the one sector buffer every operation
    shares, is a field of it. *)
From S2P Require Import Prelude Terminal Disk.
Local Open Scope Z_scope.

Record fat := MkFat {
  BytesPerSec : Z;
  SecPerClust : Z;
  ReservedSec : Z;
  NumFATs : Z;
  RootEntCnt : Z;
  TotSec16 : Z;
  FatSz16 : Z;
  fatStart : Z;
  rootStart : Z;
  dataStart : Z;
  rootSectors : Z;
  initialized : bool;
  fatBuf : list Z;
}.

Definition DirEntrySize : Z := 32.

Definition zero_fat : fat := MkFat 0 0 0 0 0 0 0 0 0 0 0 false (replicate 512 0).

Definition set_buf (b : list Z) (f : fat) : fat :=
  MkFat (BytesPerSec f) (SecPerClust f) (ReservedSec f) (NumFATs f) (RootEntCnt f) (TotSec16 f)
    (FatSz16 f) (fatStart f) (rootStart f) (dataStart f) (rootSectors f) (initialized f) b.
Definition set_initialized (b : bool) (f : fat) : fat :=
  MkFat (BytesPerSec f) (SecPerClust f) (ReservedSec f) (NumFATs f) (RootEntCnt f) (TotSec16 f)
    (FatSz16 f) (fatStart f) (rootStart f) (dataStart f) (rootSectors f) b (fatBuf f).

(** [uint16(b[i]) | uint16(b[i+1])<<8] and its 32-bit sibling. *)
Definition get16 (b : list Z) (i : Z) : option Z :=
  lo ← aget b i; hi ← aget b (i + 1);
  Some (Z.lor lo (u16 (Z.shiftl hi 8))).
Definition get32 (b : list Z) (i : Z) : option Z :=
  b0 ← aget b i; b1 ← aget b (i + 1); b2 ← aget b (i + 2); b3 ← aget b (i + 3);
  Some (Z.lor (Z.lor (Z.lor b0 (u32 (Z.shiftl b1 8))) (u32 (Z.shiftl b2 16))) (u32 (Z.shiftl b3 24))).

(** [b[i] = byte(v & 0xFF)], [b[i+1] = byte((v >> 8) & 0xFF)], ... for [n] bytes. *)
Fixpoint put_le (n : nat) (b : list Z) (i v : Z) : option (list Z) :=
  match n with
  | O => Some b
  | S n => b ← aset b i (u8 (Z.land v 0xFF)); put_le n b (i + 1) (Z.shiftr v 8)
  end.

Definition put_all (l : list (Z * Z)) (b : list Z) : option (list Z) :=
  foldl (λ b '(i, v), b ← b; aset b i v) (Some b) l.

Section fat16.
Context {D : Type} `{!Disk D} {C : Type} `{!Console C}.

Record fstate := FState { fs_fat : fat; fs_disk : D; fs_con : C }.

Definition upd (f : fat → fat) (st : fstate) : fstate := FState (f (fs_fat st)) (fs_disk st) (fs_con st).

Definition print (s : string) (st : fstate) : option fstate :=
  c ← Print (gs s) (fs_con st); Some (FState (fs_fat st) (fs_disk st) c).
Definition print_nl (s : string) (st : fstate) : option fstate :=
  c ← Print (gs s ++ [10]) (fs_con st); Some (FState (fs_fat st) (fs_disk st) c).
Definition newline (st : fstate) : option fstate :=
  c ← Print [10] (fs_con st); Some (FState (fs_fat st) (fs_disk st) c).
Definition put_rune (r : Z) (st : fstate) : option fstate :=
  c ← PutRune r (fs_con st); Some (FState (fs_fat st) (fs_disk st) c).

(** [ata.ReadSector(lba, &fatBuf)] and [ata.WriteSector(lba, &fatBuf)]. *)
Definition read_buf (lba : Z) (st : fstate) : option (bool * fstate) :=
  '(r, b, d) ← ReadSector lba (fatBuf (fs_fat st)) (fs_disk st);
  Some (r, FState (set_buf b (fs_fat st)) d (fs_con st)).
Definition write_buf (lba : Z) (st : fstate) : option (bool * fstate) :=
  '(r, d) ← WriteSector lba (fatBuf (fs_fat st)) (fs_disk st);
  Some (r, FState (fs_fat st) d (fs_con st)).

Definition Init (st : fstate) : option (bool * fstate) :=
  '(r, st) ← read_buf 0 st;
  if negb r then st ← print_nl "FAT16: Read Error" st; Some (false, st)
  else
    let b := fatBuf (fs_fat st) in
    s0 ← aget b 510; s1 ← aget b 511;
    if negb (s0 =? 0x55) || negb (s1 =? 0xAA) then
      st ← print_nl "FAT16: Invalid Signature. Run 'fat_format' first." st;
      Some (false, upd (set_initialized false) st)
    else
      bps ← get16 b 11; spc ← aget b 13; rsv ← get16 b 14; nf ← aget b 16;
      rec ← get16 b 17; tot ← get16 b 19; fsz ← get16 b 22;
      if negb (bps =? 512) then
        st ← print_nl "FAT16 Error: BytesPerSec != 512"
               (upd (λ f, MkFat bps spc rsv nf rec tot fsz (fatStart f) (rootStart f) (dataStart f)
                            (rootSectors f) (initialized f) (fatBuf f)) st);
        Some (false, st)
      else
        let fstart := rsv in
        let rstart := u32 (fstart + u32 (nf * fsz)) in
        let rsecs := u32 (u32 (rec * 32) + 511) / 512 in
        let dstart := u32 (rstart + rsecs) in
        Some (true, upd (λ f, MkFat bps spc rsv nf rec tot fsz fstart rstart dstart rsecs true (fatBuf f)) st).

Definition clear_buf (st : fstate) : option fstate :=
  b ← fill_with 0 512 0 (fatBuf (fs_fat st)); Some (upd (set_buf b) st).

(** [for sec := 0; sec < n; sec++ { if !WriteSector(start+sec, &fatBuf) { return false } }]. *)
Definition write_zeros (start n : Z) (st : fstate) : option (fstate + bool * fstate) :=
  for_range 0 n
    (λ sec st, '(r, st) ← write_buf (u32 (start + sec)) st;
       if negb r then Some (inr (false, st)) else Some (inl st)) st.

Definition boot_sector : list (Z * Z) :=
  [(0, 0xEB); (1, 0x3C); (2, 0x90)] ++ zip (seqZ 3 8) (gs "MSWIN4.1") ++
  [(11, 0x00); (12, 0x02); (13, 1); (14, 1); (15, 0); (16, 2); (17, 0x00); (18, 0x02);
   (19, 0x00); (20, 0xA0); (21, 0xF8); (22, 160); (23, 0); (510, 0x55); (511, 0xAA)].

Definition Format (st : fstate) : option (bool * fstate) :=
  st ← clear_buf st;
  b ← put_all boot_sector (fatBuf (fs_fat st));
  '(r, st) ← write_buf 0 (upd (set_buf b) st);
  if negb r then Some (false, st)
  else
    st ← clear_buf st;
    let fatSz16 := 160 in
    let reservedSec := 1 in
    loop_end (write_zeros reservedSec fatSz16 st) (λ st,
    loop_end (write_zeros (reservedSec + fatSz16) fatSz16 st) (λ st,
    let rootStart := reservedSec + fatSz16 * 2 in
    let rootSectors := 32 in
    loop_end (write_zeros rootStart rootSectors st) (λ st, Some (true, st)))).

Definition hex_runes : list Z := gs "0123456789ABCDEF".

Definition printU32 (v : Z) (st : fstate) : option fstate :=
  st ← print "0x" st;
  for_do 0 8
    (λ k st, c ← aget hex_runes (Z.land (Z.shiftr v (28 - 4 * k)) 0xF); put_rune c st) st.

Definition printU16 (v : Z) (st : fstate) : option fstate := printU32 v st.

Definition Info (st : fstate) : option fstate :=
  if negb (initialized (fs_fat st)) then print_nl "FAT16: Not initialized" st
  else
    st ← print_nl "FAT16 Layout:" st;
    st ← print "  Reverved Sec: " st;
    st ← printU16 (ReservedSec (fs_fat st)) st;
    st ← newline st; st ← print "  FAT Start: " st;
    st ← printU32 (fatStart (fs_fat st)) st;
    st ← newline st; st ← print "  Root Start: " st;
    st ← printU32 (rootStart (fs_fat st)) st;
    st ← newline st; st ← print "  Data Start: " st;
    st ← printU32 (dataStart (fs_fat st)) st;
    newline st.

(** [for sec := 0; sec < n; sec++ { if !ReadSector(start+sec, &fatBuf) { fail } body }]. *)
Definition for_sectors {R} (start n : Z) (fail : fstate → option R)
    (body : Z → fstate → option (fstate + R)) (st : fstate) : option (fstate + R) :=
  for_range 0 n
    (λ sec st, '(r, st) ← read_buf (u32 (start + sec)) st;
       if negb r then x ← fail st; Some (inr x) else body sec st) st.

(** The bytes [lo, hi) of an entry that are not blank. *)
Definition print_name_part (off lo hi : Z) (st : fstate) : option fstate :=
  for_do lo hi
    (λ j st, c ← aget (fatBuf (fs_fat st)) (off + j);
       if negb (c =? 32) then put_rune c st else Some st) st.

Definition list_entry (off : Z) (st : fstate) : option fstate :=
  st ← print "  " st;
  st ← print_name_part off 0 8 st;
  e ← aget (fatBuf (fs_fat st)) (off + 8);
  st ← (if negb (e =? 32) then st ← put_rune 46 st; print_name_part off 8 11 st else Some st);
  size ← get32 (fatBuf (fs_fat st)) (off + 28);
  st ← print "  " st;
  st ← printU32 size st;
  print_nl " bytes" st.

Definition ListDir (st : fstate) : option fstate :=
  if negb (initialized (fs_fat st)) then print_nl "FAT16: Not initialized" st
  else
    st ← print_nl "Root Directory:" st;
    loop_end
      (for_sectors (rootStart (fs_fat st)) (rootSectors (fs_fat st)) (print_nl "FAT16: Read error")
         (λ _, for_range 0 (512 / DirEntrySize)
            (λ i st, let off := i * DirEntrySize in
               firstByte ← aget (fatBuf (fs_fat st)) off;
               if firstByte =? 0x00 then Some (inr st)
               else if firstByte =? 0xE5 then Some (inl st)
               else
                 attr ← aget (fatBuf (fs_fat st)) (off + 11);
                 if negb (Z.land attr 0x08 =? 0) then Some (inl st)
                 else st ← list_entry off st; Some (inl st))) st)
      Some.

(** [fatBuf[off:off+8] == name && fatBuf[off+8:off+11] == ext], byte by byte. *)
Definition entry_matches (b : list Z) (off : Z) (name ext : list Z) : option bool :=
  m ← match_bytes 8 (λ j, aget b (off + j)) (λ j, aget name j);
  if m : bool then match_bytes 3 (λ j, aget b (off + 8 + j)) (λ j, aget ext j) else Some false.

(** The inner loop of the duplicate check: does a live entry of the buffer match? *)
Definition buf_has_file (b name ext : list Z) : option bool :=
  loop_end
    (for_range 0 16
       (λ i (_ : unit), let off := i * DirEntrySize in
          firstByte ← aget b off;
          if firstByte =? 0x00 then Some (inr false)
          else if firstByte =? 0xE5 then Some (inl tt)
          else
            attr ← aget b (off + 11);
            if negb (Z.land attr 0x08 =? 0) then Some (inl tt)
            else
              m ← entry_matches b off name ext;
              if m : bool then Some (inr true) else Some (inl tt)) tt)
    (λ _, Some false).

(** The inner loop of the search for a free entry: its offset in the buffer. *)
Definition buf_free_slot (b : list Z) : option (option Z) :=
  loop_end
    (for_range 0 16
       (λ i (_ : unit), let off := i * DirEntrySize in
          firstByte ← aget b off;
          if (firstByte =? 0x00) || (firstByte =? 0xE5) then Some (inr (Some off)) else Some (inl tt)) tt)
    (λ _, Some None).

Definition findFreeCluster (st : fstate) : option (Z * fstate) :=
  loop_end
    (for_sectors (fatStart (fs_fat st)) (FatSz16 (fs_fat st)) (λ st, Some (0, st))
       (λ sec, for_range 0 256
          (λ i st, let cluster := u32 (u32 (sec * 256) + i) in
             if cluster <? 2 then Some (inl st)
             else
               entry ← get16 (fatBuf (fs_fat st)) (i * 2);
               if entry =? 0 then Some (inr (u16 cluster, st)) else Some (inl st))) st)
    (λ st, Some (0, st)).

Definition setFATEntry (cluster value : Z) (st : fstate) : option (bool * fstate) :=
  let fatOffset := u32 (cluster * 2) in
  let sec := fatOffset / 512 in
  let off := fatOffset `mod` 512 in
  let fstart := fatStart (fs_fat st) in
  '(r, st) ← read_buf (u32 (fstart + sec)) st;
  if negb r then Some (false, st)
  else
    b ← put_le 2 (fatBuf (fs_fat st)) off value;
    '(r, st) ← write_buf (u32 (fstart + sec)) (upd (set_buf b) st);
    if negb r then Some (false, st)
    else
      '(_, st) ← write_buf (u32 (u32 (fstart + FatSz16 (fs_fat st)) + sec)) st;
      Some (true, st).

Definition clusterToSector (cluster : Z) (f : fat) : Z :=
  u32 (dataStart f + u32 (u16 (cluster - 2) * SecPerClust f)).

(** The directory entry of a new file, written at [dirOff] of the buffer. *)
Definition write_entry (name ext : list Z) (cluster dataLen dirOff : Z) (b : list Z) : option (list Z) :=
  b ← copy_into name dirOff 8 b;
  b ← copy_into ext (dirOff + 8) 3 b;
  b ← aset b (dirOff + 11) 0x00;
  b ← for_do 12 26 (λ i b, aset b (dirOff + i) 0) b;
  b ← put_le 2 b (dirOff + 26) cluster;
  put_le 4 b (dirOff + 28) dataLen.

(** The data, padded with zeros, into the buffer. *)
Definition write_data (data : list Z) (dataLen : Z) (b : list Z) : option (list Z) :=
  for_do 0 512
    (λ i b, if i <? dataLen then v ← aget data i; aset b i v else aset b i 0) b.

(** The search for a free directory entry: its sector and offset, or the result of the
    whole operation when there is none. *)
Definition find_dir_slot (st : fstate) : option (Z * Z * fstate + bool * fstate) :=
  loop_end
    (for_sectors (rootStart (fs_fat st)) (rootSectors (fs_fat st)) (λ st, Some (inr (false, st)))
       (λ sec st, slot ← buf_free_slot (fatBuf (fs_fat st));
          match slot with
          | Some off => Some (inr (inl (sec, off, st)))
          | None => Some (inl st)
          end) st)
    (λ st, st ← print_nl "FAT16: Root directory full" st; Some (inr (false, st))).

(** The directory entry, then the data. *)
Definition store_file (name ext data : list Z) (dataLen cluster dirSec dirOff : Z) (st : fstate)
    : option (bool * fstate) :=
  let rstart := rootStart (fs_fat st) in
  '(r, st) ← read_buf (u32 (rstart + dirSec)) st;
  if negb r then Some (false, st)
  else
    b ← write_entry name ext cluster dataLen dirOff (fatBuf (fs_fat st));
    '(r, st) ← write_buf (u32 (rstart + dirSec)) (upd (set_buf b) st);
    if negb r then Some (false, st)
    else
      let dataSector := clusterToSector cluster (fs_fat st) in
      b ← write_data data dataLen (fatBuf (fs_fat st));
      '(r, st) ← write_buf dataSector (upd (set_buf b) st);
      if negb r then Some (false, st) else Some (true, st).

Definition CreateFile (name ext data : list Z) (dataLen : Z) (st : fstate) : option (bool * fstate) :=
  if negb (initialized (fs_fat st)) then
    st ← print_nl "FAT16: Not initialized" st; Some (false, st)
  else
    loop_end
      (for_sectors (rootStart (fs_fat st)) (rootSectors (fs_fat st)) (λ st, Some (false, st))
         (λ _ st, dup ← buf_has_file (fatBuf (fs_fat st)) name ext;
            if dup : bool then st ← print_nl "FAT16: File already exists" st; Some (inr (false, st))
            else Some (inl st)) st)
      (λ st,
    '(cluster, st) ← findFreeCluster st;
    if cluster =? 0 then st ← print_nl "FAT16: No free clusters" st; Some (false, st)
    else
      '(r, st) ← setFATEntry cluster 0xFFFF st;
      if negb r then st ← print_nl "FAT16: FAT write error" st; Some (false, st)
      else
        found ← find_dir_slot st;
        match found with
        | inr res => Some res
        | inl (dirSec, dirOff, st) => store_file name ext data dataLen cluster dirSec dirOff st
        end).

(** The inner loop of [ReadFile]: the first cluster and the size of the matching entry,
    or the end of the directory. *)
Definition buf_find_file (b name ext : list Z) : option (unit + option (Z * Z)) :=
  for_range 0 16
    (λ i (_ : unit), let off := i * DirEntrySize in
       firstByte ← aget b off;
       if firstByte =? 0x00 then Some (inr None)
       else if firstByte =? 0xE5 then Some (inl tt)
       else
         m ← entry_matches b off name ext;
         if m : bool then
           cluster ← get16 b (off + 26); size ← get32 b (off + 28);
           Some (inr (Some (cluster, size)))
         else Some (inl tt)) tt.

(** Returns the size, the success flag and the contents of [outBuf]. *)
Definition ReadFile (name ext outBuf : list Z) (st : fstate)
    : option (Z * bool * list Z * fstate) :=
  if negb (initialized (fs_fat st)) then Some (0, false, outBuf, st)
  else
    loop_end
      (for_sectors (rootStart (fs_fat st)) (rootSectors (fs_fat st)) (λ st, Some (0, false, outBuf, st))
         (λ _ st, r ← buf_find_file (fatBuf (fs_fat st)) name ext;
            match r with
            | inl _ => Some (inl st)
            | inr None => Some (inr (0, false, outBuf, st))
            | inr (Some (cluster, size)) =>
                let dataSector := clusterToSector cluster (fs_fat st) in
                '(r, out, d) ← ReadSector dataSector outBuf (fs_disk st);
                let st := FState (fs_fat st) d (fs_con st) in
                if negb r then Some (inr (0, false, out, st)) else Some (inr (size, true, out, st))
            end) st)
      (λ st, Some (0, false, outBuf, st)).
End fat16.

Arguments fstate : clear implicits.
