(* ===== verification/Fat16Files.v ===== *)
(** * Package [fs/fat16]: the disk holds a finite map of files

    The directory of a volume as a list of 32-byte slots, the map from 8.3 names to sizes
    and contents it stands for, the invariant of a volume, and the theorems that
    [ReadFile] looks a name up, [CreateFile] inserts one, and [Format] then [Init] give
    the empty volume, also when the disk fails in between. *)
From S2P Require Import Prelude Terminal Disk Fat16.
Local Open Scope Z_scope.

(** ** Slots of the directory *)
Definition bslot (b : list Z) (i : Z) : list Z := subrange b (32 * i) 32.
Definition first (s : list Z) : Z := default 0 (aget s 0).
Definition attr (s : list Z) : Z := default 0 (aget s 11).
Definition sname (s : list Z) : list Z := take 11 s.
Definition scluster (s : list Z) : Z := default 0 (get16 s 26).
Definition ssize (s : list Z) : Z := default 0 (get32 s 28).

Arguments first : simpl never.
Arguments attr : simpl never.
Arguments sname : simpl never.
Arguments scluster : simpl never.
Arguments ssize : simpl never.
Arguments bslot : simpl never.

(** In use, neither free nor deleted. *)
Definition live (s : list Z) : Prop := first s ≠ 0 ∧ first s ≠ 0xE5.
#[export] Instance live_dec s : Decision (live s).
Proof. unfold live. apply _. Defined.

Definition slots_of (b : list Z) : list (list Z) := bslot b <$> seqZ 0 16.

(** The slots of a directory of [n] sectors from [start]. *)
Definition dir_slots (S : Z → list Z) (start n : Z) : list (list Z) :=
  mjoin ((λ sec, slots_of (S (start + sec))) <$> seqZ 0 n).

(** The free slots that were never used come last. *)
Fixpoint zeros_last (l : list (list Z)) : Prop :=
  match l with
  | [] => True
  | s :: l => if decide (first s = 0) then Forall (λ s, first s = 0) l else zeros_last l
  end.

(** The file a live slot describes; [sec] is the place of a cluster. *)
Definition file_of (S : Z → list Z) (sec : Z → Z) (s : list Z) : list Z * (Z * list Z) :=
  (sname s, (ssize s, S (sec (scluster s)))).

Definition files_of (S : Z → list Z) (sec : Z → Z) (l : list (list Z)) : gmap (list Z) (Z * list Z) :=
  list_to_map (file_of S sec <$> filter live l).

(** The entry of the cluster [c] in the allocation table at sector [start]. *)
Definition fat_entry (S : Z → list Z) (start c : Z) : Z :=
  default 0 (get16 (S (start + c / 256)) (2 * c `mod` 256)).

(** ** Facts on slots *)
Lemma aget_bslot b i j :
  sector_ok b → 0 ≤ i < 16 → 0 ≤ j < 32 → aget (bslot b i) j = aget b (32 * i + j).
Proof.
  intros [Hb _] Hi Hj. unfold sector_size in Hb.
  destruct (subrange_split b (32 * i) 32) as (_&_&Hg); [lia..|]. by apply Hg.
Qed.

Lemma len_bslot b i : sector_ok b → 0 ≤ i < 16 → len (bslot b i) = 32.
Proof.
  intros [Hb _] Hi. unfold sector_size in Hb.
  by destruct (subrange_split b (32 * i) 32) as (_&Hl&_); [lia..|].
Qed.

Lemma slots_of_get b i s : aget (slots_of b) i = Some s → 0 ≤ i < 16 ∧ s = bslot b i.
Proof.
  unfold slots_of. rewrite aget_fmap_seqZ. case_decide; [|done]. by intros [= <-].
Qed.

Lemma elem_slots_of b s : s ∈ slots_of b ↔ ∃ i, 0 ≤ i < 16 ∧ s = bslot b i.
Proof.
  unfold slots_of. rewrite list_elem_of_fmap. split.
  - intros (i&->&Hi%elem_of_seqZ). exists i. split; [lia|done].
  - intros (i&Hi&->). exists i. split; [done|]. apply elem_of_seqZ. lia.
Qed.

Lemma bslot_byte b i j :
  sector_ok b → 0 ≤ i < 16 → 0 ≤ j < 32 → aget b (i * DirEntrySize + j) = Some (default 0 (aget (bslot b i) j)).
Proof.
  intros Hb Hi Hj. unfold DirEntrySize. rewrite aget_bslot by done.
  replace (i * 32 + j) with (32 * i + j) by lia. destruct Hb as [Hb _]. unfold sector_size in Hb.
  by destruct (aget_Some b (32 * i + j)) as [v ->]; [lia|].
Qed.

Lemma bslot_first b i :
  sector_ok b → 0 ≤ i < 16 → aget b (i * DirEntrySize) = Some (first (bslot b i)).
Proof. intros. rewrite <-(Z.add_0_r (i * DirEntrySize)). by apply bslot_byte. Qed.

Lemma bslot_get16 b i j :
  sector_ok b → 0 ≤ i < 16 → 0 ≤ j < 31 →
  get16 b (i * DirEntrySize + j) = Some (default 0 (get16 (bslot b i) j)).
Proof.
  intros Hb Hi Hj. unfold get16. rewrite <-Z.add_assoc, !bslot_byte, !aget_bslot by (done || lia).
  destruct Hb as [Hb _]. unfold sector_size in Hb.
  destruct (aget_Some b (32 * i + j)) as [v ->]; [lia|].
  by destruct (aget_Some b (32 * i + (j + 1))) as [w ->]; [lia|].
Qed.

Lemma bslot_get32 b i j :
  sector_ok b → 0 ≤ i < 16 → 0 ≤ j < 29 →
  get32 b (i * DirEntrySize + j) = Some (default 0 (get32 (bslot b i) j)).
Proof.
  intros Hb Hi Hj. unfold get32. rewrite <-!Z.add_assoc, !bslot_byte, !aget_bslot by (done || lia).
  destruct Hb as [Hb _]. unfold sector_size in Hb.
  destruct (aget_Some b (32 * i + j)) as [v0 ->]; [lia|].
  destruct (aget_Some b (32 * i + (j + 1))) as [v1 ->]; [lia|].
  destruct (aget_Some b (32 * i + (j + 2))) as [v2 ->]; [lia|].
  by destruct (aget_Some b (32 * i + (j + 3))) as [v3 ->]; [lia|].
Qed.

Lemma bslot_aget b i j :
  sector_ok b → 0 ≤ i < 16 → 0 ≤ j < 32 → aget b (i * DirEntrySize + j) = aget (bslot b i) j.
Proof. intros. rewrite aget_bslot by done. f_equal. unfold DirEntrySize. lia. Qed.

Lemma sname_eq b i name ext :
  sector_ok b → 0 ≤ i < 16 → len name = 8 → len ext = 3 →
  sname (bslot b i) = name ++ ext ↔
    (∀ j, 0 ≤ j < 8 → aget b (i * DirEntrySize + j) = aget name j) ∧
    (∀ j, 0 ≤ j < 3 → aget b (i * DirEntrySize + 8 + j) = aget ext j).
Proof.
  intros Hb Hi Hn He. pose proof (len_bslot b i Hb Hi) as Hl. unfold sname. change 11%nat with (Z.to_nat 11).
  split.
  - intros Hs. split; intros j Hj.
    + rewrite bslot_aget, <-(aget_take _ 11), Hs, aget_app by (done || lia). by rewrite decide_True by lia.
    + rewrite <-Z.add_assoc, bslot_aget, <-(aget_take _ 11), Hs, aget_app by (done || lia).
      rewrite decide_False by lia. f_equal. lia.
  - intros [H1 H2]. apply alist_eq; [rewrite len_take, len_app by lia; lia|].
    rewrite len_take by lia. intros j Hj. rewrite aget_take, <-bslot_aget, aget_app by (done || lia). case_decide.
    + apply H1. lia.
    + replace j with (8 + (j - 8)) at 1 by lia. rewrite Z.add_assoc, H2 by lia. f_equal. lia.
Qed.

(** Comparing an entry with an 8.3 name. *)
Lemma entry_matches_spec b i name ext :
  sector_ok b → 0 ≤ i < 16 → len name = 8 → len ext = 3 →
  entry_matches b (i * DirEntrySize) name ext = Some (bool_decide (sname (bslot b i) = name ++ ext)).
Proof.
  intros Hb Hi Hn He. pose proof (sname_eq b i name ext Hb Hi Hn He) as Heq.
  assert (∀ j, 0 ≤ j < 32 → is_Some (aget b (i * DirEntrySize + j))) as Hsome.
  { intros j Hj. by rewrite bslot_byte. }
  destruct (ok_elim _ _ (match_bytes_ok 8 (λ j, aget b (i * DirEntrySize + j)) (λ j, aget name j)
    ltac:(intros j Hj; split; [apply Hsome; lia|apply aget_Some; lia]))) as (m&Hm&M1).
  destruct (ok_elim _ _ (match_bytes_ok 3 (λ j, aget b (i * DirEntrySize + 8 + j)) (λ j, aget ext j)
    ltac:(intros j Hj; cbv beta; rewrite <-Z.add_assoc; split; [apply Hsome; lia|apply aget_Some; lia]))) as (m2&Hm2&M2).
  unfold entry_matches. rewrite Hm, Hm2. cbn [mbind option_bind]. rewrite <-M1, <-M2 in Heq.
  rewrite (bool_decide_ext _ _ Heq). by destruct m, m2.
Qed.

(** ** The scans of one sector, as searches in its slots *)
Definition dup_in (nm s : list Z) : option bool :=
  if first s =? 0 then Some false else if first s =? 0xE5 then None
  else if negb (Z.land (attr s) 0x08 =? 0) then None
  else if bool_decide (sname s = nm) then Some true else None.

Definition find_in (nm s : list Z) : option (option (Z * Z)) :=
  if first s =? 0 then Some None else if first s =? 0xE5 then None
  else if bool_decide (sname s = nm) then Some (Some (scluster s, ssize s)) else None.

Lemma len_slots_of b : len (slots_of b) = 16.
Proof. apply len_fmap_seqZ. lia. Qed.

Lemma buf_has_file_spec b name ext :
  sector_ok b → len name = 8 → len ext = 3 →
  buf_has_file b name ext = Some (default false (head (omap (dup_in (name ++ ext)) (slots_of b)))).
Proof.
  intros Hb Hn He. unfold buf_has_file.
  rewrite (for_range_find (dup_in (name ++ ext)) (slots_of b)).
  - rewrite take_ge; [by destruct (head _)|]. unfold slots_of. rewrite length_fmap, length_seqZ. lia.
  - rewrite len_slots_of. lia.
  - intros i s [Hi ->]%slots_of_get. rewrite bslot_first, bslot_byte, entry_matches_spec by (done || lia).
    cbn [mbind option_bind]. unfold dup_in, attr. by repeat case_match.
Qed.

Lemma buf_find_file_spec b name ext :
  sector_ok b → len name = 8 → len ext = 3 →
  buf_find_file b name ext =
    Some (match head (omap (find_in (name ++ ext)) (slots_of b)) with Some r => inr r | None => inl tt end).
Proof.
  intros Hb Hn He. unfold buf_find_file.
  rewrite (for_range_find (find_in (name ++ ext)) (slots_of b)).
  - rewrite take_ge; [done|]. unfold slots_of. rewrite length_fmap, length_seqZ. lia.
  - rewrite len_slots_of. lia.
  - intros i s [Hi ->]%slots_of_get. rewrite bslot_first, entry_matches_spec, bslot_get16, bslot_get32 by (done || lia).
    cbn [mbind option_bind]. unfold find_in, scluster, ssize. by repeat case_match.
Qed.

Lemma buf_free_slot_ok b :
  sector_ok b →
  ok (buf_free_slot b) (λ r,
    match r with
    | Some off => ∃ i, 0 ≤ i < 16 ∧ off = i * DirEntrySize ∧ ¬ live (bslot b i) ∧
                    ∀ j, 0 ≤ j < i → live (bslot b j)
    | None => ∀ i, 0 ≤ i < 16 → live (bslot b i)
    end).
Proof.
  intros Hb. apply ok_loop_end.
  apply (for_range_ok (λ i _, ∀ j, 0 ≤ j < i → live (bslot b j))); [lia|lia| |by auto].
  intros i [] Hi Hlive. cbv zeta. rewrite bslot_first by done. cbn [mbind option_bind].
  destruct (Z.eqb_spec (first (bslot b i)) 0); cbn.
  { exists i. split_and!; try lia; [by intros [? ?]|done]. }
  destruct (Z.eqb_spec (first (bslot b i)) 229); cbn.
  { exists i. split_and!; try lia; [by intros [? ?]|done]. }
  intros j Hj. destruct (decide (j = i)) as [->|]; [by split|apply Hlive; lia].
Qed.

(** ** The directory as a whole *)
Lemma head_omap_app {A B} (f : A → option B) l1 l2 :
  head (omap f (l1 ++ l2)) = match head (omap f l1) with Some r => Some r | None => head (omap f l2) end.
Proof. rewrite omap_app. by destruct (omap f l1). Qed.

Lemma dir_slots_split S start n k :
  0 ≤ k < n →
  dir_slots S start n =
    dir_slots S start k ++ slots_of (S (start + k)) ++
    mjoin ((λ sec, slots_of (S (start + sec))) <$> seqZ (k + 1) (n - k - 1)).
Proof.
  intros Hk. unfold dir_slots. replace n with (k + (1 + (n - k - 1))) at 1 by lia.
  rewrite seqZ_app, fmap_app, join_app by lia. f_equal.
  rewrite seqZ_app, fmap_app, join_app by lia. replace (0 + k) with k by lia.
  change (seqZ k 1) with [0 + k]. cbn. by rewrite app_nil_r.
Qed.

Lemma elem_dir_slots S start n s :
  s ∈ dir_slots S start n ↔ ∃ k, 0 ≤ k < n ∧ s ∈ slots_of (S (start + k)).
Proof.
  unfold dir_slots. rewrite list_elem_of_join. split.
  - intros (l&Hs&(k&->&Hk%elem_of_seqZ)%list_elem_of_fmap). exists k. split; [lia|done].
  - intros (k&Hk&Hs). exists (slots_of (S (start + k))). split; [done|].
    apply list_elem_of_fmap. exists k. split; [done|]. apply elem_of_seqZ. lia.
Qed.

Lemma dir_slots_ext S S' start n :
  (∀ k, 0 ≤ k < n → S' (start + k) = S (start + k)) → dir_slots S' start n = dir_slots S start n.
Proof.
  intros H. unfold dir_slots. f_equal. apply fmap_seqZ_ext. intros k Hk. by rewrite H.
Qed.

(** A search that passes the sectors before [k] is decided by the rest. *)
Lemma head_dir_None {R} (f : list Z → option R) S start n :
  (∀ k, 0 ≤ k < n → head (omap f (slots_of (S (start + k)))) = None) →
  head (omap f (dir_slots S start n)) = None.
Proof.
  intros H. apply head_omap_None, Forall_forall. intros s (k&Hk&Hs)%elem_dir_slots.
  specialize (H k Hk). apply head_omap_None in H. by eapply Forall_forall in H.
Qed.

Lemma not_live_zero s : first s = 0 → ¬ live s.
Proof. by intros ? [? _]. Qed.

Lemma files_of_nil S sec : files_of S sec [] = ∅.
Proof. done. Qed.

Lemma files_of_cons S sec s l :
  files_of S sec (s :: l) =
    if decide (live s) then <[sname s := (ssize s, S (sec (scluster s)))]> (files_of S sec l) else files_of S sec l.
Proof. unfold files_of. rewrite filter_cons. by case_decide. Qed.

Lemma files_of_zeros S sec l : Forall (λ s, first s = 0) l → files_of S sec l = ∅.
Proof.
  induction 1 as [|s l Hs _ IH]; [done|]. rewrite files_of_cons, decide_False by (by apply not_live_zero). done.
Qed.

(** The scan of [ReadFile] is a lookup in the map. *)
Lemma find_files S sec nm l :
  zeros_last l →
  files_of S sec l !! nm =
    match head (omap (find_in nm) l) with Some (Some (c, sz)) => Some (sz, S (sec c)) | _ => None end.
Proof.
  induction l as [|s l IH]; cbn [zeros_last omap list_omap]; [by intros; rewrite files_of_nil, lookup_empty|].
  rewrite files_of_cons. unfold find_in at 1. destruct (Z.eqb_spec (first s) 0) as [H0|H0].
  { rewrite decide_True by done. intros Hz. rewrite decide_False by (by apply not_live_zero).
    cbn. by rewrite files_of_zeros, lookup_empty. }
  rewrite decide_False by done. intros Hz. specialize (IH Hz). unfold omap in IH.
  destruct (Z.eqb_spec (first s) 0xE5) as [H5|H5].
  { rewrite decide_False; [done|]. by intros [_ ?]. }
  rewrite decide_True by done. case_bool_decide as Hn.
  - subst nm. by rewrite lookup_insert_eq.
  - by rewrite lookup_insert_ne.
Qed.

Lemma files_of_None S sec nm l :
  files_of S sec l !! nm = None ↔ ∀ s, s ∈ l → live s → sname s ≠ nm.
Proof.
  induction l as [|s l IH]; [rewrite files_of_nil, lookup_empty; set_solver|]. rewrite files_of_cons. case_decide as Hl.
  - rewrite lookup_insert_None, IH. set_solver.
  - rewrite IH. set_solver.
Qed.

Lemma files_of_ext S S' sec l :
  (∀ s, s ∈ l → live s → S' (sec (scluster s)) = S (sec (scluster s))) → files_of S' sec l = files_of S sec l.
Proof.
  induction l as [|s l IH]; intros H; [done|]. rewrite !files_of_cons, IH by set_solver.
  case_decide; [|done]. by rewrite H by set_solver.
Qed.

(** Filling a slot that was not live adds a file. *)
Lemma files_of_fill S sec pre old new post :
  ¬ live old → live new → files_of S sec (pre ++ old :: post) !! sname new = None →
  files_of S sec (pre ++ new :: post) =
    <[sname new := (ssize new, S (sec (scluster new)))]> (files_of S sec (pre ++ old :: post)).
Proof.
  intros Hold Hnew. induction pre as [|s pre IH]; cbn [app]; rewrite !files_of_cons.
  { by rewrite (decide_True (P := live new)), !(decide_False (P := live old)) by done. }
  case_decide; [|done]. intros [Hn Hne]%lookup_insert_None. rewrite IH by done. by apply insert_insert_ne.
Qed.

Lemma zeros_last_app l1 l2 : zeros_last (l1 ++ l2) → zeros_last l1 ∧ zeros_last l2.
Proof.
  induction l1 as [|s l1 IH]; cbn; [done|]. case_decide; [|done].
  intros Hz. apply Forall_app in Hz as [Hz1 Hz2]. split; [done|].
  destruct l2; cbn; [done|]. apply Forall_cons in Hz2 as [??]. by rewrite decide_True.
Qed.

(** Filling the first slot that is not live keeps the unused slots last. *)
Lemma zeros_last_fill pre old new post :
  Forall live pre → first new ≠ 0 → zeros_last (pre ++ old :: post) → zeros_last (pre ++ new :: post).
Proof.
  intros Hpre Hnew. induction Hpre as [|s pre [Hs _] _ IH]; cbn.
  - rewrite (decide_False (P := first new = 0)) by done. case_decide; [|done].
    intros Hz. destruct post; cbn; [done|]. apply Forall_cons in Hz as [??]. by rewrite decide_True.
  - by rewrite !decide_False.
Qed.

(** No slot is a volume label. *)
Definition no_label (s : list Z) : Prop := live s → Z.land (attr s) 0x08 = 0.

(** The duplicate check of one sector misses no file. *)
Lemma dup_scan nm l :
  zeros_last l → Forall no_label l →
  default false (head (omap (dup_in nm) l)) = true ↔ ∃ s, s ∈ l ∧ live s ∧ sname s = nm.
Proof.
  induction l as [|s l IH]; cbn [zeros_last omap list_omap]; [set_solver|].
  unfold dup_in at 1. intros Hz Hlab. apply Forall_cons in Hlab as [Hs Hlab].
  destruct (Z.eqb_spec (first s) 0) as [H0|H0].
  { rewrite decide_True in Hz by done. cbn. split; [done|]. intros (s'&Hin&Hl&_).
    apply elem_of_cons in Hin as [->|Hin]; [by destruct Hl|].
    eapply Forall_forall in Hz; [|done]. by destruct Hl. }
  rewrite decide_False in Hz by done. specialize (IH Hz Hlab). unfold omap in IH.
  destruct (Z.eqb_spec (first s) 0xE5) as [H5|H5].
  { rewrite IH. unfold live. set_solver. }
  rewrite Hs by done. cbn [Z.eqb negb]. case_bool_decide as Hn.
  - cbn. split; [|done]. intros _. exists s. unfold live. set_solver.
  - rewrite IH. set_solver.
Qed.

(** ** Little-endian fields *)
Fixpoint le_bytes (n : nat) (v : Z) : list Z :=
  match n with O => [] | S n => v `mod` 256 :: le_bytes n (v / 256) end.

Lemma len_le_bytes n v : len (le_bytes n v) = Z.of_nat n.
Proof. revert v. induction n as [|n IH]; intros v; cbn [le_bytes]; [by rewrite len_nil|]. rewrite len_cons, IH. lia. Qed.

Lemma le_bytes_u8 n v : Forall (λ x, in_u8 x) (le_bytes n v).
Proof. revert v. induction n as [|n IH]; intros v; constructor; [mod_lia|apply IH]. Qed.

Lemma put_le_ok n : ∀ b i v,
  0 ≤ v → 0 ≤ i → i + Z.of_nat n ≤ len b →
  ok (put_le n b i v) (λ b', len b' = len b ∧
    ∀ j, aget b' j = if decide (i ≤ j < i + Z.of_nat n) then aget (le_bytes n v) (j - i) else aget b j).
Proof.
  induction n as [|n IH]; intros b i v Hv Hi Hl; cbn [put_le].
  { split; [done|]. intros j. by rewrite decide_False by lia. }
  rewrite aset_Some by lia. cbn [mbind option_bind]. rewrite Z.shiftr_div_pow2 by lia. change (2 ^ 8) with 256.
  assert (u8 (Z.land v 255) = v `mod` 256) as ->.
  { change 255 with (Z.ones 8). rewrite Z.land_ones by lia. apply u8_small. mod_lia. }
  eapply ok_mono; [apply IH; rewrite ?len_insert; mod_lia|]. intros b' [Hl' Hg].
  split; [by rewrite Hl', len_insert|]. intros j. rewrite Hg, aget_insert, Z2Nat.id by lia.
  cbn [le_bytes]. repeat case_decide; try lia; try done.
  - replace (j - i) with (1 + (j - (i + 1))) by lia.
    by rewrite <-(aget_drop (_ :: _) 1) by lia.
  - subst j. by rewrite Z.sub_diag.
Qed.

Lemma get16_le b i v :
  0 ≤ v < 2 ^ 16 → (∀ j, 0 ≤ j < 2 → aget b (i + j) = aget (le_bytes 2 v) j) → get16 b i = Some v.
Proof.
  intros Hv H. unfold get16. rewrite <-(Z.add_0_r i) at 1. rewrite !H by lia.
  change (aget (le_bytes 2 v) 0) with (Some (v `mod` 256)).
  change (aget (le_bytes 2 v) 1) with (Some ((v / 256) `mod` 256)).
  cbn [mbind option_bind]. f_equal. rewrite u16_small by (rewrite Z.shiftl_mul_pow2 by lia; mod_lia).
  rewrite lor_add_shiftl by mod_lia. mod_lia.
Qed.

Lemma get32_le b i v :
  0 ≤ v < 2 ^ 32 → (∀ j, 0 ≤ j < 4 → aget b (i + j) = aget (le_bytes 4 v) j) → get32 b i = Some v.
Proof.
  intros Hv H. unfold get32. rewrite <-(Z.add_0_r i) at 1. rewrite !H by lia.
  change (aget (le_bytes 4 v) 0) with (Some (v `mod` 256)).
  change (aget (le_bytes 4 v) 1) with (Some ((v / 256) `mod` 256)).
  change (aget (le_bytes 4 v) 2) with (Some ((v / 256 / 256) `mod` 256)).
  change (aget (le_bytes 4 v) 3) with (Some ((v / 256 / 256 / 256) `mod` 256)).
  cbn [mbind option_bind]. f_equal. rewrite !u32_small by (rewrite Z.shiftl_mul_pow2 by lia; mod_lia).
  rewrite (lor_add_shiftl _ _ 8) by mod_lia. rewrite (lor_add_shiftl _ _ 16) by mod_lia.
  rewrite (lor_add_shiftl _ _ 24) by mod_lia. mod_lia.
Qed.

(** The entry [CreateFile] writes. *)
Definition new_slot (name ext : list Z) (cluster dataLen : Z) : list Z :=
  name ++ ext ++ replicate 15 0 ++ le_bytes 2 cluster ++ le_bytes 4 dataLen.

Lemma write_entry_ok name ext cluster dataLen off b :
  len name = 8 → len ext = 3 → 0 ≤ cluster → 0 ≤ dataLen → 0 ≤ off → off + 32 ≤ len b →
  ok (write_entry name ext cluster dataLen off b) (λ b', len b' = len b ∧
    ∀ j, aget b' j = if decide (off ≤ j < off + 32) then aget (new_slot name ext cluster dataLen) (j - off)
                     else aget b j).
Proof.
  intros Hn He Hc Hd Hoff Hl. unfold write_entry.
  call copy_into_ok; [lia..|]. intros b1 [L1 G1].
  call copy_into_ok; [lia..|]. intros b2 [L2 G2].
  rewrite aset_Some by lia. cbn [mbind option_bind].
  apply ok_bind. eapply (for_do_ok (λ i b3, len b3 = len b ∧
    ∀ j, aget b3 j = if decide (off + 11 ≤ j < off + i) then Some 0 else aget b2 j)).
  - lia.
  - split; [by rewrite len_insert; lia|]. intros j. rewrite aget_insert, Z2Nat.id by lia.
    repeat case_decide; done || lia.
  - intros i b3 Hi [L3 G3]. rewrite aset_Some by lia. cbn. split; [by rewrite len_insert|].
    intros j. rewrite aget_insert, Z2Nat.id by lia. rewrite G3. repeat case_decide; done || lia.
  - intros b3 [L3 G3]. call put_le_ok; [lia..|]. intros b4 [L4 G4].
    eapply ok_mono; [apply put_le_ok; lia|]. intros b5 [L5 G5]. split; [lia|].
    intros j. rewrite G5, G4, G3, G2, G1. unfold new_slot. rewrite !aget_app, !len_replicate, len_le_bytes, Hn, He.
    repeat case_decide; try lia; try done; try (f_equal; lia).
    unfold aget. rewrite (proj2 (Z.leb_le 0 _)) by lia. symmetry. apply lookup_replicate_2. lia.
Qed.

Lemma write_data_ok data dataLen b :
  len data = 512 → len b = 512 →
  ok (write_data data dataLen b) (λ b', len b' = 512 ∧
    ∀ j, 0 ≤ j < 512 → aget b' j = if decide (j < dataLen) then aget data j else Some 0).
Proof.
  intros Hd Hb.
  apply (for_do_ok (λ i b', len b' = 512 ∧
    ∀ j, 0 ≤ j < i → aget b' j = if decide (j < dataLen) then aget data j else Some 0)).
  - lia.
  - split; [done|lia].
  - intros i b' Hi [Hl Hg]. destruct (Z.ltb_spec i dataLen) as [Hlt|Hge].
    + destruct (aget_Some data i) as [v Hv]; [lia|]. rewrite Hv. cbn [mbind option_bind].
      rewrite aset_Some by lia. cbn. split; [by rewrite len_insert|]. intros j Hj.
      rewrite aget_insert, Z2Nat.id by lia. case_decide as Hji; [|apply Hg; lia].
      subst j. by rewrite decide_True by lia.
    + rewrite aset_Some by lia. cbn. split; [by rewrite len_insert|]. intros j Hj.
      rewrite aget_insert, Z2Nat.id by lia. case_decide as Hji; [|apply Hg; lia].
      subst j. by rewrite decide_False by lia.
  - by auto.
Qed.

(** The fields of the new entry. *)
Lemma new_slot_get name ext c n j :
  len name = 8 → len ext = 3 →
  (0 ≤ j < 2 → aget (new_slot name ext c n) (26 + j) = aget (le_bytes 2 c) j) ∧
  (0 ≤ j < 4 → aget (new_slot name ext c n) (28 + j) = aget (le_bytes 4 n) j).
Proof.
  intros Hn He. unfold new_slot. rewrite !aget_app, len_replicate, len_le_bytes, Hn, He.
  split; intros Hj; repeat case_decide; try lia; f_equal; lia.
Qed.

Lemma new_slot_fields name ext c n :
  len name = 8 → len ext = 3 → in_u16 c → in_u32 n →
  sname (new_slot name ext c n) = name ++ ext ∧ scluster (new_slot name ext c n) = c ∧
  ssize (new_slot name ext c n) = n ∧ attr (new_slot name ext c n) = 0 ∧
  first (new_slot name ext c n) = first name.
Proof.
  intros Hn He Hc Hs. assert (∀ j, _ ∧ _) as Hget by (intros j; apply (new_slot_get name ext c n j Hn He)).
  unfold scluster, ssize, attr, first, sname. split_and!.
  - unfold new_slot. rewrite app_assoc. apply take_app_length'. rewrite length_app.
    rewrite len_length in Hn, He. lia.
  - by rewrite (get16_le _ 26 c Hc (λ j Hj, proj1 (Hget j) Hj)).
  - by rewrite (get32_le _ 28 n Hs (λ j Hj, proj2 (Hget j) Hj)).
  - unfold new_slot. rewrite !aget_app, Hn, He. by repeat (rewrite decide_False by lia).
  - unfold new_slot. by rewrite aget_app, decide_True by lia.
Qed.

Lemma new_slot_u8 name ext c n :
  Forall (λ x, in_u8 x) name → Forall (λ x, in_u8 x) ext → Forall (λ x, in_u8 x) (new_slot name ext c n).
Proof.
  intros Hn He. unfold new_slot. rewrite !Forall_app. split_and!; try done; [|apply le_bytes_u8..].
  by apply Forall_replicate.
Qed.

Lemma len_new_slot name ext c n : len name = 8 → len ext = 3 → len (new_slot name ext c n) = 32.
Proof. intros Hn He. unfold new_slot. rewrite !len_app, len_replicate, !len_le_bytes. lia. Qed.

Lemma Forall_aget {A} (P : A → Prop) l : Forall P l ↔ ∀ i x, aget l i = Some x → P x.
Proof.
  rewrite Forall_lookup. split.
  - intros H i x Hx. apply aget_inv in Hx as Hr. rewrite <-(Z2Nat.id i), aget_nat in Hx by lia. by eapply H.
  - intros H i x Hx. apply (H (Z.of_nat i)). by rewrite aget_nat.
Qed.

(** The buffer after the new entry was written into slot [i]. *)
Lemma write_entry_slots name ext c n i b :
  len name = 8 → len ext = 3 → Forall (λ x, in_u8 x) name → Forall (λ x, in_u8 x) ext →
  0 ≤ c → 0 ≤ n → sector_ok b → 0 ≤ i < 16 →
  ok (write_entry name ext c n (i * DirEntrySize) b) (λ b', sector_ok b' ∧
    bslot b' i = new_slot name ext c n ∧ ∀ j, 0 ≤ j < 16 → j ≠ i → bslot b' j = bslot b j).
Proof.
  intros Hn He Hnu Heu Hc Hn0 Hb Hi. pose proof Hb as [Hl Hu]. unfold sector_size, DirEntrySize in *.
  eapply ok_mono; [apply write_entry_ok; lia|]. intros b' [Hl' Hg].
  assert (sector_ok b') as Hb'.
  { split; [unfold sector_size; lia|]. apply Forall_aget. intros j x. rewrite Hg. case_decide.
    - apply (proj1 (Forall_aget _ _) (new_slot_u8 name ext c n Hnu Heu)).
    - apply (proj1 (Forall_aget _ _) Hu). }
  pose proof (len_new_slot name ext c n Hn He) as Hln. split_and!; [apply Hb'..| |].
  - apply alist_eq; rewrite len_bslot by done; [done|]. intros j Hj.
    rewrite aget_bslot, Hg by done. rewrite decide_True by lia. f_equal. lia.
  - intros k Hk Hne. apply alist_eq; rewrite !len_bslot by done; [done|]. intros j Hj.
    rewrite !aget_bslot, Hg by done. rewrite decide_False by lia. done.
Qed.

(** ** Volumes *)
(** A layout the code handles: two allocation tables, the directory and the data area do
    not overlap, cluster numbers fit 16 bits and sector numbers 28 bits. *)
Record geo_ok (f : fat) : Prop := {
  geo_init : initialized f = true;
  geo_fat : 1 ≤ fatStart f;
  geo_size : 1 ≤ FatSz16 f ≤ 256;
  geo_root : fatStart f + 2 * FatSz16 f ≤ rootStart f;
  geo_sectors : 0 ≤ rootSectors f;
  geo_data : rootStart f + rootSectors f ≤ dataStart f;
  geo_clust : 1 ≤ SecPerClust f ≤ 255;
  geo_end : dataStart f + 65536 * SecPerClust f ≤ 2 ^ 28;
}.

Definition sec_of (f : fat) (c : Z) : Z := dataStart f + (c - 2) * SecPerClust f.

(** The first sector no cluster of the allocation table reaches. *)
Definition volume_end (f : fat) : Z := sec_of f (FatSz16 f * 256).

Lemma clusterToSector_eq f c : geo_ok f → 2 ≤ c < 65536 → clusterToSector c f = sec_of f c.
Proof.
  intros [] Hc. unfold clusterToSector, sec_of. rewrite u16_small by lia.
  rewrite (u32_small ((c - 2) * SecPerClust f)) by nia. rewrite u32_small by nia. done.
Qed.

Lemma sec_of_range f c : geo_ok f → 2 ≤ c < FatSz16 f * 256 →
  0 ≤ dataStart f ∧ dataStart f ≤ sec_of f c < volume_end f ∧ volume_end f < 2 ^ 28.
Proof. intros [] Hc. unfold volume_end, sec_of. nia. Qed.

Lemma sec_of_inj f c c' : geo_ok f → sec_of f c = sec_of f c' → c = c'.
Proof. intros [] H. unfold sec_of in H. nia. Qed.

(** ** The volume on a disk with contents [S] *)
Definition dir_of (f : fat) (S : Z → list Z) : list (list Z) := dir_slots S (rootStart f) (rootSectors f).
Definition fs_of (f : fat) (S : Z → list Z) : gmap (list Z) (Z * list Z) :=
  files_of S (sec_of f) (dir_of f S).

(** What the entries of the directory [l] owe to the allocation table. *)
Definition clusters_ok (f : fat) (S : Z → list Z) (l : list (list Z)) : Prop :=
  ∀ s, s ∈ l → live s →
    2 ≤ scluster s < FatSz16 f * 256 ∧ fat_entry S (fatStart f) (scluster s) ≠ 0.

Record vol_inv (f : fat) (S : Z → list Z) : Prop := {
  vi_zeros : zeros_last (dir_of f S);
  vi_labels : Forall no_label (dir_of f S);
  vi_clusters : clusters_ok f S (dir_of f S);
}.

Section contents.
Context (f : fat) (Hgeo : geo_ok f).
Implicit Types S : Z → list Z.

Lemma fat_entry_ext S S' c :
  S' (fatStart f + c / 256) = S (fatStart f + c / 256) → fat_entry S' (fatStart f) c = fat_entry S (fatStart f) c.
Proof. intros H. unfold fat_entry. by rewrite H. Qed.

(** A change of the tables that frees nothing changes no file. *)
Lemma vol_fat_change S S' c :
  vol_inv f S →
  (∀ l, ¬ (fatStart f ≤ l < fatStart f + 2 * FatSz16 f) → S' l = S l) →
  (∀ c', 0 ≤ c' < FatSz16 f * 256 → c' ≠ c → fat_entry S' (fatStart f) c' = fat_entry S (fatStart f) c') →
  fat_entry S (fatStart f) c = 0 →
  vol_inv f S' ∧ dir_of f S' = dir_of f S ∧ fs_of f S' = fs_of f S.
Proof.
  intros [Hz Hl Hc] Hout Hent H0. pose proof Hgeo as [].
  assert (dir_of f S' = dir_of f S) as Hdir.
  { apply dir_slots_ext. intros k Hk. apply Hout. lia. }
  split; [|split; [done|]].
  - split; rewrite Hdir; try done. intros s Hs Hlive. destruct (Hc s Hs Hlive) as [Hr Hne].
    split; [done|]. rewrite Hent; [done|lia|]. intros Heq. by rewrite Heq in Hne.
  - unfold fs_of. rewrite Hdir. apply files_of_ext. intros s Hs Hlive.
    destruct (Hc s Hs Hlive) as [Hr _]. apply Hout. pose proof (sec_of_range f _ Hgeo Hr). lia.
Qed.

(** A change of the data of a cluster that no file owns changes no file. *)
Lemma vol_data_change S c b :
  vol_inv f S → 2 ≤ c < FatSz16 f * 256 →
  vol_inv f (with_sector (sec_of f c) b S) ∧ dir_of f (with_sector (sec_of f c) b S) = dir_of f S ∧
  (∀ s, s ∈ dir_of f S → live s → scluster s ≠ c →
     with_sector (sec_of f c) b S (sec_of f (scluster s)) = S (sec_of f (scluster s))).
Proof.
  intros [Hz Hl Hc] Hrange. pose proof Hgeo as []. pose proof (sec_of_range f c Hgeo Hrange) as (?&?&?).
  assert (dir_of f (with_sector (sec_of f c) b S) = dir_of f S) as Hdir.
  { apply dir_slots_ext. intros k Hk. unfold with_sector. rewrite decide_False by lia. done. }
  split_and!; [|done|].
  - split; rewrite Hdir; try done. intros s Hs Hlive. destruct (Hc s Hs Hlive) as [Hr Hne].
    split; [done|]. rewrite (fat_entry_ext S); [done|]. unfold with_sector.
    rewrite decide_False; [done|]. assert (scluster s / 256 < FatSz16 f) by mod_lia. lia.
  - intros s Hs Hlive Hne. unfold with_sector. rewrite decide_False; [done|].
    intros Heq. by apply sec_of_inj in Heq.
Qed.

(** The directory with one slot of one sector replaced. *)
Lemma dir_of_slot S k i b :
  0 ≤ k < rootSectors f → 0 ≤ i < 16 →
  (∀ j, 0 ≤ j < 16 → j ≠ i → bslot b j = bslot (S (rootStart f + k)) j) →
  ∃ pre post, dir_of f S = pre ++ bslot (S (rootStart f + k)) i :: post ∧
    dir_of f (with_sector (rootStart f + k) b S) = pre ++ bslot b i :: post ∧
    (∀ s, s ∈ pre → (∃ k', 0 ≤ k' < k ∧ s ∈ slots_of (S (rootStart f + k'))) ∨
                    (∃ j, 0 ≤ j < i ∧ s = bslot (S (rootStart f + k)) j)).
Proof.
  intros Hk Hi Hb. set (S' := with_sector (rootStart f + k) b S).
  assert (S' (rootStart f + k) = b) as HSk by (unfold S', with_sector; by rewrite decide_True).
  assert (∀ j, j ≠ k → S' (rootStart f + j) = S (rootStart f + j)) as HSj.
  { intros j Hj. unfold S', with_sector. by rewrite decide_False by lia. }
  set (old := S (rootStart f + k)) in *.
  assert (∀ c, slots_of c = (bslot c <$> seqZ 0 i) ++ bslot c i :: (bslot c <$> seqZ (i + 1) (15 - i))) as Hslots.
  { intros c. unfold slots_of. replace 16 with (i + (1 + (15 - i))) by lia.
    rewrite seqZ_app, fmap_app, Z.add_0_l by lia. f_equal. rewrite seqZ_app, fmap_app by lia.
    change (seqZ i 1) with [0 + i]. cbn [fmap list_fmap app]. by rewrite Z.add_0_l. }
  assert ((bslot b <$> seqZ 0 i) = (bslot old <$> seqZ 0 i)) as Hpre.
  { apply fmap_seqZ_ext. intros j Hj. apply Hb; lia. }
  assert ((bslot b <$> seqZ (i + 1) (15 - i)) = (bslot old <$> seqZ (i + 1) (15 - i))) as Hpost.
  { apply list_fmap_ext. intros x j [-> Hx]%lookup_seqZ. apply Hb; lia. }
  eexists (dir_slots S (rootStart f) k ++ (bslot old <$> seqZ 0 i)), _. split_and!.
  - unfold dir_of. rewrite (dir_slots_split S _ _ k) by done. fold old. rewrite (Hslots old).
    rewrite <-!app_assoc. reflexivity.
  - unfold dir_of. rewrite (dir_slots_split S' _ _ k) by done. rewrite HSk, (Hslots b), Hpre, Hpost.
    rewrite (dir_slots_ext S S') by (intros j Hj; apply HSj; lia).
    rewrite (list_fmap_ext _ (λ sec, slots_of (S (rootStart f + sec))) (seqZ (k + 1) _)).
    2:{ intros x j [-> Hx]%lookup_seqZ. by rewrite HSj by lia. }
    by rewrite <-!app_assoc.
  - intros s [Hs|Hs]%elem_of_app.
    + left. by apply elem_dir_slots in Hs.
    + right. apply list_elem_of_fmap in Hs as (j&->&Hj%elem_of_seqZ). exists j. split; [lia|done].
Qed.

(** One entry of the first table replaced. *)
Lemma fat_entry_set S c v b c' :
  sector_ok (S (fatStart f + c / 256)) → in_u16 v → 0 ≤ c → 0 ≤ c' →
  (∀ j, aget b j = if decide (2 * c `mod` 256 ≤ j < 2 * c `mod` 256 + 2)
                   then aget (le_bytes 2 v) (j - 2 * c `mod` 256) else aget (S (fatStart f + c / 256)) j) →
  fat_entry (with_sector (fatStart f + c / 256) b S) (fatStart f) c' =
    if decide (c' = c) then v else fat_entry S (fatStart f) c'.
Proof.
  intros [Hl _] Hv Hc Hc' Hb. unfold fat_entry, with_sector.
  destruct (decide (fatStart f + c' / 256 = fatStart f + c / 256)) as [Heq|Hne].
  2:{ rewrite decide_False; [done|]. by intros ->. }
  case_decide as Hcc.
  - subst c'. rewrite (get16_le _ _ v Hv); [done|]. intros j Hj. rewrite Hb, decide_True by lia. f_equal. lia.
  - unfold get16. rewrite !Hb, Heq. rewrite !decide_False by mod_lia. done.
Qed.

(** What the tables hold once one entry is written to the first or to both of them. *)
Lemma fat_tables_set S c v b :
  let l1 := fatStart f + c / 256 in
  let l2 := fatStart f + FatSz16 f + c / 256 in
  sector_ok (S l1) → in_u16 v → 2 ≤ c < FatSz16 f * 256 →
  (∀ j, aget b j = if decide (2 * c `mod` 256 ≤ j < 2 * c `mod` 256 + 2)
                   then aget (le_bytes 2 v) (j - 2 * c `mod` 256) else aget (S l1) j) →
  ∀ S', (∀ l, S' l = with_sector l1 b S l) ∨ (∀ l, S' l = with_sector l2 b (with_sector l1 b S) l) →
    (∀ l, ¬ (fatStart f ≤ l < fatStart f + 2 * FatSz16 f) → S' l = S l) ∧
    (∀ c', 0 ≤ c' < FatSz16 f * 256 → c' ≠ c → fat_entry S' (fatStart f) c' = fat_entry S (fatStart f) c') ∧
    fat_entry S' (fatStart f) c = v.
Proof.
  intros l1 l2 Hsok Hv Hc Hb S' HS'. pose proof Hgeo as []. assert (0 ≤ c / 256 < FatSz16 f) as Hsec by mod_lia.
  assert (∀ c', 0 ≤ c' < FatSz16 f * 256 → fat_entry S' (fatStart f) c' =
    if decide (c' = c) then v else fat_entry S (fatStart f) c') as Hent.
  { intros c' Hc'. rewrite <-(fat_entry_set S c v b c') by (done || lia). apply fat_entry_ext.
    assert (c' / 256 < FatSz16 f) by mod_lia.
    destruct HS' as [-> | ->]; [done|]. unfold with_sector at 1. by rewrite decide_False by lia. }
  split_and!.
  - intros l Hl. unfold l1, l2 in HS'. destruct HS' as [-> | ->]; unfold with_sector; repeat case_decide; try done; lia.
  - intros c' Hc' Hne. by rewrite Hent, decide_False.
  - by rewrite Hent, decide_True by lia.
Qed.

(** The slots before slot [i] of sector [k] are all in use. *)
Definition slots_before_live S (k i : Z) : Prop :=
  (∀ k' s, 0 ≤ k' < k → s ∈ slots_of (S (rootStart f + k')) → live s) ∧
  (∀ j, 0 ≤ j < i → live (bslot (S (rootStart f + k)) j)).

(** Adding the entry of a new file, with the data of its cluster not yet or just written. *)
Lemma vol_add_entry S k i b name ext c n :
  vol_inv f S → 0 ≤ k < rootSectors f → 0 ≤ i < 16 →
  ¬ live (bslot (S (rootStart f + k)) i) → slots_before_live S k i →
  bslot b i = new_slot name ext c n →
  (∀ j, 0 ≤ j < 16 → j ≠ i → bslot b j = bslot (S (rootStart f + k)) j) →
  len name = 8 → len ext = 3 → live name → in_u32 n →
  2 ≤ c < FatSz16 f * 256 → fat_entry S (fatStart f) c ≠ 0 →
  (∀ s, s ∈ dir_of f S → live s → scluster s ≠ c) →
  fs_of f S !! (name ++ ext) = None →
  let S2 := with_sector (rootStart f + k) b S in
  vol_inv f S2 ∧
  ∀ S3, vol_inv f S3 → dir_of f S3 = dir_of f S2 →
    (∀ s, s ∈ dir_of f S2 → live s → scluster s ≠ c → S3 (sec_of f (scluster s)) = S2 (sec_of f (scluster s))) →
    fs_of f S3 = <[name ++ ext := (n, S3 (sec_of f c))]> (fs_of f S).
Proof.
  intros [Hz Hlab Hcl] Hk Hi Hfree [Hb1 Hb2] Hnew Hsame Hn He Hname Hn32 Hc Hent Huniq Hnone S2.
  pose proof Hgeo as []. assert (in_u16 c) as Hc16 by lia.
  destruct (new_slot_fields name ext c n Hn He Hc16 Hn32) as (Fname&Fcl&Fsz&Fat&Ffirst).
  assert (live (new_slot name ext c n)) as Hlive by (unfold live; by rewrite Ffirst).
  destruct (dir_of_slot S k i b Hk Hi Hsame) as (pre&post&Hd&Hd2&Hpre). fold S2 in Hd2. rewrite Hnew in Hd2.
  assert (Forall live pre) as Hprelive.
  { apply Forall_forall. intros s Hs. destruct (Hpre s Hs) as [(k'&Hk'&Hin)|(j&Hj&->)]; [by eapply Hb1|by apply Hb2]. }
  assert (∀ l, ¬ (rootStart f ≤ l < rootStart f + rootSectors f) → S2 l = S l) as HS2.
  { intros l Hl. unfold S2, with_sector. rewrite decide_False by lia. done. }
  assert (∀ c', 0 ≤ c' < FatSz16 f * 256 → fat_entry S2 (fatStart f) c' = fat_entry S (fatStart f) c') as HE.
  { intros c' Hc'. apply fat_entry_ext, HS2. assert (c' / 256 < FatSz16 f) by mod_lia. lia. }
  split.
  - split; rewrite Hd2; rewrite Hd in Hz, Hlab.
    + eapply zeros_last_fill; [done|by destruct Hlive|done].
    + apply Forall_app in Hlab as [? Hlab]. apply Forall_cons in Hlab as [_ ?].
      apply Forall_app; split; [done|]. constructor; [|done]. intros _. by rewrite Fat.
    + intros s [Hs|[->|Hs]%elem_of_cons]%elem_of_app Hl.
      * destruct (Hcl s) as [Hr Hne]; [rewrite Hd; set_solver|done|]. rewrite HE by lia. done.
      * rewrite Fcl. split; [lia|]. by rewrite HE by lia.
      * destruct (Hcl s) as [Hr Hne]; [rewrite Hd; set_solver|done|]. rewrite HE by lia. done.
  - intros S3 Hv3 Hd3 Hsec. unfold fs_of in *. rewrite Hd3, Hd2, Hd in *.
    assert (files_of S3 (sec_of f) (pre ++ bslot (S (rootStart f + k)) i :: post) =
            files_of S (sec_of f) (pre ++ bslot (S (rootStart f + k)) i :: post)) as Hold.
    { apply files_of_ext. intros s Hs Hl. rewrite Hsec; [|set_solver|done|by apply Huniq].
      apply HS2. destruct (Hcl s) as [Hr _]; [done|done|]. pose proof (sec_of_range f _ Hgeo Hr). lia. }
    rewrite (files_of_fill S3 (sec_of f) pre (bslot (S (rootStart f + k)) i) (new_slot name ext c n) post);
      [|done|done|by rewrite Fname, Hold].
    by rewrite Fname, Fsz, Fcl, Hold.
Qed.
End contents.

Abbreviation zeros := (replicate 512 0).

Section volume.
Context {D : Type} `{!Disk D} `{!DiskLaws D} {C : Type} `{!Console C} `{!ConsoleLaws C}.
Implicit Types (st : fstate D C) (S : Z → list Z).

Definition vol st : Z → list Z := sectors (fs_disk st).
Definition dir st : list (list Z) := dir_of (fs_fat st) (vol st).

(** The map of files a volume holds. *)
Definition files st : gmap (list Z) (Z * list Z) := fs_of (fs_fat st) (vol st).

Record fat_inv st : Prop := {
  fi_disk : disk_ok (fs_disk st);
  fi_buf : sector_ok (fatBuf (fs_fat st));
  fi_con : console_ok (fs_con st);
  fi_geo : geo_ok (fs_fat st);
  fi_vol : vol_inv (fs_fat st) (vol st);
}.

(** The disk completes every transfer of the volume. *)
Definition reliable st : Prop := ∀ l, 0 ≤ l < volume_end (fs_fat st) → answers (fs_disk st) l.

(** [st] after some operations that left [S] on the disk and the layout alone. *)
Record reach st0 S st : Prop := {
  re_fat : fs_fat st = set_buf (fatBuf (fs_fat st)) (fs_fat st0);
  re_buf : sector_ok (fatBuf (fs_fat st));
  re_disk : disk_ok (fs_disk st);
  re_con : console_ok (fs_con st);
  re_vol : ∀ l, vol st l = S l;
  re_answers : ∀ l, answers (fs_disk st0) l → answers (fs_disk st) l;
}.

Lemma reach_refl st : fat_inv st → reach st (vol st) st.
Proof. intros []. split; try done. by destruct (fs_fat st). Qed.

Lemma reach_sector st0 S st l : reach st0 S st → sector_ok (S l).
Proof. intros []. rewrite <-re_vol0. by apply sectors_ok. Qed.

Lemma reach_ext st0 S S' st : reach st0 S st → (∀ l, S' l = S l) → reach st0 S' st.
Proof. intros [] H. split; try done. intros l. by rewrite H. Qed.

Lemma reach_set_buf st0 S st b : reach st0 S st → sector_ok b → reach st0 S (upd (set_buf b) st).
Proof. intros [] Hb. split; try done. cbn. by rewrite re_fat0. Qed.

Lemma reach_con st0 S st c : reach st0 S st → console_ok c → reach st0 S (FState (fs_fat st) (fs_disk st) c).
Proof. intros [] Hc. by split. Qed.

Lemma print_nl_ok st0 S st s : reach st0 S st → ok (print_nl s st) (reach st0 S).
Proof.
  intros Hr. unfold print_nl. apply ok_bind. eapply ok_mono; [apply Print_ok, Hr|].
  intros c Hc. by apply reach_con.
Qed.

Lemma read_buf_ok st0 S st lba :
  reach st0 S st → 0 ≤ lba < 2 ^ 28 →
  ok (read_buf lba st) (λ '(r, st'), reach st0 S st' ∧ (r = true → fatBuf (fs_fat st') = S lba) ∧
    (answers (fs_disk st0) lba → r = true)).
Proof.
  intros Hr Hl. pose proof Hr as []. unfold read_buf. call read_law; [done..|].
  intros [[r b] d] (Hd&Hs&Ha&Hb&Hans). cbn.
  assert (sector_ok b) as Hbok.
  { destruct r; subst b; [by apply sectors_ok|done]. }
  split_and!; [|intros ->; by rewrite <-re_vol0|by auto].
  split; cbn; try done; [by rewrite re_fat0|intros l; unfold vol; cbn; rewrite Hs; apply re_vol0|by auto].
Qed.

Lemma write_buf_ok st0 S st lba :
  reach st0 S st → 0 ≤ lba < 2 ^ 28 →
  ok (write_buf lba st) (λ '(r, st'), fs_fat st' = fs_fat st ∧ (answers (fs_disk st0) lba → r = true) ∧
    (reach st0 (with_sector lba (fatBuf (fs_fat st)) S) st' ∨ r = false ∧ reach st0 S st')).
Proof.
  intros Hr Hl. pose proof Hr as []. unfold write_buf. call write_law; [done..|].
  intros [r d] (Hd&Ha&Hans&Hs). cbn. split_and!; [done|by auto|].
  destruct Hs as [Hs|[-> Hs]]; [left|right; split; [done|]]; split; cbn; try done; try (by auto);
    intros l; unfold vol; cbn; rewrite Hs; [|apply re_vol0].
  unfold with_sector. case_decide; [done|]. apply re_vol0.
Qed.

(** The rule for a loop over the sectors of an area. *)
Lemma for_sectors_ok {R} st0 S (Pass : Z → Prop) (Post : fstate D C + R → Prop) start n fail body st :
  reach st0 S st → 0 ≤ n → 0 ≤ start → start + n ≤ 2 ^ 28 →
  (∀ st sec, reach st0 S st → 0 ≤ sec < n → ¬ answers (fs_disk st0) (start + sec) →
     ok (fail st) (λ x, Post (inr x))) →
  (∀ sec st, 0 ≤ sec < n → reach st0 S st → fatBuf (fs_fat st) = S (start + sec) →
     (∀ k, 0 ≤ k < sec → Pass k) →
     ok (body sec st) (λ o, match o with
                            | inl st' => reach st0 S st' ∧ Pass sec
                            | inr r => Post (inr r) end)) →
  (∀ st, reach st0 S st → (∀ k, 0 ≤ k < n → Pass k) → Post (inl st)) →
  ok (for_sectors start n fail body st) Post.
Proof.
  intros Hr Hn Hs He Hfail Hbody Hpost. unfold for_sectors.
  apply (for_range_ok (λ i st, reach st0 S st ∧ ∀ k, 0 ≤ k < i → Pass k)); [done|split; [done|lia]| |].
  2:{ intros st' [??]. by apply Hpost. }
  intros sec st' Hsec [Hr' Hpass]. rewrite u32_small by lia.
  call read_buf_ok; [done|lia|]. intros [r st1] (Hr1&Hbuf&Hans).
  destruct r; cbn [negb].
  - eapply ok_mono; [by apply Hbody; auto|]. intros [st2|x]; [|done]. intros [Hr2 Hp]. split; [done|].
    intros k Hk. destruct (decide (k = sec)) as [->|]; [done|]. apply Hpass. lia.
  - apply ok_bind. eapply ok_mono; [apply (Hfail st1 sec Hr1 Hsec)|done].
    intros Ha. by specialize (Hans Ha).
Qed.

Lemma find_in_elem nm l c sz :
  head (omap (find_in nm) l) = Some (Some (c, sz)) → ∃ s, s ∈ l ∧ live s ∧ scluster s = c.
Proof.
  induction l as [|s l IH]; cbn [omap list_omap]; [done|]. unfold find_in at 1, live.
  destruct (Z.eqb_spec (first s) 0); [done|]. destruct (Z.eqb_spec (first s) 0xE5).
  { intros (s'&?&?&?)%IH. exists s'. set_solver. }
  case_bool_decide; cbn [head].
  - intros [= <- <-]. exists s. set_solver.
  - intros (s'&?&?&?)%IH. exists s'. set_solver.
Qed.

(** The result of a search in the directory, from the sector where it stopped. *)
Lemma head_dir_at {R} (f : list Z → option R) S start n k r :
  0 ≤ k < n → (∀ j, 0 ≤ j < k → head (omap f (slots_of (S (start + j)))) = None) →
  head (omap f (slots_of (S (start + k)))) = Some r → head (omap f (dir_slots S start n)) = Some r.
Proof.
  intros Hk Hpre Hr. rewrite (dir_slots_split S start n k) by done.
  rewrite !head_omap_app, head_dir_None by done. by rewrite Hr.
Qed.

Lemma reach_geo st0 S st : reach st0 S st → geo_ok (fs_fat st0) → geo_ok (fs_fat st).
Proof. intros Hr []. rewrite (re_fat _ _ _ Hr). by split. Qed.

Lemma geo_root_range f : geo_ok f → 0 ≤ rootSectors f ∧ 0 ≤ rootStart f ∧
  rootStart f + rootSectors f ≤ volume_end f ∧ volume_end f < 2 ^ 28.
Proof. intros []. unfold volume_end, sec_of. split_and!; nia. Qed.

Lemma reliable_root st sec :
  geo_ok (fs_fat st) → reliable st → 0 ≤ sec < rootSectors (fs_fat st) →
  answers (fs_disk st) (rootStart (fs_fat st) + sec).
Proof. intros Hg Hrel Hsec. apply Hrel. pose proof (geo_root_range _ Hg). lia. Qed.

Lemma ReadFile_ok st name ext outBuf :
  fat_inv st → len name = 8 → len ext = 3 → sector_ok outBuf →
  ok (ReadFile name ext outBuf st) (λ '(sz, r, out, st'), reach st (vol st) st' ∧
    if r : bool then files st !! (name ++ ext) = Some (sz, out)
    else sz = 0 ∧ out = outBuf ∧ (reliable st → files st !! (name ++ ext) = None)).
Proof.
  intros Hi Hn He Ho. pose proof Hi as [? ? ? fi_geo0 [fi_zeros0 _ fi_clusters0]]. unfold ReadFile. rewrite (geo_init _ fi_geo0). cbn [negb].
  pose proof (geo_root_range _ fi_geo0) as (?&?&?&?).
  pose proof (find_files (vol st) (sec_of (fs_fat st)) (name ++ ext) (dir st) fi_zeros0) as Hfind.
  change (files_of (vol st) (sec_of (fs_fat st)) (dir st)) with (files st) in Hfind.
  apply ok_loop_end. eapply (for_sectors_ok st (vol st)
    (λ k, head (omap (find_in (name ++ ext)) (slots_of (vol st (rootStart (fs_fat st) + k)))) = None));
    [by apply reach_refl|lia..| | |].
  - intros st1 sec Hr Hsec Hans. cbn. split_and!; try done. intros Hrel. destruct Hans. by apply reliable_root.
  - intros sec st1 Hsec Hr Hbuf Hpass.
    rewrite Hbuf, buf_find_file_spec by (done || by eapply reach_sector). cbn [mbind option_bind].
    destruct (head (omap (find_in (name ++ ext)) (slots_of (vol st (rootStart (fs_fat st) + sec)))))
      as [[[c sz]|]|] eqn:Hh; cbn [ok]; [| |by split].
    + pose proof (head_dir_at _ _ _ _ _ _ Hsec Hpass Hh) as Hdir.
      fold (dir_of (fs_fat st) (vol st)) in Hdir. fold (dir st) in Hdir. rewrite Hdir in Hfind.
      destruct (find_in_elem _ _ _ _ Hdir) as (s&Hs&Hl&<-). destruct (fi_clusters0 s Hs Hl) as [Hc _].
      assert (FatSz16 (fs_fat st) ≤ 256) by (destruct fi_geo0; lia).
      rewrite (re_fat _ _ _ Hr). change (clusterToSector (scluster s) (set_buf _ (fs_fat st))) with (clusterToSector (scluster s) (fs_fat st)).
      rewrite clusterToSector_eq by (done || lia). pose proof (sec_of_range _ _ fi_geo0 Hc) as (?&?&?).
      call read_law; [apply Hr|lia|done|]. intros [[r b] d] (Hd&Hsec'&Ha&Hb&Hans).
      assert (reach st (vol st) (FState (set_buf (fatBuf (fs_fat st1)) (fs_fat st)) d (fs_con st1))) as Hr2.
      { destruct Hr. split; cbn; try done; [by intros l; unfold vol; cbn; rewrite Hsec'; apply re_vol0|by auto]. }
      destruct r; cbn [negb ok].
      * split; [done|]. rewrite Hfind. do 2 f_equal. rewrite Hb. symmetry. apply (re_vol _ _ _ Hr).
      * split; [done|]. split_and!; [done..|]. intros Hrel. exfalso.
        assert (false = true); [|done]. apply Hans, (re_answers _ _ _ Hr), Hrel. lia.
    + split; [done|]. split_and!; [done..|]. intros _.
      pose proof (head_dir_at _ _ _ _ _ _ Hsec Hpass Hh) as Hdir. fold (dir_of (fs_fat st) (vol st)) in Hdir. fold (dir st) in Hdir. by rewrite Hdir in Hfind.
  - intros st1 Hr Hpass. cbn. split; [done|]. split_and!; [done..|]. intros _.
    pose proof (head_dir_None _ _ _ _ Hpass) as Hdir. fold (dir_of (fs_fat st) (vol st)) in Hdir. fold (dir st) in Hdir. by rewrite Hdir in Hfind.
Qed.

Lemma get16_total b i : sector_ok b → 0 ≤ i ≤ 510 → ∃ v, get16 b i = Some v.
Proof.
  intros [Hl _] Hi. unfold sector_size in Hl. unfold get16.
  destruct (aget_Some b i) as [x ->]; [lia|]. destruct (aget_Some b (i + 1)) as [y ->]; [lia|]. by eexists.
Qed.

(** Every cluster of the table is taken. *)
Definition fat_full (f : fat) S : Prop :=
  ∀ c, 2 ≤ c < FatSz16 f * 256 → fat_entry S (fatStart f) c ≠ 0.

Lemma findFreeCluster_ok st0 S st :
  reach st0 S st → geo_ok (fs_fat st0) →
  ok (findFreeCluster st) (λ '(c, st'), reach st0 S st' ∧
    (c ≠ 0 → 2 ≤ c < FatSz16 (fs_fat st0) * 256 ∧ fat_entry S (fatStart (fs_fat st0)) c = 0) ∧
    (c = 0 → reliable st0 → fat_full (fs_fat st0) S)).
Proof.
  intros Hr Hgeo. pose proof Hgeo as []. unfold findFreeCluster. rewrite (re_fat _ _ _ Hr). cbn [fatStart FatSz16 set_buf].
  pose proof (geo_root_range _ Hgeo) as (?&?&?&?). apply ok_loop_end.
  apply (for_sectors_ok st0 S (λ k, ∀ i, 0 ≤ i < 256 → 2 ≤ k * 256 + i →
    fat_entry S (fatStart (fs_fat st0)) (k * 256 + i) ≠ 0)); [by apply Hr|lia..| | |].
  - intros st1 sec Hr1 Hsec Hans. cbn. split_and!; try done. intros _ Hrel. destruct Hans. apply Hrel. lia.
  - intros sec st1 Hsec Hr1 Hbuf _.
    apply (for_range_ok (λ i st2, st2 = st1 ∧ ∀ j, 0 ≤ j < i → 2 ≤ sec * 256 + j →
      fat_entry S (fatStart (fs_fat st0)) (sec * 256 + j) ≠ 0)); [lia|split; [done|lia]| |].
    2:{ intros st2 [-> Hall]. by split. }
    intros i st2 Hi [-> Hall]. rewrite (u32_small (sec * 256)), u32_small by lia.
    destruct (Z.ltb_spec (sec * 256 + i) 2) as [Hlt|Hge].
    { cbn. split; [done|]. intros j Hj Hj2. apply Hall; lia. }
    rewrite Hbuf. destruct (get16_total (S (fatStart (fs_fat st0) + sec)) (i * 2)) as [v Hv];
      [by eapply reach_sector|lia|]. rewrite Hv. cbn [mbind option_bind].
    assert (fat_entry S (fatStart (fs_fat st0)) (sec * 256 + i) = v) as Hent.
    { unfold fat_entry. replace ((sec * 256 + i) / 256) with sec by mod_lia.
      replace (2 * (sec * 256 + i) `mod` 256) with (i * 2) by mod_lia. by rewrite Hv. }
    destruct (Z.eqb_spec v 0) as [Hv0|Hv0]; cbn.
    + rewrite u16_small by lia. split; [done|]. split; [|lia]. intros _. split; [lia|]. congruence.
    + split; [done|]. intros j Hj Hj2. destruct (decide (j = i)) as [->|]; [congruence|]. apply Hall; lia.
  - intros st1 Hr1 Hpass. cbn. split_and!; [done..|]. intros _ _ c Hc.
    replace c with ((c / 256) * 256 + c `mod` 256) by mod_lia. apply Hpass; mod_lia.
Qed.

(** What [setFATEntry] leaves on the disk, whatever fails. *)
Lemma setFATEntry_ok st0 S st c :
  reach st0 S st → geo_ok (fs_fat st0) → 2 ≤ c < FatSz16 (fs_fat st0) * 256 →
  let f := fs_fat st0 in
  ok (setFATEntry c 0xFFFF st) (λ '(r, st'), ∃ S', reach st0 S' st' ∧
    (∀ l, ¬ (fatStart f ≤ l < fatStart f + 2 * FatSz16 f) → S' l = S l) ∧
    (∀ c', 0 ≤ c' < FatSz16 f * 256 → c' ≠ c → fat_entry S' (fatStart f) c' = fat_entry S (fatStart f) c') ∧
    (r = true → fat_entry S' (fatStart f) c = 0xFFFF) ∧ (reliable st0 → r = true)).
Proof.
  intros Hr Hgeo Hc f. subst f. set (f := fs_fat st0) in *. pose proof Hgeo as [].
  pose proof (geo_root_range _ Hgeo) as (?&?&?&?). unfold setFATEntry. rewrite (re_fat _ _ _ Hr). cbn [fatStart set_buf].
  rewrite (u32_small (c * 2)) by lia. replace (c * 2 / 512) with (c / 256) by mod_lia.
  replace ((c * 2) `mod` 512) with (2 * c `mod` 256) by mod_lia.
  assert (0 ≤ c / 256 < FatSz16 f) as Hsec by mod_lia. fold f in Hgeo. fold f.
  rewrite u32_small by lia. call read_buf_ok; [done|lia|]. intros [r st1] (Hr1&Hbuf&Hans).
  destruct r; cbn [negb].
  2:{ exists S. split_and!; try done. intros Hrel. apply Hans, Hrel. fold f. lia. }
  specialize (Hbuf eq_refl). assert (sector_ok (S (fatStart f + c / 256))) as Hsok by (by eapply reach_sector).
  call put_le_ok; [lia|mod_lia|rewrite Hbuf; destruct Hsok as [-> _]; unfold sector_size; mod_lia|].
  intros b [Hlb Hgb]. rewrite Hbuf in Hlb, Hgb.
  assert (sector_ok b) as Hbok.
  { destruct Hsok as [Hl Hu]. split; [lia|]. apply Forall_aget. intros j x. rewrite Hgb. case_decide.
    - apply (proj1 (Forall_aget _ _) (le_bytes_u8 2 65535)).
    - apply (proj1 (Forall_aget _ _) Hu). }
  pose proof (fat_tables_set f Hgeo S c 65535 b) as Hgood. cbv zeta in Hgood.
  specialize (Hgood Hsok ltac:(lia) Hc Hgb).
  call (write_buf_ok st0 S); [by apply reach_set_buf|lia|]. intros [r st2] (Hf2&Hans2&Hw).
  destruct r; cbn [negb].
  2:{ destruct Hw as [Hw|[_ Hw]].
      - eexists. split; [exact Hw|]. cbn [fs_fat upd fatBuf set_buf].
        destruct (Hgood _ (or_introl (λ l, eq_refl))) as (G1&G2&_). split_and!; try done.
        intros Hrel. apply Hans2, Hrel. fold f. lia.
      - exists S. split_and!; try done. intros Hrel. apply Hans2, Hrel. fold f. lia. }
  destruct Hw as [Hw|[? _]]; [|done]. cbn [fs_fat upd fatBuf set_buf] in Hw. rewrite Hf2. cbn [fs_fat upd FatSz16 set_buf].
  rewrite (re_fat _ _ _ Hr1). cbn [FatSz16 set_buf]. fold f. rewrite (u32_small (fatStart f + FatSz16 f)), u32_small by lia.
  call write_buf_ok; [exact Hw|lia|]. intros [r st3] (_&_&Hw3). rewrite Hf2 in Hw3. cbn [fs_fat upd fatBuf set_buf] in Hw3.
  cbn. destruct Hw3 as [Hw3|[_ Hw3]]; (eexists; split; [exact Hw3|]).
  - by destruct (Hgood _ (or_intror (λ l, eq_refl))) as (G1&G2&G3).
  - by destruct (Hgood _ (or_introl (λ l, eq_refl))) as (G1&G2&G3).
Qed.

Lemma reach_inv st0 S st :
  reach st0 S st → geo_ok (fs_fat st0) → vol_inv (fs_fat st0) S →
  fat_inv st ∧ files st = fs_of (fs_fat st0) S.
Proof.
  intros Hr Hgeo [Hz Hl Hc]. pose proof Hr as []. pose proof (reach_geo _ _ _ Hr Hgeo) as Hg.
  assert (dir_of (fs_fat st0) (vol st) = dir_of (fs_fat st0) S) as Hd.
  { apply dir_slots_ext. intros. apply re_vol0. }
  unfold files. rewrite re_fat0.
  change (fs_of (set_buf (fatBuf (fs_fat st)) (fs_fat st0)) (vol st)) with (fs_of (fs_fat st0) (vol st)).
  split; [|unfold fs_of; rewrite Hd; apply files_of_ext; intros; apply re_vol0].
  split; try done. rewrite re_fat0. split.
  - change (zeros_last (dir_of (fs_fat st0) (vol st))). by rewrite Hd.
  - change (Forall no_label (dir_of (fs_fat st0) (vol st))). by rewrite Hd.
  - change (clusters_ok (fs_fat st0) (vol st) (dir_of (fs_fat st0) (vol st))). rewrite Hd.
    intros s Hs Hlive. destruct (Hc s Hs Hlive). split; [done|]. by rewrite (fat_entry_ext (fs_fat st0) S).
Qed.

(** Every slot of the directory is in use. *)
Definition dir_full (f : fat) S : Prop := Forall live (dir_of f S).

Lemma find_dir_slot_ok st0 S st :
  reach st0 S st → geo_ok (fs_fat st0) →
  let f := fs_fat st0 in
  ok (find_dir_slot st) (λ o,
    match o with
    | inl (k, off, st') => reach st0 S st' ∧ ∃ i, 0 ≤ k < rootSectors f ∧ 0 ≤ i < 16 ∧
        off = i * DirEntrySize ∧ ¬ live (bslot (S (rootStart f + k)) i) ∧ slots_before_live f S k i
    | inr (r, st') => r = false ∧ reach st0 S st' ∧ (reliable st0 → dir_full f S)
    end).
Proof.
  intros Hr Hgeo f. unfold find_dir_slot. rewrite (re_fat _ _ _ Hr). cbn [rootStart rootSectors set_buf]. fold f.
  pose proof (geo_root_range f Hgeo) as (?&?&?&?). apply ok_loop_end.
  apply (for_sectors_ok st0 S (λ k, ∀ i, 0 ≤ i < 16 → live (bslot (S (rootStart f + k)) i))); [by apply Hr|lia..| | |].
  - intros st1 sec Hr1 Hsec Hans. cbn. split_and!; try done. intros Hrel. destruct Hans. by apply reliable_root.
  - intros sec st1 Hsec Hr1 Hbuf Hpass. rewrite Hbuf.
    call buf_free_slot_ok; [by eapply reach_sector|]. intros [off|] Hslot; cbn; [|by split].
    destruct Hslot as (i&Hi&->&Hfree&Hbefore). split; [done|]. exists i. split_and!; try done; try lia.
    split; [|done]. intros k' s Hk' (j&Hj&->)%elem_slots_of. by apply Hpass.
  - intros st1 Hr1 Hpass. call print_nl_ok; [done|]. intros st2 Hr2. cbn. split_and!; [done..|].
    intros _. apply Forall_forall. intros s (k&Hk&(i&Hi&->)%elem_slots_of)%elem_dir_slots. by apply Hpass.
Qed.

(** The data of a file, padded with zeros to a sector. *)
Definition padded (data : list Z) (n : Z) : list Z :=
  (λ j, if decide (j < n) then default 0 (aget data j) else 0) <$> seqZ 0 512.

Lemma write_data_padded data n b :
  sector_ok data → sector_ok b → ok (write_data data n b) (λ b', b' = padded data n ∧ sector_ok b').
Proof.
  intros [Hd Hu] [Hb _]. unfold sector_size in *. eapply ok_mono; [by apply write_data_ok|]. intros b' [Hl Hg].
  assert (b' = padded data n) as ->.
  { apply alist_eq; [rewrite Hl; unfold padded; rewrite len_fmap_seqZ by lia; done|].
    intros j Hj. rewrite Hl in Hj. rewrite Hg by lia. unfold padded. rewrite aget_fmap_seqZ, (decide_True (P := 0 ≤ j < 512)) by lia.
    case_decide; [|done]. by destruct (aget_Some data j) as [x ->]; [lia|]. }
  split; [done|]. split; [done|]. apply Forall_aget. intros j x. unfold padded. rewrite aget_fmap_seqZ.
  case_decide; [|done]. intros [= <-]. case_decide; [|lia].
  destruct (aget_Some data j) as [y Hy]; [lia|]. rewrite Hy. by apply (proj1 (Forall_aget _ _) Hu j).
Qed.

(** The arguments of [CreateFile]: an 8.3 name that does not read as a free entry, and a
    sector of data. *)
Record args_ok (name ext data : list Z) (n : Z) : Prop := {
  arg_name : len name = 8 ∧ Forall (λ x, in_u8 x) name ∧ live name;
  arg_ext : len ext = 3 ∧ Forall (λ x, in_u8 x) ext;
  arg_data : sector_ok data;
  arg_len : in_u32 n;
}.

Lemma store_file_ok st0 S st name ext data n c k i :
  let f := fs_fat st0 in
  reach st0 S st → geo_ok f → vol_inv f S → args_ok name ext data n →
  0 ≤ k < rootSectors f → 0 ≤ i < 16 → ¬ live (bslot (S (rootStart f + k)) i) → slots_before_live f S k i →
  2 ≤ c < FatSz16 f * 256 → fat_entry S (fatStart f) c ≠ 0 →
  (∀ s, s ∈ dir_of f S → live s → scluster s ≠ c) → fs_of f S !! (name ++ ext) = None →
  ok (store_file name ext data n c k (i * DirEntrySize) st) (λ '(r, st'), ∃ S', reach st0 S' st' ∧ vol_inv f S' ∧
    (if r : bool then fs_of f S' = <[name ++ ext := (n, padded data n)]> (fs_of f S)
     else (∀ nm, nm ≠ name ++ ext → fs_of f S' !! nm = fs_of f S !! nm) ∧ ¬ reliable st0)).
Proof.
  intros f Hr Hgeo Hv [(Hn&Hnu&Hname) (He&Heu) Hdata Hlen] Hk Hi Hfree Hbefore Hc Hent Huniq Hnone.
  pose proof (geo_root_range _ Hgeo) as (?&?&?&?). unfold store_file. rewrite (re_fat _ _ _ Hr).
  cbn [rootStart set_buf]. fold f. rewrite u32_small by lia.
  assert (∀ S1 st1 lba, reach st0 S1 st1 → vol_inv f S1 →
    (∀ nm, nm ≠ name ++ ext → fs_of f S1 !! nm = fs_of f S !! nm) → 0 ≤ lba < volume_end f →
    (answers (fs_disk st0) lba → false = true) →
    ok (Some (false, st1)) (λ '(r, st'), ∃ S', reach st0 S' st' ∧ vol_inv f S' ∧
      (if r : bool then fs_of f S' = <[name ++ ext := (n, padded data n)]> (fs_of f S)
       else (∀ nm, nm ≠ name ++ ext → fs_of f S' !! nm = fs_of f S !! nm) ∧ ¬ reliable st0))) as Hfail.
  { intros S1 st1 lba Hr1 Hv1 Hsame Hlba Hans. exists S1. split_and!; try done.
    intros Hrel. by discriminate (Hans (Hrel lba Hlba)). }
  call read_buf_ok; [done|lia|]. intros [r st1] (Hr1&Hbuf&Hans). destruct r; cbn [negb];
    [|by apply (Hfail S st1 (rootStart f + k)); auto with lia].
  specialize (Hbuf eq_refl). rewrite Hbuf.
  call write_entry_slots; [done..|lia|lia|by eapply reach_sector|done|]. intros b (Hbok&Hnew&Hsame).
  destruct (vol_add_entry f Hgeo S k i b name ext c n) as [Hv2 Hfs]; try done.
  set (S2 := with_sector (rootStart f + k) b S) in *.
  call (write_buf_ok st0 S); [by apply reach_set_buf|lia|]. intros [r st2] (Hf2&Hans2&Hw2).
  assert (∀ S3, vol_inv f S3 → dir_of f S3 = dir_of f S2 →
    (∀ s, s ∈ dir_of f S2 → live s → scluster s ≠ c → S3 (sec_of f (scluster s)) = S2 (sec_of f (scluster s))) →
    ∀ nm, nm ≠ name ++ ext → fs_of f S3 !! nm = fs_of f S !! nm) as Hother.
  { intros S3 ? ? ? nm Hne. rewrite (Hfs S3) by done. by rewrite lookup_insert_ne. }
  destruct r; cbn [negb].
  2:{ destruct Hw2 as [Hw2|[_ Hw2]].
      - apply (Hfail S2 st2 (rootStart f + k)); auto; lia.
      - apply (Hfail S st2 (rootStart f + k)); auto; lia. }
  destruct Hw2 as [Hw2|[? _]]; [|done]. cbn [upd fs_fat fatBuf set_buf] in Hw2. fold S2 in Hw2.
  rewrite (re_fat _ _ _ Hw2).
  change (clusterToSector c (set_buf _ (fs_fat st0))) with (clusterToSector c f).
  assert (FatSz16 f ≤ 256) by (destruct Hgeo; lia). rewrite clusterToSector_eq by (done || lia).
  pose proof (sec_of_range f c Hgeo Hc) as (?&?&?).
  call write_data_padded; [done|apply Hw2|]. intros b3 [-> Hb3].
  call (write_buf_ok st0 S2); [by apply reach_set_buf|lia|]. intros [r st3] (_&Hans3&Hw3).
  destruct (vol_data_change f Hgeo S2 c (padded data n) Hv2 Hc) as (Hv3&Hd3&Hsec3).
  destruct r; cbn [negb].
  - destruct Hw3 as [Hw3|[? _]]; [|done]. cbn [ok]. eexists. split; [exact Hw3|]. split; [done|].
    cbn [upd fs_fat fatBuf set_buf]. rewrite (Hfs _ Hv3 Hd3 Hsec3). do 2 f_equal. unfold with_sector.
    by rewrite decide_True.
  - destruct Hw3 as [Hw3|[_ Hw3]].
    + eapply (Hfail _ st3 (sec_of f c)); [exact Hw3|done|by apply Hother|lia|done].
    + apply (Hfail S2 st3 (sec_of f c)); auto; lia.
Qed.

(** The duplicate check over the whole directory. *)
Lemma dup_check_ok st0 S st name ext (Post : fstate D C + bool * fstate D C → Prop) :
  let f := fs_fat st0 in
  reach st0 S st → geo_ok f → vol_inv f S → len name = 8 → len ext = 3 →
  (∀ st', reach st0 S st' → (reliable st0 → is_Some (fs_of f S !! (name ++ ext))) → Post (inr (false, st'))) →
  (∀ st', reach st0 S st' → fs_of f S !! (name ++ ext) = None → Post (inl st')) →
  ok (for_sectors (rootStart f) (rootSectors f) (λ st, Some (false, st))
        (λ _ st, dup ← buf_has_file (fatBuf (fs_fat st)) name ext;
           if dup : bool then st ← print_nl "FAT16: File already exists" st; Some (inr (false, st))
           else Some (inl st)) st) Post.
Proof.
  intros f Hr Hgeo [Hz Hlab _] Hn He Hyes Hno. pose proof (geo_root_range f Hgeo) as (?&?&?&?).
  apply (for_sectors_ok st0 S (λ k, ¬ ∃ s, s ∈ slots_of (S (rootStart f + k)) ∧ live s ∧ sname s = name ++ ext));
    [done|lia..| | |].
  - intros st1 sec Hr1 Hsec Hans. apply Hyes; [done|]. intros Hrel. destruct Hans. by apply reliable_root.
  - intros sec st1 Hsec Hr1 Hbuf _. rewrite Hbuf, buf_has_file_spec by (done || by eapply reach_sector).
    cbn [mbind option_bind].
    assert (zeros_last (slots_of (S (rootStart f + sec))) ∧ Forall no_label (slots_of (S (rootStart f + sec)))) as [Hz1 Hl1].
    { unfold dir_of in Hz, Hlab. rewrite (dir_slots_split S _ _ sec Hsec) in Hz, Hlab.
      apply zeros_last_app in Hz as [_ [Hz _]%zeros_last_app].
      apply Forall_app in Hlab as [_ Hlab]. by apply Forall_app in Hlab as [Hlab _]. }
    pose proof (dup_scan (name ++ ext) _ Hz1 Hl1) as Hdup.
    destruct (default false _); cbn [ok].
    + apply ok_bind. eapply ok_mono; [by apply print_nl_ok|]. intros st2 Hr2. apply Hyes; [done|]. intros _.
      destruct (proj1 Hdup eq_refl) as (s&Hs&Hlive&Hname). apply not_eq_None_Some. intros Hnone.
      eapply (proj1 (files_of_None _ _ _ _) Hnone); [|done|done]. apply elem_dir_slots. by exists sec.
    + split; [done|]. intros Hex. by apply Hdup in Hex.
  - intros st1 Hr1 Hpass. apply Hno; [done|]. apply files_of_None.
    intros s (k&Hk&Hs)%elem_dir_slots Hlive Hname. apply (Hpass k Hk). by exists s.
Qed.

(** The outcome of [CreateFile] in terms of the map of files. *)
Definition created st name ext data n (r : bool) st' : Prop :=
  fat_inv st' ∧ rootStart (fs_fat st') = rootStart (fs_fat st) ∧
  (if r then files st !! (name ++ ext) = None ∧
             files st' = <[name ++ ext := (n, padded data n)]> (files st)
   else (∀ nm, nm ≠ name ++ ext → files st' !! nm = files st !! nm) ∧
        (reliable st → files st' = files st ∧
           (is_Some (files st !! (name ++ ext)) ∨ fat_full (fs_fat st) (vol st) ∨ dir_full (fs_fat st) (vol st)))).

(** An operation that gives up with the files intact. *)
Lemma created_fails st S st' name ext data n :
  fat_inv st → reach st S st' → vol_inv (fs_fat st) S → fs_of (fs_fat st) S = files st →
  (reliable st → is_Some (files st !! (name ++ ext)) ∨ fat_full (fs_fat st) (vol st) ∨ dir_full (fs_fat st) (vol st)) →
  created st name ext data n false st'.
Proof.
  intros Hi Hr Hv Hfs Hwhy. destruct (reach_inv st S st' Hr (fi_geo _ Hi) Hv) as [Hi' Hf'].
  rewrite Hfs in Hf'. split; [done|]. split; [by rewrite (re_fat _ _ _ Hr)|].
  rewrite Hf'. split; [done|]. intros Hrel. split; [done|]. by apply Hwhy.
Qed.

Lemma CreateFile_ok st name ext data n :
  fat_inv st → args_ok name ext data n →
  ok (CreateFile name ext data n st) (λ '(r, st'), created st name ext data n r st').
Proof.
  intros Hi Hargs. pose proof Hi as [_ _ _ Hgeo Hv]. pose proof Hargs as [(Hn&_&_) (He&_) _ _].
  set (f := fs_fat st) in *. assert (∀ nm, files st !! nm = fs_of f (vol st) !! nm) as Hfiles by done.
  unfold CreateFile. fold f. rewrite (geo_init _ Hgeo). cbn [negb]. apply ok_loop_end.
  apply (dup_check_ok st (vol st)); try done; [by apply reach_refl| |].
  { intros st1 Hr1 Hdup. by eapply created_fails; [| |exact Hv| |auto]. }
  intros st1 Hr1 Hnone. call (findFreeCluster_ok st (vol st)); [done..|]. intros [c st2] (Hr2&Hfree&Hfull).
  destruct (Z.eqb_spec c 0) as [Hc0|Hc0].
  { call print_nl_ok; [done|]. intros st3 Hr3. cbn. eapply created_fails; [done|exact Hr3|done..|]. auto. }
  destruct (Hfree Hc0) as [Hc Hent0].
  call (setFATEntry_ok st (vol st)); [done..|]. intros [r st3] (S1&Hr3&Hout&Hent&Hset&Hrel).
  destruct (vol_fat_change f Hgeo (vol st) S1 c Hv Hout Hent Hent0) as (Hv1&Hd1&Hfs1).
  destruct r; cbn [negb].
  2:{ call print_nl_ok; [done|]. intros st4 Hr4. cbn. eapply created_fails; [done|exact Hr4|done..|].
      intros Hr. by specialize (Hrel Hr). }
  specialize (Hset eq_refl).
  assert (∀ s, s ∈ dir_of f S1 → live s → scluster s ≠ c) as Huniq.
  { rewrite Hd1. intros s Hs Hl Heq. destruct (vi_clusters _ _ Hv s Hs Hl) as [_ Hne]. by rewrite Heq in Hne. }
  call (find_dir_slot_ok st S1); [done..|]. intros [[[k off] st4]|[r st4]].
  - intros (Hr4&i&Hk&Hislot&->&Hnl&Hbefore).
    eapply ok_mono; [eapply (store_file_ok st S1); try done|].
    { by rewrite Hset. } { fold f. by rewrite Hfs1. }
    intros [r st5] (S2&Hr5&Hv5&Hres). fold f in Hres. destruct (reach_inv st S2 st5 Hr5 Hgeo Hv5) as [Hi5 Hf5].
    fold f in Hf5. split; [done|]. split; [by rewrite (re_fat _ _ _ Hr5)|]. rewrite Hf5. destruct r.
    + split; [done|]. by rewrite Hres, Hfs1.
    + destruct Hres as [Hsame Hnr]. split; [|done]. intros nm Hne. by rewrite Hsame, Hfs1.
  - intros (->&Hr4&Hdfull). cbn. eapply created_fails; [done|exact Hr4|done..|].
    intros Hr. right; right. unfold dir_full. fold f. rewrite <-Hd1. by apply Hdfull.
Qed.

(** ** Formatting *)
Definition boot_bytes : list Z := default [] (put_all boot_sector zeros).

Lemma boot_bytes_eq : put_all boot_sector zeros = Some boot_bytes.
Proof. vm_compute. reflexivity. Qed.
Lemma boot_bytes_ok : sector_ok boot_bytes.
Proof.
  split; [by vm_compute|]. apply (bool_decide_eq_true_1 (Forall (λ x, in_u8 x) boot_bytes)).
  by vm_compute.
Qed.

(** The sectors [start, start+n) cleared. *)
Definition cleared (start n : Z) S : Z → list Z :=
  λ l, if decide (start ≤ l < start + n) then zeros else S l.

Lemma clear_buf_ok st0 S st :
  reach st0 S st → ok (clear_buf st) (λ st', reach st0 S st' ∧ fatBuf (fs_fat st') = zeros).
Proof.
  intros Hr. pose proof (re_buf _ _ _ Hr) as [Hl _]. unfold sector_size in Hl. unfold clear_buf.
  call fill_with_ok; [lia..|]. intros b [Hlb Hg]. cbn.
  assert (b = zeros) as ->.
  { apply alist_eq; [by rewrite Hlb, Hl, len_replicate|]. intros j Hj. rewrite Hg, decide_True by lia.
    unfold aget. rewrite (proj2 (Z.leb_le 0 j)) by lia. symmetry. apply lookup_replicate_2. lia. }
  split; [|done]. apply reach_set_buf; [done|apply zero_sector_ok].
Qed.

Lemma write_zeros_ok st0 S st start n (Post : fstate D C + bool * fstate D C → Prop) :
  reach st0 S st → fatBuf (fs_fat st) = zeros → 0 ≤ start → 0 ≤ n → start + n ≤ 2 ^ 28 →
  (∀ st' S', reach st0 S' st' → ¬ (∀ l, start ≤ l < start + n → answers (fs_disk st0) l) → Post (inr (false, st'))) →
  (∀ st', reach st0 (cleared start n S) st' → fatBuf (fs_fat st') = zeros → Post (inl st')) →
  ok (write_zeros start n st) Post.
Proof.
  intros Hr Hbuf Hs Hn Hle Hfail Hdone.
  apply (for_range_ok (λ i st', reach st0 (cleared start i S) st' ∧ fatBuf (fs_fat st') = zeros)); [done| | |].
  - split; [|done]. eapply reach_ext; [done|]. intros l. unfold cleared. by rewrite decide_False by lia.
  - intros i st1 Hi [Hr1 Hb1]. rewrite u32_small by lia. call write_buf_ok; [done|lia|].
    intros [r st2] (Hf2&Hans&Hw). destruct r; cbn.
    + destruct Hw as [Hw|[? _]]; [|done]. rewrite Hf2. split; [|done]. eapply reach_ext; [done|].
      intros l. unfold cleared, with_sector. rewrite Hb1. repeat case_decide; done || lia.
    + assert (∃ S', reach st0 S' st2) as [S' Hr2] by (destruct Hw as [?|[_ ?]]; eauto).
      eapply Hfail; [done|]. intros Hall. by discriminate (Hans (Hall (start + i) ltac:(lia))).
  - intros st1 [??]. by apply Hdone.
Qed.

(** The state before a volume exists: only the hardware and the buffer are sane. *)
Definition ready st : Prop :=
  disk_ok (fs_disk st) ∧ sector_ok (fatBuf (fs_fat st)) ∧ console_ok (fs_con st).

Lemma reach_here S st : ready st → (∀ l, vol st l = S l) → reach st S st.
Proof. intros (?&?&?) HS. split; try assumption; [by destruct (fs_fat st)|auto]. Qed.

Lemma ready_reach st : ready st → reach st (vol st) st.
Proof. intros Hst. by apply reach_here. Qed.

(** The contents of a freshly formatted disk. *)
Definition formatted S : Z → list Z := λ l,
  if decide (l = 0) then boot_bytes else if decide (1 ≤ l < 353) then zeros else S l.

Lemma Format_ok st :
  ready st →
  ok (Format st) (λ '(r, st'),
    ((∀ l, 0 ≤ l < 353 → answers (fs_disk st) l) → r = true) ∧ ∃ S', reach st S' st' ∧
    (r = true → ∀ l, S' l = formatted (vol st) l)).
Proof.
  intros Hst. unfold Format. call clear_buf_ok; [by apply ready_reach|]. intros st1 [Hr1 Hb1].
  rewrite Hb1, boot_bytes_eq. cbn [mbind option_bind].
  call (write_buf_ok st (vol st)); [apply reach_set_buf; [done|apply boot_bytes_ok]|lia|].
  intros [r st2] (Hf2&Hans&Hw). destruct r; cbn [negb].
  2:{ cbn. split; [intros Hall; apply Hans, Hall; lia|]. destruct Hw as [Hw|[_ Hw]]; (eexists; split; [exact Hw|done]). }
  destruct Hw as [Hw|[? _]]; [|done]. cbn [upd fs_fat fatBuf set_buf] in Hw.
  call clear_buf_ok; [done|]. intros st3 [Hr3 Hb3].
  assert (∀ st' S' lo n, reach st S' st' → 0 ≤ lo → lo + n ≤ 353 →
    ¬ (∀ l, lo ≤ l < lo + n → answers (fs_disk st) l) →
    ((∀ l, 0 ≤ l < 353 → answers (fs_disk st) l) → false = true) ∧ ∃ S', reach st S' st' ∧
      (false = true → ∀ l, S' l = formatted (vol st) l)) as Hfail.
  { intros st' S' lo n Hr' Hlo Hhi Hnot. split; [|by exists S']. intros Hall. destruct Hnot.
    intros l Hl. apply Hall. lia. }
  apply ok_loop_end. eapply write_zeros_ok; [exact Hr3|done|lia..|intros st' S' Hr' Hnot; eapply (Hfail st' S' _ _ Hr'); [| |exact Hnot]; lia|].
  intros st4 Hr4 Hb4. cbv zeta.
  apply ok_loop_end. eapply write_zeros_ok; [exact Hr4|done|lia..|intros st' S' Hr' Hnot; eapply (Hfail st' S' _ _ Hr'); [| |exact Hnot]; lia|].
  intros st5 Hr5 Hb5. cbv zeta.
  apply ok_loop_end. eapply write_zeros_ok; [exact Hr5|done|lia..|intros st' S' Hr' Hnot; eapply (Hfail st' S' _ _ Hr'); [| |exact Hnot]; lia|].
  intros st6 Hr6 Hb6. cbn [ok]. split; [done|]. eexists. split; [exact Hr6|]. intros _ l.
  unfold formatted, cleared, with_sector. repeat case_decide; done || lia.
Qed.

(** The layout of a volume made by [Format]. *)
Definition std_layout (b : list Z) : fat := MkFat 512 1 1 2 512 40960 160 1 321 353 32 true b.

Lemma std_geo b : geo_ok (std_layout b).
Proof. split; cbn; lia. Qed.

(** Nothing is allocated: the boot sector is the one written, every byte of both FATs
    (sectors 1 to 320) and of the directory (321 to 352) is 0, and so every entry of both
    FATs. *)
Definition all_free st : Prop :=
  vol st 0 = boot_bytes ∧ (∀ l, 1 ≤ l < 353 → vol st l = replicate 512 0) ∧
  ∀ c, 0 ≤ c < 160 * 256 → fat_entry (vol st) 1 c = 0 ∧ fat_entry (vol st) 161 c = 0.

Lemma zero_entry (k : Z) : 0 ≤ k < 256 → fat_entry (λ _, zeros) 0 k = 0.
Proof.
  intros Hk. unfold fat_entry, get16.
  assert (∀ j, 0 ≤ j < 512 → aget zeros j = Some 0) as Hz.
  { intros j Hj. unfold aget. rewrite (proj2 (Z.leb_le 0 _)) by lia. rewrite lookup_replicate_2 by lia. done. }
  by rewrite !Hz by mod_lia.
Qed.

Lemma formatted_free S st : (∀ l, vol st l = formatted S l) → all_free st.
Proof.
  intros HS. split; [by rewrite HS|]. split.
  - intros l Hl. rewrite HS. unfold formatted. by rewrite decide_False, decide_True by lia.
  - intros c Hc. assert (0 ≤ c / 256 < 160) as Hq by mod_lia.
    assert (∀ start, 1 ≤ start → start + 160 ≤ 353 → fat_entry (vol st) start c = 0) as He.
    { intros start H1 H2. rewrite <-(zero_entry (c `mod` 256)) by mod_lia. unfold fat_entry. rewrite HS.
      unfold formatted. rewrite decide_False, decide_True by lia. by rewrite Z.mod_mod by lia. }
    split; apply He; lia.
Qed.

Lemma zero_slot i : 0 ≤ i < 16 → first (bslot zeros i) = 0.
Proof.
  intros Hi. unfold first. rewrite aget_bslot by (apply zero_sector_ok || lia). unfold aget.
  rewrite (proj2 (Z.leb_le 0 _)) by lia. rewrite lookup_replicate_2 by lia. done.
Qed.

Lemma formatted_vol S b :
  vol_inv (std_layout b) (formatted S) ∧ fs_of (std_layout b) (formatted S) = ∅.
Proof.
  assert (Forall (λ s, first s = 0) (dir_of (std_layout b) (formatted S))) as Hz.
  { apply Forall_forall. intros s (k&Hk&(i&Hi&->)%elem_slots_of)%elem_dir_slots. cbn [rootStart rootSectors std_layout] in *.
    unfold formatted. rewrite decide_False, decide_True by lia. by apply zero_slot. }
  assert (∀ s, s ∈ dir_of (std_layout b) (formatted S) → ¬ live s) as Hdead.
  { intros s Hs [Hne _]. eapply Forall_forall in Hz; done. }
  split; [|by apply files_of_zeros]. split.
  - destruct Hz as [|s l Hs Hl]; cbn; [done|]. by rewrite decide_True.
  - apply Forall_forall. intros s Hs Hl. by destruct (Hdead s Hs).
  - intros s Hs Hl. by destruct (Hdead s Hs).
Qed.

Lemma formatted_inv S st :
  fs_fat st = std_layout boot_bytes → disk_ok (fs_disk st) → console_ok (fs_con st) →
  (∀ l, vol st l = formatted S l) → fat_inv st ∧ files st = ∅.
Proof.
  intros Hf Hd Hc HS. destruct (formatted_vol S boot_bytes) as [Hvi Hfs]. rewrite <-Hf in Hvi, Hfs.
  assert (reach st (formatted S) st) as Hr.
  { apply reach_here; [|exact HS]. split; [exact Hd|]. split; [|exact Hc]. rewrite Hf. exact boot_bytes_ok. }
  destruct (reach_inv st _ st Hr) as [Hi Hfiles]; [rewrite Hf; apply std_geo|exact Hvi|].
  split; [exact Hi|]. by rewrite Hfiles.
Qed.

(** [Init] on a disk whose boot sector was written by [Format]. *)
Lemma Init_ok st0 S st :
  reach st0 S st → S 0 = boot_bytes →
  ok (Init st) (λ '(r, st'), (answers (fs_disk st0) 0 → r = true) ∧
    (r = true → fs_fat st' = std_layout boot_bytes ∧ disk_ok (fs_disk st') ∧ console_ok (fs_con st') ∧
       (∀ l, vol st' l = S l) ∧ ∀ l, answers (fs_disk st0) l → answers (fs_disk st') l)).
Proof.
  intros Hr HS. unfold Init. call read_buf_ok; [done|lia|]. intros [r st1] (Hr1&Hbuf&Hans).
  destruct r; cbn [negb].
  2:{ call print_nl_ok; [done|]. intros st2 Hr2. cbn. split; [|done]. intros Ha. by specialize (Hans Ha). }
  specialize (Hbuf eq_refl). rewrite HS in Hbuf. cbv zeta. rewrite Hbuf.
  change (aget boot_bytes 510) with (Some 85). change (aget boot_bytes 511) with (Some 170).
  change (get16 boot_bytes 11) with (Some 512). change (aget boot_bytes 13) with (Some 1).
  change (get16 boot_bytes 14) with (Some 1). change (aget boot_bytes 16) with (Some 2).
  change (get16 boot_bytes 17) with (Some 512). change (get16 boot_bytes 19) with (Some 40960).
  change (get16 boot_bytes 22) with (Some 160). cbn [mbind option_bind Z.eqb negb orb].
  change (negb (512 =? 512)) with false. cbv iota. cbn [ok]. split; [done|]. intros _.
  split; [|split_and!; by apply Hr1]. unfold upd. cbn [fs_fat]. rewrite Hbuf. reflexivity.
Qed.
End volume.

Section theorems.
Context {D : Type} `{!Disk D} `{!DiskLaws D} {C : Type} `{!Console C} `{!ConsoleLaws C}.

(** C36: Formatting a disk and mounting it gives the empty volume with the layout of the
    source: unless a transfer failed, [Format] and [Init] succeed, the invariant of a
    volume holds, there is no file, every entry of both FATs is 0 (all clusters free), every
    directory entry is zeroed, and sectors past the directory are untouched. *)
Theorem format_mounts_empty (st : fstate D C) :
  ready st →
  ok (Format st) (λ '(r, st1),
    ((∀ l, 0 ≤ l < 353 → answers (fs_disk st) l) → r = true) ∧
    (r = true → ok (Init st1) (λ '(r', st2),
      (answers (fs_disk st) 0 → r' = true) ∧
      (r' = true → fat_inv st2 ∧ files st2 = ∅ ∧ fs_fat st2 = std_layout boot_bytes ∧
         all_free st2 ∧ ∀ l, 353 ≤ l → vol st2 l = vol st l)))).
Proof.
  intros Hst. eapply ok_mono; [by apply Format_ok|]. intros [r st1] (Hans&S&Hr&HS). split; [done|].
  intros ->. specialize (HS eq_refl). eapply ok_mono; [eapply Init_ok; [exact Hr|by rewrite HS]|].
  intros [r' st2] (Hans'&Hst2). split; [done|]. intros ->. destruct (Hst2 eq_refl) as (Hf&Hd&Hc&Hv&_).
  destruct (formatted_inv (vol st) st2 Hf Hd Hc) as [Hi Hfiles]; [intros l; by rewrite Hv, HS|].
  split_and!; [exact Hi|exact Hfiles|exact Hf|eapply formatted_free; intros l; by rewrite Hv, HS|].
  intros l Hl. rewrite Hv, HS. unfold formatted.
  by rewrite !decide_False by lia.
Qed.

(** C10: [CreateFile] is insertion into the map of files: it succeeds only for a new name and
    then adds exactly that name with the data padded to a sector; when it fails, for
    whatever reason, every other file keeps its size and contents and the volume stays
    well formed, and on a disk that answers nothing changes and the name exists, the
    table is full or the directory is full. *)
Theorem fat_create_refines (st : fstate D C) (name ext data : list Z) (n : Z) :
  fat_inv st → args_ok name ext data n →
  ok (CreateFile name ext data n st) (λ '(r, st'), created st name ext data n r st').
Proof. apply CreateFile_ok. Qed.

(** C11: [ReadFile] is lookup in the map of files: what it reports as read is the size and the
    sector of the named file, a failure leaves the caller's buffer alone and means, on a
    disk that answers, that there is no such file; nothing is written. *)
Theorem fat_read_refines (st : fstate D C) (name ext outBuf : list Z) :
  fat_inv st → len name = 8 → len ext = 3 → sector_ok outBuf →
  ok (ReadFile name ext outBuf st) (λ '(sz, r, out, st'),
    (∀ l, vol st' l = vol st l) ∧ fat_inv st' ∧ files st' = files st ∧
    if r : bool then files st !! (name ++ ext) = Some (sz, out)
    else sz = 0 ∧ out = outBuf ∧ (reliable st → files st !! (name ++ ext) = None)).
Proof.
  intros Hi Hn He Ho. eapply ok_mono; [by apply ReadFile_ok|]. intros [[[sz r] out] st'] [Hr Hres].
  destruct (reach_inv st (vol st) st' Hr (fi_geo _ Hi) (fi_vol _ Hi)) as [Hi' Hf].
  split_and!; try done. apply Hr.
Qed.
End theorems.

(** ** A volume on a disk in memory *)
Definition demo_blank : fstate ramdisk (list Z) := FState zero_fat (RamDisk ∅ 50000) [].

Lemma demo_ready : ready demo_blank.
Proof. split; [intros l b Hl; cbn in Hl; by rewrite lookup_empty in Hl|]. split; [apply zero_sector_ok|done]. Qed.

Lemma format_mounts_empty_witness :
  ok (Format demo_blank) (λ '(r, st1),
    ((∀ l, 0 ≤ l < 353 → answers (fs_disk demo_blank) l) → r = true) ∧
    (r = true → ok (Init st1) (λ '(r', st2),
      (answers (fs_disk demo_blank) 0 → r' = true) ∧
      (r' = true → fat_inv st2 ∧ files st2 = ∅ ∧ fs_fat st2 = std_layout boot_bytes ∧
         all_free st2 ∧ ∀ l, 353 ≤ l → vol st2 l = vol demo_blank l)))).
Proof. exact (format_mounts_empty demo_blank demo_ready). Defined.

(** The volume right after [Format] and [Init]. *)
Definition demo_volume : fstate ramdisk (list Z) :=
  default demo_blank ('(_, st) ← Format demo_blank; '(_, st) ← Init st; Some st).

Lemma demo_volume_inv : fat_inv demo_volume ∧ files demo_volume = ∅.
Proof.
  destruct (ok_elim _ _ (Format_ok demo_blank demo_ready)) as ([r st1]&EF&Hans&S&Hr&HS).
  assert (r = true) as -> by (apply Hans; intros l Hl; cbn; lia). specialize (HS eq_refl).
  destruct (ok_elim _ _ (Init_ok demo_blank S st1 Hr ltac:(by rewrite HS))) as ([r' st2]&EI&Hans'&Hst2).
  assert (r' = true) as -> by (apply Hans'; cbn; lia). destruct (Hst2 eq_refl) as (Hf&Hd&Hc&Hv&_).
  unfold demo_volume. rewrite EF. cbn [mbind option_bind]. rewrite EI. cbn [mbind option_bind default from_option id].
  apply (formatted_inv (vol demo_blank) st2 Hf Hd Hc). intros l. by rewrite Hv, HS.
Qed.

Definition demo_name : list Z := gs "HELLO   ".
Definition demo_ext : list Z := gs "TXT".

Lemma demo_args : args_ok demo_name demo_ext (replicate 512 65) 3.
Proof.
  split.
  - split_and!; [done| |done]. apply (bool_decide_eq_true_1 (Forall (λ x, in_u8 x) demo_name)). by vm_compute.
  - split; [done|]. apply (bool_decide_eq_true_1 (Forall (λ x, in_u8 x) demo_ext)). by vm_compute.
  - split; [by rewrite len_replicate|by apply Forall_replicate].
  - lia.
Qed.

Lemma fat_create_refines_witness :
  ok (CreateFile demo_name demo_ext (replicate 512 65) 3 demo_volume)
     (λ '(r, st'), created demo_volume demo_name demo_ext (replicate 512 65) 3 r st').
Proof. exact (fat_create_refines demo_volume _ _ _ 3 (proj1 demo_volume_inv) demo_args). Defined.

(** The volume with one file. *)
Definition demo_written : fstate ramdisk (list Z) :=
  default demo_blank ('(_, st) ← CreateFile demo_name demo_ext (replicate 512 65) 3 demo_volume; Some st).

Lemma demo_written_inv : fat_inv demo_written.
Proof.
  pose proof (CreateFile_ok demo_volume _ _ _ 3 (proj1 demo_volume_inv) demo_args) as H.
  unfold demo_written. destruct (CreateFile _ _ _ _ _) as [[r st]|]; [|done]. apply H.
Qed.

(** The run of the three operations, evaluated: the bytes come back padded. *)
Lemma fat_read_refines_witness :
  match ReadFile demo_name demo_ext zeros demo_written with
  | Some (sz, r, out, _) => sz = 3 ∧ r = true ∧ take 5 out = [65; 65; 65; 0; 0]
  | None => False
  end ∧
  ok (ReadFile demo_name demo_ext zeros demo_written) (λ '(sz, r, out, st'),
    (∀ l, vol st' l = vol demo_written l) ∧ fat_inv st' ∧ files st' = files demo_written ∧
    if r : bool then files demo_written !! (demo_name ++ demo_ext) = Some (sz, out)
    else sz = 0 ∧ out = zeros ∧ (reliable demo_written → files demo_written !! (demo_name ++ demo_ext) = None)).
Proof.
  split; [vm_compute; by repeat split|].
  exact (fat_read_refines demo_written demo_name demo_ext zeros demo_written_inv eq_refl eq_refl zero_sector_ok).
Defined.
