(* ===== verification/FatSafe.v ===== *)
(** * Package [fs/fat16]: safety on any volume

    The refinement theorems of [Fat16Files.v] start from a formatted volume.  Here nothing
    is assumed of the bytes on the disk: whatever geometry the boot sector claims, every
    operation of [src/fs/fat16/fat16.go] returns, never leaves its buffer, and keeps the
    driver and the console in their safe states. *)
From S2P Require Import Prelude Terminal Disk Fat16 Fat16Files.
Local Open Scope Z_scope.

(** ** Writing bytes into a sector *)
Lemma sector_aset b i v :
  sector_ok b → 0 ≤ i < sector_size → in_u8 v → ok (aset b i v) sector_ok.
Proof.
  intros [Hl Hb] Hi Hv. rewrite aset_Some by lia. split; [by rewrite len_insert|].
  by apply Forall_insert.
Qed.

Lemma sector_put_le n : ∀ b i v,
  sector_ok b → 0 ≤ i → i + Z.of_nat n ≤ sector_size → ok (put_le n b i v) sector_ok.
Proof.
  induction n as [|n IH]; intros b i v Hb Hi Hl; cbn [put_le]; [done|].
  call (sector_aset b i (u8 (Z.land v 0xFF))); [done|lia|apply u8_range|].
  intros b' Hb'. apply IH; [done|lia|lia].
Qed.

Lemma sector_copy src off n b :
  sector_ok b → Forall (λ x, in_u8 x) src → 0 ≤ off → 0 ≤ n ≤ len src → off + n ≤ sector_size →
  ok (copy_into src off n b) sector_ok.
Proof.
  intros Hb Hs Hoff Hn Hl. apply (for_do_ok (λ _, sector_ok)); [lia|done| |done].
  intros i d Hi Hd. destruct (aget_Some src i) as [v Hv]; [lia|]. rewrite Hv. cbn [mbind option_bind].
  apply sector_aset; [done|lia|]. apply aget_elem in Hv. by eapply Forall_forall in Hs.
Qed.

Lemma sector_get b i : sector_ok b → 0 ≤ i < sector_size → ∃ v, aget b i = Some v ∧ in_u8 v.
Proof.
  intros [Hl Hb] Hi. destruct (aget_Some b i) as [v Hv]; [lia|]. exists v. split; [done|].
  apply aget_elem in Hv. by eapply Forall_forall in Hb.
Qed.

Lemma sector_write_entry name ext c n off b :
  sector_ok b → len name = 8 → len ext = 3 → Forall (λ x, in_u8 x) name → Forall (λ x, in_u8 x) ext →
  0 ≤ off → off + 32 ≤ sector_size → ok (write_entry name ext c n off b) sector_ok.
Proof.
  intros Hb Hn He Fn Fe Hoff Hl. unfold write_entry.
  call (sector_copy name off 8 b); [done|done|lia|lia|lia|]. intros b1 H1.
  call (sector_copy ext (off + 8) 3 b1); [done|done|lia|lia|lia|]. intros b2 H2.
  call (sector_aset b2 (off + 11) 0); [done|lia|lia|]. intros b3 H3.
  apply ok_bind. apply (for_do_ok (λ _, sector_ok)); [lia|done| |].
  { intros i b' Hi Hb'. apply sector_aset; [done|lia|lia]. }
  intros b4 H4. call (sector_put_le 2 b4 (off + 26) c); [done|lia|lia|]. intros b5 H5.
  apply sector_put_le; [done|lia|lia].
Qed.

Lemma sector_write_data data n b :
  sector_ok b → len data = sector_size → Forall (λ x, in_u8 x) data → ok (write_data data n b) sector_ok.
Proof.
  intros Hb Hd Fd. apply (for_do_ok (λ _, sector_ok)); [lia|done| |done].
  intros i b' Hi Hb'. unfold sector_size in Hd. destruct (i <? n).
  - destruct (aget_Some data i) as [v Hv]; [lia|]. rewrite Hv. cbn [mbind option_bind].
    apply sector_aset; [done|unfold sector_size; lia|]. apply aget_elem in Hv. by eapply Forall_forall in Fd.
  - apply sector_aset; [done|unfold sector_size; lia|lia].
Qed.

Section safety.
Context {D : Type} `{!Disk D} `{!DiskTotal D} {C : Type} `{!Console C} `{!ConsoleLaws C}.
Implicit Types st : fstate D C.

(** Whatever the geometry, its fields are not negative. *)
Definition fat_geo (f : fat) : Prop := 0 ≤ FatSz16 f ∧ 0 ≤ rootSectors f.

Record fat_safe st : Prop := {
  sf_buf : sector_ok (fatBuf (fs_fat st));
  sf_geo : fat_geo (fs_fat st);
  sf_disk : disk_safe (fs_disk st);
  sf_con : console_ok (fs_con st);
}.

Lemma safe_buf st b : fat_safe st → sector_ok b → fat_safe (upd (set_buf b) st).
Proof. intros [] ?. by split. Qed.

Lemma print_safe s st : fat_safe st → ok (print s st) fat_safe.
Proof. intros []. unfold print. call Print_ok; [done|]. intros c Hc. by split. Qed.
Lemma print_nl_safe s st : fat_safe st → ok (print_nl s st) fat_safe.
Proof. intros []. unfold print_nl. call Print_ok; [done|]. intros c Hc. by split. Qed.
Lemma newline_safe st : fat_safe st → ok (newline st) fat_safe.
Proof. intros []. unfold newline. call Print_ok; [done|]. intros c Hc. by split. Qed.
Lemma put_rune_safe r st : fat_safe st → ok (put_rune r st) fat_safe.
Proof. intros []. unfold put_rune. apply ok_bind. eapply ok_mono; [by apply putRune_ok|]. intros c Hc. by split. Qed.

Lemma read_buf_safe lba st :
  fat_safe st → in_u32 lba → ok (read_buf lba st) (λ '(_, st'), fat_safe st').
Proof.
  intros [] Hl. unfold read_buf. call (read_total lba (fatBuf (fs_fat st)) (fs_disk st)); [done..|].
  intros [[r b] d] [Hb Hd]. by split.
Qed.
Lemma write_buf_safe lba st :
  fat_safe st → in_u32 lba → ok (write_buf lba st) (λ '(_, st'), fat_safe st').
Proof.
  intros [] Hl. unfold write_buf. call (write_total lba (fatBuf (fs_fat st)) (fs_disk st)); [done..|].
  intros [r d] Hd. by split.
Qed.

Lemma for_sectors_safe {R} (P : R → Prop) start n fail body st :
  fat_safe st → 0 ≤ n →
  (∀ st, fat_safe st → ok (fail st) P) →
  (∀ sec st, 0 ≤ sec < n → fat_safe st →
     ok (body sec st) (λ o, match o with inl st' => fat_safe st' | inr r => P r end)) →
  ok (for_sectors start n fail body st) (λ o, match o with inl st' => fat_safe st' | inr r => P r end).
Proof.
  intros Hst Hn Hfail Hbody. unfold for_sectors.
  apply (for_range_ok (λ _, fat_safe)); [done|done| |done]. intros sec st1 Hsec H1.
  call (read_buf_safe (u32 (start + sec)) st1); [done|apply u32_range|]. intros [r st2] H2.
  destruct r; cbn [negb]; [by apply Hbody|]. call Hfail; [done|]. by intros x Hx.
Qed.

Lemma fields_total b : sector_ok b →
  ∃ bps spc rsv nf rec tot fsz, get16 b 11 = Some bps ∧ aget b 13 = Some spc ∧ get16 b 14 = Some rsv ∧
    aget b 16 = Some nf ∧ get16 b 17 = Some rec ∧ get16 b 19 = Some tot ∧ get16 b 22 = Some fsz ∧
    0 ≤ rec ∧ 0 ≤ fsz.
Proof.
  intros Hb. assert (∀ i, 0 ≤ i ≤ 510 → ∃ v, get16 b i = Some v ∧ 0 ≤ v) as Hg.
  { intros i Hi. unfold get16. destruct (sector_get b i Hb) as (x&->&?); [unfold sector_size; lia|].
    destruct (sector_get b (i + 1) Hb) as (y&->&?); [unfold sector_size; lia|]. cbn. eexists. split; [done|].
    apply Z.lor_nonneg. split; [lia|apply u16_range]. }
  destruct (Hg 11) as (bps&?&_), (Hg 14) as (rsv&?&_), (Hg 17) as (rec&?&?), (Hg 19) as (tot&?&_),
    (Hg 22) as (fsz&?&?); try lia.
  destruct (sector_get b 13 Hb) as (spc&?&_), (sector_get b 16 Hb) as (nf&?&_); try (unfold sector_size; lia).
  exists bps, spc, rsv, nf, rec, tot, fsz. done.
Qed.

Lemma Init_safe st : fat_safe st → ok (Init st) (λ '(_, st'), fat_safe st').
Proof.
  intros Hst. unfold Init. call (read_buf_safe 0 st); [done|lia|]. intros [r st1] H1.
  destruct r; cbn [negb].
  2:{ call print_nl_safe; [done|]. by intros st2 H2. }
  pose proof (sf_buf _ H1) as Hb. cbv zeta.
  destruct (sector_get _ 510 Hb) as (s0&->&_); [unfold sector_size; lia|].
  destruct (sector_get _ 511 Hb) as (s1&->&_); [unfold sector_size; lia|]. cbn [mbind option_bind].
  destruct (_ || _).
  { call print_nl_safe; [done|]. intros st2 []. by split. }
  destruct (fields_total _ Hb) as (bps&spc&rsv&nf&rec&tot&fsz&->&->&->&->&->&->&->&?&?).
  cbn [mbind option_bind]. destruct (negb (bps =? 512)).
  - destruct H1 as [? [??] ? ?]. call print_nl_safe; [by split|]. by intros ? ?.
  - destruct H1 as [? [??] ? ?]. split; try done. split; [done|]. cbn -[Z.div].
    apply Z.div_pos; [apply u32_range|lia].
Qed.

Lemma clear_buf_safe st : fat_safe st → ok (clear_buf st) fat_safe.
Proof.
  intros Hst. unfold clear_buf. apply ok_bind. pose proof (sf_buf _ Hst).
  apply (for_do_ok (λ _, sector_ok)); [lia|done| |].
  - intros i b Hi Hb. apply sector_aset; [done|unfold sector_size; lia|lia].
  - intros b Hb. by apply safe_buf.
Qed.

Lemma write_zeros_safe start n st :
  fat_safe st → 0 ≤ n →
  ok (write_zeros start n st) (λ o, match o with inl st' => fat_safe st' | inr (_, st') => fat_safe st' end).
Proof.
  intros Hst Hn. unfold write_zeros. apply (for_range_ok (λ _, fat_safe)); [done|done| |done].
  intros sec st1 _ H1. call (write_buf_safe (u32 (start + sec)) st1); [done|apply u32_range|].
  intros [r st2] H2. by destruct r.
Qed.

Lemma sector_put_all l : ∀ b,
  sector_ok b → Forall (λ '(i, v), 0 ≤ i < sector_size ∧ in_u8 v) l → ok (put_all l b) sector_ok.
Proof.
  unfold put_all. induction l as [|[i v] l IH]; intros b Hb Hl; [done|]. cbn [foldl mbind option_bind].
  apply Forall_cons in Hl as [[??] Hl]. destruct (ok_elim _ _ (sector_aset b i v Hb ltac:(done) ltac:(done))) as (b'&->&?).
  by apply IH.
Qed.

Lemma boot_sector_u8 : Forall (λ '(i, v), 0 ≤ i < sector_size ∧ in_u8 v) boot_sector.
Proof.
  apply Forall_forall. intros [i v] Hin. unfold sector_size. vm_compute in Hin. set_unfold.
  naive_solver lia.
Qed.

Lemma Format_safe st : fat_safe st → ok (Format st) (λ '(_, st'), fat_safe st').
Proof.
  intros Hst. unfold Format. call clear_buf_safe; [done|]. intros st1 H1.
  call sector_put_all; [apply H1|apply boot_sector_u8|]. intros b Hb.
  call (write_buf_safe 0 (upd (set_buf b) st1)); [by apply safe_buf|lia|]. intros [r st2] H2.
  destruct r; cbn [negb]; [|done]. call clear_buf_safe; [done|]. intros st3 H3. cbv zeta.
  apply ok_loop_end. eapply ok_mono; [apply write_zeros_safe; [done|lia]|]. intros [st4|[r4 st4]] H4; [|done].
  apply ok_loop_end. eapply ok_mono; [apply write_zeros_safe; [done|lia]|]. intros [st5|[r5 st5]] H5; [|done].
  apply ok_loop_end. eapply ok_mono; [apply write_zeros_safe; [done|lia]|]. by intros [st6|[r6 st6]] H6.
Qed.

Lemma hex_rune_total v k : ∃ c, aget hex_runes (Z.land (Z.shiftr v k) 0xF) = Some c.
Proof.
  apply aget_Some. change 0xF with (Z.ones 4). rewrite Z.land_ones by lia.
  change (len hex_runes) with 16. apply Z.mod_pos_bound. lia.
Qed.

Lemma printU32_safe v st : fat_safe st → ok (printU32 v st) fat_safe.
Proof.
  intros Hst. unfold printU32. call print_safe; [done|]. intros st1 H1.
  apply (for_do_ok (λ _, fat_safe)); [lia|done| |done]. intros k st2 _ H2.
  destruct (hex_rune_total v (28 - 4 * k)) as [c ->]. cbn [mbind option_bind]. by apply put_rune_safe.
Qed.

Lemma Info_safe st : fat_safe st → ok (Info st) fat_safe.
Proof.
  intros Hst. unfold Info, printU16. destruct (negb _); [by apply print_nl_safe|].
  call print_nl_safe; [done|]. intros ??.
  do 3 (call print_safe; [done|]; intros ??; call printU32_safe; [done|]; intros ??;
        call newline_safe; [done|]; intros ??).
  call print_safe; [done|]. intros ??. call printU32_safe; [done|]. intros ??. by apply newline_safe.
Qed.

Lemma print_name_part_safe off lo hi st :
  fat_safe st → 0 ≤ off + lo → lo ≤ hi → off + hi ≤ sector_size → ok (print_name_part off lo hi st) fat_safe.
Proof.
  intros Hst Hlo Hle Hhi. apply (for_do_ok (λ _, fat_safe)); [done|done| |done].
  intros j st1 Hj H1. destruct (sector_get _ (off + j) (sf_buf _ H1)) as (c&->&_); [lia|].
  cbn [mbind option_bind]. destruct (negb _); [by apply put_rune_safe|done].
Qed.

Lemma get32_total b i : sector_ok b → 0 ≤ i → i + 4 ≤ sector_size → ∃ v, get32 b i = Some v ∧ 0 ≤ v.
Proof.
  intros Hb Hi Hl. unfold get32.
  destruct (sector_get b i Hb) as (x0&->&?); [lia|]. destruct (sector_get b (i + 1) Hb) as (x1&->&?); [lia|].
  destruct (sector_get b (i + 2) Hb) as (x2&->&?); [lia|]. destruct (sector_get b (i + 3) Hb) as (x3&->&?); [lia|].
  cbn. eexists. split; [done|]. rewrite !Z.lor_nonneg. pose proof (u32_range (Z.shiftl x1 8)).
  pose proof (u32_range (Z.shiftl x2 16)). pose proof (u32_range (Z.shiftl x3 24)). lia.
Qed.

Lemma list_entry_safe off st : fat_safe st → 0 ≤ off → off + 32 ≤ sector_size → ok (list_entry off st) fat_safe.
Proof.
  intros Hst Hoff Hl. unfold list_entry. call print_safe; [done|]. intros st1 H1.
  call (print_name_part_safe off 0 8 st1); [done|lia|lia|lia|]. intros st2 H2.
  destruct (sector_get _ (off + 8) (sf_buf _ H2)) as (e&->&_); [lia|]. cbn [mbind option_bind].
  apply ok_bind. apply (ok_mono _ fat_safe).
  { destruct (negb _); [|done]. call put_rune_safe; [done|]. intros ??. apply print_name_part_safe; [done|lia..]. }
  intros st3 H3. destruct (get32_total _ (off + 28) (sf_buf _ H3)) as (v&->&_); [lia|lia|]. cbn [mbind option_bind].
  call print_safe; [done|]. intros ??. call printU32_safe; [done|]. intros ??. by apply print_nl_safe.
Qed.

Lemma ListDir_safe st : fat_safe st → ok (ListDir st) fat_safe.
Proof.
  intros Hst. unfold ListDir. destruct (negb _); [by apply print_nl_safe|].
  call print_nl_safe; [done|]. intros st1 H1. apply ok_loop_end.
  eapply ok_mono; [apply (for_sectors_safe fat_safe); [done|apply H1|intros; by apply print_nl_safe|]|].
  2:{ by intros [?|?]. }
  intros sec st2 _ H2. change (512 / DirEntrySize) with 16.
  apply (for_range_ok (λ _, fat_safe)); [lia|done| |done]. intros i st3 Hi H3. cbv zeta.
  unfold DirEntrySize. pose proof (sf_buf _ H3) as Hb.
  destruct (sector_get _ (i * 32) Hb) as (f&->&_); [unfold sector_size; lia|]. cbn [mbind option_bind].
  destruct (f =? 0); [done|]. destruct (f =? 229); [done|].
  destruct (sector_get _ (i * 32 + 11) Hb) as (a&->&_); [unfold sector_size; lia|]. cbn [mbind option_bind].
  destruct (negb _); [done|]. call (list_entry_safe (i * 32) st3); [done|lia|unfold sector_size; lia|]. by intros ??.
Qed.

Lemma findFreeCluster_safe st : fat_safe st → ok (findFreeCluster st) (λ '(_, st'), fat_safe st').
Proof.
  intros Hst. unfold findFreeCluster. apply ok_loop_end.
  eapply ok_mono; [apply (for_sectors_safe (λ '(_, st'), fat_safe st')); [done|apply Hst|done|]|].
  2:{ by intros [?|[? ?]]. }
  intros sec st2 _ H2. apply (for_range_ok (λ _, fat_safe)); [lia|done| |done].
  intros i st3 Hi H3. cbv zeta. destruct (_ <? 2); [done|].
  destruct (get16_total _ (i * 2) (sf_buf _ H3)) as [v ->]; [lia|]. cbn [mbind option_bind]. by destruct (v =? 0).
Qed.

Lemma setFATEntry_safe c v st : fat_safe st → ok (setFATEntry c v st) (λ '(_, st'), fat_safe st').
Proof.
  intros Hst. unfold setFATEntry. cbv zeta.
  call (read_buf_safe _ st); [done|apply u32_range|]. intros [r st1] H1. destruct r; cbn [negb]; [|done].
  assert (0 ≤ (u32 (c * 2)) `mod` 512 ≤ 510) as Hoff.
  { unfold u32, wrap. mod_lia. }
  call (sector_put_le 2 (fatBuf (fs_fat st1)) _ v); [apply H1|lia|unfold sector_size; lia|]. intros b Hb.
  call (write_buf_safe _ (upd (set_buf b) st1)); [by apply safe_buf|apply u32_range|]. intros [r st2] H2.
  destruct r; cbn [negb]; [|done]. call (write_buf_safe _ st2); [done|apply u32_range|]. by intros [r st3] H3.
Qed.

Lemma buf_free_slot_total b : sector_ok b →
  ok (buf_free_slot b) (λ r, match r with Some off => 0 ≤ off ∧ off + 32 ≤ sector_size | None => True end).
Proof.
  intros Hb. eapply ok_mono; [by apply buf_free_slot_ok|]. intros [off|]; [|done].
  intros (i&Hi&->&_). unfold sector_size, DirEntrySize. lia.
Qed.

Lemma CreateFile_safe name ext data n st :
  fat_safe st → len name = 8 → len ext = 3 → len data = sector_size →
  Forall (λ x, in_u8 x) name → Forall (λ x, in_u8 x) ext → Forall (λ x, in_u8 x) data →
  ok (CreateFile name ext data n st) (λ '(_, st'), fat_safe st').
Proof.
  intros Hst Hn He Hd Fn Fe Fd. unfold CreateFile. destruct (negb _).
  { call print_nl_safe; [done|]. by intros ??. }
  apply ok_loop_end.
  eapply ok_mono; [apply (for_sectors_safe (λ '(_, st'), fat_safe st')); [done|apply Hst|done|]|].
  { intros sec st1 _ H1. rewrite buf_has_file_spec by (done || apply H1). cbn [mbind option_bind].
    destruct (default _ _); [|done]. call print_nl_safe; [done|]. by intros ??. }
  intros [st1|[r st1]] H1; [|done]. call findFreeCluster_safe; [done|]. intros [c st2] H2.
  destruct (c =? 0). { call print_nl_safe; [done|]. by intros ??. }
  call setFATEntry_safe; [done|]. intros [r st3] H3. destruct r; cbn [negb].
  2:{ call print_nl_safe; [done|]. by intros ??. }
  apply ok_bind. unfold find_dir_slot. apply ok_loop_end.
  eapply ok_mono; [apply (for_sectors_safe (λ r : Z * Z * fstate D C + bool * fstate D C,
    match r with inl (_, off, st') => fat_safe st' ∧ 0 ≤ off ∧ off + 32 ≤ sector_size
               | inr (_, st') => fat_safe st' end)); [done|apply H3|done|]|].
  { intros sec st4 _ H4. call buf_free_slot_total; [apply H4|]. by intros [off|] Hoff. }
  intros [st4|[[[sec off] st4]|[r st4]]].
  - intros H4. call print_nl_safe; [done|]. by intros ??.
  - intros [H4 Hoff]. unfold store_file. cbv zeta.
    call (read_buf_safe _ st4); [done|apply u32_range|]. intros [r st5] H5. destruct r; cbn [negb]; [|done].
    call (sector_write_entry name ext c n off (fatBuf (fs_fat st5))); [apply H5|done..|lia|lia|]. intros b Hb.
    call (write_buf_safe _ (upd (set_buf b) st5)); [by apply safe_buf|apply u32_range|]. intros [r st6] H6.
    destruct r; cbn [negb]; [|done].
    call (sector_write_data data n (fatBuf (fs_fat st6))); [apply H6|done|done|]. intros b2 Hb2.
    call (write_buf_safe _ (upd (set_buf b2) st6)); [by apply safe_buf|apply u32_range|].
    intros [r st7] H7. by destruct r.
  - done.
Qed.

Lemma ReadFile_safe name ext out st :
  fat_safe st → len name = 8 → len ext = 3 → sector_ok out →
  ok (ReadFile name ext out st) (λ '(n, _, out', st'), 0 ≤ n ∧ sector_ok out' ∧ fat_safe st').
Proof.
  intros Hst Hn He Ho. unfold ReadFile. destruct (negb _); [done|]. apply ok_loop_end.
  eapply ok_mono; [apply (for_sectors_safe (λ '(n, _, out', st'), 0 ≤ n ∧ sector_ok out' ∧ fat_safe st'));
    [done|apply Hst|done|]|].
  2:{ by intros [?|[[[? ?] ?] ?]]. }
  intros sec st1 _ H1. rewrite buf_find_file_spec by (done || apply H1). cbn [mbind option_bind].
  destruct (head _) as [[[c sz]|]|] eqn:Hf; [|done|done].
  assert (0 ≤ sz) as Hsz.
  { assert (∃ s, s ∈ slots_of (fatBuf (fs_fat st1)) ∧ find_in (name ++ ext) s = Some (Some (c, sz))) as (s&Hs&Hfi).
    { clear -Hf. induction (slots_of _) as [|s l IH]; [done|]. cbn [omap list_omap] in Hf.
      destruct (find_in (name ++ ext) s) eqn:E.
      - cbn in Hf. exists s. split; [set_solver|]. congruence.
      - destruct (IH Hf) as (s'&?&?). exists s'. split; [set_solver|done]. }
    apply elem_slots_of in Hs as (i&Hi&->). unfold find_in in Hfi. repeat case_match; simplify_eq.
    pose proof (bslot_get32 (fatBuf (fs_fat st1)) i 28) as Hg.
    destruct (get32_total (fatBuf (fs_fat st1)) (i * DirEntrySize + 28) (sf_buf _ H1)) as (v&Hv&Hv0);
      unfold DirEntrySize, sector_size in *; try lia.
    unfold ssize. rewrite Hg in Hv by (apply H1 || lia). by injection Hv as <-. }
  cbv zeta. call (read_total (clusterToSector c (fs_fat st1)) out (fs_disk st1)); [apply H1|apply u32_range|done|].
  intros [[r o] d] [Ho' Hd']. destruct H1. by destruct r.
Qed.
End safety.
