(* ===== verification/FsSafe.v ===== *)
(** * The file system on the page allocator: safety when pages are freed behind its back

    The shell's [free] command gives any page back to the allocator, a file's page too,
    which breaks the invariant of [Fs.v] (a file owns its page).  What survives every
    command is weaker: the table is well formed, the allocator is consistent (or not set up
    at all), and the pages the table names lie above the allocator's own data.  Under it no
    operation panics or writes into the bitmap. *)
From S2P Require Import Prelude PageAlloc Mem Fs.
Local Open Scope Z_scope.

(** Memory holds bytes, and the allocator is consistent, once it is set up. *)
Definition mem_ok (m : mem_state) : Prop :=
  (Mem.pfaReady m = true → pfa_inv m) ∧ mem_bytes (phys m).

Lemma mem_bytes_write m a v : mem_bytes m → in_u8 v → mem_bytes (mwrite m a v).
Proof. intros Hm Hv b. rewrite mread_mwrite. by case_decide. Qed.

Lemma u8_lor a b : in_u8 a → in_u8 b → in_u8 (Z.lor a b).
Proof.
  intros Ha Hb. rewrite <-(u8_small a), <-(u8_small b) by done. unfold u8.
  assert (Z.lor (wrap 8 a) (wrap 8 b) = wrap 8 (Z.lor a b)) as ->; [|apply u8_range].
  apply Z.bits_inj'. intros i Hi. rewrite Z.lor_spec, !wrap_testbit, Z.lor_spec by lia.
  by case_bool_decide.
Qed.

Lemma u8_ldiff a b : in_u8 a → in_u8 (Z.ldiff a b).
Proof.
  intros Ha. rewrite <-(u8_small a) by done. unfold u8.
  assert (Z.ldiff (wrap 8 a) b = wrap 8 (Z.ldiff a b)) as ->; [|apply u8_range].
  apply Z.bits_inj'. intros i Hi. rewrite Z.ldiff_spec, !wrap_testbit, Z.ldiff_spec by lia.
  by case_bool_decide.
Qed.

Lemma bitmapSet_bytes p b m : mem_bytes (phys m) → mem_bytes (phys (bitmapSet p b m)).
Proof.
  intros Hm. cbn. apply mem_bytes_write; [done|]. destruct b; [apply u8_lor|apply u8_ldiff]; try done.
  apply u8_range.
Qed.

Lemma take_page_bytes p m : mem_bytes (phys m) → mem_bytes (phys (take_page p m)).
Proof. intros Hm. unfold take_page. cbv zeta. destruct (_ <? _); by apply bitmapSet_bytes. Qed.
Lemma give_page_bytes p m : mem_bytes (phys m) → mem_bytes (phys (give_page p m)).
Proof. intros Hm. by apply (bitmapSet_bytes p false). Qed.

(** ** Setting the allocator up *)
(** Memory still holds bytes and the memory map is as it was. *)
Definition same_map (m m' : mem_state) : Prop :=
  mem_bytes (phys m') ∧ mmapEntries m' = mmapEntries m ∧ mmapCount m' = mmapCount m.

Lemma same_map_set m0 m p b n : same_map m0 m → same_map m0 (set_freePages n (bitmapSet p b m)).
Proof. intros (?&?&?). split_and!; [|done..]. by apply (bitmapSet_bytes p b m). Qed.

Lemma markFreeRange_map m0 a b m : same_map m0 m → whenever (markFreeRange a b m) (same_map m0).
Proof.
  intros Hm. unfold markFreeRange. destruct (_ <=? _); [by apply whenever_Some|].
  apply (whenever_while (λ '(_, m'), same_map m0 m')); [done| |].
  - intros [addr m'] Hm'. destruct (_ <=? _); apply whenever_Some; [done|].
    destruct (bitmapGet _ _); [by apply same_map_set|done].
  - intros [addr m'] Hm'. by apply whenever_Some.
Qed.

Lemma markUsedRange_map m0 a b m : same_map m0 m → whenever (markUsedRange a b m) (same_map m0).
Proof.
  intros Hm. unfold markUsedRange. destruct (_ <=? _); [by apply whenever_Some|].
  apply (whenever_while (λ '(_, m'), same_map m0 m')); [done| |].
  - intros [addr m'] Hm'. destruct (_ <=? _); apply whenever_Some; [done|].
    destruct (negb _); [|done]. destruct (0 <? _); [by apply same_map_set|].
    exact (same_map_set m0 m' _ true (freePages m') Hm').
  - intros [addr m'] Hm'. by apply whenever_Some.
Qed.

Lemma InitPFA_map kernelEnd bootstrapEnd m :
  mem_bytes (phys m) → whenever (InitPFA kernelEnd bootstrapEnd m) (λ '(_, m'), same_map m m').
Proof.
  intros Hm. unfold InitPFA. cbv zeta. eapply whenever_bind; [apply whenever_any|]. intros maxEnd _.
  destruct (maxEnd =? 0); [by apply whenever_Some|]. destruct (totalPages _ =? 0); [by apply whenever_Some|].
  eapply whenever_bind; [apply whenever_any|]. intros b _. set (m1 := if bitmapPhys _ =? 0 then _ else _).
  assert (same_map m m1) as Hm1 by (unfold m1; by destruct (bitmapPhys _ =? 0)). clearbody m1.
  apply (whenever_bind _ _ (same_map m)).
  { apply whenever_for_do; [done|]. intros i m' (?&?&?). apply whenever_Some. split_and!; [|done..].
    by apply mem_bytes_write. }
  intros m2 Hm2. apply (whenever_bind _ _ (same_map m)).
  { apply whenever_for_do; [done|]. intros i m' Hm'. eapply whenever_bind; [apply whenever_any|]. intros e _.
    destruct (negb _); [by apply whenever_Some|]. by apply markFreeRange_map. }
  intros m3 Hm3. eapply whenever_bind; [by apply markUsedRange_map|]. intros m4 Hm4. by apply whenever_Some.
Qed.

(** A page address in the range the allocator hands out. *)
Definition page_ok (m : mem_state) (p : Z) : Prop :=
  Mem.pfaReady m = true ∧ scanStart m * 4096 ≤ p ∧ p + 4096 ≤ 2 ^ 64.

(** Memory the allocator does not touch. *)
Definition unmanaged (m : mem_state) (a n : Z) : Prop :=
  0 ≤ a ∧ a + n ≤ 2 ^ 64 ∧ (Mem.pfaReady m = true → a + n ≤ bitmapPhys m).

Record fs_safe (st : fs_state mem_state) : Prop := {
  fsf_table : table_ok (files st);
  fsf_mock : mockPFAActive st = false;
  fsf_mem : mem_ok (world st);
  fsf_pages : ∀ i e, has_file (files st) i e → page_ok (world st) (page e);
}.

Lemma page_ok_config m m' p : same_config m m' → page_ok m p → page_ok m' p.
Proof. unfold page_ok. intros (?&?&->&?&?&?&->). done. Qed.

Lemma unmanaged_config m m' a n : same_config m m' → unmanaged m a n → unmanaged m' a n.
Proof. unfold unmanaged. intros (?&?&->&?&->&?&?). done. Qed.

(** ** The allocator *)
Lemma AllocPage_safe m :
  mem_ok m → ok (AllocPage m) (λ '(p, m'), mem_ok m' ∧ same_config m m' ∧ in_u64 p ∧ (p ≠ 0 → page_ok m' p)).
Proof.
  intros Hm. destruct (Mem.pfaReady m) eqn:Hr.
  2:{ unfold AllocPage. rewrite Hr. cbn. split_and!; [done|reflexivity|lia|lia|lia]. }
  specialize (proj1 Hm Hr) as Hinv. eapply ok_mono; [by apply AllocPage_spec|].
  intros [a m'] [(->&->&_)|(p&->&[Hp _]&->)]; [split_and!; [done|reflexivity|lia|lia|lia]|].
  destruct (take_page_spec p m) as (Hc&_); [apply Hinv|done|apply Hinv|].
  pose proof (proj1 (elem_of_free_set _ _) Hp) as [Hr2 _]. pose proof (inv_total _ Hinv).
  pose proof (inv_low _ Hinv _ Hp). pose proof (inv_scan _ Hinv).
  split_and!; [split; [intros _; by apply pfa_inv_take|by apply take_page_bytes, Hm]|done|unfold pageSize; lia|unfold pageSize; lia|].
  intros _. apply (page_ok_config m); [done|]. unfold page_ok, pageSize. split_and!; [done|lia|lia].
Qed.

Lemma FreePage_safe a m : mem_ok m → mem_ok (FreePage a m).2 ∧ same_config m (FreePage a m).2.
Proof.
  intros Hm. destruct (Mem.pfaReady m) eqn:Hr.
  2:{ unfold FreePage. rewrite Hr. cbn. split; [done|reflexivity]. }
  specialize (proj1 Hm Hr) as Hinv. rewrite FreePage_spec by done. case_decide as Hd; [|by split; [|reflexivity]]. cbn.
  destruct Hd as (_&Hp&Hn). pose proof (inv_scan _ Hinv).
  destruct (give_page_spec (a / pageSize) m) as (Hc&_); [apply Hinv|lia|done|apply Hinv|apply Hinv|].
  split; [|done]. split; [intros _; by apply pfa_inv_give|by apply give_page_bytes, Hm].
Qed.

Lemma store_safe m a v :
  mem_ok m → in_u8 v → (Mem.pfaReady m = true → ¬ in_bitmap m a) →
  mem_ok (set_phys (mwrite (phys m) a v) m) ∧ same_config m (set_phys (mwrite (phys m) a v) m).
Proof.
  intros Hm Hv Ha. split; [|done]. split; [|by apply mem_bytes_write; [apply Hm|]].
  intros Hr. apply pfa_inv_store; [by apply Hm|by apply Ha].
Qed.

Lemma page_not_bitmap m p a : mem_ok m → page_ok m p → p ≤ a → Mem.pfaReady m = true → ¬ in_bitmap m a.
Proof.
  intros Hm (Hr&Hs&_) Ha _ Hin. pose proof (inv_above_bitmap _ (proj1 Hm Hr)).
  unfold in_bitmap, pageSize in *. lia.
Qed.

Lemma unmanaged_not_bitmap m a n b :
  unmanaged m a n → a ≤ b < a + n → Mem.pfaReady m = true → ¬ in_bitmap m b.
Proof. unfold unmanaged, in_bitmap. intros (?&?&H) Hb Hr. specialize (H Hr). lia. Qed.

(** ** The file table *)
Implicit Types st : fs_state mem_state.

Lemma fs_safe_update st m idx e' :
  fs_safe st → 0 ≤ idx < maxFiles → mem_ok m → same_config (world st) m → entry_ok e' →
  (used e' = true → page_ok m (page e')) →
  fs_safe (set_files (<[Z.to_nat idx := e']> (files st)) (set_world m st)).
Proof.
  intros [[Hl Hok] Hmock _ Hpg] Hi Hm Hc He Hp. split; try done.
  - split; cbn; [by rewrite len_insert|]. intros i e. rewrite aget_insert, Z2Nat.id by lia.
    case_decide; [by intros [= <-]|apply Hok].
  - cbn. intros i e. rewrite has_file_insert by lia. intros [(->&->&?)|[_ Hf]]; [auto|].
    by eapply page_ok_config, Hpg.
Qed.

Lemma copyName_safe e nm n :
  len (name e) = maxName → len nm = maxName → 1 ≤ n ≤ maxName →
  ok (copyName e nm n) (λ e', used e' = used e ∧ size e' = size e ∧ page e' = page e ∧
    len (name e') = maxName ∧ nameLen e' = n).
Proof.
  intros He Hn Hr. eapply ok_mono; [by apply copyName_spec|]. intros e' (nm'&->&Hl&_). done.
Qed.

Lemma copy_data_safe m p src n :
  mem_ok m → page_ok m p → 0 ≤ n ≤ 4096 →
  ok (copy_data p src n m) (λ m', mem_ok m' ∧ same_config m m').
Proof.
  intros Hm Hp Hn. unfold copy_data.
  apply (for_do_ok (λ _ m', mem_ok m' ∧ same_config m m')); [lia|by split; [|reflexivity]| |done].
  intros i m' Hi [Hm' Hc]. cbn. pose proof Hp as (_&Hlo&Hhi).
  assert (page_ok m' p) as Hp' by (by eapply page_ok_config).
  assert (0 ≤ scanStart m) as Hs0.
  { destruct Hp as [Hr _]. pose proof (inv_scan _ (proj1 Hm Hr)). lia. }
  rewrite (u64_small (p + i)) by lia.
  destruct (store_safe m' (p + i) (mread (phys m') (u64 (src + i)))) as [H1 H2]; [done|apply Hm'| |].
  { apply (page_not_bitmap m' p); [done|done|lia]. }
  split; [done|]. by etrans.
Qed.

Lemma new_file_safe st idx nm n e :
  fs_safe st → aget (files st) idx = Some e → used e = false → len nm = maxName → 1 ≤ n ≤ maxName →
  ok (new_file idx nm n st) (λ '(b, st'), fs_safe st' ∧ same_config (world st) (world st') ∧
    (b = true → ∃ e', has_file (files st') idx e')).
Proof.
  intros Hst He Hu Hn Hr. pose proof Hst as [[Hl Hok] Hmock Hm Hpg]. pose proof (aget_inv _ _ _ He) as Hidx.
  unfold new_file. destruct (negb _). { split_and!; [done|reflexivity|done]. }
  unfold allocPage. rewrite Hmock. do 2 apply ok_bind.
  eapply ok_mono; [by apply AllocPage_safe|]. intros [p m'] (Hm'&Hc&_&Hp). cbn [ok fst snd].
  destruct (Z.eqb_spec p 0) as [->|Hnz].
  { split_and!; [|done|done]. split; try done. cbn. intros i e' Hf. by eapply page_ok_config, Hpg. }
  cbn [files set_world]. rewrite He. cbn [mbind option_bind]. destruct (Hok idx e He) as (Hne&Hsz&_).
  call copyName_safe; [done..|]. cbn [used size page]. intros e' (Eu&Es&Ep&Hnl&Hnn).
  rewrite aset_Some by done. cbn [mbind option_bind]. split_and!; [|done|].
  - rewrite Hl in Hidx. apply (fs_safe_update st m' idx e' Hst Hidx Hm' Hc).
    + split_and!; [done|rewrite Es; apply Hsz|rewrite Es; apply Hsz|intros _; lia].
    + rewrite Ep. auto.
  - intros _. exists e'. cbn. rewrite has_file_insert by lia. left. by rewrite Eu.
Qed.

Lemma Write_safe st nm n data dataLen :
  fs_safe st → len nm = maxName → 1 ≤ n ≤ maxName → 0 ≤ dataLen →
  ok (Write nm n data dataLen st) (λ '(_, st'), fs_safe st' ∧ same_config (world st) (world st')).
Proof.
  intros Hst Hn Hr Hd. unfold Write. destruct (_ || _). { split; [done|reflexivity]. }
  cbv zeta. set (k := if fsPageSize <? dataLen then fsPageSize else dataLen).
  assert (0 ≤ k ≤ 4096) as Hk by (unfold k, fsPageSize; destruct (Z.ltb_spec 4096 dataLen); lia). clearbody k.
  pose proof (fsf_table _ Hst) as [Hl Hok].
  apply ok_bind. eapply ok_mono; [by apply findByName_spec|]. intros idx0 Hidx0.
  apply ok_bind. apply (ok_mono _ (λ idx, idx = -1 ∨ ∃ e, aget (files st) idx = Some e)).
  { destruct (Z.ltb_spec idx0 0).
    - eapply ok_mono; [by apply findFreeSlot_spec|]. intros idx [[-> _]|(_&e&?&_)]; eauto.
    - destruct Hidx0 as [[-> _]|(_&e&[? _]&_)]; [lia|]. right. eauto. }
  intros idx Hidx. destruct (Z.ltb_spec idx 0) as [|Hge]. { split; [done|reflexivity]. }
  destruct Hidx as [->|[e He]]; [lia|]. rewrite He. cbn [mbind option_bind].
  apply ok_bind. apply (ok_mono _ (λ '(b, st'), fs_safe st' ∧ same_config (world st) (world st') ∧
    (b = true → ∃ e', has_file (files st') idx e'))).
  { destruct (used e) eqn:Hu; cbn [negb].
    - split_and!; [done|reflexivity|]. intros _. by exists e.
    - by eapply new_file_safe. }
  intros [b st1] (Hst1&Hc1&Hb). destruct b; cbn [negb]; [|done]. destruct (Hb eq_refl) as [e1 [He1 Hu1]].
  rewrite He1. cbn [mbind option_bind].
  pose proof Hst1 as [[Hl1 Hok1] _ Hm1 Hpg1].
  call (copy_data_safe (world st1) (page e1) data k); [done|by eapply Hpg1|done|]. intros m [Hm Hc].
  pose proof (aget_inv _ _ _ He1). rewrite aset_Some by done. cbn [mbind option_bind ok].
  split; [|by etrans]. destruct (Hok1 idx e1 He1) as (?&?&?).
  apply (fs_safe_update st1 m idx); [done|lia|done|done| |].
  - unfold entry_ok. cbn. rewrite u64_small by lia. unfold fsPageSize. split_and!; [done|lia|lia|done].
  - cbn. intros _. eapply page_ok_config; [done|]. by eapply Hpg1.
Qed.

Lemma Remove_safe st nm n :
  fs_safe st → len nm = maxName → 1 ≤ n ≤ maxName →
  ok (Remove nm n st) (λ '(_, st'), fs_safe st' ∧ same_config (world st) (world st')).
Proof.
  intros Hst Hn Hr. unfold Remove. pose proof Hst as [[Hl Hok] Hmock Hm Hpg].
  apply ok_bind. eapply ok_mono; [by apply findByName_spec|]. intros idx Hidx.
  destruct (Z.ltb_spec idx 0) as [|Hge]. { split; [done|reflexivity]. }
  destruct Hidx as [[-> _]|(_&e&[He Hu]&_)]; [lia|]. rewrite He. cbn [mbind option_bind].
  pose proof (aget_inv _ _ _ He) as Hidx. destruct (Hok idx e He) as (?&?&?).
  destruct (used e && negb (page e =? 0)).
  - unfold freePage. rewrite Hmock. cbn [fst snd files set_world].
    rewrite aset_Some by done. cbn [mbind option_bind ok].
    destruct (FreePage_safe (page e) (world st) Hm) as [Hm' Hc']. split; [|done].
    rewrite Hl in Hidx. apply (fs_safe_update st _ idx _ Hst Hidx Hm' Hc'); [|done].
    split_and!; try done; unfold fsPageSize; cbn; lia.
  - rewrite aset_Some by done. cbn [mbind option_bind ok]. split; [|reflexivity].
    replace st with (set_world (world st) st) at 2 by (by destruct st). rewrite Hl in Hidx.
    apply (fs_safe_update st (world st) idx _ Hst Hidx Hm); [reflexivity| |done].
    split_and!; try done; unfold fsPageSize; cbn; lia.
Qed.

Lemma Lookup_safe st nm n :
  fs_safe st → len nm = maxName → 1 ≤ n ≤ maxName →
  ok (Lookup nm n st) (λ '(p, k, _), in_u64 p ∧ 0 ≤ k ≤ 4096).
Proof.
  intros Hst Hn Hr. unfold Lookup. pose proof Hst as [[Hl Hok] Hmock Hm Hpg].
  apply ok_bind. eapply ok_mono; [by apply findByName_spec|]. intros idx Hidx.
  destruct (Z.ltb_spec idx 0) as [|Hge]; [cbn; lia|].
  destruct Hidx as [[-> _]|(_&e&[He Hu]&_)]; [lia|]. rewrite He. cbn [mbind option_bind ok].
  destruct (Hok idx e He) as (_&Hs&_). unfold fsPageSize in Hs. destruct (Hpg idx e) as (Hrd&?&?); [done|].
  pose proof (inv_scan _ (proj1 Hm Hrd)). lia.
Qed.

Lemma Entry_safe st i :
  fs_safe st → 0 ≤ i < maxFiles →
  ok (Entry i st) (λ '(u, nm, n, k, p), u = true → ∃ name, nm = Some name ∧ 0 ≤ n ≤ len name ∧ in_u64 k ∧ in_u64 p).
Proof.
  intros Hst Hi. unfold Entry. pose proof Hst as [[Hl Hok] Hmock Hm Hpg].
  destruct (Z.ltb_spec i 0); [lia|]. destruct (Z.leb_spec maxFiles i); [lia|]. cbn [orb].
  destruct (aget_Some (files st) i) as [e He]; [lia|]. rewrite He. cbn [mbind option_bind ok].
  intros Hu. exists (name e). destruct (Hok i e He) as (Hn&Hs&Hnl). specialize (Hnl Hu). unfold fsPageSize in Hs.
  destruct (Hpg i e) as (Hrd&?&?); [done|]. pose proof (inv_scan _ (proj1 Hm Hrd)). split_and!; done || lia.
Qed.

(** The empty table. *)
Lemma fs_Init_safe st :
  len (files st) = maxFiles → (∀ i e, aget (files st) i = Some e → len (name e) = maxName) →
  mockPFAActive st = false → mem_ok (world st) →
  ok (Init st) (λ st', fs_safe st' ∧ world st' = world st ∧ ∀ i e, ¬ has_file (files st') i e).
Proof.
  intros Hlen Hn Hm Hw. eapply ok_mono; [by apply Init_clears|]. intros st' (fs&->&Ht&Hnone).
  split; [|done]. split; try done. intros i e Hf. by destruct (Hnone i e).
Qed.
