(* ===== verification/Line.v ===== *)
(** * Package [shell]: reading the command line

    The scanners and parsers of [src/shell/shell.go] over [lineBuf]: trimming, tokens,
    literals, numbers, and the edit distance behind the "Did you mean" answer.  They work
    on index ranges of the buffer; the theorems say what they compute on the text of the
    range. *)
From S2P Require Import Prelude Terminal.
Local Open Scope Z_scope.

Definition maxLine : Z := 128.

Definition isSpace (b : Z) : bool := (b =? 32) || (b =? 9).

Definition minInt (a b : Z) : Z := if a <? b then a else b.

Section line.
Context (lineBuf : list Z).

(** [for i < end && i < maxLine && p(lineBuf[i]) { i++ }]. *)
Definition scan_while (p : Z → bool) (start last : Z) : option Z :=
  loop_end
    (while (Z.to_nat maxLine) (λ i, (i <? last) && (i <? maxLine))
       (λ i, c ← aget lineBuf i; if p c then Some (inl (i + 1)) else Some (inr i)) start)
    Some.

Definition trimLeft (start last : Z) : option Z := scan_while isSpace start last.

Definition trimRight (start last : Z) : option Z :=
  loop_end
    (while (Z.to_nat maxLine) (λ i, (start <? i) && (i - 1 <? maxLine))
       (λ i, c ← aget lineBuf (i - 1); if isSpace c then Some (inl (i - 1)) else Some (inr i)) last)
    Some.

Definition firstToken (start last : Z) : option (Z * Z) :=
  i ← scan_while (λ c, negb (isSpace c)) start last; Some (start, i).

Definition matchLiteral (start last : Z) (lit : list Z) : option bool :=
  if negb (last - start =? len lit) then Some false
  else
    loop_end
      (for_range 0 (len lit)
         (λ i (_ : unit), let pos := start + i in
            if (pos <? 0) || (maxLine <=? pos) then Some (inr false)
            else
              c ← aget lineBuf pos; l ← aget lit i;
              if negb (c =? l) then Some (inr false) else Some (inl tt)) tt)
      (λ _, Some true).

Definition nextArg (start last : Z) : option (Z * Z * bool) :=
  i ← trimLeft start last;
  if last <=? i then Some (0, 0, false)
  else
    '(s, e) ← firstToken i last;
    if e <=? s then Some (0, 0, false) else Some (s, e, true).

Definition parseDec (start last : Z) : option (Z * bool) :=
  if last <=? start then Some (0, false)
  else
    loop_end
      (for_range start last
         (λ i n, c ← aget lineBuf i;
            if (c <? 48) || (57 <? c) then Some (inr (0, false))
            else Some (inl (i64 (i64 (n * 10) + u8 (c - 48))))) 0)
      (λ n, Some (n, true)).

(** The [switch] over the digit classes of [parseHex64]. *)
Definition hex_digit (c : Z) : option Z :=
  if (48 <=? c) && (c <=? 57) then Some (u8 (c - 48))
  else if (97 <=? c) && (c <=? 102) then Some (u8 (u8 (c - 97) + 10))
  else if (65 <=? c) && (c <=? 70) then Some (u8 (u8 (c - 65) + 10))
  else None.

(** The prefix [0x] or [0X] is skipped. *)
Definition skip_0x (start last : Z) : option Z :=
  if 2 <=? last - start then
    c0 ← aget lineBuf start;
    if c0 =? 48 then
      c1 ← aget lineBuf (start + 1);
      if (c1 =? 120) || (c1 =? 88) then Some (start + 2) else Some start
    else Some start
  else Some start.

Definition parseHex64 (start last : Z) : option (Z * bool) :=
  if last <=? start then Some (0, false)
  else
    start ← skip_0x start last;
    if last <=? start then Some (0, false)
    else
      loop_end
        (for_range start last
           (λ i v, c ← aget lineBuf i;
              match hex_digit c with
              | None => Some (inr (0, false))
              | Some d => Some (inl (Z.lor (u64 (Z.shiftl v 4)) d))
              end) 0)
        (λ v, Some (v, true)).

(** One cell of the row [curr]. *)
Definition distance_cell (start i : Z) (cmd prev : list Z) (j : Z) (curr : list Z) : option (list Z) :=
  a ← aget lineBuf (start + i - 1); b ← aget cmd (j - 1);
  let cost := if a =? b then 0 else 1 in
  p ← aget prev j; c ← aget curr (j - 1); q ← aget prev (j - 1);
  aset curr j (minInt (minInt (p + 1) (c + 1)) (q + cost)).

Definition distance_row (start : Z) (cmd : list Z) (i : Z) (s : list Z * list Z)
    : option (list Z * list Z) :=
  let '(prev, curr) := s in
  curr ← aset curr 0 i;
  curr ← for_do 1 (len cmd + 1) (distance_cell start i cmd prev) curr;
  prev ← for_do 0 (len cmd + 1) (λ j prev, v ← aget curr j; aset prev j v) prev;
  Some (prev, curr).

Definition calculateDistance (start last : Z) (cmd : list Z) : option Z :=
  let lenA := last - start in
  let lenB := len cmd in
  prev ← for_do 0 (lenB + 1) (λ j prev, aset prev j j) (replicate 129 0);
  '(prev, _) ← for_do 1 (lenA + 1) (distance_row start cmd) (prev, replicate 129 0);
  aget prev lenB.

(** [tmpName] is cleared, then filled from the range. *)
Definition copyNameFromRange (start last : Z) (tmpName : list Z) : option (Z * bool * list Z) :=
  let n := last - start in
  if (n <=? 0) || (16 <? n) then Some (0, false, tmpName)
  else
    t ← fill_with 0 16 0 tmpName;
    t ← for_do 0 n (λ i t, c ← aget lineBuf (start + i); aset t i c) t;
    Some (n, true, t).
End line.

(** ** Specification: the text of a range *)
Definition text (lb : list Z) (s e : Z) : list Z := subrange lb s (e - s).

Definition line_ok (lb : list Z) : Prop := len lb = maxLine ∧ Forall (λ c, in_u8 c) lb.

(** The range [s, e) of a line. *)
Definition in_line (s e : Z) : Prop := 0 ≤ s ≤ e ∧ e ≤ maxLine.

Section text.
Context (lb : list Z) (Hlb : len lb = maxLine).

Lemma text_split s i e : 0 ≤ s ≤ i → i ≤ e → text lb s e = text lb s i ++ text lb i e.
Proof.
  intros Hs He. unfold text, subrange.
  replace (Z.to_nat (e - s)) with (Z.to_nat (i - s) + Z.to_nat (e - i))%nat by lia.
  rewrite <-take_take_drop, drop_drop. do 3 f_equal. lia.
Qed.

Lemma text_nil s e : e ≤ s → text lb s e = [].
Proof. intros. unfold text, subrange. by replace (Z.to_nat (e - s)) with 0%nat by lia. Qed.

Lemma len_text s e : in_line s e → len (text lb s e) = e - s.
Proof. intros [??]. unfold text. destruct (subrange_split lb s (e - s)) as (_&?&_); lia. Qed.

Lemma aget_text s e k : in_line s e → 0 ≤ k < e - s → aget (text lb s e) k = aget lb (s + k).
Proof. intros [??] Hk. unfold text. destruct (subrange_split lb s (e - s)) as (_&_&Hg); [lia..|]. by apply Hg. Qed.

Lemma text_cons s e c : in_line s e → s < e → aget lb s = Some c → text lb s e = c :: text lb (s + 1) e.
Proof.
  intros [??] Hse Hc. rewrite (text_split s (s + 1) e) by lia.
  enough (text lb s (s + 1) = [c]) as -> by done.
  unfold text, subrange. replace (s + 1 - s) with 1 by lia.
  rewrite (drop_S lb c (Z.to_nat s)); [done|]. by rewrite <-aget_nat, Z2Nat.id by lia.
Qed.

Lemma text_snoc s e c : in_line s e → aget lb e = Some c → text lb s (e + 1) = text lb s e ++ [c].
Proof.
  intros [??] Hc. pose proof (aget_inv _ _ _ Hc). rewrite (text_split s e (e + 1)) by lia. f_equal.
  rewrite (text_cons e (e + 1) c) by (done || lia || (split; lia)). by rewrite text_nil by lia.
Qed.

Lemma aget_line k : 0 ≤ k < maxLine → ∃ c, aget lb k = Some c.
Proof. intros. apply aget_Some. lia. Qed.

Lemma Forall_text (P : Z → Prop) s e :
  in_line s e → (∀ k c, s ≤ k < e → aget lb k = Some c → P c) → Forall P (text lb s e).
Proof.
  intros [??] HP. apply Forall_subrange; [lia..|]. intros k Hk.
  destruct (aget_line k) as [c Hc]; [lia|]. exists c. split; [done|]. apply (HP k); [lia|done].
Qed.

(** [t] starts with an element outside [p], or is empty. *)
Definition stops (p : Z → bool) (t : list Z) : Prop := match t with [] => True | c :: _ => p c = false end.

Lemma scan_while_ok p s e :
  in_line s e →
  ok (scan_while lb p s e)
     (λ i, s ≤ i ≤ e ∧ Forall (λ c, p c = true) (text lb s i) ∧ stops p (text lb i e)).
Proof.
  intros Hse. pose proof Hse as [??]. unfold scan_while. apply ok_loop_end.
  apply (while_ok (λ i, s ≤ i ≤ e ∧ Forall (λ c, p c = true) (text lb s i)) (λ i, maxLine - i)).
  - split; [lia|]. by rewrite text_nil by lia.
  - unfold maxLine in *. lia.
  - intros i _ Hc. apply andb_true_iff in Hc as [_ ?%Z.ltb_lt]. lia.
  - intros i [Hi Hf] Hc. apply andb_true_iff in Hc as [?%Z.ltb_lt ?%Z.ltb_lt].
    destruct (aget_line i) as [c Hc]; [lia|]. rewrite Hc. cbn. destruct (p c) eqn:Hp.
    + split; [|lia]. split; [lia|]. rewrite (text_snoc s i c) by (done || lia || (split; lia)).
      apply Forall_app. by auto.
    + split; [lia|]. split; [done|]. by rewrite (text_cons i e c) by (done || lia || (split; lia)).
  - intros i [Hi Hf] Hc. split; [lia|]. split; [done|]. rewrite text_nil; [done|].
    apply andb_false_iff in Hc as [?%Z.ltb_ge|?%Z.ltb_ge]; unfold maxLine in *; lia.
Qed.

Lemma trimLeft_ok s e :
  in_line s e →
  ok (trimLeft lb s e) (λ i, s ≤ i ≤ e ∧ Forall (λ c, isSpace c = true) (text lb s i) ∧
    stops isSpace (text lb i e)).
Proof. apply scan_while_ok. Qed.

Lemma trimRight_ok s e :
  in_line s e →
  ok (trimRight lb s e) (λ i, s ≤ i ≤ e ∧ Forall (λ c, isSpace c = true) (text lb i e) ∧
    (s < i → ∃ c, aget lb (i - 1) = Some c ∧ isSpace c = false)).
Proof.
  intros Hse. pose proof Hse as [??]. unfold trimRight. apply ok_loop_end.
  apply (while_ok (λ i, s ≤ i ≤ e ∧ Forall (λ c, isSpace c = true) (text lb i e)) (λ i, i)).
  - split; [lia|]. by rewrite text_nil by lia.
  - unfold maxLine in *. lia.
  - intros i _ Hc. apply andb_true_iff in Hc as [?%Z.ltb_lt _]. lia.
  - intros i [Hi Hf] Hc. apply andb_true_iff in Hc as [?%Z.ltb_lt ?%Z.ltb_lt].
    destruct (aget_line (i - 1)) as [c Hc]; [lia|]. rewrite Hc. cbn. destruct (isSpace c) eqn:Hp.
    + split; [|lia]. split; [lia|]. rewrite (text_cons (i - 1) e c) by (done || lia || (split; lia)).
      constructor; [done|]. by replace (i - 1 + 1) with i by lia.
    + split; [lia|]. split; [done|]. intros _. by exists c.
  - intros i [Hi Hf] Hc. split; [lia|]. split; [done|]. intros Hs.
    apply andb_false_iff in Hc as [?%Z.ltb_ge|?%Z.ltb_ge]; lia.
Qed.

Lemma matchLiteral_spec s e lit :
  in_line s e → matchLiteral lb s e lit = Some (bool_decide (text lb s e = lit)).
Proof.
  intros Hse. pose proof Hse as [??]. pose proof (len_text s e Hse) as Hlt. unfold matchLiteral.
  destruct (Z.eqb_spec (e - s) (len lit)) as [Hl|Hl]; cbn [negb].
  2:{ rewrite bool_decide_eq_false_2; [done|]. intros Ht. rewrite Ht in Hlt. lia. }
  destruct (ok_elim (loop_end (for_range 0 (len lit)
         (λ i (_ : unit), let pos := s + i in
            if (pos <? 0) || (maxLine <=? pos) then Some (inr false)
            else
              c ← aget lb pos; l ← aget lit i;
              if negb (c =? l) then Some (inr false) else Some (inl tt)) tt)
      (λ _, Some true)) (λ b, b = bool_decide (text lb s e = lit))) as (b&Hb&->); [|done].
  apply ok_loop_end.
  apply (for_range_ok (λ i _, ∀ k, 0 ≤ k < i → aget (text lb s e) k = aget lit k)).
  - lia.
  - lia.
  - intros i [] Hi Hk. cbv zeta. destruct (Z.ltb_spec (s + i) 0), (Z.leb_spec maxLine (s + i)); try lia. cbn [orb].
    destruct (aget_line (s + i)) as [c Hc]; [lia|]. destruct (aget_Some lit i) as [l Hli]; [lia|].
    rewrite Hc, Hli. cbn. destruct (Z.eqb_spec c l) as [->|Hne]; cbn.
    + intros k Hk'. destruct (decide (k = i)) as [->|]; [|apply Hk; lia].
      by rewrite aget_text, Hc, Hli by (done || lia).
    + symmetry. apply bool_decide_eq_false_2. intros Ht.
      assert (aget (text lb s e) i = Some c) as Hx by (by rewrite aget_text by (done || lia)).
      rewrite Ht in Hx. congruence.
  - intros _ Hk. cbn. symmetry. apply bool_decide_eq_true_2. apply alist_eq; [lia|].
    intros k Hk'. apply Hk. lia.
Qed.
End text.

(** ** Words *)

(** The maximal runs of characters that are not blanks. *)
Fixpoint words (t : list Z) : list (list Z) :=
  match t with
  | [] => []
  | c :: t' =>
      if isSpace c then words t'
      else
        let ws := words t' in
        match t' with
        | [] => [[c]]
        | c' :: _ => if isSpace c' then [c] :: ws else (c :: default [] (head ws)) :: tail ws
        end
  end.

Lemma words_blank sp t : Forall (λ c, isSpace c = true) sp → words (sp ++ t) = words t.
Proof. induction 1 as [|c sp Hc _ IH]; [done|]. cbn. by rewrite Hc. Qed.

Lemma words_word w t :
  w ≠ [] → Forall (λ c, isSpace c = false) w → stops (λ c, negb (isSpace c)) t →
  words (w ++ t) = w :: words t.
Proof.
  intros Hne Hw Ht. induction Hw as [|c w Hc Hw IH]; [done|]. cbn. rewrite Hc.
  destruct w as [|c' w].
  - cbn. destruct t as [|d t]; [done|]. cbn in Ht. destruct (isSpace d) eqn:Hd; [|done].
    done.
  - inversion Hw as [|? ? Hc' ?]; subst. cbn [app] in *. rewrite IH by done. by rewrite Hc'.
Qed.

Lemma words_nil t : words t = [] ↔ Forall (λ c, isSpace c = true) t.
Proof.
  induction t as [|c t IH]; cbn; [split; [constructor|done]|]. destruct (isSpace c) eqn:Hc.
  - rewrite IH. split; [by constructor|by inversion 1].
  - split; [intros Hn; exfalso; by repeat case_match|]. inversion 1. congruence.
Qed.

Lemma nextArg_ok lb s e :
  len lb = maxLine → in_line s e →
  ok (nextArg lb s e) (λ '(s', e', found),
    if found : bool
    then s ≤ s' ∧ s' < e' ∧ e' ≤ e ∧ words (text lb s e) = text lb s' e' :: words (text lb e' e) ∧
         Forall (λ c, isSpace c = false) (text lb s' e')
    else words (text lb s e) = []).
Proof.
  intros Hlb Hse. pose proof Hse as [??]. unfold nextArg.
  apply ok_bind. eapply ok_mono; [by apply trimLeft_ok|]. intros i (Hi&Hsp&Hst).
  rewrite (text_split lb s i e), words_blank by (done || lia).
  destruct (Z.leb_spec e i); [by rewrite text_nil by lia|].
  unfold firstToken. do 2 apply ok_bind. eapply ok_mono; [apply scan_while_ok; [done|split; lia]|].
  intros k (Hk&Hf&Hst'). cbn.
  assert (i < k) as Hik.
  { destruct (decide (i = k)) as [<-|]; [|lia].
    destruct (aget_line lb Hlb i) as [c Hc]; [unfold maxLine in *; lia|].
    rewrite (text_cons lb i e c) in Hst, Hst' by (done || lia || (split; lia)). cbn in Hst, Hst'.
    by rewrite Hst in Hst'. }
  destruct (Z.leb_spec k i); [lia|]. cbn.
  assert (Forall (λ c, isSpace c = false) (text lb i k)) as Hns.
  { eapply Forall_impl; [exact Hf|]. cbn. intros c ?%negb_true_iff. done. }
  split_and!; try lia; [|done]. rewrite (text_split lb i k e) by lia. rewrite words_word; [done| |done|done].
  intros Hn. assert (len (text lb i k) = k - i) as Hl by (apply len_text; [done|split; lia]).
  rewrite Hn in Hl. pose proof (@len_nil Z). lia.
Qed.

(** ** Numbers *)
Lemma base_val_snoc B f bs b : base_val B f (bs ++ [b]) = base_val B f bs * B + f b.
Proof. unfold base_val. by rewrite foldl_app. Qed.

Lemma i64_mod x : (i64 x) `mod` 2 ^ 64 = x `mod` 2 ^ 64.
Proof. unfold i64. rewrite Zminus_mod_idemp_l. f_equal. lia. Qed.

Lemma i64_congr x y : x `mod` 2 ^ 64 = y `mod` 2 ^ 64 → i64 x = i64 y.
Proof.
  intros E. unfold i64. f_equal. rewrite <-(Zplus_mod_idemp_l x), <-(Zplus_mod_idemp_l y). by rewrite E.
Qed.

Lemma i64_digit a d : i64 (i64 (i64 a * 10) + d) = i64 (a * 10 + d).
Proof.
  apply i64_congr. rewrite <-Zplus_mod_idemp_l, i64_mod, Zplus_mod_idemp_l.
  rewrite <-Zplus_mod_idemp_l, <-Zmult_mod_idemp_l, i64_mod, Zmult_mod_idemp_l, Zplus_mod_idemp_l. done.
Qed.

Lemma foldl_none {A} (f : A → Z → option A) t : foldl (λ o c, a ← o; f a c) None t = None.
Proof. by induction t. Qed.

(** A left fold over a range of the line that stops at the first character [f] rejects. *)
Lemma range_fold {A R} lb s e (f : A → Z → option A) (a0 : A) (bad : R) (good : A → R)
    (body : Z → A → option (A + R)) :
  len lb = maxLine → in_line s e →
  (∀ i c a, aget lb i = Some c →
     body i a = Some (match f a c with Some a' => inl a' | None => inr bad end)) →
  loop_end (for_range s e body a0) (λ a, Some (good a)) =
    Some (match foldl (λ o c, a ← o; f a c) (Some a0) (text lb s e) with
          | Some a => good a | None => bad end).
Proof.
  intros Hlb Hse Hb. pose proof Hse as [??].
  enough (ok (loop_end (for_range s e body a0) (λ a, Some (good a)))
    (λ r, r = match foldl (λ o c, a ← o; f a c) (Some a0) (text lb s e) with
          | Some a => good a | None => bad end)) as Hok.
  { destruct (ok_elim _ _ Hok) as (r&->&->). done. }
  apply ok_loop_end.
  apply (for_range_ok (λ i a, foldl (λ o c, a ← o; f a c) (Some a0) (text lb s i) = Some a)).
  - lia.
  - by rewrite text_nil by lia.
  - intros i a Hi Ha. destruct (aget_line lb Hlb i) as [c Hc]; [lia|]. rewrite (Hb i c a Hc). cbn.
    assert (foldl (λ o c, a ← o; f a c) (Some a0) (text lb s (i + 1)) = f a c) as Hs.
    { rewrite (text_snoc lb Hlb s i c), foldl_app, Ha by (done || (split; lia)). done. }
    destruct (f a c) eqn:Hf; [done|]. rewrite (text_split lb s (i + 1) e), foldl_app, Hs, foldl_none by lia.
    done.
  - intros a Ha. by rewrite Ha.
Qed.

Lemma foldl_opt {A} (f : A → Z → option A) (P : Z → bool) (g : A → Z → A) t :
  (∀ a c, f a c = if P c then Some (g a c) else None) →
  ∀ a, foldl (λ o c, a ← o; f a c) (Some a) t =
    if forallb P t then Some (foldl g a t) else None.
Proof.
  intros Hf.
  induction t as [|c t IH]; intros a; [done|]. cbn [foldl mbind option_bind forallb]. rewrite Hf.
  destruct (P c); cbn [andb]; [apply IH|by rewrite foldl_none].
Qed.

Definition is_dec (c : Z) : bool := (48 <=? c) && (c <=? 57).

Lemma foldl_dec t : Forall (λ c, in_u8 c) t → forallb is_dec t = true → ∀ v,
  foldl (λ n c, i64 (i64 (n * 10) + u8 (c - 48))) (i64 v) t = i64 (foldl (λ a b, a * 10 + (b - 48)) v t).
Proof.
  induction 1 as [|c t Hc _ IH]; intros Hd v; [done|]. cbn [forallb foldl] in *.
  apply andb_true_iff in Hd as [Hd ?]. unfold is_dec in Hd. rewrite u8_small by lia.
  rewrite i64_digit. by apply IH.
Qed.

(** [parseDec] accepts exactly the non-empty strings of digits; the value is taken
    modulo 2^64, as a signed number. *)
Lemma parseDec_spec lb s e :
  line_ok lb → in_line s e →
  parseDec lb s e = Some (let t := text lb s e in
    if bool_decide (t ≠ []) && forallb is_dec t then (i64 (dec_val t), true) else (0, false)).
Proof.
  intros [Hlb Hb] Hse. pose proof Hse as [??]. unfold parseDec. cbv zeta.
  destruct (Z.leb_spec e s). { by rewrite text_nil by lia. }
  rewrite (range_fold lb s e (λ n c, if is_dec c then Some (i64 (i64 (n * 10) + u8 (c - 48))) else None)
    _ (0, false)); [|done..|].
  2:{ intros i c a ->. cbn. unfold is_dec.
      by destruct (Z.ltb_spec c 48), (Z.ltb_spec 57 c), (Z.leb_spec 48 c), (Z.leb_spec c 57); try lia. }
  rewrite (foldl_opt _ is_dec (λ n c, i64 (i64 (n * 10) + u8 (c - 48)))) by done.
  rewrite bool_decide_eq_true_2.
  2:{ intros Hn. pose proof (len_text lb Hlb s e Hse) as Hl. rewrite Hn in Hl. pose proof (@len_nil Z). lia. }
  cbn [andb]. destruct (forallb is_dec (text lb s e)) eqn:Hd; [|done].
  change 0 with (i64 0) at 1. rewrite foldl_dec; [done| |done].
  apply Forall_text; [done..|]. intros k c _ Hc%aget_elem. by eapply Forall_forall in Hb.
Qed.

(** The digits of a hexadecimal numeral in the order of their values, in either case, and
    the value of a character: the place where it stands. *)
Definition hex_lower : list Z := gs "0123456789abcdef".
Definition hex_upper : list Z := gs "0123456789ABCDEF".

Definition hex_value (c : Z) : Z :=
  match list_find (.= c) hex_lower with
  | Some (i, _) => Z.of_nat i
  | None => default 0 (list_find (.= c) hex_upper ≫= λ '(i, _), Some (Z.of_nat i))
  end.

Definition is_hex (c : Z) : bool := bool_decide (c ∈ hex_lower ++ hex_upper).

(** The value of a hexadecimal numeral, either case. *)
Definition hexdigits_val (t : list Z) : Z := base_val 16 hex_value t.

Definition strip_0x (t : list Z) : list Z :=
  match t with
  | 48 :: c :: r => if (c =? 120) || (c =? 88) then r else t
  | _ => t
  end.

(** The [switch] of [parseHex64] reads exactly these digits. *)
Lemma hex_digit_spec c : hex_digit c = if is_hex c then Some (hex_value c) else None.
Proof.
  destruct (decide (48 ≤ c < 103)) as [Hc|Hc].
  - assert (Forall (λ c, hex_digit c = if is_hex c then Some (hex_value c) else None) (seqZ 48 55)) as H.
    { by apply (bool_decide_eq_true_1 _); vm_compute. }
    rewrite Forall_forall in H. apply H, elem_of_seqZ. lia.
  - unfold is_hex. rewrite bool_decide_eq_false_2.
    + unfold hex_digit. repeat case_match; rewrite ?andb_true_iff in *; lia || done.
    + assert (Forall (λ c, 48 ≤ c < 103) (hex_lower ++ hex_upper)) as H
        by (by apply (bool_decide_eq_true_1 _); vm_compute).
      intros Hin. rewrite Forall_forall in H. apply H in Hin. lia.
Qed.

Lemma hex_digit_range c d : hex_digit c = Some d → 0 ≤ d < 16.
Proof.
  unfold hex_digit. intros H. repeat case_match; simplify_eq; unfold u8, wrap;
    rewrite ?andb_true_iff in *; mod_lia.
Qed.

Lemma lor_hex v d : 0 ≤ d < 16 → Z.lor (u64 (Z.shiftl (u64 v) 4)) d = u64 (v * 16 + d).
Proof.
  intros Hd. unfold u64, wrap.
  assert ((Z.shiftl (v `mod` 2 ^ 64) 4) `mod` 2 ^ 64 = Z.shiftl (v `mod` 2 ^ 60) 4) as ->.
  { rewrite !Z.shiftl_mul_pow2 by lia. change (2 ^ 4) with 16. change (2 ^ 60) with 1152921504606846976.
    change (2 ^ 64) with 18446744073709551616. mod_lia. }
  rewrite lor_shiftl_add by lia. change (2 ^ 4) with 16. change (2 ^ 60) with 1152921504606846976.
  change (2 ^ 64) with 18446744073709551616. mod_lia.
Qed.

Lemma foldl_hex t : forallb is_hex t = true → ∀ v,
  foldl (λ v c, Z.lor (u64 (Z.shiftl v 4)) (default 0 (hex_digit c))) (u64 v) t =
  u64 (foldl (λ a c, a * 16 + hex_value c) v t).
Proof.
  induction t as [|c t IH]; intros Hd v; [done|]. cbn [forallb foldl] in *.
  apply andb_true_iff in Hd as [Hd ?]. pose proof (hex_digit_spec c) as Hc. rewrite Hd in Hc.
  rewrite Hc. cbn [default from_option]. rewrite lor_hex by (by eapply hex_digit_range). by apply IH.
Qed.

Lemma skip_0x_ok lb s e :
  len lb = maxLine → in_line s e →
  ok (skip_0x lb s e) (λ s', s ≤ s' ≤ e ∧ text lb s' e = strip_0x (text lb s e)).
Proof.
  intros Hlb Hse. pose proof Hse as [??]. unfold skip_0x.
  destruct (Z.leb_spec 2 (e - s)) as [H2|H2]; cbn.
  - destruct (aget_line lb Hlb s) as [c Hc]; [lia|]. destruct (aget_line lb Hlb (s + 1)) as [c' Hc']; [lia|].
    rewrite Hc. cbn. rewrite (text_cons lb s e c) by (done || lia). rewrite (text_cons lb (s + 1) e c') by (done || lia || (split; lia)).
    destruct (Z.eqb_spec c 48) as [->|Hne]; cbn.
    + rewrite Hc'. cbn. destruct ((c' =? 120) || (c' =? 88)); cbn; (split; [lia|]).
      * by replace (s + 1 + 1) with (s + 2) by lia.
      * rewrite (text_cons lb s e 48) by (done || lia). by rewrite (text_cons lb (s + 1) e c') by (done || lia || (split; lia)).
    + split; [lia|]. rewrite (text_cons lb s e c) by (done || lia).
      rewrite (text_cons lb (s + 1) e c') by (done || lia || (split; lia)).
      unfold strip_0x. by repeat case_match.
  - split; [lia|]. pose proof (len_text lb Hlb s e Hse) as Hl. destruct (text lb s e) as [|c [|c' t]]; try done.
    + cbn. by repeat case_match.
    + rewrite !len_cons in Hl. pose proof (len_nonneg t). lia.
Qed.

(** [parseHex64] accepts exactly the hexadecimal numerals of either case, with or without
    the prefix; the value is taken modulo 2^64. *)
Lemma parseHex64_spec lb s e :
  len lb = maxLine → in_line s e →
  parseHex64 lb s e = Some (let t := strip_0x (text lb s e) in
    if bool_decide (t ≠ []) && forallb is_hex t then (u64 (hexdigits_val t), true) else (0, false)).
Proof.
  intros Hlb Hse. pose proof Hse as [??]. unfold parseHex64. cbv zeta.
  destruct (Z.leb_spec e s). { by rewrite text_nil by lia. }
  destruct (ok_elim _ _ (skip_0x_ok lb s e Hlb Hse)) as (s'&->&Hs'&Ht). cbn [mbind option_bind]. rewrite <-Ht.
  destruct (Z.leb_spec e s'). { by rewrite text_nil by lia. }
  assert (in_line s' e) as Hse' by (split; lia).
  rewrite (range_fold lb s' e
    (λ v c, match hex_digit c with Some d => Some (Z.lor (u64 (Z.shiftl v 4)) d) | None => None end)
    _ (0, false)); [|done..|].
  2:{ intros i c a ->. cbn. by destruct (hex_digit c). }
  rewrite (foldl_opt _ is_hex (λ v c, Z.lor (u64 (Z.shiftl v 4)) (default 0 (hex_digit c)))).
  2:{ intros a c. rewrite hex_digit_spec. by destruct (is_hex c). }
  rewrite bool_decide_eq_true_2.
  2:{ intros Hn. pose proof (len_text lb Hlb s' e Hse') as Hl. rewrite Hn in Hl. pose proof (@len_nil Z). lia. }
  cbn [andb]. destruct (forallb is_hex (text lb s' e)) eqn:Hd; [|done].
  by rewrite (foldl_hex _ Hd 0 : foldl _ 0 _ = _).
Qed.

(** ** Edit distance *)

(** [edits a b n]: [n] insertions, deletions and replacements of one character turn [a]
    into [b]. *)
Inductive edits : list Z → list Z → Z → Prop :=
  | edits_done : edits [] [] 0
  | edits_keep x a b n : edits a b n → edits (x :: a) (x :: b) n
  | edits_replace x y a b n : edits a b n → edits (x :: a) (y :: b) (n + 1)
  | edits_delete x a b n : edits a b n → edits (x :: a) b (n + 1)
  | edits_insert y a b n : edits a b n → edits a (y :: b) (n + 1).

Fixpoint lev (a b : list Z) : Z :=
  match a with
  | [] => len b
  | x :: a' =>
      (fix lev_row (b : list Z) : Z :=
         match b with
         | [] => 1 + len a'
         | y :: b' =>
             Z.min (Z.min (lev a' (y :: b') + 1) (lev_row b' + 1)) (lev a' b' + (if x =? y then 0 else 1))
         end) b
  end.

Lemma lev_cons x a y b :
  lev (x :: a) (y :: b) =
    Z.min (Z.min (lev a (y :: b) + 1) (lev (x :: a) b + 1)) (lev a b + (if x =? y then 0 else 1)).
Proof. done. Qed.

Lemma lev_nil_r a : lev a [] = len a.
Proof. destruct a; [done|]. by rewrite len_cons. Qed.

Lemma lev_delete x a b : lev (x :: a) b ≤ lev a b + 1.
Proof. destruct b; [rewrite !lev_nil_r, len_cons; lia|]. rewrite lev_cons. lia. Qed.
Lemma lev_insert y a b : lev a (y :: b) ≤ lev a b + 1.
Proof. destruct a; [cbn; rewrite len_cons; lia|]. rewrite lev_cons. lia. Qed.

Lemma lev_lower a b n : edits a b n → lev a b ≤ n.
Proof.
  induction 1 as [|x a b n _ IH|x y a b n _ IH|x a b n _ IH|y a b n _ IH].
  - cbn. by rewrite len_nil.
  - rewrite lev_cons, Z.eqb_refl. lia.
  - rewrite lev_cons. destruct (x =? y); lia.
  - pose proof (lev_delete x a b). lia.
  - pose proof (lev_insert y a b). lia.
Qed.

Lemma edits_all_inserts b : edits [] b (len b).
Proof.
  induction b as [|y b IH]; [rewrite len_nil; constructor|].
  rewrite len_cons, Z.add_comm. by constructor.
Qed.
Lemma edits_all_deletes a : edits a [] (len a).
Proof.
  induction a as [|x a IH]; [rewrite len_nil; constructor|].
  rewrite len_cons, Z.add_comm. by constructor.
Qed.

Lemma lev_reached a : ∀ b, edits a b (lev a b).
Proof.
  induction a as [|x a IHa]; [apply edits_all_inserts|].
  induction b as [|y b IHb]; [rewrite lev_nil_r; apply edits_all_deletes|]. rewrite lev_cons.
  destruct (Z.min_spec (Z.min (lev a (y :: b) + 1) (lev (x :: a) b + 1))
    (lev a b + (if x =? y then 0 else 1))) as [[_ ->]|[_ ->]].
  - destruct (Z.min_spec (lev a (y :: b) + 1) (lev (x :: a) b + 1)) as [[_ ->]|[_ ->]]; by constructor.
  - destruct (Z.eqb_spec x y) as [->|]; [rewrite Z.add_0_r|]; by constructor.
Qed.

Lemma edits_app a b n c d m : edits a b n → edits c d m → edits (a ++ c) (b ++ d) (n + m).
Proof.
  intros H Hcd. induction H; cbn; rewrite <-?Z.add_assoc, ?(Z.add_comm 1 m), ?Z.add_assoc; try done;
    by constructor.
Qed.

Lemma edits_rev a b n : edits a b n → edits (reverse a) (reverse b) n.
Proof.
  induction 1 as [|x a b n _ IH|x y a b n _ IH|x a b n _ IH|y a b n _ IH]; rewrite ?reverse_cons.
  - constructor.
  - rewrite <-(Z.add_0_r n). apply edits_app; [done|]. repeat constructor.
  - apply edits_app; [done|]. by apply (edits_replace _ _ [] [] 0); constructor.
  - rewrite <-(app_nil_r (reverse b)). apply edits_app; [done|]. apply (edits_delete _ [] [] 0). constructor.
  - rewrite <-(app_nil_r (reverse a)). apply edits_app; [done|]. apply (edits_insert _ [] [] 0). constructor.
Qed.

Lemma lev_reverse a b : lev (reverse a) (reverse b) = lev a b.
Proof.
  apply Z.le_antisymm.
  - apply lev_lower, edits_rev, lev_reached.
  - rewrite <-(reverse_involutive a), <-(reverse_involutive b) at 1.
    apply lev_lower, edits_rev, lev_reached.
Qed.

(** The recurrence on the last characters. *)
Lemma lev_snoc a x b y :
  lev (a ++ [x]) (b ++ [y]) =
    Z.min (Z.min (lev a (b ++ [y]) + 1) (lev (a ++ [x]) b + 1)) (lev a b + (if x =? y then 0 else 1)).
Proof.
  rewrite <-(lev_reverse (a ++ [x])), !reverse_snoc, lev_cons.
  rewrite <-(lev_reverse a (b ++ [y])), <-(lev_reverse (a ++ [x]) b), <-(lev_reverse a b), !reverse_snoc.
  done.
Qed.

Lemma minInt_min a b : minInt a b = Z.min a b.
Proof. unfold minInt. destruct (Z.ltb_spec a b); lia. Qed.

Section distance.
Context (lb : list Z) (Hlb : len lb = maxLine) (s e : Z) (Hse : in_line s e).
Context (cmd : list Z) (Hcmd : len cmd ≤ maxLine).

(** The row of [i] typed characters. *)
Abbreviation D i j := (lev (text lb s (s + i)) (take (Z.to_nat j) cmd)).
Definition row_ok (i n : Z) (r : list Z) : Prop :=
  len r = maxLine + 1 ∧ ∀ j, 0 ≤ j < n → aget r j = Some (D i j).

Lemma D_step i j x y :
  0 ≤ i → s + i < e → 0 ≤ j → aget lb (s + i) = Some x → aget cmd j = Some y →
  D (i + 1) (j + 1) = Z.min (Z.min (D i (j + 1) + 1) (D (i + 1) j + 1)) (D i j + (if x =? y then 0 else 1)).
Proof.
  intros Hi Hie Hj Hx Hy. destruct Hse as [??].
  replace (s + (i + 1)) with (s + i + 1) by lia.
  rewrite (text_snoc lb Hlb s (s + i) x) by (done || (split; lia)).
  rewrite (take_S_aget cmd j y) by done. apply lev_snoc.
Qed.

Lemma row_ok_set i n r r' v :
  row_ok i n r → aset r n v = Some r' → v = D i n → 0 ≤ n → row_ok i (n + 1) r'.
Proof.
  intros [Hl Hr] Hs Hv Hn. split; [by rewrite (len_aset _ _ _ _ Hs)|]. intros j Hj.
  rewrite (aget_aset _ _ _ _ j Hs). case_decide as E; [by rewrite E, Hv|]. apply Hr. lia.
Qed.

Lemma distance_cell_ok i j prev curr :
  1 ≤ i → s + i ≤ e → 1 ≤ j ≤ len cmd →
  row_ok (i - 1) (len cmd + 1) prev → row_ok i j curr →
  ok (distance_cell lb s i cmd prev j curr) (row_ok i (j + 1)).
Proof.
  intros Hi Hie Hj [Hlp Hp] Hcr. pose proof Hcr as [Hlc Hc]. unfold maxLine in *. destruct Hse as [??].
  unfold distance_cell. destruct (aget_line lb Hlb (s + i - 1)) as [x Hx]; [unfold maxLine in *; lia|].
  destruct (aget_Some cmd (j - 1)) as [y Hy]; [lia|].
  rewrite Hx, Hy. cbn [mbind option_bind]. rewrite !Hp, Hc by lia. cbn [mbind option_bind].
  rewrite aset_Some by lia. cbn [ok]. eapply row_ok_set; [done|by apply aset_Some; lia| |lia].
  rewrite !minInt_min.
  replace (D i j) with (D (i - 1 + 1) (j - 1 + 1)) by (do 2 f_equal; [f_equal|]; lia).
  rewrite (D_step (i - 1) (j - 1) x y); [|lia|lia|lia|by rewrite Z.add_sub_assoc|done].
  replace (j - 1 + 1) with j by lia. replace (i - 1 + 1) with i by lia. done.
Qed.

Lemma distance_row_ok i prev curr :
  1 ≤ i → s + i ≤ e → row_ok (i - 1) (len cmd + 1) prev → len curr = maxLine + 1 →
  ok (distance_row lb s cmd i (prev, curr))
     (λ '(prev', curr'), row_ok i (len cmd + 1) prev' ∧ len curr' = maxLine + 1).
Proof.
  intros Hi Hie Hp Hlc. pose proof (len_nonneg cmd). pose proof Hse as [??]. unfold distance_row.
  rewrite aset_Some by (unfold maxLine in *; lia). cbn [mbind option_bind].
  apply ok_bind. apply (for_do_ok (λ j c, row_ok i j c)); [lia| | |].
  - eapply (row_ok_set i 0 curr); [|by apply aset_Some; unfold maxLine in *; lia| |lia].
    + split; [done|lia].
    + change (take (Z.to_nat 0) cmd) with (@nil Z). rewrite lev_nil_r, len_text by (done || (split; lia)). lia.
  - intros j c Hj Hc. apply distance_cell_ok; done || lia.
  - intros c Hc. pose proof Hc as [Hl Hg]. apply ok_bind.
    apply (for_do_ok (λ j p, row_ok i j p)); [lia|split; [apply Hp|lia]| |done].
    intros j p Hj Hpj. rewrite Hg by lia. cbn [mbind option_bind]. pose proof (proj1 Hpj).
    rewrite aset_Some by (unfold maxLine in *; lia). cbn [ok].
    eapply row_ok_set; [done|by apply aset_Some; unfold maxLine in *; lia|done|lia].
Qed.

Lemma calculateDistance_spec : calculateDistance lb s e cmd = Some (lev (text lb s e) cmd).
Proof.
  pose proof (len_nonneg cmd). pose proof Hse as [??].
  enough (ok (calculateDistance lb s e cmd) (λ d, d = lev (text lb s e) cmd)) as Hok.
  { destruct (ok_elim _ _ Hok) as (d&->&->). done. }
  unfold calculateDistance. cbv zeta. apply ok_bind.
  apply (for_do_ok (λ j p, row_ok 0 j p)); [lia|split; [by rewrite len_replicate|lia]| |].
  { intros j p Hj Hp. pose proof (proj1 Hp). rewrite aset_Some by (unfold maxLine in *; lia). cbn [ok].
    eapply row_ok_set; [done|by apply aset_Some; unfold maxLine in *; lia| |lia].
    rewrite text_nil by lia. cbn [lev]. by rewrite len_take by lia. }
  intros p0 Hp0. apply ok_bind.
  apply (for_do_ok (λ i '(p, c), row_ok (i - 1) (len cmd + 1) p ∧ len c = maxLine + 1)); [lia| | |].
  - split; [done|by rewrite len_replicate].
  - intros i [p c] Hi [Hp Hc]. eapply ok_mono; [apply distance_row_ok; done || lia|].
    intros [p' c'] [Hp' Hc']. split; [|done]. by replace (i + 1 - 1) with i by lia.
  - intros [p c] [[Hl Hg] _]. replace (e - s + 1 - 1) with (e - s) in * by lia. rewrite Hg by lia. cbn [ok].
    rewrite take_len by done. do 2 f_equal. lia.
Qed.
End distance.

Lemma copyNameFromRange_ok lb s e tmp :
  len lb = maxLine → in_line s e → len tmp = 16 →
  ok (copyNameFromRange lb s e tmp) (λ '(n, found, t),
    len t = 16 ∧
    if found : bool then n = e - s ∧ 1 ≤ n ≤ 16 ∧ take (Z.to_nat n) t = text lb s e
    else n = 0 ∧ t = tmp ∧ ¬ (1 ≤ e - s ≤ 16)).
Proof.
  intros Hlb Hse Ht. pose proof Hse as [??]. unfold copyNameFromRange. cbv zeta.
  destruct (Z.leb_spec (e - s) 0), (Z.ltb_spec 16 (e - s)); cbn [orb ok]; try (split; [done|]; split_and!; done || lia).
  apply ok_bind. eapply ok_mono; [apply fill_with_ok; lia|]. intros t1 [Hl1 _].
  apply ok_bind. apply (for_do_ok (λ i t, len t = 16 ∧ ∀ j, 0 ≤ j < i → aget t j = aget lb (s + j)));
    [lia|split; [lia|lia]| |].
  - intros i t Hi [Hl Hg]. destruct (aget_line lb Hlb (s + i)) as [c Hc]; [lia|]. rewrite Hc. cbn [mbind option_bind].
    rewrite aset_Some by lia. cbn [ok]. split; [by rewrite len_insert|]. intros j Hj.
    rewrite aget_insert, Z2Nat.id by lia. case_decide as E; [by rewrite E|]. apply Hg. lia.
  - intros t [Hl Hg]. cbn. split; [done|]. split_and!; try lia.
    apply alist_eq; [rewrite len_take, len_text by (done || lia); done|].
    intros i Hi. rewrite len_take in Hi by lia. rewrite aget_take, Hg, aget_text by (done || lia). done.
Qed.

(** A line for the examples. *)
Definition demo_line : list Z := gs " echo  hi 0x1F 42 histroy" ++ replicate 103 0.
Lemma demo_line_ok : line_ok demo_line.
Proof. split; [done|]. apply Forall_forall. intros c Hc. vm_compute in Hc. set_unfold. naive_solver lia. Qed.

(** Repeated calls of [nextArg] enumerate the words of the line: a call on a range
    never panics, returns the bounds of the first maximal run of non-blank characters,
    what is left behind it holds exactly the other words, and it reports failure exactly
    when the range is blank. *)
Theorem nextArg_words lb s e :
  len lb = maxLine → in_line s e →
  ∃ s' e' found, nextArg lb s e = Some (s', e', found) ∧
    if found : bool
    then s ≤ s' ∧ s' < e' ≤ e ∧ words (text lb s e) = text lb s' e' :: words (text lb e' e)
    else Forall (λ c, isSpace c = true) (text lb s e).
Proof.
  intros Hlb Hse. destruct (ok_elim _ _ (nextArg_ok lb s e Hlb Hse)) as ([[s' e'] found]&Hn&H).
  exists s', e', found. split; [done|]. destruct found; [|by apply words_nil]. naive_solver lia.
Qed.

Lemma nextArg_words_witness :
  len demo_line = maxLine ∧ in_line 5 25 ∧
  ∃ s' e' found, nextArg demo_line 5 25 = Some (s', e', found) ∧
    if found : bool
    then 5 ≤ s' ∧ s' < e' ≤ 25 ∧ words (text demo_line 5 25) = text demo_line s' e' :: words (text demo_line e' 25)
    else Forall (λ c, isSpace c = true) (text demo_line 5 25).
Proof.
  assert (len demo_line = maxLine) as H1 by done. assert (in_line 5 25) as H2 by done.
  split; [exact H1|]. split; [exact H2|]. exact (nextArg_words demo_line 5 25 H1 H2).
Defined.

(** C40: The number parsers on any range of the line: [parseDec] succeeds exactly on
    non-empty strings of decimal digits, [parseHex64] exactly on non-empty strings over
    [0123456789abcdef] and [0123456789ABCDEF] behind an optional [0x], each digit worth its
    place there; the value is the numeral's modulo 2^64 (signed for [parseDec]); every other input is reported as an error with
    value 0. *)
Theorem parse_numbers lb s e :
  line_ok lb → in_line s e →
  let t := text lb s e in let h := strip_0x t in
  parseDec lb s e = Some (if decide (t ≠ [] ∧ Forall (λ c, 48 ≤ c ≤ 57) t)
                          then (i64 (dec_val t), true) else (0, false)) ∧
  parseHex64 lb s e = Some (if decide (h ≠ [] ∧ Forall (λ c, c ∈ hex_lower ++ hex_upper) h)
                            then (u64 (hexdigits_val h), true) else (0, false)).
Proof.
  intros Hlb Hse t h. rewrite parseDec_spec, parseHex64_spec by (done || apply Hlb). cbv zeta.
  fold t. fold h. split.
  - destruct (bool_decide_reflect (t ≠ [])) as [Hne|Hne]; cbn [andb].
    2:{ by rewrite decide_False by tauto. }
    destruct (forallb is_dec t) eqn:Hd.
    + rewrite decide_True; [done|]. split; [done|]. apply Forall_forall. intros c Hc.
      apply Is_true_true, forallb_True in Hd. eapply Forall_forall in Hd; [|done]. unfold is_dec in Hd.
      by destruct (Z.leb_spec 48 c), (Z.leb_spec c 57).
    + rewrite decide_False; [done|]. intros [_ Hf]. enough (forallb is_dec t = true) by congruence.
      apply Is_true_true, forallb_True. eapply Forall_impl; [done|]. cbn. intros c ?. unfold is_dec.
      by destruct (Z.leb_spec 48 c), (Z.leb_spec c 57); try lia.
  - destruct (bool_decide_reflect (h ≠ [])) as [Hne|Hne]; cbn [andb].
    2:{ by rewrite decide_False by tauto. }
    destruct (forallb is_hex h) eqn:Hd.
    + rewrite decide_True; [done|]. split; [done|]. apply Forall_forall. intros c Hc.
      apply Is_true_true, forallb_True in Hd. eapply Forall_forall in Hd; [|done]. unfold is_hex in Hd.
      by apply Is_true_true, bool_decide_eq_true_1 in Hd.
    + rewrite decide_False; [done|]. intros [_ Hf]. enough (forallb is_hex h = true) by congruence.
      apply Is_true_true, forallb_True. eapply Forall_impl; [done|]. cbn. intros c Hc. unfold is_hex.
      by rewrite bool_decide_eq_true_2.
Qed.

Lemma parse_numbers_witness :
  line_ok demo_line ∧ in_line 10 14 ∧
  let t := text demo_line 10 14 in let h := strip_0x t in
  parseDec demo_line 10 14 = Some (if decide (t ≠ [] ∧ Forall (λ c, 48 ≤ c ≤ 57) t)
                          then (i64 (dec_val t), true) else (0, false)) ∧
  parseHex64 demo_line 10 14 = Some (if decide (h ≠ [] ∧ Forall (λ c, c ∈ hex_lower ++ hex_upper) h)
                            then (u64 (hexdigits_val h), true) else (0, false)).
Proof.
  pose proof demo_line_ok as H1. assert (in_line 10 14) as H2 by done.
  split; [exact H1|]. split; [exact H2|]. exact (parse_numbers demo_line 10 14 H1 H2).
Defined.

(** C39: [calculateDistance] computes the edit distance: its two rolling rows never leave
    their arrays, and the result is the least number of one-character insertions,
    deletions and replacements that turn the typed word into the command. *)
Theorem calculateDistance_least lb s e cmd :
  len lb = maxLine → in_line s e → len cmd ≤ maxLine →
  ∃ d, calculateDistance lb s e cmd = Some d ∧
    edits (text lb s e) cmd d ∧ ∀ n, edits (text lb s e) cmd n → d ≤ n.
Proof.
  intros Hlb Hse Hcmd. exists (lev (text lb s e) cmd). split; [by apply calculateDistance_spec|].
  split; [apply lev_reached|]. intros n. apply lev_lower.
Qed.

Lemma calculateDistance_least_witness :
  len demo_line = maxLine ∧ in_line 18 25 ∧ len (gs "history") ≤ maxLine ∧
  ∃ d, calculateDistance demo_line 18 25 (gs "history") = Some d ∧
    edits (text demo_line 18 25) (gs "history") d ∧
    ∀ n, edits (text demo_line 18 25) (gs "history") n → d ≤ n.
Proof.
  assert (len demo_line = maxLine) as H1 by done. assert (in_line 18 25) as H2 by done.
  assert (len (gs "history") ≤ maxLine) as H3 by done.
  split; [exact H1|]. split; [exact H2|]. split; [exact H3|].
  exact (calculateDistance_least demo_line 18 25 (gs "history") H1 H2 H3).
Defined.

(** The functions on the example line. *)
Example demo_line_parsed :
  nextArg demo_line 5 25 = Some (7, 9, true) ∧ parseHex64 demo_line 10 14 = Some (31, true) ∧
  parseDec demo_line 15 17 = Some (42, true) ∧ parseDec demo_line 10 14 = Some (0, false) ∧
  calculateDistance demo_line 18 25 (gs "history") = Some 2 ∧
  words (text demo_line 0 25) = [gs "echo"; gs "hi"; gs "0x1F"; gs "42"; gs "histroy"].
Proof. vm_compute. split_and!; reflexivity. Qed.
