(* ===== verification/Output.v ===== *)
(** * Package [shell]: output

    The printing helpers of [src/shell/shell.go] over any console.  Each of them is
    shown to print a text that is a function of its arguments, so that what a command
    prints can be read off its definition. *)
From S2P Require Import Prelude Terminal Line.
Local Open Scope Z_scope.

(** The digits of [u], least significant last, at the end of a buffer of 10. *)
Definition dec_fill (u : Z) : option (list Z * Z * Z) :=
  loop_end
    (while 10 (λ '(_, _, u), 0 <? u)
       (λ '(buf, i, u), let i := i - 1 in
          buf ← aset buf i (u8 (48 + u `mod` 10));
          Some (inl (buf, i, u / 10)))
       (replicate 10 0, 10, u)) Some.

Section output.
Context {T : Type} `{!Console T}.

(** [for i := n-1; i >= 0; i-- { PutRune(hexDigits[(v >> (4*i)) & 0xF]) }]. *)
Definition put_hex (n v : Z) (t : T) : option T :=
  for_do 0 n
    (λ k t, let i := n - 1 - k in
       d ← aget hexDigits (u8 (Z.land (Z.shiftr v (i * 4)) 0xF)); PutRune d t) t.

Definition printHex32 (v : Z) (t : T) : option T := put_hex 8 v t.
Definition printHexU64 (v : Z) (t : T) : option T := put_hex 16 v t.
Definition printHex64 (hi lo : Z) (t : T) : option T := t ← printHex32 hi t; printHex32 lo t.

Definition printHex8 (b : Z) (t : T) : option T :=
  d ← aget hexDigits (Z.land (Z.shiftr b 4) 0xF);
  t ← PutRune d t;
  d ← aget hexDigits (Z.land b 0xF);
  PutRune d t.

Definition printUint (v : Z) (t : T) : option T :=
  if v =? 0 then PutRune 48 t
  else if negb (Z.shiftr v 32 =? 0) then t ← Print (gs "0x") t; printHexU64 v t
  else
    '(buf, i, _) ← dec_fill (u32 v);
    for_do i 10 (λ j t, b ← aget buf j; PutRune b t) t.

Definition printName (name : list Z) (nameLen : Z) (t : T) : option T :=
  for_do 0 nameLen (λ i t, c ← aget name i; PutRune c t) t.

Definition printRange (lineBuf : list Z) (start last : Z) (t : T) : option T :=
  '(_, t) ←
    loop_end
      (while (Z.to_nat maxLine) (λ '(i, _), (i <? last) && (i <? maxLine))
         (λ '(i, t), c ← aget lineBuf i; t ← PutRune c t; Some (inl (i + 1, t))) (start, t)) Some;
  Some t.

(** One line of the dump: the bytes in hexadecimal, then as characters.  [peek] loads a
    byte; [None] is an address that is not mapped, where the load faults and the handler
    never returns. *)
Definition dump_line (peek : Z → option Z) (addr length off : Z) (t : T) : option T :=
  t ← printHexU64 (u64 (addr + off)) t;
  t ← Print (gs ": ") t;
  t ← for_do 0 16
        (λ j t, if off + j <? length then
                  b ← peek (u64 (addr + (off + j))); t ← printHex8 b t; PutRune 32 t
                else Print (gs "   ") t) t;
  t ← Print (gs " |") t;
  t ← for_do 0 16
        (λ j t, if off + j <? length then
                  b ← peek (u64 (addr + (off + j)));
                  if (32 <=? b) && (b <=? 126) then PutRune b t else PutRune 46 t
                else PutRune 32 t) t;
  Print (gs "|" ++ [10]) t.

Definition dumpMemory (peek : Z → option Z) (addr length : Z) (t : T) : option T :=
  '(_, t) ←
    loop_end
      (while (Z.to_nat length) (λ '(off, _), off <? length)
         (λ '(off, t), t ← dump_line peek addr length off t; Some (inl (off + 16, t))) (0, t)) Some;
  Some t.
End output.

(** ** The texts *)

(** The last [n] hexadecimal digits of [v]. *)
Definition hex_text (n v : Z) : list Z :=
  (λ k, default 48 (aget hexDigits ((v / 16 ^ (n - 1 - k)) `mod` 16))) <$> seqZ 0 n.

Fixpoint dec_digits (n : nat) (u : Z) : list Z :=
  match n with
  | O => []
  | S n => if u =? 0 then [] else dec_digits n (u / 10) ++ [48 + u `mod` 10]
  end.

Definition uint_text (v : Z) : list Z :=
  if v =? 0 then [48] else if v <? 2 ^ 32 then dec_digits 10 v else gs "0x" ++ hex_text 16 v.

Definition dump_row_text (peek : Z → Z) (addr length off : Z) : list Z :=
  hex_text 16 (u64 (addr + off)) ++ gs ": " ++
  concat ((λ j, if off + j <? length then hex_text 2 (peek (u64 (addr + (off + j)))) ++ [32]
                else gs "   ") <$> seqZ 0 16) ++
  gs " |" ++
  concat ((λ j, if off + j <? length then
                  let b := peek (u64 (addr + (off + j))) in
                  if (32 <=? b) && (b <=? 126) then [b] else [46]
                else [32]) <$> seqZ 0 16) ++ gs "|" ++ [10].

Definition dump_text (peek : Z → Z) (addr length : Z) : list Z :=
  concat ((λ k, dump_row_text peek addr length (16 * k)) <$> seqZ 0 ((length + 15) / 16)).

Lemma PutRune_Print `{!Console T} r (t : T) : PutRune r t = Print [r] t.
Proof. cbn. unfold PutRune. by destruct (putRune r t). Qed.

Lemma Print_nil `{!Console T} (t : T) : Print [] t = Some t.
Proof. done. Qed.

(** Printing in a loop is printing the concatenation. *)
Lemma for_do_concat `{!Console T} (f : Z → T → option T) (g : Z → list Z) lo hi (t : T) :
  lo ≤ hi → (∀ j t, lo ≤ j < hi → f j t = Print (g j) t) →
  for_do lo hi f t = Print (concat (g <$> seqZ lo (hi - lo))) t.
Proof.
  intros Hle. remember (Z.to_nat (hi - lo)) as n eqn:Hn. revert lo t Hle Hn.
  induction n as [|n IH]; intros lo t Hle Hn Hf.
  - rewrite for_do_done by lia. rewrite seqZ_nil by lia. done.
  - rewrite for_do_step by lia. rewrite Hf by lia. rewrite seqZ_cons by lia.
    rewrite fmap_cons. cbn [concat]. rewrite Print_app.
    destruct (Print (g lo) t) as [t'|]; [|done]. cbn [mbind option_bind].
    replace (Z.pred (hi - lo)) with (hi - (lo + 1)) by lia. rewrite <-Z.add_1_r. apply IH; [lia|lia|].
    intros. apply Hf. lia.
Qed.

Lemma concat_singles {A B} (f : A → B) l : concat ((λ x, [f x]) <$> l) = f <$> l.
Proof. induction l; [done|]. cbn. by f_equal. Qed.

Lemma hexDigits_get d : 0 ≤ d < 16 → aget hexDigits d = Some (default 48 (aget hexDigits d)).
Proof. intros Hd. by destruct (hexDigits_spec d Hd) as (b&->&_). Qed.

Lemma land_15 x : Z.land x 0xF = x `mod` 16.
Proof. change 0xF with (Z.ones 4). by rewrite Z.land_ones by lia. Qed.

Section texts.
Context {T : Type} `{!Console T}.
Implicit Types t : T.

Lemma put_hex_Print n v t : 0 ≤ n → put_hex n v t = Print (hex_text n v) t.
Proof.
  intros Hn. unfold put_hex. erewrite (for_do_concat _ (λ k, [_])); [|done|].
  - rewrite concat_singles, Z.sub_0_r. unfold hex_text. done.
  - intros k t' Hk. cbv zeta beta. rewrite land_15, u8_small by (pose proof (Z.mod_pos_bound (Z.shiftr v ((n - 1 - k) * 4)) 16); lia).
    rewrite Z.shiftr_div_pow2 by lia. rewrite Z.mul_comm, Z.pow_mul_r by lia. change (2 ^ 4) with 16.
    rewrite (hexDigits_get (_ `mod` 16)) by (apply Z.mod_pos_bound; lia). cbn [mbind option_bind].
    apply PutRune_Print.
Qed.

Lemma printHex32_Print v t : printHex32 v t = Print (hex_text 8 v) t.
Proof. by apply put_hex_Print. Qed.
Lemma printHexU64_Print v t : printHexU64 v t = Print (hex_text 16 v) t.
Proof. by apply put_hex_Print. Qed.
Lemma printHex64_Print hi lo t : printHex64 hi lo t = Print (hex_text 8 hi ++ hex_text 8 lo) t.
Proof.
  unfold printHex64. rewrite Print_app, printHex32_Print. destruct (Print (hex_text 8 hi) t); [|done].
  cbn [mbind option_bind]. apply printHex32_Print.
Qed.

Lemma printHex8_Print b t : printHex8 b t = Print (hex_text 2 b) t.
Proof.
  unfold printHex8. rewrite !land_15, Z.shiftr_div_pow2 by lia. change (2 ^ 4) with 16.
  rewrite (hexDigits_get (b `mod` 16)), (hexDigits_get ((b / 16) `mod` 16)) by (apply Z.mod_pos_bound; lia).
  cbn [mbind option_bind]. rewrite PutRune_Print.
  change (hex_text 2 b) with
    ([default 48 (aget hexDigits ((b / 16) `mod` 16))] ++ [default 48 (aget hexDigits ((b / 1) `mod` 16))]).
  rewrite Print_app, Z.div_1_r. destruct (Print _ t) as [t'|]; [|done]. cbn [mbind option_bind].
  apply PutRune_Print.
Qed.

Lemma dec_loop u0 :
  0 < u0 < 10 ^ 10 →
  ok (dec_fill u0)
     (λ '(buf, i, _), len buf = 10 ∧ 0 ≤ i ≤ 10 ∧ drop (Z.to_nat i) buf = dec_digits 10 u0).
Proof.
  intros Hu0. unfold dec_fill. apply ok_loop_end.
  apply (while_ok
    (λ '(buf, i, u), len buf = 10 ∧ 0 ≤ i ≤ 10 ∧ 0 ≤ u < 10 ^ i ∧
       dec_digits (Z.to_nat i) u ++ drop (Z.to_nat i) buf = dec_digits 10 u0)
    (λ '(_, i, _), i)).
  - split; [by rewrite len_replicate|]. split; [lia|]. split; [lia|]. apply app_nil_r.
  - lia.
  - intros [[buf i] u] (_&Hi&Hu&_) Hpos%Z.ltb_lt. destruct (decide (i = 0)) as [->|]; [cbn in Hu; lia|lia].
  - intros [[buf i] u] (Hl&Hi&Hu&Hd) Hpos%Z.ltb_lt.
    assert (0 < i) as Hi0 by (destruct (decide (i = 0)) as [->|]; [cbn in Hu; lia|lia]).
    pose proof (Z.mod_pos_bound u 10 ltac:(lia)). cbv zeta. rewrite aset_Some by lia.
    cbn [mbind option_bind ok]. rewrite u8_small by lia. rewrite drop_prepend by lia.
    split; [|lia]. split; [by rewrite len_insert|]. split; [lia|]. split.
    + replace (10 ^ i) with (10 * 10 ^ (i - 1)) in Hu by (rewrite <-Z.pow_succ_r by lia; f_equal; lia).
      split; [apply Z.div_pos; lia|]. apply Z.div_lt_upper_bound; lia.
    + rewrite <-Hd. replace (Z.to_nat i) with (S (Z.to_nat (i - 1))) at 2 by lia. cbn [dec_digits].
      destruct (Z.eqb_spec u 0); [lia|]. by rewrite <-app_assoc.
  - intros [[buf i] u] (Hl&Hi&Hu&Hd) Hz%Z.ltb_ge. cbn [ok]. assert (u = 0) as -> by lia.
    split; [done|]. split; [done|]. rewrite <-Hd. by destruct (Z.to_nat i).
Qed.

Lemma printUint_Print v t : in_u64 v → printUint v t = Print (uint_text v) t.
Proof.
  intros Hv. unfold printUint, uint_text. destruct (Z.eqb_spec v 0) as [->|Hnz]; [apply PutRune_Print|].
  rewrite Z.shiftr_div_pow2 by lia. destruct (Z.ltb_spec v (2 ^ 32)) as [Hlt|Hge].
  - rewrite Z.div_small by lia. cbn [Z.eqb negb]. rewrite u32_small by lia.
    destruct (ok_elim _ _ (dec_loop v ltac:(lia))) as ([[buf i] u]&->&Hl&Hi&Hd). cbn [mbind option_bind].
    rewrite <-Hd. set (l := drop (Z.to_nat i) buf) in *.
    assert (len l = 10 - i) as Hll by (unfold l; rewrite !len_length in *; rewrite length_drop; lia).
    replace 10 with (i + len l) at 1 by lia. apply (for_do_Print (aget buf) l). intros k Hk.
    unfold l. by rewrite aget_drop by lia.
  - replace (v / 2 ^ 32 =? 0) with false.
    2:{ symmetry. apply Z.eqb_neq. intros E. apply Z.div_small_iff in E; lia. }
    cbn [negb]. rewrite Print_app. destruct (Print (gs "0x") t); [|done]. apply printHexU64_Print.
Qed.

Lemma printName_Print name n t : 0 ≤ n ≤ len name → printName name n t = Print (take (Z.to_nat n) name) t.
Proof.
  intros Hn. unfold printName. rewrite <-(for_do_Print (aget name) (take (Z.to_nat n) name) 0).
  - by rewrite len_take, Z.add_0_l by done.
  - rewrite len_take by done. intros k Hk. rewrite aget_take by lia. by rewrite Z.add_0_l.
Qed.

Lemma printRange_Print lb s e t :
  len lb = maxLine → in_line s e → printRange lb s e t = Print (text lb s e) t.
Proof.
  intros Hlb [??]. unfold printRange.
  enough (∀ fuel i t, s ≤ i ≤ e → e - i ≤ Z.of_nat fuel →
    ('(_, t) ← loop_end
      (while fuel (λ '(i, _), (i <? e) && (i <? maxLine))
         (λ '(i, t), c ← aget lb i; t ← PutRune c t; Some (inl (i + 1, t))) (i, t)) Some;
     Some t) = Print (text lb i e) t) as Hgen.
  { apply (Hgen _ s t); unfold maxLine in *; lia. }
  induction fuel as [|fuel IH]; intros i t' Hi Hf.
  - cbn. destruct (Z.ltb_spec i e); [lia|]. cbn. by rewrite text_nil by lia.
  - cbn [while]. destruct (Z.ltb_spec i e); cbn [andb]; [|by rewrite text_nil by lia].
    destruct (Z.ltb_spec i maxLine); [|lia].
    destruct (aget_line lb Hlb i) as [c Hc]; [lia|]. rewrite Hc. cbn [mbind option_bind].
    rewrite (text_cons lb i e c) by (done || lia || (split; lia)). cbn [Print].
    change (PutRune c t') with (putRune c t'). destruct (putRune c t') as [t1|]; [|done].
    cbn [mbind option_bind]. apply IH; lia.
Qed.

(** The bytes of a dump are all mapped, with the contents [f]. *)
Definition readable (peek : Z → option Z) (f : Z → Z) (addr n : Z) : Prop :=
  ∀ j, 0 ≤ j < n → peek (u64 (addr + j)) = Some (f (u64 (addr + j))).

Lemma dump_line_Print peek f addr n off t :
  0 ≤ off → readable peek f addr n → dump_line peek addr n off t = Print (dump_row_text f addr n off) t.
Proof.
  intros Hoff Hpeek. unfold dump_line, dump_row_text. rewrite Print_app, printHexU64_Print.
  destruct (Print (hex_text 16 _) t) as [t1|]; [|done]. cbn [mbind option_bind]. rewrite Print_app.
  destruct (Print (gs ": ") t1) as [t2|]; [|done]. cbn [mbind option_bind]. rewrite Print_app.
  erewrite for_do_concat; [|lia|].
  2:{ intros j t' Hj. instantiate (1 := λ j, if off + j <? n then hex_text 2 (f (u64 (addr + (off + j)))) ++ [32]
        else gs "   "). cbv beta.
      destruct (Z.ltb_spec (off + j) n); [|done]. rewrite Hpeek by lia. cbn [mbind option_bind].
      rewrite printHex8_Print, Print_app.
      destruct (Print (hex_text 2 _) t'); [|done]. cbn [mbind option_bind]. apply PutRune_Print. }
  rewrite Z.sub_0_r. destruct (Print (concat _) t2) as [t3|]; [|done]. cbn [mbind option_bind]. rewrite Print_app.
  destruct (Print (gs " |") t3) as [t4|]; [|done]. cbn [mbind option_bind]. rewrite Print_app.
  erewrite for_do_concat; [|lia|].
  2:{ intros j t' Hj. instantiate (1 := λ j, if off + j <? n then
        let b := f (u64 (addr + (off + j))) in if (32 <=? b) && (b <=? 126) then [b] else [46] else [32]).
      cbv beta zeta. destruct (Z.ltb_spec (off + j) n); [|apply PutRune_Print]. rewrite Hpeek by lia.
      cbn [mbind option_bind]. destruct (_ && _); apply PutRune_Print. }
  by rewrite Z.sub_0_r.
Qed.

Lemma dumpMemory_Print peek f addr n t :
  0 ≤ n → readable peek f addr n → dumpMemory peek addr n t = Print (dump_text f addr n) t.
Proof.
  intros Hn Hpeek. unfold dumpMemory.
  enough (∀ fuel k t, 0 ≤ k ≤ (n + 15) / 16 → n - 16 * k ≤ Z.of_nat fuel →
    ('(_, t) ← loop_end
      (while fuel (λ '(off, _), off <? n)
         (λ '(off, t), t ← dump_line peek addr n off t; Some (inl (off + 16, t))) (16 * k, t)) Some;
     Some t) = Print (concat ((λ k, dump_row_text f addr n (16 * k)) <$> seqZ k ((n + 15) / 16 - k))) t) as Hgen.
  { etrans; [apply (Hgen (Z.to_nat n) 0 t); [mod_lia|lia]|]. by rewrite Z.sub_0_r. }
  induction fuel as [|fuel IH]; intros k t' Hk Hf.
  - cbn [while]. destruct (Z.ltb_spec (16 * k) n); [lia|]. rewrite seqZ_nil by mod_lia. done.
  - cbn [while]. destruct (Z.ltb_spec (16 * k) n).
    2:{ rewrite seqZ_nil by mod_lia. done. }
    rewrite seqZ_cons by mod_lia. rewrite fmap_cons. cbn [concat]. rewrite Print_app, (dump_line_Print peek f) by (done || lia).
    destruct (Print (dump_row_text f addr n (16 * k)) t') as [t1|]; [|done]. cbn [mbind option_bind].
    replace (16 * k + 16) with (16 * (k + 1)) by lia. rewrite IH by mod_lia.
    rewrite <-Z.add_1_r. by replace (Z.pred ((n + 15) / 16 - k)) with ((n + 15) / 16 - (k + 1)) by lia.
Qed.

(** A loop that has to pass a step which does not return does not return. *)
Lemma for_do_None {A} (f : Z → A → option A) hi j :
  (∀ a, f j a = None) → ∀ lo a, lo ≤ j < hi → for_do lo hi f a = None.
Proof.
  intros Hf lo a Hj. remember (Z.to_nat (j - lo)) as k eqn:Hk. revert lo a Hj Hk.
  induction k as [|k IH]; intros lo a Hj Hk; rewrite for_do_step by lia.
  - replace lo with j by lia. by rewrite Hf.
  - destruct (f lo a) as [a'|]; [|done]. cbn [mbind option_bind]. apply IH; lia.
Qed.

(** A dump that reaches an unmapped byte does not return. *)
Lemma dump_line_None peek addr n off j t :
  0 ≤ off ≤ j → j < off + 16 → j < n → peek (u64 (addr + j)) = None → dump_line peek addr n off t = None.
Proof.
  intros Hoff Hj Hn Hp. unfold dump_line. destruct (printHexU64 _ t) as [t1|]; [|done]. cbn [mbind option_bind].
  destruct (Print (gs ": ") t1) as [t2|]; [|done]. cbn [mbind option_bind].
  rewrite (for_do_None _ 16 (j - off)); [done| |lia]. intros t'.
  replace (off + (j - off)) with j by lia. destruct (Z.ltb_spec j n); [|lia]. by rewrite Hp.
Qed.

Lemma dumpMemory_None peek addr n j t :
  0 ≤ j < n → peek (u64 (addr + j)) = None → dumpMemory peek addr n t = None.
Proof.
  intros Hj Hp. unfold dumpMemory.
  enough (∀ fuel k t, 0 ≤ 16 * k ≤ j → n - 16 * k ≤ Z.of_nat fuel →
    loop_end (while fuel (λ '(off, _), off <? n)
      (λ '(off, t), t ← dump_line peek addr n off t; Some (inl (off + 16, t))) (16 * k, t)) Some = None) as Hgen.
  { pose proof (Hgen (Z.to_nat n) 0 t ltac:(lia) ltac:(lia)) as E. change (16 * 0) with 0 in E. by rewrite E. }
  induction fuel as [|fuel IH]; intros k t' Hk Hf; [lia|]. cbn [while]. destruct (Z.ltb_spec (16 * k) n); [|lia].
  destruct (decide (j < 16 * k + 16)).
  - by rewrite (dump_line_None peek addr n (16 * k) j) by (done || lia).
  - destruct (dump_line peek addr n (16 * k) t') as [t1|]; [|done]. cbn [mbind option_bind].
    replace (16 * k + 16) with (16 * (k + 1)) by lia. apply IH; lia.
Qed.
End texts.

(** ** Numerals read back *)
Lemma dec_digits_spec n : ∀ u, 0 ≤ u < 10 ^ Z.of_nat n →
  forallb is_dec (dec_digits n u) = true ∧ dec_val (dec_digits n u) = u ∧ (u ≠ 0 → dec_digits n u ≠ []) ∧
  len (dec_digits n u) ≤ Z.of_nat n.
Proof.
  induction n as [|n IH]; intros u Hu; cbn [dec_digits].
  { change (10 ^ Z.of_nat 0) with 1 in Hu. assert (u = 0) as -> by lia. done. }
  rewrite Nat2Z.inj_succ, Z.pow_succ_r in Hu by lia.
  destruct (Z.eqb_spec u 0) as [->|Hnz]; [split_and!; [done..|]; pose proof (@len_nil Z); cbv iota; lia|].
  destruct (IH (u / 10)) as (Hd&Hv&_&Hl); [split; [apply Z.div_pos; lia|apply Z.div_lt_upper_bound; lia]|].
  pose proof (Z.mod_pos_bound u 10 ltac:(lia)). split_and!.
  - rewrite forallb_app, Hd. cbn. unfold is_dec.
    destruct (Z.leb_spec 48 (48 + u `mod` 10)), (Z.leb_spec (48 + u `mod` 10) 57); done || lia.
  - unfold dec_val in *. rewrite base_val_snoc, Hv. pose proof (Z.div_mod u 10). lia.
  - intros _ E. by apply app_eq_nil in E as [_ ?].
  - len_lia.
Qed.

Lemma hex_digit_hexDigits d : 0 ≤ d < 16 →
  is_hex (default 48 (aget hexDigits d)) = true ∧ hex_value (default 48 (aget hexDigits d)) = d.
Proof.
  intros Hd. assert (∀ k : nat, (k < 16)%nat → let c := default 48 (aget hexDigits (Z.of_nat k)) in
    is_hex c = true ∧ hex_value c = Z.of_nat k) as H.
  { intros k Hk. do 16 (destruct k as [|k]; [done|]). lia. }
  specialize (H (Z.to_nat d) ltac:(lia)). by rewrite Z2Nat.id in H by lia.
Qed.

Lemma hex_text_snoc n v : 0 ≤ n →
  hex_text (n + 1) v = hex_text n (v / 16) ++ [default 48 (aget hexDigits (v `mod` 16))].
Proof.
  intros Hn. unfold hex_text. rewrite seqZ_app by lia. rewrite fmap_app. f_equal.
  - apply list_fmap_ext. intros i x [-> Hi]%lookup_seqZ. do 3 f_equal.
    replace (n + 1 - 1 - (0 + Z.of_nat i)) with (Z.succ (n - 1 - (0 + Z.of_nat i))) by lia.
    rewrite Z.pow_succ_r by lia. by rewrite Z.div_div by lia.
  - rewrite seqZ_cons, seqZ_nil by lia. cbn [fmap list_fmap]. do 3 f_equal.
    replace (n + 1 - 1 - (0 + n)) with 0 by lia. by rewrite Z.pow_0_r, Z.div_1_r.
Qed.

Lemma hex_text_spec (n : nat) : ∀ v, 0 ≤ v < 16 ^ Z.of_nat n →
  forallb is_hex (hex_text (Z.of_nat n) v) = true ∧ hexdigits_val (hex_text (Z.of_nat n) v) = v ∧
  len (hex_text (Z.of_nat n) v) = Z.of_nat n.
Proof.
  induction n as [|n IH]; intros v Hv.
  { change (16 ^ Z.of_nat 0) with 1 in Hv. assert (v = 0) as -> by lia. done. }
  rewrite Nat2Z.inj_succ, Z.pow_succ_r in Hv by lia. rewrite Nat2Z.inj_succ, <-Z.add_1_r, hex_text_snoc by lia.
  destruct (IH (v / 16)) as (Hd&Hx&Hl); [split; [apply Z.div_pos; lia|apply Z.div_lt_upper_bound; lia]|].
  pose proof (Z.mod_pos_bound v 16 ltac:(lia)) as Hm. destruct (hex_digit_hexDigits _ Hm) as [Hh Hh']. split_and!.
  - rewrite forallb_app, Hd. cbn [andb forallb]. by rewrite Hh.
  - unfold hexdigits_val in *. rewrite base_val_snoc, Hx, Hh'. pose proof (Z.div_mod v 16). lia.
  - rewrite len_app, Hl. by rewrite len_cons, len_nil.
Qed.

Lemma strip_0x_hex t : forallb is_hex t = true → strip_0x t = t.
Proof.
  intros Hh. destruct t as [|c [|c' t]]; [done|cbn; by repeat case_match|].
  cbn in Hh. apply andb_true_iff in Hh as [_ [Hc _]%andb_true_iff].
  assert ((c' =? 120) || (c' =? 88) = false) as Hx.
  { destruct (Z.eqb_spec c' 120), (Z.eqb_spec c' 88); by subst. }
  unfold strip_0x. rewrite Hx. by repeat case_match.
Qed.

(** A decimal number below 2^32, and any address, is printed as this text ... *)
Lemma parse_hex_text lb s e v :
  len lb = maxLine → in_line s e → in_u64 v →
  text lb s e = hex_text 16 v ∨ text lb s e = gs "0x" ++ hex_text 16 v →
  parseHex64 lb s e = Some (v, true).
Proof.
  intros Hlb Hse Hv Ht. destruct (hex_text_spec 16 v Hv) as (Hh&Hval&Hl). rewrite parseHex64_spec by done.
  assert (strip_0x (text lb s e) = hex_text 16 v) as ->.
  { destruct Ht as [-> | ->]; [by apply strip_0x_hex|done]. }
  cbv zeta. change (Z.of_nat 16) with 16 in *. rewrite Hh, Hval, u64_small by done.
  rewrite bool_decide_eq_true_2; [done|]. intros E. rewrite E, len_nil in Hl. done.
Qed.

(** Numbers survive being printed and typed back: [printHexU64] prints any 64-bit
    value as 16 digits that [parseHex64] reads back, with or without [0x] in front, and
    [printUint] prints any value as a text that reads back with [parseDec] when it fits 32
    bits and with [parseHex64] otherwise; the printed text does not depend on the console. *)
Theorem print_parse_roundtrip lb s e v :
  line_ok lb → in_line s e → in_u64 v →
  (∀ T (H : Console T) (t : T), printHexU64 v t = Print (hex_text 16 v) t ∧
                                 printUint v t = Print (uint_text v) t) ∧
  (text lb s e = hex_text 16 v ∨ text lb s e = gs "0x" ++ hex_text 16 v →
     parseHex64 lb s e = Some (v, true)) ∧
  (text lb s e = uint_text v →
     if decide (v < 2 ^ 32) then parseDec lb s e = Some (v, true)
     else parseHex64 lb s e = Some (v, true)).
Proof.
  intros [Hlb Hb] Hse Hv. split_and!.
  - intros. split; [apply printHexU64_Print|by apply printUint_Print].
  - by apply parse_hex_text.
  - unfold uint_text. destruct (Z.eqb_spec v 0) as [->|Hnz].
    { intros Ht. rewrite decide_True by done. rewrite parseDec_spec by done. cbv zeta. by rewrite Ht. }
    destruct (Z.ltb_spec v (2 ^ 32)) as [Hlt|Hge]; intros Ht.
    + rewrite decide_True by done. rewrite parseDec_spec by done. cbv zeta. rewrite Ht.
      destruct (dec_digits_spec 10 v) as (Hd&Hval&Hne&_); [lia|].
      rewrite Hd, Hval, bool_decide_eq_true_2 by auto. rewrite i64_small by (unfold in_i64; lia). done.
    + rewrite decide_False by lia. apply parse_hex_text; auto.
Qed.

(** A line holding the address of a page. *)
Definition demo_addr_line : list Z := gs "free 0x0000000000111000" ++ replicate 105 0.
Lemma demo_addr_line_ok : line_ok demo_addr_line.
Proof. split; [done|]. apply Forall_forall. intros c Hc. vm_compute in Hc. set_unfold. naive_solver lia. Qed.

Lemma print_parse_roundtrip_witness :
  line_ok demo_addr_line ∧ in_line 5 23 ∧ in_u64 0x111000 ∧
  text demo_addr_line 5 23 = gs "0x" ++ hex_text 16 0x111000 ∧
  (∀ T (H : Console T) (t : T), printHexU64 0x111000 t = Print (hex_text 16 0x111000) t ∧
                                 printUint 0x111000 t = Print (uint_text 0x111000) t) ∧
  (text demo_addr_line 5 23 = hex_text 16 0x111000 ∨
   text demo_addr_line 5 23 = gs "0x" ++ hex_text 16 0x111000 →
     parseHex64 demo_addr_line 5 23 = Some (0x111000, true)) ∧
  (text demo_addr_line 5 23 = uint_text 0x111000 →
     if decide (0x111000 < 2 ^ 32) then parseDec demo_addr_line 5 23 = Some (0x111000, true)
     else parseHex64 demo_addr_line 5 23 = Some (0x111000, true)).
Proof.
  pose proof demo_addr_line_ok as H1. assert (in_line 5 23) as H2 by done.
  assert (in_u64 0x111000) as H3 by done.
  split; [exact H1|]. split; [exact H2|]. split; [exact H3|]. split; [reflexivity|].
  exact (print_parse_roundtrip demo_addr_line 5 23 0x111000 H1 H2 H3).
Defined.

Example demo_dump :
  let peek a := if a <? 2 ^ 32 then Some (a `mod` 256) else None in
  dumpMemory peek 0x100 2 [] =
    Some (gs "0000000000000100: 00 01                                            |..              |" ++ [10]) ∧
  dumpMemory peek 0xFFFFFFFF 2 [] = None.
Proof. vm_compute. done. Qed.
