(* ===== verification/History.v ===== *)
(** * Package [shell]: the command history

    The ring buffer of [src/shell/shell.go]: [execute] appends the trimmed line unless it
    repeats the previous one, [printHistory] lists it.  The ring is shown to hold the last
    32 commands entered, consecutive repetitions counted once. *)
From S2P Require Import Prelude Terminal Line Output.
Local Open Scope Z_scope.

Definition maxHistory : Z := 32.

Record history := MkHistory {
  historyBuf : list (list Z);
  historyLen : list Z;
  historyHead : Z;
  historyCount : Z;
}.

Definition no_history : history := MkHistory (replicate 32 (replicate 128 0)) (replicate 32 0) 0 0.

(** The duplicate check against the most recent entry. *)
Definition isDuplicate (lineBuf : list Z) (start histLen : Z) (h : history) : option bool :=
  if 0 <? historyCount h then
    let lastIdx := Z.rem (historyHead h - 1 + maxHistory) maxHistory in
    l ← aget (historyLen h) lastIdx;
    if l =? histLen then
      match_bytes histLen (λ i, row ← aget (historyBuf h) lastIdx; aget row i)
        (λ i, aget lineBuf (start + i))
    else Some false
  else Some false.

Definition addHistory (lineBuf : list Z) (start last : Z) (h : history) : option history :=
  let histLen := last - start in
  if 0 <? histLen then
    dup ← isDuplicate lineBuf start histLen h;
    if dup : bool then Some h
    else
      let idx := historyHead h in
      buf ← for_do 0 histLen
              (λ i buf, c ← aget lineBuf (start + i); row ← aget buf idx;
                 row ← aset row i c; aset buf idx row) (historyBuf h);
      lens ← aset (historyLen h) idx histLen;
      Some (MkHistory buf lens (Z.rem (historyHead h + 1) maxHistory)
              (if historyCount h <? maxHistory then historyCount h + 1 else historyCount h))
  else Some h.

Definition printHistory {T} `{!Console T} (h : history) (t : T) : option T :=
  let startIdx := Z.rem (historyHead h - historyCount h + maxHistory) maxHistory in
  for_do 0 (historyCount h)
    (λ i t, let idx := Z.rem (startIdx + i) maxHistory in
       t ← printUint (u64 (i + 1)) t;
       t ← Print (gs " ") t;
       l ← aget (historyLen h) idx;
       t ← for_do 0 l (λ k t, row ← aget (historyBuf h) idx; c ← aget row k; PutRune c t) t;
       PutRune 10 t) t.

(** ** The abstraction *)
Record history_ok (h : history) : Prop := {
  ho_buf : len (historyBuf h) = maxHistory;
  ho_rows : ∀ i r, aget (historyBuf h) i = Some r → len r = maxLine;
  ho_lens : len (historyLen h) = maxHistory;
  ho_len : ∀ i l, aget (historyLen h) i = Some l → 0 ≤ l ≤ maxLine;
  ho_head : 0 ≤ historyHead h < maxHistory;
  ho_count : 0 ≤ historyCount h ≤ maxHistory;
}.

(** The command in slot [j] of the ring. *)
Definition entry (h : history) (j : Z) : list Z :=
  take (Z.to_nat (default 0 (aget (historyLen h) j))) (default [] (aget (historyBuf h) j)).

(** The slot of the [i]-th oldest command. *)
Definition slot (h : history) (i : Z) : Z := (historyHead h - historyCount h + i) `mod` maxHistory.

(** The stored commands, oldest first. *)
Definition entries (h : history) : list (list Z) := (λ i, entry h (slot h i)) <$> seqZ 0 (historyCount h).

Definition keep_last {A} (n : nat) (l : list A) : list A := drop (length l - n) l.

(** All commands, consecutive repetitions counted once. *)
Definition squeeze (cmds : list (list Z)) : list (list Z) :=
  foldl (λ l c, if decide (last l = Some c) then l else l ++ [c]) [] cmds.

(** ** Lemmas *)
Lemma no_history_ok : history_ok no_history.
Proof.
  split; try done.
  - intros i r Hr. apply aget_elem in Hr. by apply elem_of_replicate in Hr as [-> _].
  - intros i l Hl. apply aget_elem in Hl. by apply elem_of_replicate in Hl as [-> _].
Qed.

Lemma slot_range h i : 0 ≤ slot h i < maxHistory.
Proof. apply Z.mod_pos_bound. done. Qed.

Lemma rem_mod a : 0 ≤ a → Z.rem a maxHistory = a `mod` maxHistory.
Proof. intros. by apply Z.rem_mod_nonneg. Qed.

Section ring.
Context (h : history) (Hh : history_ok h).

Lemma len_entries : len (entries h) = historyCount h.
Proof. unfold entries. rewrite len_fmap_seqZ by apply Hh. done. Qed.

Lemma aget_entries i : aget (entries h) i = if decide (0 ≤ i < historyCount h) then Some (entry h (slot h i)) else None.
Proof. apply (aget_fmap_seqZ (λ i, entry h (slot h i))). Qed.

Lemma entry_get j : 0 ≤ j < maxHistory →
  ∃ r l, aget (historyBuf h) j = Some r ∧ aget (historyLen h) j = Some l ∧ 0 ≤ l ≤ maxLine ∧
    len r = maxLine ∧ entry h j = take (Z.to_nat l) r.
Proof.
  intros Hj. destruct (aget_Some (historyBuf h) j) as [r Hr]; [rewrite (ho_buf _ Hh); done|].
  destruct (aget_Some (historyLen h) j) as [l Hl]; [rewrite (ho_lens _ Hh); done|].
  exists r, l. pose proof (ho_rows _ Hh j r Hr). pose proof (ho_len _ Hh j l Hl).
  split_and!; try done; [lia|lia|]. unfold entry. by rewrite Hr, Hl.
Qed.

Lemma last_aget {A} (l : list A) : last l = aget l (len l - 1).
Proof.
  rewrite last_lookup, len_length. unfold aget. destruct l as [|x l]; [done|].
  destruct (Z.leb_spec 0 (Z.of_nat (length (x :: l)) - 1)); [|cbn in *; lia]. f_equal. cbn. lia.
Qed.

Lemma isDuplicate_spec lb s e :
  len lb = maxLine → in_line s e →
  isDuplicate lb s (e - s) h = Some (bool_decide (last (entries h) = Some (text lb s e))).
Proof.
  intros Hlb Hse. pose proof (ho_count _ Hh). pose proof (ho_head _ Hh). unfold isDuplicate.
  rewrite last_aget, aget_entries, len_entries.
  destruct (Z.ltb_spec 0 (historyCount h)).
  2:{ rewrite decide_False by lia. by rewrite bool_decide_eq_false_2. }
  rewrite decide_True by lia. cbv zeta. rewrite rem_mod by (unfold maxHistory; lia).
  assert ((historyHead h - 1 + maxHistory) `mod` maxHistory = slot h (historyCount h - 1)) as ->.
  { unfold slot, maxHistory. rewrite <-(Z_mod_plus_full (historyHead h - historyCount h + _) 1 32). f_equal. lia. }
  destruct (entry_get (slot h (historyCount h - 1)) (slot_range _ _)) as (r&l&Hr&Hl&Hll&Hrl&He).
  rewrite Hl. cbn [mbind option_bind]. rewrite He. pose proof (len_text lb Hlb s e Hse) as Hlt.
  assert (len (take (Z.to_nat l) r) = l) as Hlr by (apply len_take; lia).
  destruct (Z.eqb_spec l (e - s)) as [->|Hne].
  2:{ rewrite bool_decide_eq_false_2; [done|]. intros [= E]. rewrite E in Hlr. lia. }
  destruct Hse as [??].
  destruct (ok_elim _ _ (match_bytes_ok (e - s)
    (λ i, row ← aget (historyBuf h) (slot h (historyCount h - 1)); aget (A := Z) row i)
    (λ i, aget lb (s + i))
    ltac:(intros j Hj; rewrite Hr; cbn; split; apply aget_Some; lia))) as (b&->&Hb).
  f_equal. apply eq_true_iff_eq. rewrite Hb, bool_decide_eq_true, Hr. cbn [mbind option_bind]. split.
  - intros Hj. f_equal. apply alist_eq; [lia|]. intros i Hi. rewrite Hlr in Hi.
    rewrite aget_take, Hj by lia. symmetry. apply aget_text; [done|by split|lia].
  - intros [= E] j Hj. rewrite <-(aget_take r (e - s)) by lia. rewrite E. apply aget_text; [done|by split|lia].
Qed.
End ring.

(** What [addHistory] does to the list of commands. *)
Definition remember (c : list Z) (l : list (list Z)) : list (list Z) :=
  if decide (last l = Some c) then l else keep_last 32 (l ++ [c]).

(** Storing the command [c] in the slot at the head. *)
Lemma entries_push h h' c :
  history_ok h → history_ok h' →
  historyHead h' = (historyHead h + 1) `mod` maxHistory →
  historyCount h' = (if historyCount h <? maxHistory then historyCount h + 1 else historyCount h) →
  entry h' (historyHead h) = c →
  (∀ j, j ≠ historyHead h → entry h' j = entry h j) →
  entries h' = keep_last 32 (entries h ++ [c]).
Proof.
  intros Hh Hh' Ehd Ect Hc Hj. pose proof (ho_count _ Hh). pose proof (ho_head _ Hh).
  pose proof (len_entries h Hh) as Hl. pose proof (len_entries h' Hh') as Hl'. unfold maxHistory in *.
  assert (∀ i, 0 ≤ i < historyCount h' → entry h' (slot h' i) =
    let k := i + (historyCount h + 1 - historyCount h') in
    if decide (k = historyCount h) then c else entry h (slot h k)) as Hs.
  { intros i Hi. cbv zeta. unfold slot, maxHistory. rewrite Ehd.
    assert (((historyHead h + 1) `mod` 32 - historyCount h' + i) `mod` 32
      = (historyHead h - historyCount h + (i + (historyCount h + 1 - historyCount h'))) `mod` 32) as ->.
    { replace ((historyHead h + 1) `mod` 32 - historyCount h' + i)
        with ((historyHead h + 1) `mod` 32 + (i - historyCount h')) by lia.
      rewrite Zplus_mod_idemp_l. f_equal. lia. }
    case_decide as E.
    - rewrite E. replace (historyHead h - historyCount h + historyCount h) with (historyHead h) by lia.
      by rewrite Z.mod_small by lia.
    - apply Hj. rewrite Ect in *. destruct (Z.ltb_spec (historyCount h) 32); mod_lia. }
  apply alist_eq.
  - rewrite Hl'. unfold keep_last. rewrite len_length, length_drop, length_app. cbn.
    rewrite len_length in Hl. rewrite Ect. destruct (Z.ltb_spec (historyCount h) 32); lia.
  - intros i Hi. rewrite Hl' in Hi. rewrite aget_entries, decide_True, Hs by done. cbv zeta.
    unfold keep_last. rewrite length_app. cbn [length].
    replace (length (entries h) + 1 - 32)%nat with (Z.to_nat (historyCount h + 1 - historyCount h'))
      by (rewrite len_length in Hl; rewrite Ect; destruct (Z.ltb_spec (historyCount h) 32); lia).
    assert (0 ≤ historyCount h + 1 - historyCount h') by (rewrite Ect; destruct (Z.ltb_spec (historyCount h) 32); lia).
    rewrite aget_drop, aget_app, Hl by lia. rewrite (Z.add_comm i). case_decide as E.
    + rewrite decide_False by lia. rewrite E, Z.sub_diag. done.
    + rewrite decide_True by (rewrite Ect in *; destruct (Z.ltb_spec (historyCount h) 32); lia).
      by rewrite aget_entries, decide_True
        by (rewrite Ect in *; destruct (Z.ltb_spec (historyCount h) 32); lia).
Qed.

Lemma addHistory_ok lb s e h :
  len lb = maxLine → in_line s e → s < e → history_ok h →
  ok (addHistory lb s e h) (λ h', history_ok h' ∧ entries h' = remember (text lb s e) (entries h)).
Proof.
  intros Hlb Hse Hlt Hh. pose proof Hse as [??]. unfold addHistory. cbv zeta.
  destruct (Z.ltb_spec 0 (e - s)); [|lia]. rewrite isDuplicate_spec by done. cbn [mbind option_bind].
  unfold remember. case_bool_decide as Hd; [by rewrite decide_True by done|]. rewrite decide_False by done.
  pose proof (ho_head _ Hh) as Hhd. pose proof (ho_buf _ Hh) as Hb. pose proof (ho_lens _ Hh) as Hls.
  pose proof (ho_count _ Hh). destruct (entry_get h Hh (historyHead h) Hhd) as (r&l&Hr&Hl&Hll&Hrl&He).
  apply ok_bind.
  apply (for_do_ok (λ i buf, len buf = maxHistory ∧
    (∀ j, j ≠ historyHead h → aget buf j = aget (historyBuf h) j) ∧
    ∃ r, aget buf (historyHead h) = Some r ∧ len r = maxLine ∧ take (Z.to_nat i) r = text lb s (s + i))).
  - lia.
  - split; [done|]. split; [done|]. exists r. split_and!; try done. by rewrite text_nil by lia.
  - intros i buf Hi (Hlb'&Hj&r'&Hr'&Hrl'&Ht). destruct (aget_line lb Hlb (s + i)) as [c Hc]; [lia|].
    rewrite Hc, Hr'. cbn [mbind option_bind]. rewrite aset_Some by lia. cbn [mbind option_bind].
    rewrite aset_Some by lia. cbn [ok]. split; [by rewrite len_insert|]. split.
    + intros j Hne. rewrite aget_insert by lia. rewrite Z2Nat.id, decide_False by lia. by apply Hj.
    + exists (<[Z.to_nat i := c]> r'). rewrite aget_insert, Z2Nat.id by lia. rewrite decide_True by done.
      split; [done|]. rewrite len_insert. split; [done|].
      rewrite (take_S_aget _ i c); [|lia|rewrite aget_insert, Z2Nat.id by lia; by rewrite decide_True].
      rewrite take_insert_ge, Ht by lia. rewrite Z.add_assoc.
      by rewrite (text_snoc lb Hlb s (s + i) c) by (done || (split; lia)).
  - intros buf (Hlb'&Hj&r'&Hr'&Hrl'&Ht). replace (s + (e - s)) with e in Ht by lia.
    rewrite aset_Some by lia. cbn [mbind option_bind ok].
    set (h' := MkHistory _ _ _ _).
    assert (history_ok h') as Hh'.
    { split; cbn.
      - done.
      - intros j rj. destruct (decide (j = historyHead h)) as [->|]; [congruence|]. rewrite Hj by done. apply Hh.
      - by rewrite len_insert.
      - intros j lj. rewrite aget_insert, Z2Nat.id by lia. case_decide; [intros [= <-]; lia|apply Hh].
      - rewrite rem_mod by lia. apply Z.mod_pos_bound. done.
      - destruct (Z.ltb_spec (historyCount h) maxHistory); lia. }
    split; [done|]. apply entries_push; try done.
    + cbn. apply rem_mod. lia.
    + unfold entry. cbn. rewrite aget_insert, Z2Nat.id by lia. rewrite decide_True by done. rewrite Hr'. done.
    + intros j Hne. unfold entry. cbn. rewrite aget_insert, Z2Nat.id by lia. rewrite decide_False by done.
      by rewrite Hj.
Qed.

(** ** Sequences of commands *)
Lemma last_keep_last {A} n (l : list A) : (0 < n)%nat → last (keep_last n l) = last l.
Proof.
  intros Hn. unfold keep_last. rewrite !last_lookup, lookup_drop, length_drop. f_equal.
  destruct l; cbn; lia.
Qed.

Lemma keep_last_app {A} n (l k : list A) : keep_last n (keep_last n l ++ k) = keep_last n (l ++ k).
Proof.
  unfold keep_last. rewrite !length_app, length_drop.
  destruct (decide (length l ≤ n)%nat) as [Hl|Hl].
  - replace (length l - n)%nat with 0%nat by lia. by rewrite Nat.sub_0_r, drop_0.
  - rewrite <-(drop_app_le l k (length l - n)) by lia. rewrite drop_drop. f_equal. lia.
Qed.

Lemma remember_squeeze c l :
  remember c (keep_last 32 l) = keep_last 32 (if decide (last l = Some c) then l else l ++ [c]).
Proof.
  unfold remember. rewrite last_keep_last by lia. case_decide; [done|]. apply keep_last_app.
Qed.

Lemma squeeze_snoc cmds c :
  squeeze (cmds ++ [c]) = if decide (last (squeeze cmds) = Some c) then squeeze cmds else squeeze cmds ++ [c].
Proof. unfold squeeze. by rewrite foldl_app. Qed.

(** The text of the listing. *)
Definition history_text (l : list (list Z)) : list Z :=
  concat ((λ i, uint_text (i + 1) ++ gs " " ++ default [] (aget l i) ++ [10]) <$> seqZ 0 (len l)).

Lemma printHistory_Print `{!Console T} h (t : T) :
  history_ok h → printHistory h t = Print (history_text (entries h)) t.
Proof.
  intros Hh. pose proof (ho_count _ Hh). pose proof (ho_head _ Hh). unfold printHistory, maxHistory in *.
  unfold history_text. rewrite len_entries by done. erewrite for_do_concat; [|lia|].
  { by rewrite Z.sub_0_r. }
  intros i t' Hi. cbv beta zeta. rewrite u64_small by lia. rewrite printUint_Print, Print_app by lia.
  destruct (Print (uint_text (i + 1)) t') as [t1|]; [|done]. cbn [mbind option_bind]. rewrite Print_app.
  destruct (Print (gs " ") t1) as [t2|]; [|done]. cbn [mbind option_bind].
  assert (Z.rem (Z.rem (historyHead h - historyCount h + 32) 32 + i) 32 = slot h i) as ->.
  { unfold slot, maxHistory. rewrite (Z.rem_mod_nonneg (historyHead h - _ + 32)) by lia.
    rewrite Z.rem_mod_nonneg by mod_lia. rewrite Zplus_mod_idemp_l.
    rewrite <-(Z_mod_plus_full (historyHead h - historyCount h + i) 1 32). f_equal. lia. }
  destruct (entry_get h Hh (slot h i) (slot_range _ _)) as (r&l&Hr&Hl&Hll&Hrl&He).
  rewrite Hl. cbn [mbind option_bind]. rewrite aget_entries, decide_True by lia. cbn [from_option id].
  rewrite He, Print_app, Hr. cbn [mbind option_bind].
  change (for_do 0 l (λ (k : Z) (t : T), c ← aget r k; PutRune c t) t2) with (printName r l t2).
  rewrite printName_Print by lia. destruct (Print (take (Z.to_nat l) r) t2) as [t3|]; [|done].
  cbn [mbind option_bind]. apply PutRune_Print.
Qed.

(** Commands entered one after the other, each a range of a line. *)
Fixpoint enter (ls : list (list Z * Z * Z)) (h : history) : option history :=
  match ls with
  | [] => Some h
  | (lb, s, e) :: ls => h ← addHistory lb s e h; enter ls h
  end.

Definition command_line (l : list Z * Z * Z) : Prop :=
  let '(lb, s, e) := l in len lb = maxLine ∧ in_line s e ∧ s < e.
Definition command_text (l : list Z * Z * Z) : list Z := let '(lb, s, e) := l in text lb s e.

Lemma enter_ok ls : Forall command_line ls → ∀ done h,
  history_ok h → entries h = keep_last 32 (squeeze done) →
  ok (enter ls h) (λ h', history_ok h' ∧ entries h' = keep_last 32 (squeeze (done ++ (command_text <$> ls)))).
Proof.
  induction 1 as [|[[lb s] e] ls (Hlb&Hse&Hlt) _ IH]; intros done h Hh He; cbn [enter].
  { cbn. by rewrite app_nil_r. }
  call (addHistory_ok lb s e h); [done..|]. intros h' [Hh' He'].
  cbn [fmap list_fmap command_text]. rewrite cons_middle, app_assoc. apply IH; [done|].
  by rewrite He', He, remember_squeeze, squeeze_snoc.
Qed.

(** C38: The history ring refines a list: after any sequence of non-empty commands the ring
    of 32 slots, never indexed out of bounds, holds the last 32 of the commands entered,
    oldest first, a command repeated in a row being stored once, and [printHistory]
    prints exactly these, numbered from 1. *)
Theorem history_refines ls :
  Forall command_line ls →
  ∃ h, enter ls no_history = Some h ∧ history_ok h ∧
    entries h = keep_last 32 (squeeze (command_text <$> ls)) ∧
    ∀ T (H : Console T) (t : T),
      printHistory h t = Print (history_text (keep_last 32 (squeeze (command_text <$> ls)))) t.
Proof.
  intros Hls. destruct (ok_elim _ _ (enter_ok ls Hls [] no_history no_history_ok eq_refl)) as (h&->&Hh&He).
  exists h. split_and!; try done. intros T HT t. rewrite printHistory_Print by done. by rewrite He.
Qed.

Definition demo_commands : list (list Z * Z * Z) :=
  [(demo_line, 1, 5); (demo_line, 1, 5); (demo_line, 7, 9)].

Lemma history_refines_witness :
  Forall command_line demo_commands ∧
  ∃ h, enter demo_commands no_history = Some h ∧ history_ok h ∧
    entries h = keep_last 32 (squeeze (command_text <$> demo_commands)) ∧
    ∀ T (H : Console T) (t : T),
      printHistory h t = Print (history_text (keep_last 32 (squeeze (command_text <$> demo_commands)))) t.
Proof.
  assert (Forall command_line demo_commands) as H1 by (repeat constructor; done).
  split; [exact H1|]. exact (history_refines demo_commands H1).
Defined.

Example demo_history :
  (h ← enter demo_commands no_history; printHistory h []) = Some (gs "1 echo" ++ [10] ++ gs "2 hi" ++ [10]).
Proof. vm_compute. done. Qed.
