(* ===== verification/ShellState.v ===== *)
(** * Package [shell]: state

    The package variables of [src/shell/shell.go] and the machine the commands act on, as
    one record, with the state monad the commands are written in.  [tmpData], [diskBuf] and
    the buffer behind [&action.Data[0]] are reached through raw pointers: they live in
    physical memory, at addresses that are parameters.  The kernel hands the shell four
    functions; they act on a kernel state the shell does not look into. *)
From S2P Require Import Prelude PageAlloc Mem Fs PortIO Terminal Serial AgentTypes Agent Disk Fat16.
From S2P Require Import Line Output History.
Local Open Scope Z_scope.

(** ** The terminal functions the shell uses *)
Class TextConsole (T : Type) := {
  text_console :: Console T;
  con_clear : T → option T;
  con_backspace : T → option T;
}.

Class TextConsoleLaws (T : Type) `{!TextConsole T} := {
  text_laws :: ConsoleLaws T;
  con_clear_ok t : console_ok t → ok (con_clear t) console_ok;
  con_backspace_ok t : console_ok t → ok (con_backspace t) console_ok;
}.

#[export] Instance vga_text {D} `{!PortIO D} `{!DebugIO D} : TextConsole (term_state D) := {
  con_clear := Terminal.Clear;
  con_backspace := Terminal.Backspace;
}.

#[export] Instance vga_text_laws {D} `{!PortIO D} `{!DebugIO D} : TextConsoleLaws (term_state D).
Proof.
  refine {| text_laws := vga_console_laws |}; intros t Hok; pose proof Hok as (?&?&_).
  - eapply ok_mono; [by apply Clear_spec|]. by intros t' (?&_).
  - eapply ok_mono; [by apply Backspace_spec|]. by intros t' (?&_).
Defined.

(** The transcript: what is on a screen that never scrolls. *)
#[export] Instance transcript_text : TextConsole (list Z) := {
  con_clear _ := Some [];
  con_backspace t := Some (take (length t - 1) t);
}.

#[export] Instance transcript_text_laws : TextConsoleLaws (list Z) := {
  con_clear_ok _ _ := I;
  con_backspace_ok _ _ := I;
}.

Section state.
(** The kernel, the console, the disk and the serial line. *)
Context {K C B L : Type} `{!TextConsole C} `{!Disk B} `{!PortIO L}.

Record shell := Shell {
  lineBuf : list Z;
  lineLen : Z;
  getTicks : option (K → option (Z * K));
  getSyscallTicks : option (K → option (Z * K));
  runProgram : option (list Z → Z → C → K → option (Z * bool * C * K));
  switchLayoutFn : option (list Z → K → option (bool * K));
  currentLayout : list Z;
  targetLayout : list Z;
  tmpName : list Z;
  transportRequest : list Z;
  transportResponse : list Z;
  sh_history : history;
  (** [runtimeAgent] less its executor, see [Shell.v] *)
  executorConfigured : bool;
  plannerMode : PlannerMode;
  llmConfigured : bool;
  agentContext : Context;
  (** the machine *)
  sh_con : C;
  sh_fs : fs_state mem_state;
  sh_fat : fat;
  sh_disk : B;
  sh_serial : serial_state L;
  sh_kernel : K;
}.

(** ** Updates *)
Definition set_line (lb : list Z) (n : Z) (w : shell) : shell :=
  Shell lb n (getTicks w) (getSyscallTicks w) (runProgram w) (switchLayoutFn w) (currentLayout w)
    (targetLayout w) (tmpName w) (transportRequest w) (transportResponse w) (sh_history w)
    (executorConfigured w) (plannerMode w) (llmConfigured w) (agentContext w) (sh_con w) (sh_fs w)
    (sh_fat w) (sh_disk w) (sh_serial w) (sh_kernel w).
Definition set_hooks gt gst rp sl (w : shell) : shell :=
  Shell (lineBuf w) (lineLen w) gt gst rp sl (currentLayout w)
    (targetLayout w) (tmpName w) (transportRequest w) (transportResponse w) (sh_history w)
    (executorConfigured w) (plannerMode w) (llmConfigured w) (agentContext w) (sh_con w) (sh_fs w)
    (sh_fat w) (sh_disk w) (sh_serial w) (sh_kernel w).
Definition set_layouts (cur target : list Z) (w : shell) : shell :=
  Shell (lineBuf w) (lineLen w) (getTicks w) (getSyscallTicks w) (runProgram w) (switchLayoutFn w) cur
    target (tmpName w) (transportRequest w) (transportResponse w) (sh_history w)
    (executorConfigured w) (plannerMode w) (llmConfigured w) (agentContext w) (sh_con w) (sh_fs w)
    (sh_fat w) (sh_disk w) (sh_serial w) (sh_kernel w).
Definition set_tmpName (t : list Z) (w : shell) : shell :=
  Shell (lineBuf w) (lineLen w) (getTicks w) (getSyscallTicks w) (runProgram w) (switchLayoutFn w) (currentLayout w)
    (targetLayout w) t (transportRequest w) (transportResponse w) (sh_history w)
    (executorConfigured w) (plannerMode w) (llmConfigured w) (agentContext w) (sh_con w) (sh_fs w)
    (sh_fat w) (sh_disk w) (sh_serial w) (sh_kernel w).
Definition set_transport (req resp : list Z) (s : serial_state L) (w : shell) : shell :=
  Shell (lineBuf w) (lineLen w) (getTicks w) (getSyscallTicks w) (runProgram w) (switchLayoutFn w) (currentLayout w)
    (targetLayout w) (tmpName w) req resp (sh_history w)
    (executorConfigured w) (plannerMode w) (llmConfigured w) (agentContext w) (sh_con w) (sh_fs w)
    (sh_fat w) (sh_disk w) s (sh_kernel w).
Definition set_history (h : history) (w : shell) : shell :=
  Shell (lineBuf w) (lineLen w) (getTicks w) (getSyscallTicks w) (runProgram w) (switchLayoutFn w) (currentLayout w)
    (targetLayout w) (tmpName w) (transportRequest w) (transportResponse w) h
    (executorConfigured w) (plannerMode w) (llmConfigured w) (agentContext w) (sh_con w) (sh_fs w)
    (sh_fat w) (sh_disk w) (sh_serial w) (sh_kernel w).
Definition set_agent (cfg : bool) (mode : PlannerMode) (llm : bool) (c : Context) (w : shell) : shell :=
  Shell (lineBuf w) (lineLen w) (getTicks w) (getSyscallTicks w) (runProgram w) (switchLayoutFn w) (currentLayout w)
    (targetLayout w) (tmpName w) (transportRequest w) (transportResponse w) (sh_history w)
    cfg mode llm c (sh_con w) (sh_fs w) (sh_fat w) (sh_disk w) (sh_serial w) (sh_kernel w).
Definition set_context (c : Context) (w : shell) : shell :=
  set_agent (executorConfigured w) (plannerMode w) (llmConfigured w) c w.
(** The console, the file system, the FAT volume and the kernel. *)
Definition set_machine (c : C) (f : fs_state mem_state) (v : fat) (d : B) (k : K) (w : shell) : shell :=
  Shell (lineBuf w) (lineLen w) (getTicks w) (getSyscallTicks w) (runProgram w) (switchLayoutFn w) (currentLayout w)
    (targetLayout w) (tmpName w) (transportRequest w) (transportResponse w) (sh_history w)
    (executorConfigured w) (plannerMode w) (llmConfigured w) (agentContext w) c f v d (sh_serial w) k.
Definition set_con (c : C) (w : shell) : shell := set_machine c (sh_fs w) (sh_fat w) (sh_disk w) (sh_kernel w) w.
Definition set_fs (f : fs_state mem_state) (w : shell) : shell :=
  set_machine (sh_con w) f (sh_fat w) (sh_disk w) (sh_kernel w) w.
Definition set_kernel (c : C) (k : K) (w : shell) : shell :=
  set_machine c (sh_fs w) (sh_fat w) (sh_disk w) k w.

(** ** The monad *)
Definition M (A : Type) : Type := shell → option (A * shell).

#[global] Instance M_ret : MRet M := λ A a w, Some (a, w).
#[global] Instance M_bind : MBind M := λ A X f m w, match m w with Some (a, w') => f a w' | None => None end.

Definition get {A} (f : shell → A) : M A := λ w, Some (f w, w).
Definition modify (f : shell → shell) : M unit := λ w, Some (tt, f w).
(** A computation that only reads. *)
Definition reads {A} (f : shell → option A) : M A := λ w, match f w with Some a => Some (a, w) | None => None end.
Definition console (f : C → option C) : M unit := λ w,
  match f (sh_con w) with Some c => Some (tt, set_con c w) | None => None end.

Definition print (s : string) : M unit := console (Print (gs s)).
(** A string that ends in a newline. *)
Definition println (s : string) : M unit := console (Print (gs s ++ [10])).
Definition putRune (r : Z) : M unit := console (PutRune r).
Definition newline : M unit := putRune 10.

(** A function of the line buffer. *)
Definition line {A} (f : list Z → option A) : M A := reads (λ w, f (lineBuf w)).
Definition matchLit (start last : Z) (lit : string) : M bool := line (λ lb, matchLiteral lb start last (gs lit)).

(** Physical memory. *)
Definition sh_mem (w : shell) : mem_state := world (sh_fs w).
Definition set_mem (m : mem_state) (w : shell) : shell := set_fs (set_world m (sh_fs w)) w.
Definition peek (w : shell) (a : Z) : Z := mread (phys (sh_mem w)) a.

(** The page tables that [src/boot/boot.s] builds map the low 4 GiB, one to one.  A load from
    any other address faults in kernel mode, where the handlers of [src/kernel/idt.go] print
    a message and loop forever: [None]. *)
Definition mapped_end : Z := 2 ^ 32.
Definition probe (w : shell) (a : Z) : option Z := if a <? mapped_end then Some (peek w a) else None.

Definition load_bytes (addr n : Z) (m : memory) : list Z := (λ i, mread m (u64 (addr + i))) <$> seqZ 0 n.
Fixpoint store_bytes (addr : Z) (l : list Z) (m : memory) : memory :=
  match l with [] => m | v :: l => store_bytes (addr + 1) l (mwrite m (u64 addr) v) end.
Definition load (addr n : Z) : M (list Z) := get (λ w, load_bytes addr n (phys (sh_mem w))).
Definition store (addr : Z) (l : list Z) : M unit :=
  modify (λ w, set_mem (set_phys (store_bytes addr l (phys (sh_mem w))) (sh_mem w)) w).

(** Calls into the other packages. *)
Definition call_fs {A} (f : fs_state mem_state → option (A * fs_state mem_state)) : M A := λ w,
  match f (sh_fs w) with Some (a, s) => Some (a, set_fs s w) | None => None end.
Definition call_fat {A} (f : fstate B C → option (A * fstate B C)) : M A := λ w,
  match f (FState (sh_fat w) (sh_disk w) (sh_con w)) with
  | Some (a, s) => Some (a, set_machine (fs_con s) (sh_fs w) (fs_fat s) (fs_disk s) (sh_kernel w) w)
  | None => None
  end.
Definition call_kernel {A} (f : C → K → option (A * C * K)) : M A := λ w,
  match f (sh_con w) (sh_kernel w) with Some (a, c, k) => Some (a, set_kernel c k w) | None => None end.

(** [for i := lo; i < hi; i++ { f i }]. *)
Definition repeat_do (lo hi : Z) (f : Z → M unit) : M unit := λ w,
  match for_do lo hi (λ i w, match f i w with Some (_, w) => Some w | None => None end) w with
  | Some w => Some (tt, w)
  | None => None
  end.
End state.

Arguments shell : clear implicits.
Arguments M K C B L A : clear implicits.

(** ** Reasoning: [wp m Q w] says that [m] returns from [w] and its result is in [Q]. *)
Section wp.
Context {K C B L : Type} `{!TextConsole C} `{!Disk B} `{!PortIO L}.
Implicit Types (w : shell K C B L).

Definition wp {A} (m : M K C B L A) (Q : A → shell K C B L → Prop) w : Prop :=
  ok (m w) (λ '(a, w'), Q a w').

Lemma wp_ret {A} (a : A) Q w : Q a w → wp (mret a) Q w.
Proof. done. Qed.

Lemma wp_bind {A X} (m : M K C B L A) (f : A → M K C B L X) Q w :
  wp m (λ a, wp (f a) Q) w → wp (x ← m; f x) Q w.
Proof. unfold wp, mbind, M_bind. by destruct (m w) as [[a w']|]. Qed.

Lemma wp_mono {A} (m : M K C B L A) (P Q : A → shell K C B L → Prop) w :
  wp m P w → (∀ a w', P a w' → Q a w') → wp m Q w.
Proof. unfold wp. destruct (m w) as [[a w']|]; cbn; auto. Qed.

Lemma wp_and {A} (m : M K C B L A) (P Q : A → shell K C B L → Prop) w :
  wp m P w → wp m Q w → wp m (λ a w', P a w' ∧ Q a w') w.
Proof. unfold wp. by destruct (m w) as [[a w']|]. Qed.

Lemma wp_get {A} (f : shell K C B L → A) Q w : Q (f w) w → wp (get f) Q w.
Proof. done. Qed.
Lemma wp_modify (f : shell K C B L → shell K C B L) Q w : Q tt (f w) → wp (modify f) Q w.
Proof. done. Qed.

Lemma wp_reads {A} (f : shell K C B L → option A) Q w : ok (f w) (λ a, Q a w) → wp (reads f) Q w.
Proof. unfold wp, reads. by destruct (f w). Qed.

Lemma wp_line {A} (f : list Z → option A) Q w : ok (f (lineBuf w)) (λ a, Q a w) → wp (line f) Q w.
Proof. apply (wp_reads (λ w, f (lineBuf w))). Qed.

Lemma wp_console (f : C → option C) Q w :
  ok (f (sh_con w)) (λ c, Q tt (set_con c w)) → wp (console f) Q w.
Proof. unfold wp, console. by destruct (f (sh_con w)). Qed.

Lemma wp_call_fs {A} (f : fs_state mem_state → option (A * fs_state mem_state)) Q w :
  ok (f (sh_fs w)) (λ '(a, s), Q a (set_fs s w)) → wp (call_fs f) Q w.
Proof. unfold wp, call_fs. by destruct (f (sh_fs w)) as [[a s]|]. Qed.

Lemma wp_call_fat {A} (f : fstate B C → option (A * fstate B C)) Q w :
  ok (f (FState (sh_fat w) (sh_disk w) (sh_con w)))
     (λ '(a, s), Q a (set_machine (fs_con s) (sh_fs w) (fs_fat s) (fs_disk s) (sh_kernel w) w)) →
  wp (call_fat f) Q w.
Proof. unfold wp, call_fat. by destruct (f _) as [[a s]|]. Qed.

Lemma wp_call_kernel {A} (f : C → K → option (A * C * K)) Q w :
  ok (f (sh_con w) (sh_kernel w)) (λ '(a, c, k), Q a (set_kernel c k w)) → wp (call_kernel f) Q w.
Proof. unfold wp, call_kernel. by destruct (f _ _) as [[[a c] k]|]. Qed.

Lemma wp_repeat_do (Inv : Z → shell K C B L → Prop) lo hi (f : Z → M K C B L unit) Q w :
  lo ≤ hi → Inv lo w →
  (∀ i w, lo ≤ i < hi → Inv i w → wp (f i) (λ _, Inv (i + 1)) w) →
  (∀ w, Inv hi w → Q tt w) →
  wp (repeat_do lo hi f) Q w.
Proof.
  intros Hle H0 Hf HQ. unfold wp, repeat_do.
  assert (ok (for_do lo hi (λ i w, match f i w with Some (_, w) => Some w | None => None end) w)
    (λ w, Q tt w)) as Hok.
  { apply (for_do_ok Inv); [done..| |done]. intros i w' Hi Hw'. specialize (Hf i w' Hi Hw').
    unfold wp in Hf. by destruct (f i w') as [[[] w2]|]. }
  by destruct (for_do _ _ _ _).
Qed.

(** [runs m F Q w]: [m] returns from [w] with a result in [Q], except under [F], when it does
    not return. *)
Definition runs {A} (m : M K C B L A) (F : Prop) (Q : A → shell K C B L → Prop) w : Prop :=
  (¬ F → wp m Q w) ∧ (F → m w = None).

Lemma runs_wp {A} (m : M K C B L A) (F : Prop) Q w : ¬ F → wp m Q w → runs m F Q w.
Proof. by split. Qed.

Lemma runs_bind {A X} (m : M K C B L A) (f : A → M K C B L X) F Q w :
  wp m (λ a w', runs (f a) F Q w') w → runs (x ← m; f x) F Q w.
Proof.
  unfold runs, wp, mbind, M_bind. by destruct (m w) as [[a w']|].
Qed.

Lemma runs_then {A X} (m : M K C B L A) (f : A → M K C B L X) F P Q w :
  runs m F P w → (∀ a w', P a w' → wp (f a) Q w') → runs (x ← m; f x) F Q w.
Proof.
  intros [Hw HF] Hf. split.
  - intros Hn. apply wp_bind. eapply wp_mono; [by apply Hw|]. exact Hf.
  - intros HF'. unfold mbind, M_bind. by rewrite HF.
Qed.

(** A run that is known to return is not the exception. *)
Lemma runs_returns {A} (m : M K C B L A) (F : Prop) (P Q : A → shell K C B L → Prop) w :
  runs m F P w → wp m Q w → wp m (λ a w', P a w' ∧ Q a w') w.
Proof.
  intros [HP HF] HQ. apply wp_and; [|done]. apply HP. intros Hf. unfold wp in HQ. by rewrite HF in HQ.
Qed.

Lemma runs_mono {A} (m : M K C B L A) (F G : Prop) (P Q : A → shell K C B L → Prop) w :
  runs m F P w → (F ↔ G) → (∀ a w', P a w' → Q a w') → runs m G Q w.
Proof.
  intros [Hw HF] HG HQ. split; [|by intros; apply HF, HG]. intros Hn.
  eapply wp_mono; [apply Hw; by rewrite HG|done].
Qed.
End wp.
