(* ===== verification/ShellInv.v ===== *)
(** * Package [shell]: the invariant and the rules to prove it

    [shell_ok] is what every command keeps: the buffers have their declared sizes, the
    components the shell drives are in their safe states.  [safe R P m] says that the
    command [m], run from a state that satisfies it, returns (no panic, no endless loop) a
    value in [P], keeps it, and changes no more than the relation [R] allows. *)
From S2P Require Import Prelude PageAlloc Mem Fs FsSafe PortIO Terminal Serial AgentTypes Agent AgentGate.
From S2P Require Import Disk Fat16 FatSafe Line Output History ShellState.
Local Open Scope Z_scope.

(** A plan for one action, as [runAction] makes it. *)
Definition one_plan (mode : PlannerMode) (intent : IntentKind) (a : Action) : Plan :=
  MkPlan mode intent 100 (a :: replicate 3 zero_Action) 1.

Definition shell_action (kind : ActionKind) (risk : RiskLevel) (name : list Z) (n : Z) : Action :=
  MkAction kind risk name n (replicate 128 0) 0.

(** The plan that waits for confirmation is for the deletion of one file. *)
Definition delete_plan (name : list Z) (n : Z) (p : Plan) : Prop :=
  len name = 16 ∧ 1 ≤ n ≤ 16 ∧
  ∃ mode, p = one_plan mode IntentDeleteFile (shell_action ActionDeleteFile RiskRisky name n).

Record ctx_ok (c : Context) : Prop := {
  co_wf : ctx_wf c;
  co_input : 0 ≤ ctx_LastInputLen c ≤ MaxContextInput;
  co_pending : ctx_ConfirmationPending c = true → ∃ name n, delete_plan name n (ctx_PendingPlan c);
}.

(** The memory map the boot loader left has its declared size. *)
Definition mmap_ok (m : mem_state) : Prop :=
  len (mmapEntries m) = maxMMapEntries ∧ 0 ≤ mmapCount m ≤ maxMMapEntries.

Section inv.
Context {K C B L : Type} `{!TextConsole C} `{!TextConsoleLaws C} `{!Disk B} `{!DiskTotal B} `{!PortIO L}.
Context (addr_tmpData addr_diskBuf addr_actionData : Z).
Context (kernel_ok : K → Prop).

Abbreviation S := (shell K C B L).
Abbreviation M := (ShellState.M K C B L).
Implicit Types w : S.

(** The kernel's functions return. *)
Record hooks_ok (gt gst : option (K → option (Z * K)))
    (rp : option (list Z → Z → C → K → option (Z * bool * C * K)))
    (sl : option (list Z → K → option (bool * K))) : Prop := {
  hk_ticks f k : gt = Some f → kernel_ok k → ok (f k) (λ '(_, k'), kernel_ok k');
  hk_systicks f k : gst = Some f → kernel_ok k → ok (f k) (λ '(_, k'), kernel_ok k');
  hk_run f name n c k :
    rp = Some f → kernel_ok k → console_ok c → len name = 16 → 1 ≤ n ≤ 16 →
    ok (f name n c k) (λ '(_, _, c', k'), console_ok c' ∧ kernel_ok k');
  hk_layout f name k : sl = Some f → kernel_ok k → ok (f name k) (λ '(_, k'), kernel_ok k');
}.

Record shell_ok w : Prop := {
  so_line : line_ok (lineBuf w);
  so_len : 0 ≤ lineLen w ≤ maxLine;
  so_hooks : hooks_ok (getTicks w) (getSyscallTicks w) (runProgram w) (switchLayoutFn w);
  so_name : len (tmpName w) = 16;
  so_req : len (transportRequest w) = MaxPayload;
  so_resp : len (transportResponse w) = MaxPayload;
  so_hist : history_ok (sh_history w);
  so_ctx : ctx_ok (agentContext w);
  so_con : console_ok (sh_con w);
  so_fs : fs_safe (sh_fs w);
  so_mmap : mmap_ok (sh_mem w);
  so_tmp : unmanaged (sh_mem w) addr_tmpData 4096;
  so_dbuf : unmanaged (sh_mem w) addr_diskBuf 512;
  so_act : unmanaged (sh_mem w) addr_actionData 128;
  so_fat : sector_ok (fatBuf (sh_fat w)) ∧ fat_geo (sh_fat w);
  so_disk : disk_safe (sh_disk w);
  so_serial : serial_inv (sh_serial w);
  so_kernel : kernel_ok (sh_kernel w);
}.

(** ** What a command may change *)
(** The kernel's functions. *)
Definition hooks w := (getTicks w, getSyscallTicks w, runProgram w, switchLayoutFn w).
(** The line is not changed, nor are the kernel's functions. *)
Definition same_line w w' : Prop := lineBuf w' = lineBuf w ∧ lineLen w' = lineLen w ∧ hooks w' = hooks w.
(** Nor what the agent remembers. *)
Definition same_agent w w' : Prop := same_line w w' ∧ agentContext w' = agentContext w.
(** Nor the files. *)
Definition quiet w w' : Prop := same_agent w w' ∧ sh_fs w' = sh_fs w.

#[global] Instance same_line_po : PreOrder same_line.
Proof. split; [done|]. intros x y z (?&?&?) (?&?&?). split_and!; congruence. Qed.
#[global] Instance same_agent_po : PreOrder same_agent.
Proof. split; [done|]. intros x y z [] []. split; [by etrans|congruence]. Qed.
#[global] Instance quiet_po : PreOrder quiet.
Proof. split; [done|]. intros x y z [] []. split; [by etrans|congruence]. Qed.

Definition safe {A} (R : relation S) (P : A → Prop) (m : M A) : Prop :=
  ∀ w, shell_ok w → wp m (λ a w', P a ∧ shell_ok w' ∧ R w w') w.

Abbreviation any := (λ _, True).

Section rules.
Context (R : relation S) `{!PreOrder R}.

Lemma safe_ret {A} (P : A → Prop) a : P a → safe R P (mret a).
Proof. intros Ha w Hw. apply wp_ret. by split_and!. Qed.

Lemma safe_bind {A X} (P : A → Prop) (Q : X → Prop) (m : M A) (f : A → M X) :
  safe R P m → (∀ a, P a → safe R Q (f a)) → safe R Q (x ← m; f x).
Proof.
  intros Hm Hf w Hw. apply wp_bind. eapply wp_mono; [by apply Hm|]. intros a w1 (Ha&Hw1&HR).
  eapply wp_mono; [by apply Hf|]. intros x w2 (?&?&?). split_and!; [done..|by etrans].
Qed.

Lemma safe_mono {A} (P Q : A → Prop) (m : M A) : safe R P m → (∀ a, P a → Q a) → safe R Q m.
Proof. intros Hm HP w Hw. eapply wp_mono; [by apply Hm|]. naive_solver. Qed.

Lemma safe_if {A} (P : A → Prop) (b : bool) (m1 m2 : M A) :
  safe R P m1 → safe R P m2 → safe R P (if b then m1 else m2).
Proof. by destruct b. Qed.

Lemma safe_get {A} (P : A → Prop) (f : S → A) : (∀ w, shell_ok w → P (f w)) → safe R P (get f).
Proof. intros Hf w Hw. apply wp_get. split_and!; [auto|done|done]. Qed.

Lemma safe_reads {A} (P : A → Prop) (f : S → option A) : (∀ w, shell_ok w → ok (f w) P) → safe R P (reads f).
Proof.
  intros Hf w Hw. apply wp_reads. eapply ok_mono; [by apply Hf|]. intros a Ha. by split_and!.
Qed.

Lemma safe_line {A} (P : A → Prop) (f : list Z → option A) :
  (∀ lb, line_ok lb → ok (f lb) P) → safe R P (line f).
Proof. intros Hf. apply safe_reads. intros w Hw. apply Hf, Hw. Qed.

Lemma safe_repeat lo hi (f : Z → M unit) :
  lo ≤ hi → (∀ i, lo ≤ i < hi → safe R any (f i)) → safe R any (repeat_do lo hi f).
Proof.
  intros Hle Hf w Hw. apply (wp_repeat_do (λ _ w', shell_ok w' ∧ R w w')); [done|done| |by auto].
  intros i w1 Hi [Hw1 HR]. eapply wp_mono; [by apply Hf|]. intros _ w2 (_&?&?). split; [done|by etrans].
Qed.

Lemma safe_repeat' lo hi (f : Z → M unit) :
  (∀ i, lo ≤ i < hi → safe R any (f i)) → safe R any (repeat_do lo hi f).
Proof.
  intros Hf. destruct (decide (lo ≤ hi)); [by apply safe_repeat|]. intros w Hw. unfold wp, repeat_do.
  rewrite for_do_done by lia. by split_and!.
Qed.
End rules.

Lemma safe_weaken {A} (R R' : relation S) (P : A → Prop) (m : M A) :
  (∀ w w', R w w' → R' w w') → safe R P m → safe R' P m.
Proof. intros HR Hm w Hw. eapply wp_mono; [by apply Hm|]. naive_solver. Qed.

Lemma quiet_agent {A} (P : A → Prop) (m : M A) : safe quiet P m → safe same_agent P m.
Proof. apply safe_weaken. by intros w w' [? _]. Qed.
Lemma agent_line {A} (P : A → Prop) (m : M A) : safe same_agent P m → safe same_line P m.
Proof. apply safe_weaken. by intros w w' [? _]. Qed.
Lemma quiet_line {A} (P : A → Prop) (m : M A) : safe quiet P m → safe same_line P m.
Proof. intros ?. by apply agent_line, quiet_agent. Qed.

(** ** Updates that keep the invariant *)
Lemma shell_ok_con c w : shell_ok w → console_ok c → shell_ok (set_con c w).
Proof. intros [] ?. by split. Qed.

Lemma shell_ok_kernel c k w : shell_ok w → console_ok c → kernel_ok k → shell_ok (set_kernel c k w).
Proof. intros [] ? ?. by split. Qed.

Lemma shell_ok_name t w : shell_ok w → len t = 16 → shell_ok (set_tmpName t w).
Proof. intros [] ?. by split. Qed.

Lemma shell_ok_history h w : shell_ok w → history_ok h → shell_ok (set_history h w).
Proof. intros [] ?. by split. Qed.

Lemma shell_ok_layouts c t w : shell_ok w → shell_ok (set_layouts c t w).
Proof. intros []. by split. Qed.

Lemma shell_ok_line lb n w : shell_ok w → line_ok lb → 0 ≤ n ≤ maxLine → shell_ok (set_line lb n w).
Proof. intros [] ? ?. by split. Qed.

Lemma shell_ok_agent a b c d w : shell_ok w → ctx_ok d → shell_ok (set_agent a b c d w).
Proof. intros [] ?. by split. Qed.

Lemma shell_ok_fs s w : shell_ok w → fs_safe s → same_config (sh_mem w) (world s) → shell_ok (set_fs s w).
Proof.
  intros [] Hs Hc. split; try done; try (by eapply unmanaged_config).
  unfold mmap_ok, sh_mem in *. destruct Hc as (E1&E2&_). cbn. by rewrite E1, E2.
Qed.

Lemma shell_ok_fat c v d w :
  shell_ok w → console_ok c → sector_ok (fatBuf v) → fat_geo v → disk_safe d →
  shell_ok (set_machine c (sh_fs w) v d (sh_kernel w) w).
Proof. intros [] ? ? ? ?. by split. Qed.

Lemma shell_ok_transport q p s w :
  shell_ok w → len q = MaxPayload → len p = MaxPayload → serial_inv s → shell_ok (set_transport q p s w).
Proof. intros [] ? ? ?. by split. Qed.

(** ** The primitives *)
Lemma safe_console (f : C → option C) : (∀ c, console_ok c → ok (f c) console_ok) → safe quiet any (console f).
Proof.
  intros Hf w Hw. apply wp_console. eapply ok_mono; [by apply Hf, Hw|]. intros c Hc.
  split_and!; [done|by apply shell_ok_con|done].
Qed.

Lemma safe_Print s : safe quiet any (console (Print s)).
Proof. apply safe_console. intros c. apply Print_ok. Qed.

(** Output that is known to be the printing of a text. *)
Lemma safe_prints (f : C → option C) s : (∀ c, f c = Print s c) → safe quiet any (console f).
Proof. intros Hf. apply safe_console. intros c Hc. rewrite Hf. by apply Print_ok. Qed.

Lemma safe_print s : safe quiet any (print s).
Proof. apply safe_Print. Qed.
Lemma safe_println s : safe quiet any (println s).
Proof. apply safe_Print. Qed.
Lemma safe_putRune r : safe quiet any (putRune r).
Proof. by eapply safe_prints, PutRune_Print. Qed.
Lemma safe_newline : safe quiet any newline.
Proof. apply safe_putRune. Qed.
Lemma safe_printHexU64 v : safe quiet any (console (printHexU64 v)).
Proof. eapply safe_prints, printHexU64_Print. Qed.
Lemma safe_printHex64 hi lo : safe quiet any (console (printHex64 hi lo)).
Proof. eapply safe_prints, printHex64_Print. Qed.

(** [printUint] returns on every value. *)
Lemma safe_printUint v : safe quiet any (console (printUint v)).
Proof.
  destruct (decide (in_u64 v)). { eapply safe_prints. intros c. by apply printUint_Print. }
  eapply safe_prints. intros c. instantiate (1 := gs "0x" ++ hex_text 16 v). unfold printUint.
  destruct (Z.eqb_spec v 0) as [->|]; [lia|]. rewrite Z.shiftr_div_pow2 by lia.
  replace (v / 2 ^ 32 =? 0) with false.
  2:{ symmetry. apply Z.eqb_neq. intros E. apply Z.div_small_iff in E; lia. }
  cbn [negb]. rewrite Print_app. destruct (Print (gs "0x") c); [|done]. apply printHexU64_Print.
Qed.

Lemma safe_modify (f : S → S) R :
  (∀ w, shell_ok w → shell_ok (f w) ∧ R w (f w)) → safe R any (modify f).
Proof. intros Hf w Hw. apply wp_modify. destruct (Hf w Hw). done. Qed.

Lemma safe_kernel {A} (P : A → Prop) (f : C → K → option (A * C * K)) :
  (∀ c k, console_ok c → kernel_ok k → ok (f c k) (λ '(a, c', k'), P a ∧ console_ok c' ∧ kernel_ok k')) →
  safe quiet P (call_kernel f).
Proof.
  intros Hf w Hw. apply wp_call_kernel. eapply ok_mono; [apply Hf; apply Hw|].
  intros [[a c] k] (?&?&?). split_and!; [done|by apply shell_ok_kernel|done].
Qed.

Lemma safe_call_fs {A} (P : A → Prop) (f : fs_state mem_state → option (A * fs_state mem_state)) :
  (∀ s, fs_safe s → ok (f s) (λ '(a, s'), P a ∧ fs_safe s' ∧ same_config (world s) (world s'))) →
  safe same_agent P (call_fs f).
Proof.
  intros Hf w Hw. apply wp_call_fs. eapply ok_mono; [apply Hf; apply Hw|].
  intros [a s] (?&?&?). split_and!; [done|by apply shell_ok_fs|done].
Qed.

Lemma safe_call_fat {A} (P : A → Prop) (f : fstate B C → option (A * fstate B C)) :
  (∀ s, fat_safe s → ok (f s) (λ '(a, s'), P a ∧ fat_safe s')) → safe quiet P (call_fat f).
Proof.
  intros Hf w Hw. apply wp_call_fat. eapply ok_mono; [apply Hf; by split; apply Hw|].
  intros [a s] (?&[]). split_and!; [done|by apply shell_ok_fat|done].
Qed.

(** ** Stores into the shell's own buffers *)
Lemma store_bytes_safe l : ∀ addr m,
  mem_ok m → Forall (λ x, in_u8 x) l → unmanaged m addr (len l) →
  let m' := set_phys (store_bytes addr l (phys m)) m in mem_ok m' ∧ same_config m m'.
Proof.
  induction l as [|v l IH]; intros addr m Hm Hl Hu; cbn [store_bytes].
  { split; [|done]. by destruct m. }
  apply Forall_cons in Hl as [Hv Hl]. rewrite len_cons in Hu. pose proof (len_nonneg l).
  pose proof Hu as (?&?&?). rewrite u64_small by lia.
  destruct (store_safe m addr v Hm Hv) as [Hm1 Hc1].
  { intros Hr. apply (unmanaged_not_bitmap m addr (1 + len l)); [done|lia|done]. }
  destruct (IH (addr + 1) (set_phys (mwrite (phys m) addr v) m) Hm1 Hl) as [Hm2 Hc2].
  { unfold unmanaged. cbn. split_and!; [lia|lia|]. intros Hr. specialize (H2 Hr). lia. }
  by split.
Qed.

Lemma safe_store addr l :
  Forall (λ x, in_u8 x) l → (∀ w, shell_ok w → unmanaged (sh_mem w) addr (len l)) →
  safe same_agent any (store addr l).
Proof.
  intros Hl Hu. apply safe_modify. intros w Hw. split; [|done].
  destruct (store_bytes_safe l addr (sh_mem w)) as [Hm Hc]; [apply Hw|done|by apply Hu|].
  apply shell_ok_fs; [done| |done]. destruct (so_fs _ Hw). by split.
Qed.

Lemma load_bytes_sector addr m : mem_bytes m → sector_ok (load_bytes addr 512 m).
Proof.
  intros Hm. split; [by apply len_fmap_seqZ|]. unfold load_bytes. apply Forall_fmap, Forall_forall.
  intros i _. apply Hm.
Qed.

Lemma safe_load R `{!PreOrder R} addr : safe R sector_ok (load addr 512).
Proof. apply safe_get; [done|]. intros w Hw. apply load_bytes_sector, Hw. Qed.
End inv.
