(* ===== verification/Shell.v ===== *)
(** * Package [shell]: the commands

    [src/shell/shell.go]: the key handler [FeedRune], the command dispatcher [execute], one
    definition per command, and the handlers the shell gives to the agent runtime.
    [runtimeAgent.Executor] holds functions on the shell's own state; it is therefore an
    argument [e] of the definitions that call it, and [os_shell] pairs it with the state. *)
From S2P Require Import Prelude PageAlloc Mem Fs PortIO Terminal Serial AgentTypes Agent Disk Fat16.
From S2P Require Import Line Output History ShellState.
Local Open Scope Z_scope.

Definition osName : string := "DavOS".
Definition osVersion : string := "0.5.0".
Definition maxDistanceThreshold : Z := 3.

Definition commandBuf : list (list Z) :=
  gs <$> ["help"; "history"; "clear"; "echo"; "ticks"; "uptime";
          "mem"; "mmap"; "mmapmax"; "pfa"; "alloc"; "free";
          "ls"; "write"; "cat"; "rm"; "stat";
          "disk"; "fatinit"; "fatformat"; "fatinfo"; "fatls"; "fatcreate"; "fatread";
          "layout"; "version"; "run"; "agent"].

Definition agentContextKindNames : list (list Z) :=
  gs <$> ["none"; "list_files"; "read_file"; "write_file"; "delete_file"; "stat_file"; "show_help";
          "show_history"; "show_version"; "show_ticks"; "show_memory_map"; "set_mode"].

(** The values of the enumerations as [uint8]. *)
Definition action_u8 (k : ActionKind) : Z :=
  match k with
  | ActionUnknown => 0 | ActionListFiles => 1 | ActionReadFile => 2 | ActionWriteFile => 3
  | ActionDeleteFile => 4 | ActionStatFile => 5 | ActionShowHelp => 6 | ActionShowHistory => 7
  | ActionShowVersion => 8 | ActionShowTicks => 9 | ActionShowMemoryMap => 10 | ActionSetMode => 11
  | ActionOther v => u8 v
  end.
Definition intent_u8 (k : IntentKind) : Z :=
  match k with
  | IntentUnknown => 0 | IntentListFiles => 1 | IntentReadFile => 2 | IntentWriteFile => 3
  | IntentDeleteFile => 4 | IntentStatFile => 5 | IntentShowHelp => 6 | IntentShowHistory => 7
  | IntentShowVersion => 8 | IntentShowTicks => 9 | IntentShowMemoryMap => 10 | IntentSetMode => 11
  | IntentOther v => u8 v
  end.

(** What [printAgentMessage] prints; the kinds it does not know print nothing. *)
Definition agentMessage (message : MessageKind) : list Z :=
  match message with
  | MessagePlannerFailed => gs "agent: planner failed"
  | MessageValidationFailed => gs "validation_failed"
  | MessagePlanHasNoActions => gs "agent: plan has no actions"
  | MessagePlanHasTooManyActions => gs "agent: plan has too many actions"
  | MessagePlanContainsUnsupportedAction => gs "agent: plan contains unsupported action"
  | MessageActionRiskInvalid => gs "agent: action risk is invalid"
  | MessageActionTargetInvalid => gs "agent: action target is invalid"
  | MessageActionDataInvalid => gs "agent: action data is invalid"
  | MessageConfirmationRequired => lines ["This action may remove data."; "Confirm? type: yes"]
  | MessageActionCancelled => gs "agent: action cancelled"
  | MessageExecutorNotConfigured => gs "agent: executor not configured"
  | MessageUnsupportedAction => gs "agent: unsupported action"
  | MessageActionUnavailable => gs "agent: action unavailable"
  | MessageNoResult => gs "agent: no result"
  | MessageCompletedPlan => gs "agent: completed plan"
  | MessageOK => gs "ok"
  | MessageFilesListed => gs "agent: files listed"
  | MessageNoFiles => gs "agent: no files"
  | MessageFileRead => gs "agent: file read"
  | MessageFileStat => gs "agent: file stat"
  | MessageMissingFile => gs "agent: missing file"
  | MessageFileNotFound => gs "agent: file not found"
  | MessageAgentHelp =>
      lines [ "Agent commands:";
              "  agent show files    - Show files managed by the agent";
              "  agent show history  - Show command history stored by the agent";
              "  agent show version  - Show OS version through the agent";
              "  agent show ticks    - Show PIT ticks through the agent";
              "  agent show memorymap - Show memory map through the agent";
              "  agent read <name>   - Read a file through the agent";
              "  agent stat <name>   - Show file metadata through the agent";
              "  agent delete <name> - Delete a file after confirmation";
              "  agent mode [mode]   - Show or switch agent mode";
              "  agent transport ping - Probe the guest-host transport";
              "  agent context       - Show current agent context";
              "  agent help          - Show agent commands" ]
  | MessageHistoryListed => gs "agent: history listed"
  | MessageVersionShown => gs "agent: version shown"
  | MessageTicksShown => gs "agent: ticks shown"
  | MessageMemoryMapShown => gs "agent: memory map shown"
  | MessageDeterministicMode => gs "Current planner: deterministic"
  | MessageLLMMode => gs "Current planner: llm"
  | MessagePlannerSwitchedDeterministic => gs "Planner switched to: deterministic"
  | MessagePlannerSwitchedLLM => gs "Planner switched to: llm"
  | MessageLLMModeNotConfigured => gs "agent: llm bridge unavailable"
  | MessageUnsupportedMode => gs "agent: unsupported mode"
  | _ => []
  end.

Definition transportError (result : Result) : list Z :=
  match result with
  | ResultPortUnavailable => gs "agent: transport unavailable"
  | ResultWriteTimeout | ResultReadTimeout => gs "agent: transport timeout"
  | ResultPartialFrame => gs "agent: transport partial response"
  | ResultOversizedFrame => gs "agent: transport response too large"
  | _ => gs "agent: transport malformed response"
  end.

Definition actionTargetMatches (action : Action) (literal : list Z) : option bool :=
  if negb (act_TargetLen action =? len literal) then Some false
  else match_bytes (act_TargetLen action) (aget (act_Target action)) (aget literal).

(** The mode an action names. *)
Definition targetMode (action : Action) : option (option PlannerMode) :=
  d ← actionTargetMatches action (gs "deterministic");
  if d : bool then Some (Some PlannerModeDeterministic)
  else
    l ← actionTargetMatches action (gs "llm");
    if l : bool then Some (Some PlannerModeLLM) else Some None.

Section shell.
Context {K C B L : Type} `{!TextConsole C} `{!Disk B} `{!PortIO L}.
(** [&tmpData[0]], [&diskBuf[0]] and [&action.Data[0]]. *)
Context (addr_tmpData addr_diskBuf addr_actionData : Z).

Abbreviation S := (shell K C B L).
Abbreviation M := (ShellState.M K C B L).
Abbreviation executor := (AllowedActionExecutor S).

Definition panic {A} : M A := λ _, None.
Definition lift {A} (m : option A) : M A := reads (λ _, m).

(** [m; return true]. *)
Definition and_true (m : M unit) : M bool := _ ← m; mret true.

Definition copyName (start last : Z) : M (Z * bool) :=
  '(n, found, t) ← reads (λ w, copyNameFromRange (lineBuf w) start last (tmpName w));
  _ ← modify (set_tmpName t);
  mret (n, found).

(** Bytes [start, start+n) of the line, stored at [addr]. *)
Definition store_line (addr start n : Z) : M unit :=
  repeat_do 0 n (λ i, c ← line (λ lb, aget lb (start + i)); store (addr + i) [c]).

Definition copyDataFromRange (start last : Z) : M Z :=
  if last <? start then mret 0
  else
    let n := last - start in
    if n <? 0 then mret 0
    else
      let n := if 4096 <? n then 4096 else n in
      _ ← store_line addr_tmpData start n;
      mret (u32 n).

(** ** Shared output *)
Definition printVersion : M unit :=
  _ ← print (osName +:+ " " +:+ osVersion);
  let proof := 0x0123456789ABCDEF in
  _ ← (if negb (Z.shiftr proof 32 =? 0) then print " (64bit)" else mret tt);
  newline.

Definition printTicks : M bool :=
  f ← get getTicks;
  match f with
  | None => mret false
  | Some getTicks =>
      t ← call_kernel (λ c k, '(t, k) ← getTicks k; Some (t, c, k));
      _ ← console (printUint t);
      _ ← newline;
      mret true
  end.

Definition printMemoryMap : M unit :=
  n ← get (λ w, MMapCount (sh_mem w));
  repeat_do 0 n
    (λ i, '(bLo, bHi, lLo, lHi, typ) ← reads (λ w, MMapEntry i (sh_mem w));
       _ ← print "base=0x"; _ ← console (printHex64 bHi bLo);
       _ ← print " len=0x"; _ ← console (printHex64 lHi lLo);
       _ ← print " type="; _ ← console (printUint typ);
       newline).

Definition showHistory : M unit := h ← get sh_history; console (printHistory h).

(** One line of the file list; false for a slot that is not in use. *)
Definition printEntry (i : Z) : M bool :=
  '(used, name, nameLen, size, page) ← reads (λ w, Entry i (sh_fs w));
  if negb used then mret false
  else
    match name with
    | None => panic
    | Some name =>
        _ ← console (printName name nameLen);
        _ ← print "  size="; _ ← console (printUint size);
        _ ← print "  page=0x"; _ ← console (printHexU64 page);
        and_true newline
    end.

(** The contents of a file. *)
Definition printContents (page size : Z) : M unit :=
  _ ← repeat_do 0 size (λ i, b ← get (λ w, peek w (u64 (page + i))); putRune b);
  newline.

Definition printStat (page size : Z) : M unit :=
  _ ← print "page=0x"; _ ← console (printHexU64 page);
  _ ← print " size="; _ ← console (printUint size);
  newline.

Definition lookupFile (name : list Z) (n : Z) : M (Z * Z * bool) := reads (λ w, Lookup name n (sh_fs w)).

Definition printAgentMessage (message : MessageKind) : M unit := console (Print (agentMessage message)).

Definition printAgentContextKind (kind : Z) : M unit :=
  let kind := if len agentContextKindNames <=? kind then 0 else kind in
  name ← lift (aget agentContextKindNames kind);
  console (Print name).

Definition printAgentContext : M unit :=
  context ← get agentContext;
  _ ← println "Agent context:";
  _ ← print "  current task: ";
  _ ← printAgentContextKind (action_u8 (ctx_CurrentTask context));
  _ ← newline; _ ← print "  last input: ";
  _ ← (if ctx_LastInputLen context =? 0 then print "none"
       else repeat_do 0 (ctx_LastInputLen context)
              (λ i, c ← lift (aget (ctx_LastInput context) i); putRune c));
  _ ← newline; _ ← print "  last intent: ";
  _ ← printAgentContextKind (intent_u8 (ctx_LastIntent context));
  _ ← newline; _ ← print "  last action: ";
  _ ← printAgentContextKind (action_u8 (ctx_LastAction context));
  _ ← newline; _ ← print "  last result: ";
  _ ← match ctx_LastResultSummary context with
      | MessageNone => print "none"
      | MessageAgentHelp => print "agent: help shown"
      | m => printAgentMessage m
      end;
  _ ← newline; _ ← print "  request count: ";
  _ ← console (printUint (ctx_RequestCount context));
  _ ← newline; _ ← print "  planner mode: ";
  _ ← (if decide (ctx_PlannerMode context = PlannerModeLLM) then print "llm" else print "deterministic");
  newline.

(** ** The agent's handlers *)
Definition result (b : bool) (m : MessageKind) : M ActionResult := mret (MkActionResult b m).

Definition agentListFiles (_ : Action) : M ActionResult :=
  count ← (λ w, for_do 0 MaxFiles
             (λ i '(count, w), '(used, w) ← printEntry i w;
                Some (if used : bool then count + 1 else count, w)) (0, w));
  if count =? 0 then result true MessageNoFiles else result true MessageFilesListed.

Definition agentReadFile (action : Action) : M ActionResult :=
  if act_TargetLen action <=? 0 then result false MessageMissingFile
  else
    '(page, size, found) ← lookupFile (act_Target action) (act_TargetLen action);
    if negb found then result false MessageFileNotFound
    else _ ← printContents page size; result true MessageFileRead.

Definition agentWriteFile (action : Action) : M ActionResult :=
  if (act_DataLen action <? 0) || (MaxDataLen <? act_DataLen action) then
    result false MessageActionDataInvalid
  else if act_TargetLen action <=? 0 then result false MessageMissingFile
  else
    _ ← store addr_actionData (act_Data action);
    let dataPtr := if 0 <? act_DataLen action then addr_actionData else 0 in
    written ← call_fs (Write (act_Target action) (act_TargetLen action) dataPtr (u32 (act_DataLen action)));
    if negb written then result false MessageActionUnavailable else result true MessageOK.

Definition agentDeleteFile (action : Action) : M ActionResult :=
  if act_TargetLen action <=? 0 then result false MessageMissingFile
  else
    removed ← call_fs (Remove (act_Target action) (act_TargetLen action));
    if negb removed then result false MessageFileNotFound else result true MessageOK.

Definition agentStatFile (action : Action) : M ActionResult :=
  if act_TargetLen action <=? 0 then result false MessageMissingFile
  else
    '(page, size, found) ← lookupFile (act_Target action) (act_TargetLen action);
    if negb found then result false MessageFileNotFound
    else _ ← printStat page size; result true MessageFileStat.

Definition agentShowHelp (_ : Action) : M ActionResult := result true MessageAgentHelp.

Definition agentShowHistory (_ : Action) : M ActionResult :=
  _ ← showHistory; result true MessageHistoryListed.

Definition agentShowVersion (_ : Action) : M ActionResult :=
  _ ← printVersion; result true MessageVersionShown.

Definition agentShowTicks (_ : Action) : M ActionResult :=
  shown ← printTicks;
  if negb shown then result false MessageActionUnavailable else result true MessageTicksShown.

Definition agentShowMemoryMap (_ : Action) : M ActionResult :=
  _ ← printMemoryMap; result true MessageMemoryMapShown.

(** [runtimeAgent], with the executor given. *)
Definition runtimeAgent (e : executor) (w : S) : Runtime S :=
  MkRuntime e (executorConfigured w) (plannerMode w) (llmConfigured w).
Definition no_executor : executor := MkExecutor None None None None None None None None None None None.
Definition set_runtime (r : Runtime S) (w : S) : S :=
  set_agent (rt_ExecutorConfigured r) (rt_plannerMode r) (rt_llmConfigured r) (agentContext w) w.

(** [runtimeAgent.SetPlannerMode(mode)]; the executor plays no part. *)
Definition switchPlanner (mode : PlannerMode) : M ActionResult := λ w,
  match SetPlannerMode (Some (runtimeAgent no_executor w)) mode with
  | (r, Some rt) => Some (r, set_runtime rt w)
  | (r, None) => Some (r, w)
  end.

Definition agentSetMode : ActionHandler S := λ action context w,
  if act_TargetLen action =? 0 then Some (CurrentPlanner (runtimeAgent no_executor w), context, w)
  else
    mode ← targetMode action;
    match mode with
    | None => Some (MkActionResult false MessageUnsupportedMode, context, w)
    | Some mode =>
        '(r, w) ← switchPlanner mode w;
        let context := if ar_OK r then set_ctx_PlannerMode (plannerMode w) <$> context else context in
        Some (r, context, w)
    end.

(** A handler that does not look at the context. *)
Definition handler (f : Action → M ActionResult) : ActionHandler S := λ action context w,
  '(r, w) ← f action w; Some (r, context, w).

Definition NewAgentExecutor : executor :=
  MkExecutor (Some (handler agentListFiles)) (Some (handler agentReadFile)) (Some (handler agentWriteFile))
    (Some (handler agentDeleteFile)) (Some (handler agentStatFile)) (Some (handler agentShowHelp))
    (Some (handler agentShowHistory)) (Some (handler agentShowVersion)) (Some (handler agentShowTicks))
    (Some (handler agentShowMemoryMap)) (Some agentSetMode).

(** ** Commands: each gets the end of its own token and the end of the line *)
(** The next argument, or a message. *)
Definition withArg (start last : Z) (usage : string) (k : Z → Z → M unit) : M unit :=
  '(s, e, found) ← line (λ lb, nextArg lb start last);
  if negb found then println usage else k s e.

(** The next argument as a name in [tmpName], or a message. *)
Definition withName (start last : Z) (usage invalid : string) (k : Z → Z → M unit) : M unit :=
  withArg start last usage (λ s e,
    '(n, valid) ← copyName s e;
    if negb valid then println invalid else k n e).

Definition cmd_help : M unit :=
  println "Commands: help, history, clear, echo, ticks, uptime, mem, mmap, mmapmax, pfa, alloc, free, ls, write, cat, rm, stat, disk, fatinit, fatformat, fatinfo, fatls, fatcreate, fatread, layout, version, run, agent".

Definition cmd_clear : M unit := console con_clear.

Definition cmd_echo (cmdEnd last : Z) : M unit :=
  msgStart ← line (λ lb, trimLeft lb cmdEnd last);
  _ ← (if msgStart <? last then lb ← get lineBuf; console (printRange lb msgStart last) else mret tt);
  newline.

Definition cmd_ticks : M unit :=
  shown ← printTicks; if negb shown then println "ticks: not wired yet" else mret tt.

Definition cmd_uptime : M unit :=
  f ← get getSyscallTicks;
  match f with
  | None => println "uptime: not wired yet"
  | Some getSyscallTicks =>
      t ← call_kernel (λ c k, '(t, k) ← getSyscallTicks k; Some (t, c, k));
      let secs := t / 100 in
      let mins := secs / 60 in
      let secs := secs `mod` 60 in
      _ ← print "up "; _ ← console (printUint mins);
      _ ← print "m "; _ ← console (printUint secs);
      _ ← print "s ("; _ ← console (printUint t);
      println " ticks via SYS_GETTICKS)"
  end.

Definition cmd_mem (cmdEnd last : Z) : M unit :=
  withArg cmdEnd last "Usage: mem <hex_addr> [len]" (λ a1s a1e,
    '(addr, valid) ← line (λ lb, parseHex64 lb a1s a1e);
    if negb valid then println "mem: invalid hex address"
    else
      '(a2s, a2e, found) ← line (λ lb, nextArg lb a1e last);
      '(length, valid) ← (if found : bool then line (λ lb, parseDec lb a2s a2e) else mret (64, true));
      if negb valid then println "mem: invalid length"
      else
        let length := if length <? 1 then 1 else length in
        let length := if 512 <? length then 512 else length in
        w ← get (λ w, w);
        console (dumpMemory (probe w) addr length)).

Definition cmd_mmapmax : M unit :=
  n ← get (λ w, MMapCount (sh_mem w));
  maxEnd ← reads (λ w, for_do 0 n
    (λ i maxEnd, '(bLo, bHi, lLo, lHi, typ) ← MMapEntry i (sh_mem w);
       if negb (typ =? 1) then Some maxEnd
       else
         let base := Z.lor (u64 (Z.shiftl bHi 32)) bLo in
         let l := Z.lor (u64 (Z.shiftl lHi 32)) lLo in
         let end_ := u64 (base + l) in
         Some (if maxEnd <? end_ then end_ else maxEnd)) 0);
  _ ← print "mmap max end=0x"; _ ← console (printHexU64 maxEnd);
  newline.

Definition cmd_pfa : M unit :=
  m ← get sh_mem;
  if negb (PFAReady m) then println "pfa: not ready"
  else
    _ ← print "pages total="; _ ← console (printUint (TotalPages m));
    _ ← print " used="; _ ← console (printUint (UsedPages m));
    _ ← print " free="; _ ← console (printUint (FreePages m));
    newline.

Definition call_mem {A} (f : mem_state → option (A * mem_state)) : M A :=
  call_fs (λ s, '(a, m) ← f (world s); Some (a, set_world m s)).

Definition cmd_alloc : M unit :=
  m ← get sh_mem;
  if negb (PFAReady m) then println "alloc: pfa not ready"
  else
    addr ← call_mem AllocPage;
    if addr =? 0 then println "alloc: failed"
    else _ ← print "0x"; _ ← console (printHexU64 addr); newline.

Definition cmd_free (cmdEnd last : Z) : M unit :=
  m ← get sh_mem;
  if negb (PFAReady m) then println "free: pfa not ready"
  else
    withArg cmdEnd last "Usage: free <hex_addr>" (λ a1s a1e,
      '(addr, valid) ← line (λ lb, parseHex64 lb a1s a1e);
      if negb valid then println "free: invalid hex address"
      else
        freed ← call_mem (λ m, Some (FreePage addr m));
        if freed : bool then println "ok" else println "free: failed").

Definition cmd_ls : M unit := repeat_do 0 MaxFiles (λ i, _ ← printEntry i; mret tt).

Definition cmd_write (cmdEnd last : Z) : M unit :=
  withName cmdEnd last "Usage: write <name> <text...>" "write: invalid name" (λ nameLen a1e,
    msgStart ← line (λ lb, trimLeft lb a1e last);
    dataLen ← copyDataFromRange msgStart last;
    name ← get tmpName;
    written ← call_fs (Write name nameLen addr_tmpData dataLen);
    if negb written then println "write: failed" else println "ok").

(** The file named by the argument, or a message. *)
Definition withFile (cmdEnd last : Z) (usage invalid missing : string) (k : Z → Z → M unit) : M unit :=
  withName cmdEnd last usage invalid (λ nameLen _,
    name ← get tmpName;
    '(page, size, found) ← lookupFile name nameLen;
    if negb found then println missing else k page size).

Definition cmd_cat (cmdEnd last : Z) : M unit :=
  withFile cmdEnd last "Usage: cat <name>" "cat: invalid name" "cat: not found" printContents.

Definition cmd_rm (cmdEnd last : Z) : M unit :=
  withName cmdEnd last "Usage: rm <name>" "rm: invalid name" (λ nameLen _,
    name ← get tmpName;
    removed ← call_fs (Remove name nameLen);
    if removed : bool then println "ok" else println "rm: not found").

Definition cmd_stat (cmdEnd last : Z) : M unit :=
  withFile cmdEnd last "Usage: stat <name>" "stat: invalid name" "stat: not found" printStat.

(** *** Disk commands *)
Definition call_disk {A} (f : B → option (A * B)) : M A := λ w,
  match f (sh_disk w) with
  | Some (a, d) => Some (a, set_machine (sh_con w) (sh_fs w) (sh_fat w) d (sh_kernel w) w)
  | None => None
  end.

(** [ata.ReadSector(lba, &diskBuf)] and [ata.WriteSector(lba, &diskBuf)]. *)
Definition readDisk (lba : Z) : M bool :=
  buf ← load addr_diskBuf 512;
  '(r, buf) ← call_disk (λ d, '(r, b, d) ← ReadSector lba buf d; Some ((r, b), d));
  _ ← store addr_diskBuf buf;
  mret r.
Definition writeDisk (lba : Z) : M bool :=
  buf ← load addr_diskBuf 512;
  call_disk (WriteSector lba buf).

Definition disk_read (a1e last : Z) : M unit :=
  withArg a1e last "disk read: missing lba" (λ a2s a2e,
    '(vHex, okHex) ← line (λ lb, parseHex64 lb a2s a2e);
    '(lba, valid) ← (if okHex : bool then mret (i64 vHex, true) else line (λ lb, parseDec lb a2s a2e));
    if negb valid then println "disk read: invalid lba"
    else
      r ← readDisk (u32 lba);
      if r : bool then
        _ ← print "Read Sector "; _ ← console (printUint (u64 lba)); _ ← println " OK";
        w ← get (λ w, w);
        console (dumpMemory (λ a, Some (peek w a)) addr_diskBuf 512)
      else println "Read Failed").

Definition disk_write (a1e last : Z) : M unit :=
  withArg a1e last "disk write: missing lba" (λ a2s a2e,
    '(vDec, okDec) ← line (λ lb, parseDec lb a2s a2e);
    '(lba, valid) ← (if okDec : bool then mret (vDec, true)
                     else '(vHex, okHex) ← line (λ lb, parseHex64 lb a2s a2e); mret (i64 vHex, okHex));
    if negb valid then println "disk write: invalid lba"
    else
      msgStart ← line (λ lb, trimLeft lb a2e last);
      _ ← store addr_diskBuf (replicate 512 0);
      _ ← store_line addr_diskBuf msgStart (Z.min (last - msgStart) 512);
      r ← writeDisk (u32 lba);
      if r : bool then _ ← print "Write Sector "; _ ← console (printUint (u64 lba)); println " OK"
      else println "Write Failed").

(** False when the code falls through to the commands behind it. *)
Definition cmd_disk (cmdEnd last : Z) : M bool :=
  '(a1s, a1e, found) ← line (λ lb, nextArg lb cmdEnd last);
  if negb found then and_true (println "Usage: disk <read|write> <lba> [text]")
  else
    r ← matchLit a1s a1e "read";
    if r : bool then and_true (disk_read a1e last)
    else
      r ← matchLit a1s a1e "write";
      if r : bool then and_true (disk_write a1e last) else mret false.

(** *** FAT16 commands *)
Definition cmd_fatinit : M unit :=
  r ← call_fat Fat16.Init; if r : bool then println "FAT16 Initialized" else println "FAT16 Init Failed".
Definition cmd_fatformat : M unit :=
  r ← call_fat Fat16.Format; if r : bool then println "FAT16 Formatted" else println "FAT16 Format Failed".
Definition cmd_fatinfo : M unit := call_fat (λ s, s ← Fat16.Info s; Some (tt, s)).
Definition cmd_fatls : M unit := call_fat (λ s, s ← Fat16.ListDir s; Some (tt, s)).

(** The argument in upper case, cut to 8 characters and padded with blanks. *)
Definition fat_name (a1s a1e : Z) (lb : list Z) : option (list Z) :=
  let nameLen := a1e - a1s in
  let nameLen := if 8 <? nameLen then 8 else nameLen in
  for_do 0 nameLen
    (λ i fname, c ← aget lb (a1s + i);
       let c := if (97 <=? c) && (c <=? 122) then u8 (u8 (c - 97) + 65) else c in
       aset fname i c) (replicate 8 32).

Definition fat_data (msgStart n : Z) (lb : list Z) : option (list Z) :=
  for_do 0 n (λ idx d, c ← aget lb (msgStart + idx); aset d idx c) (replicate 512 0).

Definition fat_ext : list Z := replicate 3 32.

Definition cmd_fatcreate (cmdEnd last : Z) : M unit :=
  withArg cmdEnd last "Usage: fatcreate <filename> <content>" (λ a1s a1e,
    fname ← line (fat_name a1s a1e);
    msgStart ← line (λ lb, trimLeft lb a1e last);
    let idx := Z.max 0 (Z.min (last - msgStart) 512) in
    dataBuf ← line (fat_data msgStart idx);
    r ← call_fat (Fat16.CreateFile fname fat_ext dataBuf (u32 idx));
    if r : bool then println "File created" else println "Failed to create file").

Definition cmd_fatread (cmdEnd last : Z) : M unit :=
  withArg cmdEnd last "Usage: fatread <filename>" (λ a1s a1e,
    fname ← line (fat_name a1s a1e);
    buf ← load addr_diskBuf 512;
    '(size, found, out) ← call_fat (λ s, '(n, b, out, s) ← Fat16.ReadFile fname fat_ext buf s; Some ((n, b, out), s));
    _ ← store addr_diskBuf out;
    if negb found then println "File not found"
    else
      _ ← repeat_do 0 (Z.min size 512) (λ i, b ← get (λ w, peek w (u64 (addr_diskBuf + i))); putRune b);
      newline).

(** *** Layout, programs *)
Definition cmd_layout (cmdEnd last : Z) : M unit :=
  '(a1s, a1e, found) ← line (λ lb, nextArg lb cmdEnd last);
  if negb found then
    _ ← print "current layout: ";
    cur ← get currentLayout;
    _ ← console (Print cur);
    newline
  else
    us ← matchLit a1s a1e "us";
    it ← (if us : bool then mret false else matchLit a1s a1e "it");
    if negb us && negb it then println "Usage: layout [us|it]"
    else
      let target := if us : bool then gs "us" else gs "it" in
      _ ← modify (λ w, set_layouts (currentLayout w) target w);
      f ← get switchLayoutFn;
      match f with
      | None => println "layout: switcher not wired"
      | Some switchLayout =>
          switched ← call_kernel (λ c k, '(b, k) ← switchLayout target k; Some (b, c, k));
          if negb switched then println "layout: failed to switch"
          else
            _ ← modify (set_layouts target target);
            _ ← print "layout: switched to "; _ ← console (Print target);
            newline
      end.

Definition cmd_run (cmdEnd last : Z) : M unit :=
  withArg cmdEnd last "Usage: run <program>" (λ a1s a1e,
    f ← get runProgram;
    match f with
    | None => println "run: runner not wired"
    | Some runProgram =>
        '(nameLen, valid) ← copyName a1s a1e;
        if negb valid then println "run: invalid name"
        else
          name ← get tmpName;
          '(pid, started) ← call_kernel (λ c k, '(pid, b, c, k) ← runProgram name nameLen c k; Some ((pid, b), c, k));
          if negb started then println "run: not found or no slot"
          else _ ← print "started pid="; _ ← console (printUint (u64 pid)); newline
    end).

(** *** The agent *)
(** A call into the runtime with [&agentContext]: what it leaves there is written back. *)
Definition call_agent (f : option Context → S → option (MessageKind * option Context * S)) : M MessageKind := λ w,
  match f (Some (agentContext w)) w with
  | Some (m, Some c, w) => Some (m, set_context c w)
  | Some (m, None, w) => Some (m, w)
  | None => None
  end.

(** The line as an array of [agent.MaxContextInput] bytes. *)
Definition agent_input (inputStart inputLen : Z) (lb : list Z) : option (list Z) :=
  for_do 0 inputLen (λ i input, c ← aget lb (inputStart + i); aset input i c) (replicate 128 0).

Definition agentRequest (e : executor) (kind : ActionKind) (intent : IntentKind) (risk : RiskLevel)
    (target : option (list Z)) (targetLen inputStart inputEnd : Z) : M MessageKind :=
  let inputLen := inputEnd - inputStart in
  input ← line (agent_input inputStart inputLen);
  r ← get (runtimeAgent e);
  call_agent (RunActionRequestMessage (Some r) kind intent risk target targetLen (Some input) inputLen).

Definition runAgentNoTarget (e : executor) (kind : ActionKind) (intent : IntentKind) (risk : RiskLevel)
    (inputStart inputEnd : Z) : M unit :=
  message ← agentRequest e kind intent risk None 0 inputStart inputEnd;
  _ ← printAgentMessage message;
  newline.

Definition runAgentAction (e : executor) (kind : ActionKind) (intent : IntentKind) (risk : RiskLevel)
    (targetStart targetEnd inputStart inputEnd : Z) : M unit :=
  '(targetLen, valid) ← copyName targetStart targetEnd;
  if negb valid then println "agent: invalid target"
  else
    name ← get tmpName;
    message ← agentRequest e kind intent risk (Some name) targetLen inputStart inputEnd;
    _ ← (if decide (message = MessageConfirmationRequired ∧ kind = ActionDeleteFile) then
           _ ← console (Print (gs "Agent understood: delete file " ++ [34]));
           name ← get tmpName;
           _ ← console (printName name targetLen);
           console (Print [34; 10])
         else mret tt);
    _ ← printAgentMessage message;
    newline.

Definition runAgentTransportProbe : M unit :=
  '(responseLen, res, resp) ← (λ w,
    req ← put_all (zip (seqZ 0 4) (gs "ping")) (transportRequest w);
    '(n, res, resp, s) ← Exchange (Some req) 4 (Some (transportResponse w)) (sh_serial w);
    let resp := default (transportResponse w) resp in
    Some ((n, res, resp), set_transport req resp s w));
  if decide (res ≠ ResultOK) then _ ← console (Print (transportError res)); newline
  else
    pong ← lift (and_then (Some (responseLen =? 4)) (match_bytes 4 (aget resp) (aget (gs "pong"))));
    if negb pong then println "agent: transport invalid response" else println "Agent transport: connected".

Definition agent_show (e : executor) (a1e start last : Z) : M unit :=
  withArg a1e last "Usage: agent show <files|history|version|ticks|memorymap>" (λ a2s a2e,
    m ← matchLit a2s a2e "files";
    if m : bool then runAgentNoTarget e ActionListFiles IntentListFiles RiskSafe start last else
    m ← matchLit a2s a2e "history";
    if m : bool then runAgentNoTarget e ActionShowHistory IntentShowHistory RiskSafe start last else
    m ← matchLit a2s a2e "version";
    if m : bool then runAgentNoTarget e ActionShowVersion IntentShowVersion RiskSafe start last else
    m ← matchLit a2s a2e "ticks";
    if m : bool then runAgentNoTarget e ActionShowTicks IntentShowTicks RiskSafe start last else
    m ← matchLit a2s a2e "memorymap";
    m ← (if m : bool then mret true else matchLit a2s a2e "memory_map");
    if m : bool then runAgentNoTarget e ActionShowMemoryMap IntentShowMemoryMap RiskSafe start last else
    println "Usage: agent show <files|history|version|ticks|memorymap>").

Definition agent_mode (e : executor) (a1e start last : Z) : M unit :=
  '(a2s, a2e, found) ← line (λ lb, nextArg lb a1e last);
  if found : bool then runAgentAction e ActionSetMode IntentSetMode RiskSafe a2s a2e start last
  else runAgentNoTarget e ActionSetMode IntentSetMode RiskSafe start last.

Definition agent_transport (a1e last : Z) : M unit :=
  withArg a1e last "Usage: agent transport ping" (λ a2s a2e,
    '(_, _, extra) ← line (λ lb, nextArg lb a2e last);
    ping ← (if extra : bool then mret false else matchLit a2s a2e "ping");
    if negb ping then println "Usage: agent transport ping" else runAgentTransportProbe).

Definition cmd_agent (e : executor) (cmdEnd start last : Z) : M unit :=
  withArg cmdEnd last "Usage: agent <show|read|stat|delete|mode|transport|context|help> [arg]" (λ a1s a1e,
    m ← matchLit a1s a1e "show";
    if m : bool then agent_show e a1e start last else
    m ← matchLit a1s a1e "read";
    if m : bool then withArg a1e last "Usage: agent read <name>" (λ a2s a2e,
      runAgentAction e ActionReadFile IntentReadFile RiskSafe a2s a2e start last) else
    m ← matchLit a1s a1e "delete";
    if m : bool then withArg a1e last "Usage: agent delete <name>" (λ a2s a2e,
      runAgentAction e ActionDeleteFile IntentDeleteFile RiskRisky a2s a2e start last) else
    m ← matchLit a1s a1e "stat";
    if m : bool then withArg a1e last "Usage: agent stat <name>" (λ a2s a2e,
      runAgentAction e ActionStatFile IntentStatFile RiskSafe a2s a2e start last) else
    m ← matchLit a1s a1e "mode";
    if m : bool then agent_mode e a1e start last else
    m ← matchLit a1s a1e "transport";
    if m : bool then agent_transport a1e last else
    m ← matchLit a1s a1e "context";
    if m : bool then printAgentContext else
    m ← matchLit a1s a1e "help";
    if m : bool then runAgentNoTarget e ActionShowHelp IntentShowHelp RiskSafe start last else
    println "Try with agent help to see available commands").

(** ** Dispatch *)
(** The commands close to what was typed. *)
Definition suggestions (cmdStart cmdEnd : Z) (lb : list Z) : option (list (list Z)) :=
  for_do 0 (len commandBuf)
    (λ i acc, cmd ← aget commandBuf i;
       d ← calculateDistance lb cmdStart cmdEnd cmd;
       Some (if d <? maxDistanceThreshold then acc ++ [cmd] else acc)) [].

Definition suggest (cmdStart cmdEnd : Z) : M unit :=
  suggestionBuf ← line (suggestions cmdStart cmdEnd);
  if 0 <? len suggestionBuf then
    _ ← print "Did you mean '";
    _ ← repeat_do 0 (len suggestionBuf)
          (λ i, _ ← (if 0 <? i then print " " else mret tt);
             s ← lift (aget suggestionBuf i);
             console (Print s));
    _ ← print "'?";
    newline
  else
    _ ← print "Unknown command: ";
    lb ← get lineBuf;
    _ ← console (printRange lb cmdStart cmdEnd);
    newline.

(** [if matchLiteral(cmdStart, cmdEnd, lit) { body; return }; rest]. *)
Definition on (cmdStart cmdEnd : Z) (lit : string) (body rest : M unit) : M unit :=
  m ← matchLit cmdStart cmdEnd lit; if m : bool then body else rest.

(** From [fatinit] on. *)
Definition dispatch_rest (e : executor) (start last cmdStart cmdEnd : Z) : M unit :=
  let on := on cmdStart cmdEnd in
  on "fatinit" cmd_fatinit $
  on "fatformat" cmd_fatformat $
  on "fatinfo" cmd_fatinfo $
  on "fatls" cmd_fatls $
  on "fatcreate" (cmd_fatcreate cmdEnd last) $
  on "fatread" (cmd_fatread cmdEnd last) $
  on "layout" (cmd_layout cmdEnd last) $
  on "version" printVersion $
  on "run" (cmd_run cmdEnd last) $
  on "agent" (cmd_agent e cmdEnd start last) $
  suggest cmdStart cmdEnd.

Definition dispatch (e : executor) (start last : Z) : M unit :=
  '(cmdStart, cmdEnd) ← line (λ lb, firstToken lb start last);
  let on := on cmdStart cmdEnd in
  on "history" showHistory $
  on "help" cmd_help $
  on "clear" cmd_clear $
  on "echo" (cmd_echo cmdEnd last) $
  on "ticks" cmd_ticks $
  on "uptime" cmd_uptime $
  on "mem" (cmd_mem cmdEnd last) $
  on "mmap" printMemoryMap $
  on "mmapmax" cmd_mmapmax $
  on "pfa" cmd_pfa $
  on "alloc" cmd_alloc $
  on "free" (cmd_free cmdEnd last) $
  on "ls" cmd_ls $
  on "write" (cmd_write cmdEnd last) $
  on "cat" (cmd_cat cmdEnd last) $
  on "rm" (cmd_rm cmdEnd last) $
  on "stat" (cmd_stat cmdEnd last) $
  on "disk" (returned ← cmd_disk cmdEnd last;
             if returned : bool then mret tt else dispatch_rest e start last cmdStart cmdEnd) $
  dispatch_rest e start last cmdStart cmdEnd.

Definition execute (e : executor) : M unit :=
  n ← get lineLen;
  start ← line (λ lb, trimLeft lb 0 n);
  last ← line (λ lb, trimRight lb start n);
  pending ← get (λ w, ctx_ConfirmationPending (agentContext w));
  if pending : bool then
    yes ← (if start <? last then matchLit start last "yes" else mret false);
    r ← get (runtimeAgent e);
    message ← call_agent (ConfirmActionMessage (Some r) yes);
    _ ← printAgentMessage message;
    newline
  else if last <=? start then mret tt
  else
    h ← reads (λ w, addHistory (lineBuf w) start last (sh_history w));
    _ ← modify (set_history h);
    dispatch e start last.

Definition FeedRune (e : executor) (r : Z) : M unit :=
  let r := if r =? 13 then 10 else r in
  if r =? 8 then
    n ← get lineLen;
    if n =? 0 then mret tt
    else _ ← modify (λ w, set_line (lineBuf w) (n - 1) w); console con_backspace
  else if r =? 10 then
    _ ← putRune 10;
    _ ← execute e;
    _ ← modify (λ w, set_line (lineBuf w) 0 w);
    print "> "
  else if (r <? 32) || (126 <? r) then mret tt
  else
    n ← get lineLen;
    if maxLine <=? n then mret tt
    else
      lb ← line (λ lb, aset lb n (u8 r));
      _ ← modify (set_line lb (n + 1));
      putRune r.

Definition Init : M unit :=
  _ ← modify (λ w, set_context zero_Context (set_line (lineBuf w) 0 w));
  _ ← println ("Welcome to " +:+ osName +:+ " " +:+ osVersion);
  print "> ".

(** ** Wiring *)
Record os_shell := OsShell { sh_executor : executor; sh_state : S }.

Definition SetTickProvider fn (s : os_shell) : os_shell :=
  let w := sh_state s in
  OsShell (sh_executor s) (set_hooks fn (getSyscallTicks w) (runProgram w) (switchLayoutFn w) w).
Definition SetSyscallTickProvider fn (s : os_shell) : os_shell :=
  let w := sh_state s in
  OsShell (sh_executor s) (set_hooks (getTicks w) fn (runProgram w) (switchLayoutFn w) w).
Definition SetProgramRunner fn (s : os_shell) : os_shell :=
  let w := sh_state s in
  OsShell (sh_executor s) (set_hooks (getTicks w) (getSyscallTicks w) fn (switchLayoutFn w) w).
Definition SetLayoutSwitcher fn (s : os_shell) : os_shell :=
  let w := sh_state s in
  OsShell (sh_executor s) (set_hooks (getTicks w) (getSyscallTicks w) (runProgram w) fn w).
Definition SetInitialLayout (name : list Z) (s : os_shell) : os_shell :=
  OsShell (sh_executor s) (set_layouts name (targetLayout (sh_state s)) (sh_state s)).

Definition SetAgentRuntime (runtime : option (Runtime S)) (s : os_shell) : os_shell :=
  let configured := match runtime with None => false | Some r => rt_ExecutorConfigured r end in
  let e := match runtime with None => no_executor | Some r => rt_Executor r end in
  match CopyPlannerConfiguration
          (Some (MkRuntime e configured (plannerMode (sh_state s)) (llmConfigured (sh_state s)))) runtime with
  | Some r => OsShell e (set_agent (rt_ExecutorConfigured r) (rt_plannerMode r) (rt_llmConfigured r)
                           zero_Context (sh_state s))
  | None => s
  end.

Definition ConfigureAgentRuntime (s : os_shell) : os_shell :=
  let w := sh_state s in
  match CopyPlannerConfiguration (Some (runtimeAgent (sh_executor s) w)) None with
  | Some r =>
      OsShell NewAgentExecutor (set_agent true (rt_plannerMode r) (rt_llmConfigured r) (agentContext w) w)
  | None => s
  end.
End shell.
