(* ===== verification/ShellSafe.v ===== *)
(** * Package [shell]: the commands keep the invariant

    Every command of [src/shell/shell.go] and every handler it gives to the agent returns
    and keeps [shell_ok], whatever is on the line, in memory, on the disk, in the file table
    and on the serial line.  Commands that only print are shown to change nothing else
    ([quiet]); those that work on files leave the agent's context alone ([same_agent]). *)
From S2P Require Import Prelude PageAlloc Mem Fs FsSafe PortIO Terminal Serial AgentTypes Agent AgentGate.
From S2P Require Import Disk Fat16 FatSafe Line Output History ShellState ShellInv Shell.
Local Open Scope Z_scope.

Create HintDb shell discriminated.
#[export] Hint Resolve safe_Print safe_print safe_println safe_putRune safe_newline safe_printHexU64
  safe_printHex64 safe_printUint : shell.
#[export] Hint Extern 1 (safe _ _ _ _ _ _ (mret _)) => apply safe_ret; [apply _|exact I] : shell.
#[export] Hint Extern 1 (safe _ _ _ _ _ _ (if _ then _ else _)) => apply safe_if : shell.
#[export] Hint Extern 1 (PreOrder _) => apply _ : shell.

(** Runs the first action of a sequence; its result is in [P]. *)
Tactic Notation "bind" uconstr(P) "by" tactic3(tac) :=
  apply (safe_bind _ _ _ _ _ P); [solve [tac] | cbv beta].

(** Runs every action known to the hints. *)
Ltac run :=
  repeat first
    [ progress cbv zeta beta
    | solve [eauto 8 with shell]
    | apply safe_ret; [apply _|done]
    | apply safe_if
    | apply (safe_bind _ _ _ _ _ (λ _, True)); [solve [eauto 8 with shell] | intros _ _] ].

(** ** The memory a [mem] command asks for *)
Definition hex_number (t : list Z) : option Z :=
  let h := strip_0x t in
  if bool_decide (h ≠ []) && forallb is_hex h then Some (u64 (hexdigits_val h)) else None.
Definition dec_number (t : list Z) : option Z :=
  if bool_decide (t ≠ []) && forallb is_dec t then Some (i64 (dec_val t)) else None.

(** Address and length from the arguments. *)
Definition dump_args (ws : list (list Z)) : option (Z * Z) :=
  match ws with
  | [] => None
  | a :: rest =>
      addr ← hex_number a;
      n ← match rest with [] => Some 64 | b :: _ => dec_number b end;
      Some (addr, Z.max 1 (Z.min n 512))
  end.

(** Some byte asked for lies outside the mapped memory. *)
Definition dump_fault (req : option (Z * Z)) : Prop :=
  match req with
  | Some (addr, n) => Exists (λ j, mapped_end ≤ u64 (addr + j)) (seqZ 0 n)
  | None => False
  end.

#[export] Instance dump_fault_dec req : Decision (dump_fault req).
Proof. destruct req as [[]|]; apply _. Defined.

(** The line is [mem <addr> [len]] and leaves the mapped memory. *)
Definition dumps_unmapped (t : list Z) : Prop :=
  match words t with
  | c :: ws => c = gs "mem" ∧ dump_fault (dump_args ws)
  | [] => False
  end.

#[export] Instance dumps_unmapped_dec t : Decision (dumps_unmapped t).
Proof. unfold dumps_unmapped. destruct (words t); apply _. Defined.

(** ** Facts about the line used by the commands *)
Lemma scan_range lb s e p : len lb = maxLine → in_line s e → ok (scan_while lb p s e) (λ i, s ≤ i ≤ e).
Proof. intros. eapply ok_mono; [by apply scan_while_ok|]. by intros i (?&_). Qed.

Lemma trimLeft_range lb s e : len lb = maxLine → in_line s e → ok (trimLeft lb s e) (λ i, s ≤ i ≤ e).
Proof. apply scan_range. Qed.

Lemma trimRight_range lb s e : len lb = maxLine → in_line s e → ok (trimRight lb s e) (λ i, s ≤ i ≤ e).
Proof. intros. eapply ok_mono; [by apply trimRight_ok|]. by intros i (?&_). Qed.

(** The bounds of an argument. *)
Definition arg_in (s e : Z) (r : Z * Z * bool) : Prop :=
  let '(s', e', found) := r in found = true → s ≤ s' ∧ s' < e' ∧ e' ≤ e.

Lemma nextArg_range lb s e : len lb = maxLine → in_line s e → ok (nextArg lb s e) (arg_in s e).
Proof.
  intros. eapply ok_mono; [by apply nextArg_ok|]. intros [[s' e'] []]; [|done]. by intros (?&?&?&_) _.
Qed.

Lemma firstToken_range lb s e :
  len lb = maxLine → in_line s e → ok (firstToken lb s e) (λ '(s', e'), s' = s ∧ s ≤ e' ≤ e).
Proof. intros. unfold firstToken. call scan_range; [done..|]. by intros i Hi. Qed.

Lemma matchLiteral_total lb s e lit : len lb = maxLine → in_line s e → ok (matchLiteral lb s e lit) (λ _, True).
Proof. intros. by rewrite matchLiteral_spec. Qed.

Lemma parseDec_total lb s e : line_ok lb → in_line s e → ok (parseDec lb s e) (λ _, True).
Proof. intros. by rewrite parseDec_spec. Qed.

Lemma parseHex64_total lb s e : line_ok lb → in_line s e → ok (parseHex64 lb s e) (λ _, True).
Proof. intros [??] ?. by rewrite parseHex64_spec. Qed.

Lemma line_get lb i : line_ok lb → 0 ≤ i < maxLine → ok (aget lb i) (λ c, in_u8 c).
Proof.
  intros [Hl Hb] Hi. destruct (aget_Some lb i) as [c Hc]; [lia|]. rewrite Hc. cbn [ok].
  apply aget_elem in Hc. by eapply Forall_forall in Hb.
Qed.

Lemma in_line_sub s e s' e' : in_line s e → s ≤ s' → s' ≤ e' → e' ≤ e → in_line s' e'.
Proof. intros [??] ? ? ?. split; lia. Qed.

Section safety.
Context {K C B L : Type} `{!TextConsole C} `{!TextConsoleLaws C} `{!Disk B} `{!DiskTotal B}.
Context `{!PortIO L} `{!PortIOLaws L}.
Context (addr_tmpData addr_diskBuf addr_actionData : Z).
Context (kernel_ok : K → Prop).

Abbreviation safe := (safe (L := L) (B := B) addr_tmpData addr_diskBuf addr_actionData kernel_ok).
Abbreviation shell_ok := (shell_ok (L := L) (B := B) addr_tmpData addr_diskBuf addr_actionData kernel_ok).
Abbreviation any := (λ _, True).
Implicit Types w : shell K C B L.

Lemma safe_lift {A} R `{!PreOrder R} (P : A → Prop) (m : option A) : ok m P → safe R P (lift m).
Proof. intros Hm. by apply safe_reads. Qed.

(** ** Shared pieces *)
Lemma safe_nextArg R `{!PreOrder R} s e : in_line s e → safe R (arg_in s e) (line (λ lb, nextArg lb s e)).
Proof. intros. apply safe_line; [done|]. intros lb [??]. by apply nextArg_range. Qed.

Lemma safe_trimLeft R `{!PreOrder R} s e : in_line s e → safe R (λ i, s ≤ i ≤ e) (line (λ lb, trimLeft lb s e)).
Proof. intros. apply safe_line; [done|]. intros lb [??]. by apply trimLeft_range. Qed.

Lemma safe_matchLit R `{!PreOrder R} s e lit : in_line s e → safe R any (matchLit s e lit).
Proof. intros. apply safe_line; [done|]. intros lb [??]. by apply matchLiteral_total. Qed.

Lemma safe_parseDec R `{!PreOrder R} s e : in_line s e → safe R any (line (λ lb, parseDec lb s e)).
Proof. intros. apply safe_line; [done|]. intros lb ?. by apply parseDec_total. Qed.

Lemma safe_parseHex64 R `{!PreOrder R} s e : in_line s e → safe R any (line (λ lb, parseHex64 lb s e)).
Proof. intros. apply safe_line; [done|]. intros lb ?. by apply parseHex64_total. Qed.

(** A relation that allows output. *)
Class Prints (R : relation (shell K C B L)) : Prop := { prints_po :: PreOrder R; prints w w' : quiet w w' → R w w' }.
#[local] Instance quiet_prints : Prints quiet.
Proof. split; [apply _|done]. Qed.
#[local] Instance agent_prints : Prints same_agent.
Proof. split; [apply _|]. by intros w w' [? _]. Qed.
#[local] Instance line_prints : Prints same_line.
Proof. split; [apply _|]. by intros w w' [[? _] _]. Qed.

Lemma safe_quiet {A} R `{!Prints R} (P : A → Prop) m : safe quiet P m → safe R P m.
Proof. apply safe_weaken, prints. Qed.
Hint Extern 2 (ShellInv.safe _ _ _ _ ?R _ _) => lazymatch R with quiet => fail | _ => apply safe_quiet end : shell.
Hint Extern 1 (Prints _) => apply _ : shell.

Lemma safe_withArg R `{!Prints R} s e usage k :
  in_line s e → (∀ s' e', s ≤ s' → s' < e' → e' ≤ e → safe R any (k s' e')) →
  safe R any (withArg s e usage k).
Proof.
  intros Hse Hk. unfold withArg. bind (arg_in s e) by (by apply safe_nextArg; [apply _|]).
  intros [[s' e'] []] Ha; cbn [negb]; [|run]. destruct Ha as (?&?&?); [done|]. by apply Hk.
Qed.

Lemma safe_copyName R `{!Prints R} s e :
  in_line s e → safe R (λ '(n, found), found = true → 1 ≤ n ≤ 16) (copyName s e).
Proof.
  intros Hse. apply safe_quiet; [done|]. unfold copyName.
  bind (λ '(n, found, t), len t = 16 ∧ (found = true → 1 ≤ n ≤ 16)) by
    (apply safe_reads; [apply _|]; intros w Hw; eapply ok_mono;
     [apply copyNameFromRange_ok; [apply (so_line _ _ _ _ _ Hw)|done|apply Hw]|];
     intros [[n []] t] (?&?); naive_solver).
  intros [[n found] t] [Ht Hf].
  bind (λ _, True) by (apply safe_modify; intros w Hw; split; [by apply shell_ok_name|done]).
  intros _ _. by apply safe_ret; [apply _|].
Qed.

Lemma safe_withName R `{!Prints R} s e usage invalid k :
  in_line s e → (∀ n e', 1 ≤ n ≤ 16 → s ≤ e' → e' ≤ e → safe R any (k n e')) →
  safe R any (withName s e usage invalid k).
Proof.
  intros Hse Hk. apply safe_withArg; [done|done|]. intros s' e' ? ? ?.
  bind (λ '(n, found), found = true → 1 ≤ n ≤ 16) by (apply safe_copyName; [done|apply (in_line_sub s e); [done|lia..]]).
  intros [n []] Hn; cbn [negb]; [|run]. apply Hk; [auto|lia|lia].
Qed.

(** ** Output *)
Lemma safe_printVersion : safe quiet any printVersion.
Proof. unfold printVersion. run. Qed.

Lemma safe_hook (f : K → option (Z * K)) : (∀ k, kernel_ok k → ok (f k) (λ '(_, k'), kernel_ok k')) →
  safe quiet any (call_kernel (λ c k, '(t, k) ← f k; Some (t, c, k))).
Proof.
  intros Hf. apply safe_kernel. intros c k Hc Hk. call Hf; [done|]. by intros [t k'] Hk'.
Qed.

Lemma safe_printTicks : safe quiet any printTicks.
Proof.
  unfold printTicks.
  bind (λ f, match f with Some f => ∀ k, kernel_ok k → ok (f k) (λ '(_, k'), kernel_ok k') | None => True end) by
    (apply safe_get; [apply _|]; intros w Hw; destruct (getTicks w) eqn:E; [|done];
     intros k Hk; by apply (hk_ticks _ _ _ _ _ (so_hooks _ _ _ _ _ Hw))).
  intros [f|] Hf; [|run]. bind (λ _, True) by (by apply safe_hook). intros t _. run.
Qed.

Lemma MMapEntry_total i m : mmap_ok m → ok (MMapEntry i m) (λ _, True).
Proof.
  intros [Hl Hc]. unfold MMapEntry. destruct (Z.ltb_spec i 0), (Z.leb_spec (mmapCount m) i); cbn [orb ok]; try done.
  destruct (aget_Some (mmapEntries m) i) as [e ->]; [lia|done].
Qed.

Lemma safe_printMemoryMap : safe quiet any printMemoryMap.
Proof.
  unfold printMemoryMap. bind (λ _, True) by (by apply safe_get; [apply _|]). intros n _.
  apply safe_repeat'; [apply _|]. intros i _.
  bind (λ _, True) by (apply safe_reads; [apply _|]; intros w Hw; apply MMapEntry_total, Hw).
  intros [[[[bLo bHi] lLo] lHi] typ] _. run.
Qed.

Lemma safe_showHistory : safe quiet any showHistory.
Proof.
  unfold showHistory. bind history_ok by (apply safe_get; [apply _|]; intros w Hw; apply Hw).
  intros h Hh. eapply safe_prints. intros c. by apply printHistory_Print.
Qed.

Lemma safe_printEntry i : 0 ≤ i < maxFiles → safe quiet any (printEntry i).
Proof.
  intros Hi. unfold printEntry.
  bind (λ '(u, nm, n, k, p), u = true → ∃ name, nm = Some name ∧ 0 ≤ n ≤ len name ∧ in_u64 k ∧ in_u64 p) by
    (apply safe_reads; [apply _|]; intros w Hw; apply Entry_safe; [apply Hw|done]).
  intros [[[[u nm] n] k] p] Hu. destruct u; cbn [negb]; [|run]. destruct (Hu eq_refl) as (name&->&Hn&_).
  bind (λ _, True) by (eapply safe_prints; intros c; by apply printName_Print). intros _ _.
  unfold and_true. run.
Qed.

Lemma safe_printContents page size : safe quiet any (printContents page size).
Proof.
  unfold printContents.
  bind (λ _, True) by (apply safe_repeat'; [apply _|]; intros i _;
    bind (λ _, True) by (by apply safe_get; [apply _|]); intros b _; run).
  intros _ _. run.
Qed.

Lemma safe_printStat page size : safe quiet any (printStat page size).
Proof. unfold printStat. run. Qed.

Lemma safe_lookupFile R `{!PreOrder R} name n :
  len name = 16 → 1 ≤ n ≤ 16 → safe R any (lookupFile name n).
Proof.
  intros Hn Hr. unfold lookupFile. apply safe_reads; [done|]. intros w Hw.
  eapply ok_mono; [apply Lookup_safe; [apply Hw|done|done]|done].
Qed.

Lemma safe_agentMessage m : safe quiet any (printAgentMessage m).
Proof. apply safe_Print. Qed.

Lemma safe_contextKind k : 0 ≤ k → safe quiet any (printAgentContextKind k).
Proof.
  intros Hk. unfold printAgentContextKind. cbv zeta. change (len agentContextKindNames) with 12.
  bind (λ _, True) by (apply safe_lift; [apply _|];
    destruct (aget_Some agentContextKindNames (if 12 <=? k then 0 else k)) as [x ->]; [|done];
    change (len agentContextKindNames) with 12; destruct (Z.leb_spec 12 k); lia).
  intros x _. run.
Qed.

Lemma action_u8_nonneg k : 0 ≤ action_u8 k.
Proof. destruct k; cbn; try lia. apply u8_range. Qed.
Lemma intent_u8_nonneg k : 0 ≤ intent_u8 k.
Proof. destruct k; cbn; try lia. apply u8_range. Qed.

Hint Resolve safe_printVersion safe_printTicks safe_printMemoryMap safe_showHistory safe_printContents safe_printStat
  safe_agentMessage safe_contextKind action_u8_nonneg intent_u8_nonneg : shell.

Lemma safe_printAgentContext : safe quiet any printAgentContext.
Proof.
  unfold printAgentContext. bind ctx_ok by (apply safe_get; [apply _|]; intros w Hw; apply Hw).
  intros c [[Hl _] Hi _]. run.
  - bind (λ _, True) by (run; apply safe_repeat'; [apply _|]; intros i Hii;
      bind (λ _, True) by (apply safe_lift; [apply _|];
        destruct (aget_Some (ctx_LastInput c) i) as [x ->]; [unfold MaxContextInput in *; lia|done]);
      intros x _; run).
    intros _ _. run.
    bind (λ _, True) by (destruct (ctx_LastResultSummary c); run). intros _ _. run.
    bind (λ _, True) by (case_decide; run). intros _ _. run.
Qed.

(** ** The agent's handlers *)
Lemma safe_result R `{!PreOrder R} b m : safe R any (result b m).
Proof. by apply safe_ret. Qed.
Hint Extern 1 (ShellInv.safe _ _ _ _ _ _ (result _ _)) => apply safe_result; apply _ : shell.

Lemma safe_agentListFiles a : safe quiet any (agentListFiles a).
Proof.
  unfold agentListFiles.
  assert (safe quiet any ((λ w, for_do 0 MaxFiles
             (λ i '(count, w), '(used, w) ← printEntry i w;
                Some (if used : bool then count + 1 else count, w)) (0, w)) : ShellState.M K C B L Z)) as Hloop.
  { intros w Hw. unfold wp.
    apply (for_do_ok (λ _ '(_, w'), shell_ok w' ∧ quiet w w')); [done|done| |].
    - intros i [n w1] Hi [Hw1 HR]. pose proof (safe_printEntry i Hi w1 Hw1) as Hp. unfold wp in Hp.
      apply ok_bind. eapply ok_mono; [exact Hp|]. intros [u w2] (_&?&?). split; [done|by etrans].
    - intros [n w1] [??]. done. }
  bind (λ _, True) by (exact Hloop). intros n _. run.
Qed.

Definition action_ok (a : Action) : Prop :=
  len (act_Target a) = 16 ∧ 0 ≤ act_TargetLen a ≤ 16 ∧ len (act_Data a) = 128 ∧ Forall (λ x, in_u8 x) (act_Data a).

Lemma safe_agentReadFile a : action_ok a → safe quiet any (agentReadFile a).
Proof.
  intros (?&?&_). unfold agentReadFile. destruct (Z.leb_spec (act_TargetLen a) 0); [run|].
  bind (λ _, True) by (apply safe_lookupFile; [apply _|done|lia]). intros [[page size] found] _. run.
Qed.

Lemma safe_agentStatFile a : action_ok a → safe quiet any (agentStatFile a).
Proof.
  intros (?&?&_). unfold agentStatFile. destruct (Z.leb_spec (act_TargetLen a) 0); [run|].
  bind (λ _, True) by (apply safe_lookupFile; [apply _|done|lia]). intros [[page size] found] _. run.
Qed.

Lemma safe_agentWriteFile a : action_ok a → safe same_agent any (agentWriteFile addr_actionData a).
Proof.
  intros (?&?&Hd&Fd). unfold agentWriteFile. destruct (_ || _) eqn:Hb; [run|].
  destruct (Z.leb_spec (act_TargetLen a) 0); [run|].
  bind (λ _, True) by (apply safe_store; [done|intros w Hw; rewrite Hd; apply Hw]). intros _ _. cbv zeta.
  bind (λ _, True) by (apply safe_call_fs; intros s Hs; eapply ok_mono;
    [apply Write_safe; [done|done|unfold maxName; lia|apply u32_range]|by intros [b s']]).
  intros b _. run.
Qed.

Lemma safe_Remove name n :
  len name = 16 → 1 ≤ n ≤ 16 → safe same_agent any (call_fs (Remove name n)).
Proof.
  intros Hn Hr. apply safe_call_fs. intros s Hs. eapply ok_mono; [by apply Remove_safe|]. by intros [b s'].
Qed.

Lemma safe_agentDeleteFile a : action_ok a → safe same_agent any (agentDeleteFile a).
Proof.
  intros (?&?&_). unfold agentDeleteFile. destruct (Z.leb_spec (act_TargetLen a) 0); [run|].
  bind (λ _, True) by (apply safe_Remove; [done|lia]). intros b _. run.
Qed.

Lemma safe_agentShowHistory a : safe quiet any (agentShowHistory a).
Proof. unfold agentShowHistory. run. Qed.
Lemma safe_agentShowVersion a : safe quiet any (agentShowVersion a).
Proof. unfold agentShowVersion. run. Qed.
Lemma safe_agentShowMemoryMap a : safe quiet any (agentShowMemoryMap a).
Proof. unfold agentShowMemoryMap. run. Qed.
Lemma safe_agentShowTicks a : safe quiet any (agentShowTicks a).
Proof. unfold agentShowTicks. bind (λ _, True) by run. intros b _. run. Qed.
Lemma safe_agentShowHelp a : safe quiet any (agentShowHelp a).
Proof. unfold agentShowHelp. run. Qed.

(** ** Commands *)
Lemma safe_cmd_clear : safe quiet any cmd_clear.
Proof. apply safe_console. intros c. apply con_clear_ok. Qed.

Lemma safe_cmd_help : safe quiet any cmd_help.
Proof. apply safe_println. Qed.

Lemma safe_printRange s e : in_line s e → safe quiet any (lb ← get lineBuf; console (printRange lb s e)).
Proof.
  intros Hse. bind line_ok by (apply safe_get; [apply _|]; intros w Hw; apply Hw). intros lb [Hlb _].
  eapply safe_prints. intros c. by apply printRange_Print.
Qed.

Lemma safe_cmd_echo s e : in_line s e → safe quiet any (cmd_echo s e).
Proof.
  intros Hse. unfold cmd_echo. bind (λ i, s ≤ i ≤ e) by (apply safe_trimLeft; [apply _|done]). intros i Hi.
  bind (λ _, True) by (apply safe_if; [apply safe_printRange; apply (in_line_sub s e); [done|lia..]|run]).
  intros _ _. run.
Qed.

Lemma safe_cmd_ticks : safe quiet any cmd_ticks.
Proof. unfold cmd_ticks. bind (λ _, True) by run. intros b _. run. Qed.

Lemma safe_cmd_uptime : safe quiet any cmd_uptime.
Proof.
  unfold cmd_uptime.
  bind (λ f, match f with Some f => ∀ k, kernel_ok k → ok (f k) (λ '(_, k'), kernel_ok k') | None => True end) by
    (apply safe_get; [apply _|]; intros w Hw; destruct (getSyscallTicks w) eqn:E; [|done];
     intros k Hk; by apply (hk_systicks _ _ _ _ _ (so_hooks _ _ _ _ _ Hw))).
  intros [f|] Hf; [|run]. bind (λ _, True) by (by apply safe_hook). intros t _. run.
Qed.

Lemma safe_dump f addr n : 0 ≤ n → safe quiet any (console (dumpMemory (λ a, Some (f a)) addr n)).
Proof. intros Hn. eapply safe_prints. intros c. by apply (dumpMemory_Print _ f). Qed.

(** [mem] with the arguments [ws]: an address and an optional length, 64 when it is missing,
    brought into the range 1 to 512. *)
Lemma cmd_mem_runs s e w :
  shell_ok w → in_line s e →
  runs (cmd_mem s e) (dump_fault (dump_args (words (text (lineBuf w) s e))))
    (λ _ w', True ∧ shell_ok w' ∧ quiet w w') w.
Proof.
  intros Hw Hse. pose proof Hse as [??]. pose proof (so_line _ _ _ _ _ Hw) as Hlb. pose proof Hlb as [Hl _].
  set (F := dump_fault _). unfold cmd_mem, withArg.
  assert (∀ m : ShellState.M K C B L unit, safe quiet any m → ¬ F → runs m F (λ _ w', True ∧ shell_ok w' ∧ quiet w w') w) as Hmsg.
  { intros m Hm Hn. apply runs_wp; [done|]. by apply Hm. }
  apply runs_bind, wp_line. eapply ok_mono; [by apply nextArg_ok|]. intros [[s1 e1] found] H1.
  destruct found; cbn [negb].
  2:{ apply Hmsg; [run|]. unfold F. rewrite H1. intros []. }
  destruct H1 as (?&?&?&Hws&_). apply runs_bind, wp_line.
  rewrite parseHex64_spec by (done || (split; lia)). cbn [ok].
  unfold F in *. rewrite Hws in *. cbn [dump_args] in *. unfold hex_number in *. cbv zeta in *.
  destruct (bool_decide _ && forallb is_hex _); cbn [negb mbind option_bind] in *.
  2:{ apply Hmsg; [run|intros []]. }
  apply runs_bind, wp_line. eapply ok_mono; [apply nextArg_ok; [done|split; lia]|].
  intros [[s2 e2] found2] Hn2. apply runs_bind.
  apply (wp_mono _ (λ '(v, valid) w', w' = w ∧
    match words (text (lineBuf w) e1 e) with [] => Some 64 | b :: _ => dec_number b end =
      if valid : bool then Some v else None)).
  { destruct found2; [|by apply wp_ret; rewrite Hn2]. destruct Hn2 as (?&?&?&Hws2&_). apply wp_line.
    rewrite parseDec_spec by (done || (split; lia)). rewrite Hws2. unfold dec_number. cbv zeta.
    by destruct (bool_decide _ && _). }
  intros [v valid] w' [-> Hv]. rewrite Hv in *. destruct valid; cbn [negb mbind option_bind] in *.
  2:{ apply Hmsg; [run|intros []]. }
  apply runs_bind, wp_get. cbv zeta in *.
  replace (if 512 <? if v <? 1 then 1 else v then 512 else if v <? 1 then 1 else v) with (Z.max 1 (Z.min v 512)).
  2:{ destruct (Z.ltb_spec v 1); [by cmp; lia|]. cmp; lia. }
  set (n := Z.max 1 (Z.min v 512)) in *. set (addr := u64 _) in *.
  unfold dump_fault in *. split.
  - intros Hn. eapply safe_prints; [|done]. intros c. apply (dumpMemory_Print _ (peek w)); [lia|].
    intros j Hj. unfold probe. destruct (Z.ltb_spec (u64 (addr + j)) mapped_end); [done|].
    destruct Hn. apply Exists_exists. exists j. split; [apply elem_of_seqZ; lia|done].
  - intros (j&Hj%elem_of_seqZ&Hm)%Exists_exists. unfold console.
    rewrite (dumpMemory_None _ addr n j); [done|lia|]. unfold probe.
    by destruct (Z.ltb_spec (u64 (addr + j)) mapped_end); [lia|].
Qed.

Lemma safe_cmd_mmapmax : safe quiet any cmd_mmapmax.
Proof.
  unfold cmd_mmapmax. bind (λ n, 0 ≤ n) by (apply safe_get; [apply _|]; intros w Hw; apply (so_mmap _ _ _ _ _ Hw)).
  intros n Hn. bind (λ _, True) by (apply safe_reads; [apply _|]; intros w Hw;
    apply (for_do_ok (λ _ _, True)); [done|done| |done]; intros i m _ _;
    apply ok_bind; eapply ok_mono; [apply MMapEntry_total, Hw|]; intros [[[[? ?] ?] ?] ?] _; by destruct (negb _)).
  intros m _. run.
Qed.

Lemma safe_cmd_pfa : safe quiet any cmd_pfa.
Proof. unfold cmd_pfa. bind (λ _, True) by (by apply safe_get; [apply _|]). intros m _. run. Qed.

Lemma safe_call_mem {A} (P : A → Prop) (f : mem_state → option (A * mem_state)) :
  (∀ m, mem_ok m → ok (f m) (λ '(a, m'), P a ∧ mem_ok m' ∧ same_config m m')) →
  safe same_agent P (call_mem f).
Proof.
  intros Hf. apply safe_call_fs. intros s Hs. call Hf; [apply Hs|]. intros [a m] (?&?&Hc). split_and!; [done| |done].
  destruct Hs as [? ? ? Hp]. split; try done. cbn. intros i e Hfile. by eapply page_ok_config, Hp.
Qed.

Lemma safe_cmd_alloc : safe same_agent any cmd_alloc.
Proof.
  unfold cmd_alloc. bind (λ _, True) by (by apply safe_get; [apply _|]). intros m _. apply safe_if; [run|].
  bind (λ _, True) by (apply safe_call_mem; intros m' Hm'; eapply ok_mono; [by apply AllocPage_safe|];
    by intros [a m2] (?&?&_)).
  intros a _. run.
Qed.

Lemma safe_cmd_free s e : in_line s e → safe same_agent any (cmd_free s e).
Proof.
  intros Hse. unfold cmd_free. bind (λ _, True) by (by apply safe_get; [apply _|]). intros m _. apply safe_if; [run|].
  apply safe_withArg; [apply _|done|]. intros s1 e1 ? ? ?.
  bind (λ _, True) by (apply safe_parseHex64; [apply _|apply (in_line_sub s e); [done|lia..]]).
  intros [addr []] _; cbn [negb]; [|run].
  bind (λ _, True) by (apply safe_call_mem; intros m' Hm'; pose proof (FreePage_safe addr m' Hm') as Hf;
    cbn [ok]; destruct (FreePage addr m') as [b m2]; split; [done|exact Hf]).
  intros b _. run.
Qed.

Lemma safe_cmd_ls : safe quiet any cmd_ls.
Proof.
  unfold cmd_ls. apply safe_repeat'; [apply _|]. intros i Hi.
  bind (λ _, True) by (by apply safe_printEntry). intros b _. run.
Qed.

(** *** Files *)
(** Bytes of the line into one of the shell's buffers. *)
Lemma safe_store_line addr n0 start n :
  (∀ w, shell_ok w → unmanaged (sh_mem w) addr n0) → in_line start (start + n) → n ≤ n0 →
  safe same_agent any (store_line addr start n).
Proof.
  intros Hu [??] Hn. apply safe_repeat'; [apply _|]. intros i Hi.
  bind (λ c, in_u8 c) by (apply safe_line; [apply _|]; intros lb Hlb; apply line_get; [done|lia]).
  intros c Hc. apply safe_store; [by constructor; [|constructor]|]. intros w Hw. destruct (Hu w Hw) as (?&?&Hb).
  rewrite len_cons, len_nil. split_and!; [lia|lia|]. intros Hr. specialize (Hb Hr). lia.
Qed.

Lemma safe_copyData s e : in_line s e → safe same_agent (λ n, 0 ≤ n) (copyDataFromRange addr_tmpData s e).
Proof.
  intros Hse. pose proof Hse as [??]. unfold copyDataFromRange, maxLine in *.
  destruct (Z.ltb_spec e s); [lia|]. cbv zeta. destruct (Z.ltb_spec (e - s) 0); [lia|].
  destruct (Z.ltb_spec 4096 (e - s)); [lia|].
  bind (λ _, True) by (apply (safe_store_line _ 4096); [intros w Hw; apply Hw|split; unfold maxLine; lia|lia]).
  intros _ _. apply safe_ret; [apply _|apply u32_range].
Qed.

Lemma safe_tmpName R `{!PreOrder R} : safe R (λ t, len t = 16) (get tmpName).
Proof. apply safe_get; [done|]. intros w Hw. apply Hw. Qed.

Lemma safe_cmd_write s e : in_line s e → safe same_agent any (cmd_write addr_tmpData s e).
Proof.
  intros Hse. apply safe_withName; [apply _|done|]. intros n e1 Hn ? ?.
  assert (in_line e1 e) as Hin1 by (apply (in_line_sub s e); [done|lia..]).
  bind (λ i, e1 ≤ i ≤ e) by (apply safe_trimLeft; [apply _|done]). intros i Hi.
  bind (λ n, 0 ≤ n) by (apply safe_copyData, (in_line_sub s e); [done|lia..]). intros k Hk.
  bind (λ t, len t = 16) by (apply safe_tmpName; apply _). intros t Ht.
  bind (λ _, True) by (apply safe_call_fs; intros st Hst; eapply ok_mono;
    [by apply Write_safe|by intros [b st']]).
  intros b _. run.
Qed.

Lemma safe_withFile R `{!Prints R} s e usage invalid missing k :
  in_line s e → (∀ page size, safe R any (k page size)) →
  safe R any (withFile s e usage invalid missing k).
Proof.
  intros Hse Hk. apply safe_withName; [done|done|]. intros n e1 Hn _ _.
  bind (λ t, len t = 16) by (apply safe_tmpName; apply _). intros t Ht.
  bind (λ _, True) by (apply safe_lookupFile; [apply _|done|done]).
  intros [[page size] found] _. run.
Qed.

Lemma safe_cmd_cat s e : in_line s e → safe quiet any (cmd_cat s e).
Proof. intros Hse. apply safe_withFile; [apply _|done|]. intros. run. Qed.

Lemma safe_cmd_stat s e : in_line s e → safe quiet any (cmd_stat s e).
Proof. intros Hse. apply safe_withFile; [apply _|done|]. intros. run. Qed.

Lemma safe_cmd_rm s e : in_line s e → safe same_agent any (cmd_rm s e).
Proof.
  intros Hse. apply safe_withName; [apply _|done|]. intros n e1 Hn _ _.
  bind (λ t, len t = 16) by (apply safe_tmpName; apply _). intros t Ht.
  bind (λ _, True) by (by apply safe_Remove). intros b _. run.
Qed.

(** *** The disk *)
Lemma safe_call_disk {A} (P : A → Prop) (f : B → option (A * B)) :
  (∀ d, disk_safe d → ok (f d) (λ '(a, d'), P a ∧ disk_safe d')) → safe quiet P (call_disk f).
Proof.
  intros Hf w Hw. unfold wp, call_disk. pose proof (Hf (sh_disk w)) as Hd.
  destruct (f (sh_disk w)) as [[a d]|]; [|apply Hd, Hw]. destruct Hd as [? Hd]; [apply Hw|].
  cbn [ok]. split_and!; [done| |done]. apply shell_ok_fat; [done|apply Hw..|done].
Qed.

Lemma safe_store_disk l : sector_ok l → safe same_agent any (store addr_diskBuf l).
Proof. intros [Hl Hb]. apply safe_store; [done|]. intros w Hw. rewrite Hl. apply Hw. Qed.

Lemma safe_readDisk lba : in_u32 lba → safe same_agent any (readDisk addr_diskBuf lba).
Proof.
  intros Hlba. unfold readDisk. bind sector_ok by (apply safe_load; apply _). intros buf Hbuf.
  bind (λ '(_, b), sector_ok b) by (apply safe_quiet; [apply _|]; apply safe_call_disk; intros d Hd;
    apply ok_bind; eapply ok_mono; [by apply read_total|]; by intros [[r b] d'] [??]).
  intros [r b] Hb. bind (λ _, True) by (by apply safe_store_disk). intros _ _. run.
Qed.

Lemma safe_writeDisk lba : in_u32 lba → safe same_agent any (writeDisk addr_diskBuf lba).
Proof.
  intros Hlba. unfold writeDisk. bind sector_ok by (apply safe_load; apply _). intros buf Hbuf.
  apply safe_quiet; [apply _|]. apply safe_call_disk. intros d Hd.
  eapply ok_mono; [by apply write_total|]. by intros [r d'] ?.
Qed.

Lemma safe_disk_read s e : in_line s e → safe same_agent any (disk_read addr_diskBuf s e).
Proof.
  intros Hse. apply safe_withArg; [apply _|done|]. intros s1 e1 ? ? ?.
  assert (in_line s1 e1) as Hin1 by (apply (in_line_sub s e); [done|lia..]).
  bind (λ _, True) by (apply safe_parseHex64; [apply _|done]). intros [v b] _.
  bind (λ _, True) by (apply safe_if; [run|apply safe_parseDec; [apply _|done]]).
  intros [lba []] _; cbn [negb]; [|run].
  bind (λ _, True) by (apply safe_readDisk, u32_range). intros [] _; [|run]. run.
  bind (λ _, True) by (by apply safe_get; [apply _|]). intros w _.
  apply safe_quiet; [apply _|]. by apply safe_dump.
Qed.

Lemma safe_disk_write s e : in_line s e → safe same_agent any (disk_write addr_diskBuf s e).
Proof.
  intros Hse. pose proof Hse as [??]. apply safe_withArg; [apply _|done|]. intros s1 e1 ? ? ?.
  assert (in_line s1 e1) as Hin1 by (apply (in_line_sub s e); [done|lia..]).
  bind (λ _, True) by (apply safe_parseDec; [apply _|done]). intros [v b] _.
  bind (λ _, True) by (apply safe_if; [run|];
    bind (λ _, True) by (apply safe_parseHex64; [apply _|done]); intros [v2 b2] _; run).
  intros [lba []] _; cbn [negb]; [|run].
  bind (λ i, e1 ≤ i ≤ e) by (apply safe_trimLeft; [apply _|apply (in_line_sub s e); [done|lia..]]). intros i Hi.
  bind (λ _, True) by (apply safe_store_disk, zero_sector_ok). intros _ _.
  bind (λ _, True) by (apply (safe_store_line _ 512); [intros w Hw; apply Hw|split; lia|lia]). intros _ _.
  bind (λ _, True) by (apply safe_writeDisk, u32_range). intros b3 _. run.
Qed.

Lemma safe_and_true R `{!PreOrder R} (m : ShellState.M K C B L unit) : safe R any m → safe R any (and_true m).
Proof. intros Hm. unfold and_true. bind (λ _, True) by (done). intros _ _. by apply safe_ret. Qed.

Lemma safe_cmd_disk s e : in_line s e → safe same_agent any (cmd_disk addr_diskBuf s e).
Proof.
  intros Hse. unfold cmd_disk. bind (arg_in s e) by (apply safe_nextArg; [apply _|done]).
  intros [[s1 e1] []] Ha; cbn [negb]; [|apply safe_and_true; [apply _|run]]. destruct Ha as (?&?&?); [done|].
  assert (in_line s1 e1) as Hin1 by (apply (in_line_sub s e); [done|lia..]).
  assert (in_line e1 e) as Hin2 by (apply (in_line_sub s e); [done|lia..]).
  bind (λ _, True) by (apply safe_matchLit; [apply _|done]). intros [] _.
  { apply safe_and_true; [apply _|]. by apply safe_disk_read. }
  bind (λ _, True) by (apply safe_matchLit; [apply _|done]). intros [] _; [|run].
  apply safe_and_true; [apply _|]. by apply safe_disk_write.
Qed.

(** *** FAT16 *)
Lemma safe_cmd_fatinit : safe quiet any cmd_fatinit.
Proof.
  unfold cmd_fatinit. bind (λ _, True) by (apply safe_call_fat; intros s Hs;
    eapply ok_mono; [by apply Init_safe|by intros [b s']]). intros b _. run.
Qed.
Lemma safe_cmd_fatformat : safe quiet any cmd_fatformat.
Proof.
  unfold cmd_fatformat. bind (λ _, True) by (apply safe_call_fat; intros s Hs;
    eapply ok_mono; [by apply Format_safe|by intros [b s']]). intros b _. run.
Qed.
Lemma safe_cmd_fatinfo : safe quiet any cmd_fatinfo.
Proof. apply safe_call_fat. intros s Hs. call Info_safe; [done|]. by intros s' ?. Qed.
Lemma safe_cmd_fatls : safe quiet any cmd_fatls.
Proof. apply safe_call_fat. intros s Hs. call ListDir_safe; [done|]. by intros s' ?. Qed.

Lemma fat_name_ok s e lb : line_ok lb → in_line s e →
  ok (fat_name s e lb) (λ t, len t = 8 ∧ Forall (λ x, in_u8 x) t).
Proof.
  intros Hlb [??]. unfold fat_name. cbv zeta.
  set (n := if 8 <? e - s then 8 else e - s).
  assert (0 ≤ n ≤ 8 ∧ n ≤ e - s) as [Hn ?] by (unfold n; destruct (Z.ltb_spec 8 (e - s)); lia). clearbody n.
  apply (for_do_ok (λ _ t, len t = 8 ∧ Forall (λ x, in_u8 x) t)); [lia| | |done].
  - split; [done|]. by apply Forall_replicate.
  - intros i t Hi [Ht Hf]. call (line_get lb (s + i)); [done|lia|]. intros c Hc.
    rewrite aset_Some by lia. cbn [ok]. split; [by rewrite len_insert|]. apply Forall_insert; [done|].
    destruct (_ && _); [apply u8_range|done].
Qed.

Lemma fat_data_ok s n lb : line_ok lb → in_line s (s + n) → n ≤ 512 →
  ok (fat_data s n lb) (λ t, len t = 512 ∧ Forall (λ x, in_u8 x) t).
Proof.
  intros Hlb [??] ?. apply (for_do_ok (λ _ t, len t = 512 ∧ Forall (λ x, in_u8 x) t)); [lia| | |done].
  - split; [done|]. by apply Forall_replicate.
  - intros i t Hi [Ht Hf]. call (line_get lb (s + i)); [done|lia|]. intros c Hc.
    rewrite aset_Some by lia. cbn [ok]. split; [by rewrite len_insert|]. by apply Forall_insert.
Qed.

Lemma fat_ext_ok : len fat_ext = 3 ∧ Forall (λ x, in_u8 x) fat_ext.
Proof. split; [done|]. by apply Forall_replicate. Qed.

Lemma safe_cmd_fatcreate s e : in_line s e → safe quiet any (cmd_fatcreate s e).
Proof.
  intros Hse. pose proof Hse as [??]. apply safe_withArg; [apply _|done|]. intros s1 e1 ? ? ?.
  bind (λ t, len t = 8 ∧ Forall (λ x, in_u8 x) t) by (apply safe_line; [apply _|]; intros lb Hlb;
    apply fat_name_ok; [done|apply (in_line_sub s e); [done|lia..]]). intros nm [Hn Fn].
  bind (λ i, e1 ≤ i ≤ e) by (apply safe_trimLeft; [apply _|apply (in_line_sub s e); [done|lia..]]). intros i Hi. cbv zeta.
  bind (λ t, len t = 512 ∧ Forall (λ x, in_u8 x) t) by (apply safe_line; [apply _|]; intros lb Hlb;
    apply fat_data_ok; [done|split; lia|lia]). intros d [Hd Fd].
  destruct fat_ext_ok as [He Fe].
  bind (λ _, True) by (apply safe_call_fat; intros st Hst; eapply ok_mono;
    [by apply CreateFile_safe|by intros [b st']]).
  intros b _. run.
Qed.

Lemma safe_cmd_fatread s e : in_line s e → safe same_agent any (cmd_fatread addr_diskBuf s e).
Proof.
  intros Hse. apply safe_withArg; [apply _|done|]. intros s1 e1 ? ? ?.
  bind (λ t, len t = 8 ∧ Forall (λ x, in_u8 x) t) by (apply safe_line; [apply _|]; intros lb Hlb;
    apply fat_name_ok; [done|apply (in_line_sub s e); [done|lia..]]). intros nm [Hn Fn].
  bind sector_ok by (apply safe_load; apply _). intros buf Hbuf. destruct fat_ext_ok as [He Fe].
  bind (λ '(_, _, out), sector_ok out) by (apply safe_quiet; [apply _|]; apply safe_call_fat; intros st Hst;
    apply ok_bind; eapply ok_mono; [by apply ReadFile_safe|]; by intros [[[n b] out] st'] (?&?&?)).
  intros [[n b] out] Hout. bind (λ _, True) by (by apply safe_store_disk). intros _ _.
  apply safe_if; [run|].
  bind (λ _, True) by (apply safe_repeat'; [apply _|]; intros i _;
    bind (λ _, True) by (by apply safe_get; [apply _|]); intros v _; run).
  intros _ _. run.
Qed.

(** *** Layout, programs, transport, suggestions *)
Lemma safe_layouts c t : safe quiet any (modify (set_layouts c t)).
Proof. apply safe_modify. intros w Hw. split; [by apply shell_ok_layouts|done]. Qed.

Lemma safe_cmd_layout s e : in_line s e → safe quiet any (cmd_layout s e).
Proof.
  intros Hse. unfold cmd_layout. bind (arg_in s e) by (apply safe_nextArg; [apply _|done]).
  intros [[s1 e1] []] Ha; cbn [negb].
  2:{ run. bind (λ _, True) by (by apply safe_get; [apply _|]). intros cur _. run. }
  destruct Ha as (?&?&?); [done|]. assert (in_line s1 e1) as Hin1 by (apply (in_line_sub s e); [done|lia..]).
  bind (λ _, True) by (apply safe_matchLit; [apply _|done]). intros us _.
  bind (λ _, True) by (apply safe_if; [run|apply safe_matchLit; [apply _|done]]). intros it _.
  apply safe_if; [run|]. cbv zeta.
  bind (λ _, True) by (apply safe_modify; intros w Hw; split; [by apply shell_ok_layouts|done]). intros _ _.
  bind (λ f, match f with Some f => ∀ name k, kernel_ok k → ok (f name k) (λ '(_, k'), kernel_ok k') | None => True end) by
    (apply safe_get; [apply _|]; intros w Hw; destruct (switchLayoutFn w) eqn:E; [|done];
     intros name k Hk; by apply (hk_layout _ _ _ _ _ (so_hooks _ _ _ _ _ Hw))).
  intros [f|] Hf; [|run].
  bind (λ _, True) by (apply safe_kernel; intros c k Hc Hk; apply ok_bind;
    eapply ok_mono; [by apply Hf|]; by intros [b k'] ?).
  intros b _. apply safe_if; [run|]. bind (λ _, True) by (apply safe_layouts). intros _ _. run.
Qed.

Lemma safe_cmd_run s e : in_line s e → safe quiet any (cmd_run s e).
Proof.
  intros Hse. apply safe_withArg; [apply _|done|]. intros s1 e1 ? ? ?.
  bind (λ f, match f with
    | Some f => ∀ name n c k, kernel_ok k → console_ok c → len name = 16 → 1 ≤ n ≤ 16 →
        ok (f name n c k) (λ '(_, _, c', k'), console_ok c' ∧ kernel_ok k')
    | None => True end) by
    (apply safe_get; [apply _|]; intros w Hw; destruct (runProgram w) eqn:E; [|done];
     intros name n c k Hk Hc Hn Hr; by apply (hk_run _ _ _ _ _ (so_hooks _ _ _ _ _ Hw))).
  intros [f|] Hf; [|run].
  bind (λ '(n, found), found = true → 1 ≤ n ≤ 16) by
    (apply safe_copyName; [apply _|apply (in_line_sub s e); [done|lia..]]).
  intros [n []] Hn; cbn [negb]; [|run]. specialize (Hn eq_refl).
  bind (λ t, len t = 16) by (apply safe_tmpName; apply _). intros t Ht.
  bind (λ _, True) by (apply safe_kernel; intros c k Hc Hk; apply ok_bind;
    eapply ok_mono; [by apply Hf|]; by intros [[[pid b] c'] k'] [??]).
  intros [pid b] _. run.
Qed.

Lemma put_all_len l : ∀ b, Forall (λ '(i, _), 0 ≤ i < len b) l → ok (put_all l b) (λ b', len b' = len b).
Proof.
  unfold put_all. induction l as [|[i v] l IH]; intros b Hl; [done|]. cbn [foldl mbind option_bind].
  apply Forall_cons in Hl as [Hi Hl]. rewrite aset_Some by done.
  eapply ok_mono; [apply IH|].
  - eapply Forall_impl; [done|]. intros [j x]. by rewrite len_insert.
  - intros b' Hb'. by rewrite Hb', len_insert.
Qed.

Lemma safe_transport : safe quiet any runAgentTransportProbe.
Proof.
  unfold runAgentTransportProbe.
  assert (safe quiet (λ '(_, _, resp), len resp = MaxPayload) ((λ w,
    req ← put_all (zip (seqZ 0 4) (gs "ping")) (transportRequest w);
    '(n, res, resp, s) ← Exchange (Some req) 4 (Some (transportResponse w)) (sh_serial w);
    let resp := default (transportResponse w) resp in
    Some ((n, res, resp), set_transport req resp s w)) : ShellState.M K C B L (Z * Result * list Z))) as Hx.
  { intros w Hw. unfold wp. pose proof (so_req _ _ _ _ _ Hw) as Hq.
    call put_all_len; [rewrite Hq; unfold MaxPayload, MaxRequestPayload; cbn; repeat constructor; lia|].
    intros req Hreq. rewrite Hq in Hreq. call (Exchange_spec req 4 (transportResponse w) (sh_serial w));
      [apply Hw|apply Hw|unfold MaxRequestPayload; lia|rewrite Hreq; unfold MaxPayload, MaxRequestPayload; lia|].
    intros [[[n res] resp] s'] (Hs&r1&->&Hr1&_). cbn [from_option id ok].
    split_and!; [done|by apply shell_ok_transport|done]. }
  bind (λ '(_, _, resp), len resp = MaxPayload) by (exact Hx). intros [[n res] resp] Hresp.
  case_decide; [run|].
  bind (λ _, True) by (apply safe_lift; [apply _|]; unfold and_then; cbn [mbind option_bind];
    destruct (n =? 4); [|done]; eapply ok_mono; [apply match_bytes_ok|done];
    intros j Hj; split; apply aget_Some; [rewrite Hresp; unfold MaxPayload, MaxRequestPayload; lia|done]).
  intros b _. run.
Qed.

Lemma suggestions_ok s e lb : len lb = maxLine → in_line s e →
  suggestions s e lb = Some (filter (λ cmd, lev (text lb s e) cmd < maxDistanceThreshold) commandBuf).
Proof.
  intros Hlb Hse. unfold suggestions.
  enough (ok (for_do 0 (len commandBuf) (λ i acc, cmd ← aget commandBuf i;
       d ← calculateDistance lb s e cmd;
       Some (if d <? maxDistanceThreshold then acc ++ [cmd] else acc)) [])
    (λ r, r = filter (λ cmd, lev (text lb s e) cmd < maxDistanceThreshold) commandBuf)) as Hok.
  { destruct (ok_elim _ _ Hok) as (r&->&->). done. }
  apply (for_do_ok (λ i acc, acc =
    filter (λ cmd, lev (text lb s e) cmd < maxDistanceThreshold) (take (Z.to_nat i) commandBuf))).
  - apply len_nonneg.
  - done.
  - intros i acc Hi ->. destruct (aget_Some commandBuf i Hi) as [cmd Hcmd]. rewrite Hcmd. cbn [mbind option_bind].
    assert (len cmd ≤ maxLine) as Hl.
    { apply aget_elem in Hcmd. assert (Forall (λ c, len c ≤ maxLine) commandBuf) as Hf.
      { apply Forall_forall. intros c Hc. vm_compute in Hc. set_unfold.
        repeat destruct Hc as [->|Hc]; try done; vm_compute; done. }
      by eapply Forall_forall in Hf. }
    rewrite calculateDistance_spec by done. cbn [mbind option_bind ok].
    rewrite (take_S_aget commandBuf i cmd), filter_app by (done || lia). rewrite filter_cons, filter_nil.
    destruct (Z.ltb_spec (lev (text lb s e) cmd) maxDistanceThreshold).
    + by rewrite decide_True.
    + by rewrite decide_False, app_nil_r by lia.
  - intros acc ->. by rewrite take_len.
Qed.

Lemma safe_suggest s e : in_line s e → safe quiet any (suggest s e).
Proof.
  intros Hse. unfold suggest.
  bind (λ _, True) by (apply safe_line; [apply _|]; intros lb [Hlb _]; by rewrite suggestions_ok).
  intros l _. apply safe_if.
  - run. bind (λ _, True) by (apply safe_repeat'; [apply _|]; intros i Hi; run;
      bind (λ _, True) by (apply safe_lift; [apply _|]; destruct (aget_Some l i) as [x ->]; [lia|done]);
      intros x _; run).
    intros _ _. run.
  - run. bind line_ok by (apply safe_get; [apply _|]; intros w Hw; apply Hw). intros lb [Hlb _].
    bind (λ _, True) by (eapply safe_prints; intros c; by apply printRange_Print). intros _ _. run.
Qed.
End safety.
