(* ===== verification/ShellAgent.v ===== *)
(** * Package [shell]: the agent commands

    What a request of the shell does in the runtime: the plan it makes, when the handlers
    run, and what is left pending.  An [agent] command changes no file ([agent_rel]); only
    [agent delete <name>] leaves something to confirm, a plan that deletes the named file
    ([deletes_named]); a confirmation runs that plan and nothing else. *)
From S2P Require Import Prelude PageAlloc Mem Fs FsSafe PortIO Terminal Serial AgentTypes Agent AgentGate.
From S2P Require Import Disk Fat16 FatSafe Line Output History ShellState ShellInv Shell ShellSafe.
Local Open Scope Z_scope.

(** ** Contexts *)
(** What the runtime and the handlers keep of the context while a request is served. *)
Definition ctx_keeps (c c' : Context) : Prop :=
  ctx_frame (Some c) (Some c') ∧ ctx_LastInputLen c' = ctx_LastInputLen c.

#[export] Instance ctx_keeps_po : PreOrder ctx_keeps.
Proof. split; [done|]. intros x y z [? E] [? E']. split; [by etrans|congruence]. Qed.

Lemma ctx_keeps_CurrentTask k c : ctx_keeps c (set_CurrentTask k c).
Proof. done. Qed.
Lemma ctx_keeps_finished p m b c : ctx_keeps c (finished p m b c).
Proof. unfold finished. by destruct (decide _), b. Qed.

Lemma ctx_keeps_ok c c' : ctx_keeps c c' → ctx_ok c → ctx_ok c'.
Proof.
  intros [Hf E] [Hw Hi Hp]. pose proof Hf as (?&Ep&Eb). split.
  - exact (ctx_frame_wf (Some c) (Some c') Hf Hw).
  - by rewrite E.
  - by rewrite Ep, Eb.
Qed.

Lemma ctx_keeps_pending c c' : ctx_keeps c c' → pending (Some c') = pending (Some c).
Proof. intros [Hf _]. by apply ctx_frame_pending. Qed.

Lemma BeginRequest_keeps c input n mode :
  ctx_ok c → len input = MaxContextInput →
  ok (BeginRequest (Some c) (Some input) n mode)
     (λ c', ∃ c1, c' = Some c1 ∧ ctx_ok c1 ∧ pending (Some c1) = pending (Some c)).
Proof.
  intros [Hw Hi Hp] Hl. pose proof (BeginRequest_ok c (Some input) n mode Hw) as Hb.
  specialize (Hb ltac:(by intros i [= <-])). destruct (BeginRequest _ _ _ _) as [c'|] eqn:E; [|done].
  destruct Hb as (c1&->&Hf). exists c1. split; [done|]. split; [|by apply ctx_frame_pending].
  pose proof Hf as (?&Ep&Eb). split; [exact (ctx_frame_wf (Some c) (Some c1) Hf Hw)| |by rewrite Ep, Eb].
  unfold BeginRequest in E. destruct (copy_into _ _ _ _) as [d|]; [|done]. injection E as <-.
  cbn [ctx_LastInputLen]. unfold MaxContextInput in *. cmp; lia.
Qed.

(** ** Plans for one action *)
Section one_plan.
Context {W : Type} (r : Runtime W) (mode : PlannerMode) (intent : IntentKind) (a : Action).

Abbreviation p := (one_plan mode intent a).

Lemma one_plan_problem : plan_problem p = check_action mode a.
Proof.
  change (head (omap (check_action mode) [a]) = check_action mode a). cbn [omap list_omap].
  by destruct (check_action mode a).
Qed.

Lemma one_plan_risky : needs_confirmation p = bool_decide (risky a).
Proof.
  unfold needs_confirmation. apply bool_decide_ext. change (plan_actions p) with [a].
  rewrite Exists_cons, Exists_nil. tauto.
Qed.

(** A plan that waits: nothing runs, the plan is pending. *)
Lemma one_plan_held c w :
  risky a → check_action mode a = None →
  ok (runPlan r p (Some c) w) (λ '(resp, c', w'), w' = w ∧
    ∃ c1, c' = Some c1 ∧ ctx_keeps (set_Pending p true (set_CurrentTask (act_Kind a) c)) c1).
Proof.
  intros Hr Hc. unfold runPlan. rewrite runPlan_spec by done. unfold request_outcome.
  rewrite one_plan_problem, Hc, one_plan_risky, bool_decide_true by done. cbn -[finished response_of].
  split; [done|]. eexists. split; [done|]. apply ctx_keeps_finished.
Qed.

(** A plan that does not wait runs its action once, unless it is invalid or there is no
    executor. *)
Lemma one_plan_run (Q : W → Prop) confirmed c w :
  (risky a → confirmed = true) →
  (check_action mode a ≠ None ∨ rt_ExecutorConfigured r = false → Q w) →
  (rt_ExecutorConfigured r = true → ∀ c1, ctx_keeps c c1 →
     ok (Execute (rt_Executor r) a (Some c1) w) (λ '(_, c', w'), (∃ c2, c' = Some c2 ∧ ctx_keeps c1 c2) ∧ Q w')) →
  ok (runPlanWithConfirmation r p (Some c) confirmed w) (λ '(resp, c', w'), Q w' ∧
    ∃ c1, c' = Some c1 ∧ ctx_keeps c c1).
Proof.
  intros Hr HQ He. rewrite runPlan_spec by done. unfold request_outcome.
  rewrite one_plan_problem. destruct (check_action mode a) as [m|].
  { split; [by apply HQ; left|]. eexists. split; [done|]. apply ctx_keeps_finished. }
  rewrite one_plan_risky. replace (bool_decide (risky a) && negb confirmed) with false.
  2:{ case_bool_decide; [by rewrite Hr|done]. }
  destruct (rt_ExecutorConfigured r) eqn:Hcfg.
  2:{ split; [by apply HQ; right|]. eexists. split; [done|].
      etrans; [apply (ctx_keeps_CurrentTask (act_Kind a))|]. apply ctx_keeps_finished. }
  change (plan_actions p) with [a]. change (first_kind p) with (act_Kind a). cbn [fmap option_fmap option_map].
  apply ok_bind. cbn [exec_actions fmap option_fmap option_map].
  call He; [done|by etrans; apply ctx_keeps_CurrentTask|].
  intros [[res c'] w'] [(c2&->&Hk) HQ'].
  assert (∀ m b, ctx_keeps c (finished p m b c2)) as Hfin.
  { intros. etrans; [|apply ctx_keeps_finished]. etrans; [|exact Hk].
    by etrans; apply ctx_keeps_CurrentTask. }
  destruct res as [[] m]; cbn -[finished response_of]; (split; [done|]; eexists; split; [done|]; apply Hfin).
Qed.
End one_plan.

(** ** Requests of the shell *)
(** The target of a request: none, or a name. *)
Definition target_ok (target : option (list Z)) (n : Z) : Prop :=
  match target with None => n = 0 | Some t => len t = 16 ∧ 1 ≤ n ≤ 16 end.

(** [name] is the target as an array of 16 bytes. *)
Definition named (target : option (list Z)) (n : Z) (name : list Z) : Prop :=
  len name = 16 ∧ match target with None => True | Some t => take (Z.to_nat n) name = take (Z.to_nat n) t end.

Lemma request_plan {W} (r : Runtime W) kind intent risk target n input m c w
    (Q : MessageKind → option Context → W → Prop) :
  ctx_ok c → len input = MaxContextInput → target_ok target n →
  (∀ c1 name, ctx_ok c1 → pending (Some c1) = pending (Some c) → named target n name →
     ok (runPlan r (one_plan (rt_plannerMode r) intent (shell_action kind risk name n)) (Some c1) w)
        (λ '(resp, c', w'), Q (ar_Message (resp_Result resp)) c' w')) →
  ok (RunActionRequestMessage (Some r) kind intent risk target n (Some input) m (Some c) w)
     (λ '(m, c', w'), Q m c' w').
Proof.
  intros Hc Hi Ht HQ. cbn [RunActionRequestMessage]. unfold MaxNameLen.
  assert (0 ≤ n ≤ 16) as Hn by (destruct target; unfold target_ok in Ht; lia).
  replace ((n <? 0) || (16 <? n)) with false by (cmp; lia || done).
  apply ok_bind. unfold RunActionRequest. call BeginRequest_keeps; [done..|]. intros ? (c1&->&Hc1&Hp).
  assert (∀ name, named target n name →
    ok (runPlan r (one_plan (rt_plannerMode r) intent (shell_action kind risk name n)) (Some c1) w)
       (λ a, ok (let '(resp, context, w) := a in Some (ar_Message (resp_Result resp), context, w))
                (λ '(m, c', w'), Q m c' w'))) as Hrun.
  { intros name Hname. eapply ok_mono; [by apply HQ|]. by intros [[??]?]. }
  unfold runAction. destruct target as [t|]; cbn [target_ok] in Ht; subst.
  2:{ cbn [mbind option_bind]. apply Hrun. done. }
  destruct Ht as [Hlt Hn']. destruct (Z.ltb_spec 0 n); [|lia]. unfold MaxNameLen.
  destruct (Z.ltb_spec 16 n); [lia|]. cbn [plan_Actions singleActionPlan].
  rewrite aget_cons_0. cbn [mbind option_bind act_Target].
  do 2 apply ok_bind. eapply ok_mono; [apply copy_into_ok; rewrite ?len_replicate; lia|]. intros d [Hd Hg].
  rewrite len_replicate in Hd. rewrite set_target_single. cbn [mbind option_bind ok]. apply Hrun.
  split; [done|].
  apply alist_eq; rewrite !len_take by lia; [done|]. intros j Hj. rewrite !aget_take, Hg by lia.
  rewrite decide_True by lia. by rewrite Z.sub_0_r.
Qed.

Section agent.
Context {K C B L : Type} `{!TextConsole C} `{!TextConsoleLaws C} `{!Disk B} `{!DiskTotal B}.
Context `{!PortIO L} `{!PortIOLaws L}.
Context (addr_tmpData addr_diskBuf addr_actionData : Z).
Context (kernel_ok : K → Prop).

Abbreviation S := (shell K C B L).
Abbreviation safe := (safe (L := L) (B := B) addr_tmpData addr_diskBuf addr_actionData kernel_ok).
Abbreviation shell_ok := (shell_ok (L := L) (B := B) addr_tmpData addr_diskBuf addr_actionData kernel_ok).
Abbreviation any := (λ _, True).
Abbreviation e := (NewAgentExecutor (K := K) (C := C) (B := B) (L := L) addr_actionData).
Implicit Types w : shell K C B L.

(** ** The handlers *)
(** A handler that returns, changes no more than [R] and keeps the context. *)
Definition handles (R : relation S) (h : ActionHandler S) (a : Action) : Prop :=
  ∀ c w, shell_ok w → ok (h a (Some c) w)
    (λ '(_, c', w'), (∃ c1, c' = Some c1 ∧ ctx_keeps c c1) ∧ shell_ok w' ∧ R w w').

Lemma handler_handles R f a : safe R any (f a) → handles R (handler f) a.
Proof.
  intros Hf c w Hw. unfold handler. apply ok_bind. eapply ok_mono; [exact (Hf w Hw)|].
  intros [res w'] (_&?&?). split; [by exists c|done].
Qed.

Lemma actionTargetMatches_total a lit : action_ok a → ok (actionTargetMatches a lit) any.
Proof.
  intros (?&?&_). unfold actionTargetMatches. destruct (Z.eqb_spec (act_TargetLen a) (len lit)); [|done].
  cbn [negb]. apply match_bytes_total. intros j Hj. split; apply aget_Some; lia.
Qed.

Lemma targetMode_total a : action_ok a → ok (targetMode a) any.
Proof.
  intros Ha. unfold targetMode. call actionTargetMatches_total; [done|]. intros [] _; [done|].
  call actionTargetMatches_total; [done|]. by intros [] _.
Qed.

Lemma switchPlanner_safe mode : safe quiet any (switchPlanner mode).
Proof.
  intros w Hw. unfold wp, switchPlanner. cbn [SetPlannerMode].
  destruct mode; [|destruct (rt_llmConfigured _)|]; cbn [negb ok];
    (split; [done|]; split; [|done]; apply shell_ok_agent; [done|apply Hw]).
Qed.

Lemma agentSetMode_handles a : action_ok a → handles quiet agentSetMode a.
Proof.
  intros Ha c w Hw. unfold agentSetMode. destruct (act_TargetLen a =? 0); [split; [by exists c|done]|].
  call targetMode_total; [done|]. intros [mode|] _; [|split; [by exists c|done]].
  apply ok_bind. eapply ok_mono; [exact (switchPlanner_safe mode w Hw)|]. intros [res w'] (_&?&?).
  split; [|done]. destruct (ar_OK res); eexists; by split.
Qed.

(** The actions other than writing and deleting only print. *)
Lemma Execute_quiet a :
  action_ok a → ¬ destructive (act_Kind a) → handles quiet (Execute e) a.
Proof.
  intros Ha Hk c w Hw. unfold Execute.
  destruct (act_Kind a); try (exfalso; apply Hk; first [by left|by right]); try (by split; [exists c|]).
  all: lazymatch goal with
    | |- context [ex_ListFiles] => apply (handler_handles quiet agentListFiles); [|done]
    | |- context [ex_ReadFile] => apply (handler_handles quiet agentReadFile); [|done]
    | |- context [ex_StatFile] => apply (handler_handles quiet agentStatFile); [|done]
    | |- context [ex_ShowHistory] => apply (handler_handles quiet agentShowHistory); [|done]
    | |- context [ex_ShowVersion] => apply (handler_handles quiet agentShowVersion); [|done]
    | |- context [ex_ShowTicks] => apply (handler_handles quiet agentShowTicks); [|done]
    | |- context [ex_ShowMemoryMap] => apply (handler_handles quiet agentShowMemoryMap); [|done]
    | |- context [ex_SetMode] => by apply agentSetMode_handles
    end.
  - by apply safe_agentListFiles.
  - by apply safe_agentReadFile.
  - by apply safe_agentStatFile.
  - by apply safe_agentShowHistory.
  - by apply safe_agentShowVersion.
  - by apply safe_agentShowTicks.
  - by apply safe_agentShowMemoryMap.
Qed.

(** ** What an [agent] command may change: no file; a plan it leaves pending is in [P]. *)
Definition held w : option Plan := pending (Some (agentContext w)).

Definition agent_rel (P : Plan → Prop) w w' : Prop :=
  same_line w w' ∧ sh_fs w' = sh_fs w ∧ (held w' = held w ∨ ∃ p, held w' = Some p ∧ P p).

#[local] Instance agent_rel_po P : PreOrder (agent_rel P).
Proof.
  split; [intros w; by split_and!; [..|left]|]. intros x y z (?&E1&H1) (?&E2&H2).
  split_and!; [by etrans|congruence|]. destruct H2 as [->|?]; [done|by right].
Qed.
#[local] Instance agent_rel_prints P : Prints (agent_rel P).
Proof. split; [apply _|]. intros w w' [[? E] ?]. split_and!; [done..|left]. unfold held. by rewrite E. Qed.

Lemma agent_rel_mono (P Q : Plan → Prop) w w' : (∀ p, P p → Q p) → agent_rel P w w' → agent_rel Q w w'.
Proof. intros HPQ (?&?&H). split_and!; [done..|]. naive_solver. Qed.

(** A call of the runtime whose context ends as [c']. *)
Lemma call_agent_wp (f : option Context → S → option (MessageKind * option Context * S)) Q w :
  ok (f (Some (agentContext w)) w) (λ '(m, c', w'), ∃ c1, c' = Some c1 ∧ Q m (set_context c1 w')) →
  wp (call_agent f) Q w.
Proof.
  unfold wp, call_agent. destruct (f _ w) as [[[m c'] w']|]; [|done]. by intros (c1&->&HQ).
Qed.

Lemma agent_input_ok lb s n :
  line_ok lb → in_line s (s + n) → ok (agent_input s n lb) (λ i, len i = MaxContextInput).
Proof.
  intros [Hl Hb] [? Hn]. unfold agent_input, maxLine in *.
  apply (for_do_ok (λ _ i, len i = MaxContextInput)); [lia|done| |done].
  intros i input Hi Hlen. destruct (aget_Some lb (s + i)) as [c Hc]; [lia|]. rewrite Hc. cbn [mbind option_bind].
  rewrite aset_Some by (unfold MaxContextInput in *; lia). cbn [ok]. by rewrite len_insert.
Qed.

(** The request reads the line and calls the runtime. *)
Lemma agentRequest_wp kind intent risk target n s last w Q :
  shell_ok w → in_line s last → target_ok target n →
  (∀ c1 name, ctx_ok c1 → pending (Some c1) = held w → named target n name →
     ok (runPlan (runtimeAgent e w) (one_plan (plannerMode w) intent (shell_action kind risk name n)) (Some c1) w)
        (λ '(resp, c', w'), ∃ c1, c' = Some c1 ∧ Q (ar_Message (resp_Result resp)) (set_context c1 w'))) →
  wp (agentRequest e kind intent risk target n s last) Q w.
Proof.
  intros Hw Hin Ht HQ. unfold agentRequest. apply wp_bind, wp_line.
  eapply ok_mono; [apply agent_input_ok; [apply Hw|by replace (s + (last - s)) with last by lia]|].
  intros input Hi. apply wp_bind, wp_get, call_agent_wp.
  apply (request_plan _ _ _ _ _ _ _ _ _ _ (λ m c' w', ∃ c1, c' = Some c1 ∧ Q m (set_context c1 w')));
    [apply Hw|done..|]. exact HQ.
Qed.

Lemma shell_action_ok kind risk target n name :
  target_ok target n → named target n name → action_ok (shell_action kind risk name n).
Proof.
  intros Ht [Hl _]. split_and!; [done|destruct target; cbn in *; lia..|done|]. by apply Forall_replicate.
Qed.

(** A request for an action that is neither a deletion nor a write runs at once. *)
Lemma safe_request_quiet P kind intent target n s last :
  in_line s last → target_ok target n → ¬ destructive kind →
  safe (agent_rel P) any (agentRequest e kind intent RiskSafe target n s last).
Proof.
  intros Hin Ht Hk w Hw. apply agentRequest_wp; [done..|]. intros c1 name Hc Hp Hn.
  eapply ok_mono.
  { apply (one_plan_run _ _ _ _ (λ w', shell_ok w' ∧ quiet w w')); [done|by split|].
    intros _ c2 Hc2. eapply ok_mono; [by apply Execute_quiet; [eapply shell_action_ok|..]|].
    by intros [[??]?]. }
  intros [[resp c'] w'] [[Hw' [[Hl Ec] Hfs]] (c2&->&Hk2)]. exists c2. split; [done|]. split; [done|].
  split; [apply shell_ok_agent; [done|by eapply ctx_keeps_ok]|].
  split_and!; [done..|]. left. unfold held. rewrite <-(ctx_keeps_pending _ _ Hk2) in Hp. exact Hp.
Qed.

Lemma delete_checked mode name n :
  1 ≤ n ≤ 16 → check_action mode (shell_action ActionDeleteFile RiskRisky name n) = None.
Proof.
  intros Hn. unfold check_action, MaxNameLen, MaxDataLen. cbn.
  replace (n <? 0) with false by lia. replace (16 <? n) with false by lia. replace (n =? 0) with false by lia.
  cbn. by destruct mode.
Qed.

(** A request for a deletion is held. *)
Lemma safe_request_delete (P : Plan → Prop) t n s last :
  in_line s last → len t = 16 → 1 ≤ n ≤ 16 →
  (∀ name p, take (Z.to_nat n) name = take (Z.to_nat n) t → delete_plan name n p → P p) →
  safe (agent_rel P) any (agentRequest e ActionDeleteFile IntentDeleteFile RiskRisky (Some t) n s last).
Proof.
  intros Hin Ht Hn HP w Hw. apply agentRequest_wp; [done..|]. intros c1 name Hc Hp [Hl Hname].
  eapply ok_mono; [apply one_plan_held; [done|by apply delete_checked]|].
  intros [[resp c'] w'] [-> (c2&->&Hk)]. exists c2. split; [done|]. split; [done|].
  set (p := one_plan _ _ _) in *.
  assert (delete_plan name n p) as Hd by (split; [done|]; split; [done|by eexists]).
  split.
  - apply shell_ok_agent; [done|]. apply (ctx_keeps_ok _ _ Hk). destruct Hc as [[? _] ? _].
    split; [done..|]. intros _. by exists name, n.
  - split_and!; [done..|]. right. exists p. split; [|by eapply HP].
    change (pending (Some c2) = Some p). by rewrite (ctx_keeps_pending _ _ Hk).
Qed.

(** ** The commands *)
Lemma safe_runAgentNoTarget P kind intent s last :
  in_line s last → ¬ destructive kind →
  safe (agent_rel P) any (runAgentNoTarget e kind intent RiskSafe s last).
Proof.
  intros Hin Hk. unfold runAgentNoTarget. bind (λ _, True) by (by apply safe_request_quiet). intros m _.
  apply safe_quiet; [apply _|]. bind (λ _, True) by apply safe_agentMessage. intros _ _. apply safe_newline.
Qed.

(** The name on the line, as [copyName] leaves it in [tmpName]. *)
Lemma copyName_wp s last w Q :
  shell_ok w → in_line s last →
  (∀ n found w', shell_ok w' → quiet w w' →
     (found = true → 1 ≤ n ≤ 16 ∧ take (Z.to_nat n) (tmpName w') = text (lineBuf w) s last) → Q (n, found) w') →
  wp (copyName s last) Q w.
Proof.
  intros Hw Hin HQ. unfold copyName. apply wp_bind, wp_reads.
  eapply ok_mono; [apply copyNameFromRange_ok; [apply (so_line _ _ _ _ _ Hw)|done|apply Hw]|].
  intros [[n found] t] (Ht&Hf). apply wp_bind, wp_modify, wp_ret. apply HQ; [by apply shell_ok_name|done|].
  intros ->. by destruct Hf as (_&?&?).
Qed.

Lemma safe_answer kind n m :
  1 ≤ n ≤ 16 →
  safe quiet any
    (_ ← (if decide (m = MessageConfirmationRequired ∧ kind = ActionDeleteFile) then
           _ ← console (Print (gs "Agent understood: delete file " ++ [34]));
           name ← get tmpName;
           _ ← console (printName name n);
           console (Print [34; 10])
         else mret tt);
     _ ← printAgentMessage m;
     newline).
Proof.
  intros Hn. bind (λ _, True) by
    (case_decide; [|run]; bind (λ _, True) by apply safe_Print; intros _ _;
     bind (λ t, len t = 16) by (apply safe_tmpName; apply _); intros t Ht;
     bind (λ _, True) by (eapply safe_prints; intros c; apply printName_Print; lia); intros _ _; apply safe_Print).
  intros _ _. bind (λ _, True) by apply safe_agentMessage. intros _ _. apply safe_newline.
Qed.

(** A safe action that runs after others. *)
Lemma wp_safe {A} R `{!PreOrder R} (P : A → Prop) (m : ShellState.M K C B L A) w w1 :
  safe R P m → shell_ok w1 → R w w1 → wp m (λ a w', P a ∧ shell_ok w' ∧ R w w') w1.
Proof.
  intros Hm Hw1 HR. eapply wp_mono; [by apply Hm|]. intros a w2 (?&?&?). split_and!; [done..|by etrans].
Qed.

(** The request of [runAgentAction], for a name on the line. *)
Lemma runAgentAction_wp P kind intent risk ts te s last w :
  shell_ok w → in_line ts te → in_line s last →
  (∀ n t, 1 ≤ n ≤ 16 → len t = 16 → take (Z.to_nat n) t = text (lineBuf w) ts te →
     safe (agent_rel P) any (agentRequest e kind intent risk (Some t) n s last)) →
  wp (runAgentAction e kind intent risk ts te s last) (λ _ w', True ∧ shell_ok w' ∧ agent_rel P w w') w.
Proof.
  intros Hw Ht Hin Hreq. unfold runAgentAction. apply wp_bind, copyName_wp; [done..|].
  intros n [] w1 Hw1 Hq Hn; cbn [negb].
  2:{ apply wp_safe; [apply _| |done|by apply prints]. apply safe_quiet; [apply _|]. apply safe_println. }
  destruct (Hn eq_refl) as [Hn1 Htake]. apply wp_bind, wp_get.
  apply wp_safe; [apply _| |done|by apply prints].
  bind (λ _, True) by (apply Hreq; [done|apply Hw1|done]). intros m _.
  apply safe_quiet; [apply _|]. by apply safe_answer.
Qed.

Definition post (R : relation S) w : unit → S → Prop := λ _ w', True ∧ shell_ok w' ∧ R w w'.

Lemma withArg_wp R `{!Prints R} s last usage k w :
  shell_ok w → in_line s last →
  (∀ s' e', s ≤ s' → s' < e' → e' ≤ last →
     words (text (lineBuf w) s last) = text (lineBuf w) s' e' :: words (text (lineBuf w) e' last) →
     wp (k s' e') (post R w) w) →
  wp (withArg s last usage k) (post R w) w.
Proof.
  intros Hw Hin Hk. unfold withArg. apply wp_bind, wp_line.
  eapply ok_mono; [apply nextArg_ok; [apply (so_line _ _ _ _ _ Hw)|done]|].
  intros [[s' e'] []] Ha; cbn [negb].
  - destruct Ha as (?&?&?&?&_). by apply Hk.
  - by apply safe_quiet; [apply _|apply safe_println|].
Qed.

Lemma matchLit_wp s last lit w Q :
  shell_ok w → in_line s last → Q (bool_decide (text (lineBuf w) s last = gs lit)) w → wp (matchLit s last lit) Q w.
Proof.
  intros Hw Hin HQ. apply wp_line. by rewrite matchLiteral_spec by (apply Hw || done).
Qed.

Lemma safe_agent_show P a1e s last :
  in_line s last → s ≤ a1e ≤ last → safe (agent_rel P) any (agent_show e a1e s last).
Proof.
  intros Hin Ha. pose proof Hin as [??]. unfold agent_show.
  apply safe_withArg; [apply _|split; lia|]. intros s' e' ???.
  assert (in_line s' e') by (split; lia).
  do 4 (bind (λ _, True) by (by apply safe_matchLit; [apply _|]); intros [] _;
    [apply safe_runAgentNoTarget; [done|by intros [|]]|]).
  bind (λ _, True) by (by apply safe_matchLit; [apply _|]). intros m _.
  bind (λ _, True) by (destruct m; [by apply safe_ret; [apply _|]|by apply safe_matchLit; [apply _|]]).
  intros [] _; [apply safe_runAgentNoTarget; [done|by intros [|]]|].
  apply safe_quiet; [apply _|apply safe_println].
Qed.

Lemma runAgentAction_quiet P kind intent ts te s last w :
  shell_ok w → in_line ts te → in_line s last → ¬ destructive kind →
  wp (runAgentAction e kind intent RiskSafe ts te s last) (post (agent_rel P) w) w.
Proof.
  intros Hw Ht Hin Hk. apply runAgentAction_wp; [done..|]. intros n t ???.
  by apply safe_request_quiet.
Qed.

Lemma agent_mode_wp P a1e s last w :
  shell_ok w → in_line s last → s ≤ a1e ≤ last →
  wp (agent_mode e a1e s last) (post (agent_rel P) w) w.
Proof.
  intros Hw Hin Ha. pose proof Hin as [??]. unfold agent_mode. apply wp_bind, wp_line.
  eapply ok_mono; [apply nextArg_ok; [apply (so_line _ _ _ _ _ Hw)|split; lia]|].
  intros [[s' e'] []] Ha'.
  - destruct Ha' as (?&?&?&_). apply runAgentAction_quiet; [done|split; lia|done|by intros [|]].
  - apply safe_runAgentNoTarget; [done|by intros [|]|done].
Qed.

Lemma safe_agent_transport a1e last : in_line a1e last → safe quiet any (agent_transport a1e last).
Proof.
  intros Hin. pose proof Hin as [??]. unfold agent_transport.
  apply safe_withArg; [split; [apply _|done]|done|]. intros s' e' ???. assert (in_line s' e') by (split; lia).
  bind (λ _, True) by (eapply safe_mono; [apply safe_nextArg; [apply _|split; lia]|done]). intros [[? ?] extra] _.
  bind (λ _, True) by (destruct extra; [by apply safe_ret; [apply _|]|by apply safe_matchLit; [apply _|]]).
  intros [] _; cbn [negb]; [by apply safe_transport|apply safe_println].
Qed.

(** An [agent] command: what it leaves pending was asked for on the line. *)
Lemma cmd_agent_wp (P : Plan → Prop) cmdEnd s last w :
  shell_ok w → in_line s last → s ≤ cmdEnd ≤ last →
  (∀ name n p rest, words (text (lineBuf w) cmdEnd last) = gs "delete" :: take (Z.to_nat n) name :: rest →
     delete_plan name n p → P p) →
  wp (cmd_agent e cmdEnd s last) (post (agent_rel P) w) w.
Proof.
  intros Hw Hin Hc HP. pose proof Hin as [??]. unfold cmd_agent.
  apply withArg_wp; [apply _|done|split; lia|]. intros s1 e1 ??? Hws.
  assert (in_line s1 e1) by (split; lia). assert (in_line e1 last) by (split; lia).
  apply wp_bind, matchLit_wp; [done..|]. case_bool_decide. { apply safe_agent_show; [done|lia|done]. }
  apply wp_bind, matchLit_wp; [done..|]. case_bool_decide.
  { apply withArg_wp; [apply _|done..|]. intros s2 e2 ??? _.
    apply runAgentAction_quiet; [done|split; lia|done|by intros [|]]. }
  apply wp_bind, matchLit_wp; [done..|]. case_bool_decide as Hdel.
  { apply withArg_wp; [apply _|done..|]. intros s2 e2 ??? Hws2.
    apply runAgentAction_wp; [done|split; lia|done|]. intros n t Hn Hl Ht.
    with_strategy opaque [agentRequest] apply safe_request_delete; [done..|]. intros name p Hname. apply (HP name n p (words (text (lineBuf w) e2 last))).
    by rewrite Hws, Hws2, Hdel, Hname, Ht. }
  apply wp_bind, matchLit_wp; [done..|]. case_bool_decide.
  { apply withArg_wp; [apply _|done..|]. intros s2 e2 ??? _.
    apply runAgentAction_quiet; [done|split; lia|done|by intros [|]]. }
  apply wp_bind, matchLit_wp; [done..|]. case_bool_decide. { apply agent_mode_wp; [done..|lia]. }
  apply wp_bind, matchLit_wp; [done..|]. case_bool_decide.
  { by apply safe_quiet; [apply _|apply safe_agent_transport|]. }
  apply wp_bind, matchLit_wp; [done..|]. case_bool_decide.
  { by apply safe_quiet; [apply _|apply safe_printAgentContext|]. }
  apply wp_bind, matchLit_wp; [done..|]. case_bool_decide.
  { apply safe_runAgentNoTarget; [done|by intros [|]|done]. }
  by apply safe_quiet; [apply _|apply safe_println|].
Qed.

(** ** Confirmation *)
(** The deletion of the named file. *)
Definition removes (name : list Z) (n : Z) w w' : Prop :=
  ∃ removed, Remove name n (sh_fs w) = Some (removed, sh_fs w').

Lemma Execute_delete name n :
  len name = 16 → 1 ≤ n ≤ 16 →
  handles (λ w w', same_agent w w' ∧ removes name n w w') (Execute e)
    (shell_action ActionDeleteFile RiskRisky name n).
Proof.
  intros Hl Hn c w Hw.
  apply (handler_handles (λ w w', same_agent w w' ∧ removes name n w w') agentDeleteFile); [|done]. clear c w Hw.
  intros w Hw. unfold agentDeleteFile. cbn [act_TargetLen act_Target shell_action].
  destruct (Z.leb_spec n 0); [lia|]. apply wp_bind.
  pose proof (Remove_safe (sh_fs w) name n ltac:(apply Hw) Hl Hn) as Hr.
  apply wp_call_fs. destruct (Remove name n (sh_fs w)) as [[removed s]|] eqn:E; [|done]. cbn [ok] in *.
  destruct Hr as (?&?).
  assert (shell_ok (set_fs s w)) by (by apply shell_ok_fs).
  destruct removed; (apply wp_ret; split_and!; [done..|by eexists]).
Qed.

(** The answer to the question: [yes] runs the pending deletion if there is an executor,
    anything else drops it; nothing is pending any more. *)
Lemma confirm_wp yes p name n w :
  shell_ok w → held w = Some p → delete_plan name n p →
  wp (call_agent (ConfirmActionMessage (Some (runtimeAgent e w)) yes))
    (λ _ w', shell_ok w' ∧ same_line w w' ∧ held w' = None ∧
       if yes && executorConfigured w then removes name n w w' else sh_fs w' = sh_fs w) w.
Proof.
  intros Hw Hp (Hl&Hn&mode&->). apply call_agent_wp. unfold held, pending in Hp. cbn [mbind option_bind] in Hp.
  cbn [ConfirmActionMessage]. unfold ConfirmAction. apply ok_bind.
  destruct (ctx_ConfirmationPending (agentContext w)) eqn:Hcp; [|done]. injection Hp as Hp. cbn [negb].
  set (c0 := set_Pending zero_Plan false (agentContext w)).
  assert (ctx_ok c0) as Hc0. { destruct (so_ctx _ _ _ _ _ Hw) as [[? _] ? _]. by split. }
  rewrite Hp. destruct yes; cbn [negb andb].
  - eapply ok_mono.
    { apply (one_plan_run _ _ _ _ (λ w', shell_ok w' ∧ same_agent w w' ∧
        if executorConfigured w then removes name n w w' else sh_fs w' = sh_fs w)); [done| |].
      - intros [Hx|Hx]; [by rewrite delete_checked in Hx|]. cbn in Hx. by rewrite Hx.
      - intros Hx c1 _. cbn in Hx. rewrite Hx. eapply ok_mono; [by apply Execute_delete|].
        by intros [[res c'] w'] (?&?&?&?). }
    intros [[resp c'] w'] [(Hw'&[Hsl _]&Hr) (c1&->&Hk)]. exists c1. split; [done|]. split_and!; [|done| |done].
    + apply shell_ok_agent; [done|]. by apply (ctx_keeps_ok c0).
    + exact (ctx_keeps_pending _ _ Hk).
  - rewrite zero_Response_of, setResponseResult_of, setSafety_of, AddTrace_response by (cbn; lia).
    cbn [mbind option_bind]. rewrite finish_spec by done. unfold closing. cbn [ok]. cbn [fmap option_fmap option_map].
    eexists. split; [done|].
    assert (∀ m b, ctx_keeps c0 (finished (one_plan mode IntentDeleteFile (shell_action ActionDeleteFile RiskRisky name n)) m b c0)) as Hk
      by (intros; apply ctx_keeps_finished).
    split_and!; [|done| |done].
    + apply shell_ok_agent; [done|]. eapply ctx_keeps_ok; [apply Hk|done].
    + exact (ctx_keeps_pending _ _ (Hk _ _)).
Qed.
End agent.
