(* ===== verification/ShellRun.v ===== *)
(** * Package [shell]: keys, lines and confirmations

    The shell as a whole: [FeedRune] edits the line, [execute] runs it.  Whatever is typed,
    the shell returns to the prompt in a good state, unless a [mem] command leaves the
    mapped memory, when it halts ([shell_total]); the line is what an ideal editor makes of
    the keys ([line_editor]); a file is deleted on behalf of the agent only by a [yes] typed
    after [agent delete] with its name ([delete_gate]). *)
From S2P Require Import Prelude PageAlloc Mem Fs FsMem FsSafe PortIO Terminal Serial AgentTypes Agent AgentGate.
From S2P Require Import Disk Fat16 FatSafe Line Output History ShellState ShellInv Shell ShellSafe ShellAgent.
Local Open Scope Z_scope.

(** ** Words of a trimmed line *)
Lemma word_split t :
  ∃ a b, t = a ++ b ∧ Forall (λ c, isSpace c = false) a ∧ stops (λ c, negb (isSpace c)) b.
Proof.
  induction t as [|c t (a&b&->&Ha&Hb)]; [by exists [], []|]. destruct (isSpace c) eqn:Hc.
  - exists [], (c :: a ++ b). split_and!; [done..|]. cbn. by rewrite Hc.
  - exists (c :: a), b. split_and!; [done| |done]. by constructor.
Qed.

(** A text that neither starts nor ends with a blank is its only word. *)
Lemma words_single t w :
  stops isSpace t → (∀ t' c, t = t' ++ [c] → isSpace c = false) → words t = [w] ↔ (t = w ∧ w ≠ [] ∧ Forall (λ c, isSpace c = false) w).
Proof.
  intros Hs He. split.
  - intros Hw. destruct (word_split t) as (a&b&->&Ha&Hb).
    assert (a ≠ []) as Hne.
    { intros ->. cbn in *. destruct b as [|c b]; [done|]. cbn in Hs, Hb. by rewrite Hs in Hb. }
    rewrite words_word in Hw by done. injection Hw as <- Hw%words_nil.
    destruct b as [|c b' _] using rev_ind; [rewrite app_nil_r; by split_and!|].
    exfalso. specialize (He (a ++ b') c ltac:(by rewrite app_assoc)).
    apply Forall_app in Hw as [_ Hw]. inversion Hw. congruence.
  - intros (->&Hne&Hw). pose proof (words_word w [] Hne Hw I) as E. by rewrite app_nil_r in E.
Qed.

Lemma words_blank_r t sp : Forall (λ c, isSpace c = true) sp → words (t ++ sp) = words t.
Proof.
  intros Hsp. induction t as [|c t IH]; [by apply words_nil|].
  cbn [app words]. rewrite IH. destruct (isSpace c); [done|]. destruct t as [|c' t]; [|done].
  cbn [app]. destruct Hsp as [|c' sp Hc' _]; [done|]. by rewrite Hc'.
Qed.

(** The bounds of the trimmed line. *)
Lemma trimmed lb n :
  len lb = maxLine → in_line 0 n →
  ∀ start, 0 ≤ start ≤ n → Forall (λ c, isSpace c = true) (text lb 0 start) → stops isSpace (text lb start n) →
  ∀ last, start ≤ last ≤ n → Forall (λ c, isSpace c = true) (text lb last n) →
    (start < last → ∃ c, aget lb (last - 1) = Some c ∧ isSpace c = false) →
  words (text lb 0 n) = words (text lb start last) ∧
  ∀ w, w ≠ [] → Forall (λ c, isSpace c = false) w → (words (text lb 0 n) = [w] ↔ text lb start last = w).
Proof.
  intros Hl Hn start Hs Hbl Hst last Hl' Hbr Hend. pose proof Hn as [??].
  assert (words (text lb 0 n) = words (text lb start last)) as E.
  { rewrite (text_split lb 0 start n), (text_split lb start last n) by lia.
    by rewrite words_blank, words_blank_r. }
  split; [done|]. intros w Hne Hw. rewrite E, words_single; [tauto| |].
  - rewrite (text_split lb start last n) in Hst by lia. by destruct (text lb start last).
  - intros t' c Et. destruct (decide (start < last)) as [Hlt|].
    2:{ rewrite text_nil in Et by lia. by destruct t'. }
    destruct (Hend Hlt) as (c'&Hc'&Hsp). replace last with (last - 1 + 1) in Et by lia.
    rewrite (text_snoc lb Hl start (last - 1) c') in Et by (done || (split; lia)).
    apply app_inj_tail in Et as [_ ->]. done.
Qed.

Section run.
Context {K C B L : Type} `{!TextConsole C} `{!TextConsoleLaws C} `{!Disk B} `{!DiskTotal B}.
Context `{!PortIO L} `{!PortIOLaws L}.
Context (addr_tmpData addr_diskBuf addr_actionData : Z).
Context (kernel_ok : K → Prop).

Abbreviation S := (shell K C B L).
Abbreviation safe := (safe (L := L) (B := B) addr_tmpData addr_diskBuf addr_actionData kernel_ok).
Abbreviation shell_ok := (shell_ok (L := L) (B := B) addr_tmpData addr_diskBuf addr_actionData kernel_ok).
Abbreviation any := (λ _, True).
Abbreviation e := (NewAgentExecutor (K := K) (C := C) (B := B) (L := L) addr_actionData).
Abbreviation post := (post (L := L) (B := B) addr_tmpData addr_diskBuf addr_actionData kernel_ok).
Implicit Types w : shell K C B L.

(** ** Commands *)
(** A command leaves the line; if it leaves a new plan pending, the plan is in [P] and the
    files are as before; they are as before, too, if it is a command to the agent ([A]). *)
Definition cmd_rel (P : Plan → Prop) (A : Prop) w w' : Prop :=
  same_line w w' ∧ (held w' = held w ∨ ∃ p, held w' = Some p ∧ P p ∧ sh_fs w' = sh_fs w) ∧
  (A → sh_fs w' = sh_fs w).

Lemma cmd_rel_agent P A w w' : agent_rel P w w' → cmd_rel P A w w'.
Proof. intros (?&?&H). split; [done|]. naive_solver. Qed.
Lemma cmd_rel_same P (A : Prop) w w' : ¬ A → same_agent w w' → cmd_rel P A w w'.
Proof. intros HA [? E]. split; [done|]. split; [|done]. left. unfold held. by rewrite E. Qed.
Lemma cmd_rel_quiet P A w w' : quiet w w' → cmd_rel P A w w'.
Proof. intros [[? E] ?]. split; [done|]. split; [|done]. left. unfold held. by rewrite E. Qed.

Lemma post_safe P (A : Prop) m w : ¬ A → safe same_agent any m → shell_ok w → wp m (post (cmd_rel P A) w) w.
Proof.
  intros HA Hm Hw. eapply wp_mono; [by apply Hm|]. intros [] w' (?&?&?). split_and!; [done..|].
  by apply cmd_rel_same.
Qed.
Lemma post_quiet P A m w : safe quiet any m → shell_ok w → wp m (post (cmd_rel P A) w) w.
Proof.
  intros Hm Hw. eapply wp_mono; [by apply Hm|]. intros [] w' (?&?&?). split_and!; [done..|].
  by apply cmd_rel_quiet.
Qed.

Lemma on_wp R s last lit body rest w :
  shell_ok w → in_line s last →
  (text (lineBuf w) s last = gs lit → wp body (post R w) w) →
  (text (lineBuf w) s last ≠ gs lit → wp rest (post R w) w) →
  wp (on s last lit body rest) (post R w) w.
Proof.
  intros Hw Hin Hb Hr. unfold on. apply wp_bind. eapply matchLit_wp; [done..|].
  case_bool_decide; [by apply Hb|by apply Hr].
Qed.

Lemma on_runs R F s last lit body rest w :
  shell_ok w → in_line s last →
  (text (lineBuf w) s last = gs lit → runs body F (post R w) w) →
  (text (lineBuf w) s last ≠ gs lit → runs rest F (post R w) w) →
  runs (on s last lit body rest) F (post R w) w.
Proof.
  intros Hw Hin Hb Hr. unfold on. apply runs_bind. eapply matchLit_wp; [done..|].
  case_bool_decide; [by apply Hb|by apply Hr].
Qed.

(** A command that leaves the agent alone; the line starts with its name, [Hlit]. *)
Ltac other_word :=
  let H := fresh in intros H;
  match goal with
  | HA : _ → ?x = gs "agent", Hlit : ?x = _ |- _ => apply HA in H; rewrite Hlit in H; discriminate H
  end.
Tactic Notation "command" uconstr(lem) :=
  apply on_wp; [done..|intros Hlit; first [apply post_quiet; [by apply lem|done]
                                         | apply post_safe; [other_word|by apply lem|done]]|intros _].

(** The line asks the agent to delete the file of the plan. *)
Definition asks_delete (t : list Z) (p : Plan) : Prop :=
  ∃ name n rest, delete_plan name n p ∧ words t = gs "agent" :: gs "delete" :: take (Z.to_nat n) name :: rest.

(** The line is a command to the agent. *)
Definition agent_line (t : list Z) : Prop := ∃ rest, words t = gs "agent" :: rest.

Lemma dispatch_rest_wp P (A : Prop) start last cmdEnd w :
  shell_ok w → in_line start last → start ≤ cmdEnd ≤ last →
  (A → text (lineBuf w) start cmdEnd = gs "agent") →
  (text (lineBuf w) start cmdEnd = gs "agent" → ∀ name n p rest,
     words (text (lineBuf w) cmdEnd last) = gs "delete" :: take (Z.to_nat n) name :: rest →
     delete_plan name n p → P p) →
  wp (dispatch_rest addr_diskBuf e start last start cmdEnd) (post (cmd_rel P A) w) w.
Proof.
  intros Hw Hin Hc HA HP. pose proof Hin as [??]. unfold dispatch_rest.
  assert (in_line start cmdEnd) as Hcmd by (split; lia). assert (in_line cmdEnd last) as Harg by (split; lia).
  command safe_cmd_fatinit.
  command safe_cmd_fatformat.
  command safe_cmd_fatinfo.
  command safe_cmd_fatls.
  command safe_cmd_fatcreate.
  command safe_cmd_fatread.
  command safe_cmd_layout.
  command safe_printVersion.
  command safe_cmd_run.
  apply on_wp; [done..| |intros _].
  { intros Ha. eapply wp_mono; [apply (cmd_agent_wp addr_tmpData addr_diskBuf addr_actionData kernel_ok P); [done..|by apply HP]|].
    intros [] w' (?&?&?). split_and!; [done..|by apply cmd_rel_agent]. }
  apply post_quiet; [by apply safe_suggest|done].
Qed.

(** The commands after [mem]. *)
Lemma dispatch_tail_wp P (A : Prop) start last cmdEnd w :
  shell_ok w → in_line start last → start ≤ cmdEnd ≤ last →
  (A → text (lineBuf w) start cmdEnd = gs "agent") →
  (text (lineBuf w) start cmdEnd = gs "agent" → ∀ name n p rest,
     words (text (lineBuf w) cmdEnd last) = gs "delete" :: take (Z.to_nat n) name :: rest →
     delete_plan name n p → P p) →
  let on := on start cmdEnd in
  wp (on "mmap" printMemoryMap $ on "mmapmax" cmd_mmapmax $ on "pfa" cmd_pfa $ on "alloc" cmd_alloc $
      on "free" (cmd_free cmdEnd last) $ on "ls" cmd_ls $ on "write" (cmd_write addr_tmpData cmdEnd last) $
      on "cat" (cmd_cat cmdEnd last) $ on "rm" (cmd_rm cmdEnd last) $ on "stat" (cmd_stat cmdEnd last) $
      on "disk" (returned ← cmd_disk addr_diskBuf cmdEnd last;
                 if returned : bool then mret tt else dispatch_rest addr_diskBuf e start last start cmdEnd) $
      dispatch_rest addr_diskBuf e start last start cmdEnd) (post (cmd_rel P A) w) w.
Proof.
  intros Hw Hin Hc HA HP. pose proof Hin as [??].
  assert (in_line start cmdEnd) as Hcmd by (split; lia). assert (in_line cmdEnd last) as Harg by (split; lia).
  command safe_printMemoryMap.
  command safe_cmd_mmapmax.
  command safe_cmd_pfa.
  command safe_cmd_alloc.
  command safe_cmd_free.
  command safe_cmd_ls.
  command safe_cmd_write.
  command safe_cmd_cat.
  command safe_cmd_rm.
  command safe_cmd_stat.
  apply on_wp; [done..| |intros _; by apply dispatch_rest_wp].
  intros Hd. assert (¬ A) as HnA by other_word.
  apply wp_bind. eapply wp_mono; [by apply safe_cmd_disk|].
  intros [] w1 (_&Hw1&Hr). { apply wp_ret. split_and!; [done..|by apply cmd_rel_same]. }
  eapply wp_mono; [apply (dispatch_rest_wp (λ _, False) False); [done..|lia|done|]|].
  - destruct Hr as [[-> _] _]. rewrite Hd. done.
  - intros [] w2 (_&?&Hr2). split_and!; [done..|]. destruct Hr as [Hsl E].
    destruct Hr2 as (Hsl2&[E2|(?&_&[]&_)]&_). split; [by etrans|]. split; [|done].
    left. rewrite E2. unfold held. by rewrite E.
Qed.

(** The words of a trimmed line that starts with [cmd]. *)
Lemma dispatch_runs start last w :
  shell_ok w → in_line start last → start < last → stops isSpace (text (lineBuf w) start last) →
  let t := text (lineBuf w) start last in
  runs (dispatch addr_tmpData addr_diskBuf e start last) (dumps_unmapped t)
    (post (cmd_rel (asks_delete t) (agent_line t)) w) w.
Proof.
  intros Hw Hin Hlt Hst t. pose proof Hin as [??]. unfold dispatch, firstToken. apply runs_bind, wp_line.
  assert (len (lineBuf w) = maxLine) as Hl by apply Hw.
  call scan_while_ok; [done..|]. intros cmdEnd (Hc&Hword&Hstop).
  assert (in_line start cmdEnd) as Hcmd by (split; lia). assert (in_line cmdEnd last) as Harg by (split; lia).
  assert (words t = text (lineBuf w) start cmdEnd :: words (text (lineBuf w) cmdEnd last)) as Hws.
  { unfold t in *. rewrite (text_split _ start cmdEnd) in Hst |- * by lia. apply words_word; [| |done].
    - intros Hn. rewrite Hn in Hst. cbn [app] in Hst.
      assert (start = cmdEnd) as <-.
      { pose proof (len_text _ Hl start cmdEnd Hcmd) as Hlen. rewrite Hn, len_nil in Hlen. lia. }
      destruct (aget_line (lineBuf w) Hl start) as [c Hc']; [lia|].
      rewrite (text_cons _ start last c) in Hst, Hstop by (done || lia). cbn in Hst, Hstop. by rewrite Hst in Hstop.
    - eapply Forall_impl; [exact Hword|]. intros c. cbn. apply negb_true_iff. }
  assert (agent_line t → text (lineBuf w) start cmdEnd = gs "agent") as HA.
  { intros [rest Hr]. rewrite Hws in Hr. by injection Hr. }
  assert (dumps_unmapped t → text (lineBuf w) start cmdEnd = gs "mem") as HF.
  { unfold dumps_unmapped. rewrite Hws. by intros [? _]. }
  assert (∀ lit (m : ShellState.M K C B L unit), gs lit ≠ gs "mem" → safe quiet any m →
    text (lineBuf w) start cmdEnd = gs lit →
    runs m (dumps_unmapped t) (post (cmd_rel (asks_delete t) (agent_line t)) w) w) as Hquiet.
  { intros lit m Hne Hm Hlit. apply runs_wp; [intros ?%HF; congruence|]. by apply post_quiet. }
  apply on_runs; [done..|apply Hquiet; [done|by apply safe_showHistory]|intros _].
  apply on_runs; [done..|apply Hquiet; [done|by apply safe_cmd_help]|intros _].
  apply on_runs; [done..|apply Hquiet; [done|by apply safe_cmd_clear]|intros _].
  apply on_runs; [done..|apply Hquiet; [done|by apply safe_cmd_echo]|intros _].
  apply on_runs; [done..|apply Hquiet; [done|by apply safe_cmd_ticks]|intros _].
  apply on_runs; [done..|apply Hquiet; [done|by apply safe_cmd_uptime]|intros _].
  apply on_runs; [done..| |].
  - intros Hmem. eapply runs_mono; [by apply (cmd_mem_runs addr_tmpData addr_diskBuf addr_actionData kernel_ok)| |].
    + unfold dumps_unmapped. rewrite Hws. split; [by split|by intros [_ ?]].
    + intros [] w' (_&?&?). split_and!; [done..|by apply cmd_rel_quiet].
  - intros Hne. apply runs_wp; [intros ?%HF; done|]. apply dispatch_tail_wp; [done..|lia|done|].
    intros Ha name n p rest Hws' Hp. exists name, n, rest. split; [done|]. by rewrite Hws, Ha, Hws'.
Qed.

(** ** Lines *)
Definition typed w : list Z := text (lineBuf w) 0 (lineLen w).

(** What running a line does to the question of the agent. *)
Definition gate w w' : Prop :=
  match held w with
  | Some p =>
      ∃ name n, delete_plan name n p ∧ held w' = None ∧
        if bool_decide (words (typed w) = [gs "yes"]) && executorConfigured w
        then removes name n w w' else sh_fs w' = sh_fs w
  | None =>
      (∀ p, held w' = Some p → asks_delete (typed w) p ∧ sh_fs w' = sh_fs w) ∧
      (agent_line (typed w) → sh_fs w' = sh_fs w)
  end.

(** The line halts the machine: it is run as a command, which is a [mem] command that leaves
    the mapped memory. *)
Definition halts_line w : Prop := held w = None ∧ dumps_unmapped (typed w).

#[local] Instance halts_line_dec w : Decision (halts_line w).
Proof. unfold halts_line. destruct (held w); [right; by intros [? _]|]. apply _. Defined.

(** The line that answers a question. *)
Lemma answer_wp (yes : bool) p name n w :
  shell_ok w → held w = Some p → delete_plan name n p →
  wp (r ← get (runtimeAgent e); message ← call_agent (ConfirmActionMessage (Some r) yes);
      _ ← printAgentMessage message; newline)
    (λ _ w', shell_ok w' ∧ same_line w w' ∧ held w' = None ∧
       if yes && executorConfigured w then removes name n w w' else sh_fs w' = sh_fs w) w.
Proof.
  intros Hw Hh Hp. apply wp_bind, wp_get, wp_bind.
  eapply wp_mono; [by apply (confirm_wp addr_tmpData addr_diskBuf addr_actionData kernel_ok yes p name n)|].
  intros m w1 (Hw1&Hl1&Hh1&Hfs).
  assert (safe quiet any (_ ← printAgentMessage m; newline)) as Hm.
  { bind (λ _, True) by apply safe_agentMessage. intros _ _. apply safe_newline. }
  eapply wp_mono; [by apply Hm|]. intros _ w2 (_&Hw2&[[Hl2 Ec] Ef]).
  assert (held w2 = None) by (unfold held in *; by rewrite Ec).
  split_and!; [done|by etrans|done|]. unfold removes in *. by rewrite Ef.
Qed.

(** A line that is run as a command. *)
Lemma command_runs start last w :
  shell_ok w → in_line start last → start < last → stops isSpace (text (lineBuf w) start last) →
  let t := text (lineBuf w) start last in
  runs (h ← reads (λ w, addHistory (lineBuf w) start last (sh_history w)); _ ← modify (set_history h);
        dispatch addr_tmpData addr_diskBuf e start last) (dumps_unmapped t)
    (post (cmd_rel (asks_delete t) (agent_line t)) w) w.
Proof.
  intros Hw Hin Hlt Hst t. apply runs_bind, wp_reads.
  eapply ok_mono; [apply addHistory_ok; [apply (so_line _ _ _ _ _ Hw)|done..|apply Hw]|]. intros h [Hh _].
  apply runs_bind, wp_modify. apply (dispatch_runs start last (set_history h w)); [|done..].
  by apply shell_ok_history.
Qed.

Lemma execute_runs w :
  shell_ok w →
  runs (execute addr_tmpData addr_diskBuf e) (halts_line w) (λ _ w', shell_ok w' ∧ same_line w w' ∧ gate w w') w.
Proof.
  intros Hw. assert (len (lineBuf w) = maxLine) as Hl by apply Hw.
  assert (in_line 0 (lineLen w)) as Hin. { pose proof (so_len _ _ _ _ _ Hw). split; lia. }
  pose proof Hin as [??]. unfold execute. apply runs_bind, wp_get, runs_bind, wp_line.
  eapply ok_mono; [by apply trimLeft_ok|]. intros start (Hs&Hbl&Hst). apply runs_bind, wp_line.
  eapply ok_mono; [apply trimRight_ok; [done|split; lia]|]. intros last (Hl'&Hbr&Hend).
  destruct (trimmed _ _ Hl Hin _ Hs Hbl Hst _ Hl' Hbr Hend) as [Hws Hone].
  assert (in_line start last) as Hsl by (split; lia).
  apply runs_bind, wp_get. unfold gate, halts_line, typed.
  destruct (ctx_ConfirmationPending (agentContext w)) eqn:Hpend.
  - assert (held w = Some (ctx_PendingPlan (agentContext w))) as Hh by (unfold held; cbn; by rewrite Hpend).
    rewrite Hh. apply runs_wp; [by intros [? _]|].
    destruct (co_pending _ (so_ctx _ _ _ _ _ Hw) Hpend) as (name&n&Hp).
    set (q := bool_decide (words (text (lineBuf w) 0 (lineLen w)) = [gs "yes"])).
    apply wp_bind, (wp_mono _ (λ y w', y = q ∧ w' = w)).
    { unfold q. rewrite (bool_decide_ext _ (text (lineBuf w) start last = gs "yes")) by (apply Hone; [done|by repeat constructor]).
      destruct (Z.ltb_spec start last); [by eapply matchLit_wp|]. apply wp_ret. split; [|done].
      by rewrite text_nil by lia. }
    intros yes w1 [-> ->]. eapply wp_mono; [by eapply (answer_wp _ _ name n)|].
    intros _ w2 (?&?&?&?). split_and!; [done..|]. by exists name, n.
  - assert (held w = None) as Hh by (unfold held; cbn; by rewrite Hpend). rewrite Hh.
    destruct (Z.leb_spec last start) as [Hle|Hlt].
    { apply runs_wp.
      - intros [_ Hd]. unfold dumps_unmapped in Hd. by rewrite Hws, text_nil in Hd by lia.
      - apply wp_ret. split_and!; [done..| |done]. intros p. by rewrite Hh. }
    assert (stops isSpace (text (lineBuf w) start last)) as Hst'.
    { rewrite (text_split _ start last) in Hst by lia. destruct (aget_line (lineBuf w) Hl start) as [c Hc']; [lia|].
      by rewrite (text_cons _ start last c) in Hst |- * by (done || lia). }
    eapply runs_mono; [by apply command_runs| |].
    + unfold dumps_unmapped, typed. rewrite Hws. split; [by split|by intros [_ ?]].
    + intros [] w2 (_&?&?&Hg&HA). split_and!; [done..| |].
      * intros p Hp. destruct Hg as [Hg|(p'&Hp'&(name&n&rest&?&Hq)&?)]; [congruence|]. simplify_eq. split; [|done].
        exists name, n, rest. by rewrite Hws.
      * intros [rest Hr]. apply HA. exists rest. by rewrite <-Hws.
Qed.

(** ** Keys *)
Definition enter_key (r : Z) : Prop := r = 10 ∨ r = 13.

(** An ideal line editor. *)
Definition edit (t : list Z) (r : Z) : list Z :=
  if bool_decide (r = 10 ∨ r = 13) then []
  else if r =? 8 then take (length t - 1) t
  else if (32 <=? r) && (r <=? 126) && (len t <? maxLine) then t ++ [r]
  else t.

Abbreviation FeedRune := (FeedRune addr_tmpData addr_diskBuf e).

Fixpoint feed (rs : list Z) : ShellState.M K C B L unit :=
  match rs with
  | [] => mret tt
  | r :: rs => _ ← FeedRune r; feed rs
  end.

(** What a key does to the line, the question of the agent and the files. *)
Definition key_step (r : Z) w w' : Prop :=
  typed w' = edit (typed w) r ∧ hooks w' = hooks w ∧
  if bool_decide (r = 10 ∨ r = 13) then gate w w' else held w' = held w ∧ sh_fs w' = sh_fs w.

Lemma FeedRune_enter w :
  shell_ok w →
  runs (_ ← putRune 10; _ ← execute addr_tmpData addr_diskBuf e; _ ← modify (λ w, set_line (lineBuf w) 0 w); print "> ")
    (halts_line w) (λ _ w', shell_ok w' ∧ typed w' = [] ∧ hooks w' = hooks w ∧ gate w w') w.
Proof.
  intros Hw. apply runs_bind. unfold putRune. apply wp_console. rewrite PutRune_Print.
  eapply ok_mono; [by apply Print_ok, Hw|]. intros c Hc.
  eapply runs_then; [apply (execute_runs (set_con c w)); by apply shell_ok_con|]. intros _ w2 (Hw2&(_&_&Eh)&Hg).
  apply wp_bind, wp_modify.
  eapply wp_mono; [apply safe_print; apply shell_ok_line; [done|apply Hw2|unfold maxLine; lia]|].
  intros _ w3 (_&Hw3&[[(El&En&Eh3) Ec] Ef]). split; [done|].
  split; [unfold typed; by rewrite El, En, text_nil|]. split; [rewrite Eh3; exact Eh|].
  unfold gate, held, removes in *. cbn in Hg |- *. by rewrite Ec, Ef.
Qed.

Lemma typed_len w : shell_ok w → len (typed w) = lineLen w.
Proof.
  intros Hw. pose proof (so_len _ _ _ _ _ Hw). unfold typed. rewrite len_text; [lia|apply Hw|split; lia].
Qed.

(** Backspace. *)
Lemma FeedRune_erase w :
  shell_ok w →
  wp (n ← get lineLen;
      if n =? 0 then mret tt
      else _ ← modify (λ w, set_line (lineBuf w) (n - 1) w); console con_backspace)
    (λ _ w', shell_ok w' ∧ typed w' = take (length (typed w) - 1) (typed w) ∧ hooks w' = hooks w ∧ held w' = held w ∧ sh_fs w' = sh_fs w) w.
Proof.
  intros Hw. pose proof (typed_len w Hw) as Hl. pose proof (so_len _ _ _ _ _ Hw) as Hn.
  apply wp_bind, wp_get. destruct (Z.eqb_spec (lineLen w) 0) as [E|E].
  { apply wp_ret. split_and!; [done| |done..]. rewrite E in Hl. by rewrite (len_0_nil _ Hl). }
  apply wp_bind, wp_modify, wp_console. eapply ok_mono; [apply con_backspace_ok, Hw|]. intros c Hc.
  split; [apply shell_ok_con; [|done]; apply shell_ok_line; [done|apply Hw|lia]|].
  split; [|done]. rewrite len_length in Hl. unfold typed at 1. cbn [lineBuf lineLen set_con set_machine set_line].
  unfold typed in *. unfold text, subrange in *. rewrite take_take. f_equal. lia.
Qed.

(** A character. *)
Lemma FeedRune_char r w :
  shell_ok w → 32 ≤ r ≤ 126 →
  wp (n ← get lineLen;
      if maxLine <=? n then mret tt
      else lb ← line (λ lb, aset lb n (u8 r)); _ ← modify (set_line lb (n + 1)); putRune r)
    (λ _ w', shell_ok w' ∧ typed w' = (if len (typed w) <? maxLine then typed w ++ [r] else typed w) ∧
       hooks w' = hooks w ∧ held w' = held w ∧ sh_fs w' = sh_fs w) w.
Proof.
  intros Hw Hr. rewrite typed_len by done. pose proof (so_len _ _ _ _ _ Hw) as Hn.
  pose proof (so_line _ _ _ _ _ Hw) as [Hl Hb].
  apply wp_bind, wp_get. destruct (Z.leb_spec maxLine (lineLen w)); destruct (Z.ltb_spec (lineLen w) maxLine); try lia.
  { by apply wp_ret. }
  rewrite u8_small by (lia). apply wp_bind, wp_line. rewrite aset_Some by lia. cbn [ok].
  set (lb := <[_ := r]> (lineBuf w)). apply wp_bind, wp_modify.
  assert (len lb = maxLine) as Hl1 by (unfold lb; by rewrite len_insert).
  assert (line_ok lb) as Hlb. { split; [done|]. apply Forall_insert; [done|]. lia. }
  eapply wp_mono; [apply safe_putRune; apply shell_ok_line; [done..|lia]|].
  intros _ w2 (_&Hw2&[[(El&En&Eh) Ec] Ef]). split; [done|]. split; [|by unfold held; rewrite Eh, Ec, Ef].
  unfold typed. rewrite El, En. cbn [lineBuf lineLen set_line].
  rewrite (text_snoc lb Hl1 0 (lineLen w) r).
  - f_equal. unfold text, subrange, lb. rewrite !drop_0, Z.sub_0_r. by rewrite take_insert_ge by lia.
  - split; lia.
  - unfold lb. rewrite aget_insert by lia. by rewrite decide_True by lia.
Qed.

Lemma FeedRune_runs r w :
  shell_ok w → runs (FeedRune r) (enter_key r ∧ halts_line w) (λ _ w', shell_ok w' ∧ key_step r w w') w.
Proof.
  intros Hw. unfold Shell.FeedRune, key_step, edit, enter_key. cbv zeta.
  destruct (Z.eqb_spec r 13) as [->|Hr]; [|destruct (decide (r = 10)) as [->|Hr']].
  1, 2: eapply runs_mono; [by apply FeedRune_enter| |by intros _ w' (?&?&?&?)]; split; [by auto|by intros [_ ?]].
  apply runs_wp; [by intros [[|] _]|]. rewrite bool_decide_false by (by intros [|]).
  destruct (Z.eqb_spec r 8) as [->|]. { by apply FeedRune_erase. }
  destruct (Z.eqb_spec r 10); [done|].
  destruct ((r <? 32) || (126 <? r)) eqn:Hp.
  - apply wp_ret. replace ((32 <=? r) && (r <=? 126)) with false by lia. done.
  - replace ((32 <=? r) && (r <=? 126)) with true by lia. apply FeedRune_char; [done|lia].
Qed.

Lemma feed_snoc rs r w : feed (rs ++ [r]) w = (_ ← feed rs; FeedRune r) w.
Proof.
  revert w. induction rs as [|r0 rs IH]; intros w.
  - cbn [app feed]. unfold mbind, M_bind, mret, M_ret. by destruct (FeedRune r w) as [[[] w']|].
  - cbn [app feed]. unfold mbind, M_bind in *. destruct (FeedRune r0 w) as [[_ w']|]; [|done]. apply IH.
Qed.

Lemma wp_elim (m : ShellState.M K C B L unit) Q w : wp m Q w → ∃ w', m w = Some (tt, w') ∧ Q tt w'.
Proof. unfold wp. destruct (m w) as [[[] w']|]; [|done]. intros. by exists w'. Qed.

(** The keys make the machine halt: some Enter among them is typed behind a [mem] command
    that leaves the mapped memory, and everything before it returned. *)
Definition halts_on (rs : list Z) w : Prop :=
  ∃ rs1 r rs2 w1, rs = rs1 ++ r :: rs2 ∧ enter_key r ∧ feed rs1 w = Some (tt, w1) ∧ shell_ok w1 ∧ halts_line w1.

Lemma halts_on_app rs rs' w : halts_on rs w → halts_on (rs ++ rs') w.
Proof.
  intros (rs1&r&rs2&w1&->&H). exists rs1, r, (rs2 ++ rs'), w1. split; [|done]. by rewrite <-app_assoc.
Qed.

(** One more key: it halts the machine or is a step. *)
Lemma feed_step rs r w w1 :
  feed rs w = Some (tt, w1) → shell_ok w1 →
  (feed (rs ++ [r]) w = None ∧ halts_on (rs ++ [r]) w) ∨
  ∃ w2, feed (rs ++ [r]) w = Some (tt, w2) ∧ shell_ok w2 ∧ key_step r w1 w2.
Proof.
  intros E1 Hw1. rewrite feed_snoc. unfold mbind, M_bind. rewrite E1.
  destruct (FeedRune_runs r w1 Hw1) as [Hrun Hhalt].
  assert (Decision (enter_key r)) as Hdec by (unfold enter_key; apply _).
  destruct (decide (enter_key r ∧ halts_line w1)) as [[Hr Hh]|Hn].
  - left. split; [by apply Hhalt|]. by exists rs, r, [], w1.
  - right. destruct (wp_elim _ _ _ (Hrun Hn)) as (w2&E2&?&?). by exists w2.
Qed.

(** Every key is a step, until one halts the machine. *)
Lemma feed_runs rs w :
  shell_ok w →
  (feed rs w = None ∧ halts_on rs w) ∨
  ∃ w', feed rs w = Some (tt, w') ∧ shell_ok w' ∧ typed w' = foldl edit (typed w) rs.
Proof.
  intros Hw. induction rs as [|r rs IH] using rev_ind; [right; by exists w|].
  destruct IH as [[E Hh]|(w1&E1&Hw1&Ht)].
  { left. split; [|by apply halts_on_app]. rewrite feed_snoc. unfold mbind, M_bind. by rewrite E. }
  destruct (feed_step rs r w w1 E1 Hw1) as [?|(w2&E2&Hw2&Hk&_)]; [by left|right].
  exists w2. split_and!; [done..|]. by rewrite foldl_app, Hk, Ht.
Qed.

Lemma zero_ctx_ok : ctx_ok zero_Context.
Proof. split; [done|done|]. intros Hc. discriminate Hc. Qed.

Lemma Init_wp w : shell_ok w → wp Init (λ _ w', shell_ok w' ∧ typed w' = [] ∧ held w' = None ∧ hooks w' = hooks w ∧
    sh_fs w' = sh_fs w) w.
Proof.
  intros Hw. unfold Init. apply wp_bind, wp_modify.
  set (w1 := set_context zero_Context (set_line (lineBuf w) 0 w)).
  assert (shell_ok w1) as Hw1.
  { apply shell_ok_agent; [|apply zero_ctx_ok]. apply shell_ok_line; [done|apply Hw|unfold maxLine; lia]. }
  assert (safe quiet any (_ ← println ("Welcome to " +:+ osName +:+ " " +:+ osVersion); print "> ")) as Hs.
  { bind (λ _, True) by apply safe_println. intros _ _. apply safe_print. }
  eapply wp_mono; [by apply Hs|]. intros _ w2 (_&?&[[(El&En&Eh) Ec] Ef]). split_and!; [done| | |exact Eh|exact Ef].
  - unfold typed. by rewrite El, En, text_nil.
  - unfold held. by rewrite Ec.
Qed.

(** C9: The shell never panics and never loses its prompt, but for one command: from any
    well-formed state, whatever keys are typed after [Init] and whatever is in memory, on
    the disk, in the FAT volume, in the file table and on the serial line, every command
    returns to the prompt and leaves every buffer, table and component well-formed; or the
    keys contain an Enter typed behind [mem <addr> [len]] with a byte outside the 4 GiB that
    are mapped, and then the machine halts in the fault handler. *)
Theorem shell_total rs w :
  shell_ok w →
  (∃ w', (_ ← Init; feed rs) w = Some (tt, w') ∧ shell_ok w') ∨
  ((_ ← Init; feed rs) w = None ∧
   ∃ rs1 r rs2 w1, rs = rs1 ++ r :: rs2 ∧ enter_key r ∧ (_ ← Init; feed rs1) w = Some (tt, w1) ∧
     shell_ok w1 ∧ held w1 = None ∧ dumps_unmapped (typed w1)).
Proof.
  intros Hw. destruct (wp_elim _ _ _ (Init_wp w Hw)) as (w0&E0&Hw0&_).
  assert (∀ rs, (_ ← Init; feed rs) w = feed rs w0) as Hinit by (intros; unfold mbind, M_bind; by rewrite E0).
  rewrite Hinit. destruct (feed_runs rs w0 Hw0) as [[E (rs1&r&rs2&w1&->&Hr&E1&Hw1&Hh)]|(w'&E&Hw'&_)].
  - right. split; [done|]. exists rs1, r, rs2, w1. rewrite Hinit. by destruct Hh.
  - left. by exists w'.
Qed.

(** Editing refines an ideal line editor: after any keys the line under the cursor is what
    appending printable characters (up to 128), erasing with backspace and starting anew
    at each Enter make of the line before, whatever the commands in between did. *)
Theorem line_editor rs w :
  shell_ok w →
  (feed rs w = None ∧ halts_on rs w) ∨ ∃ w', feed rs w = Some (tt, w') ∧ typed w' = foldl edit (typed w) rs.
Proof. intros Hw. destruct (feed_runs rs w Hw) as [?|(w'&?&_&?)]; [by left|right; by exists w']. Qed.

(** A plan is pending since the last line entered, which asked for it, and no file was
    touched since. *)
Definition asked_last (w : S) (rs : list Z) (w1 : S) (p : Plan) : Prop :=
  ∃ rs0 k rs1 w0, rs = rs0 ++ k :: rs1 ∧ enter_key k ∧ Forall (λ r, ¬ enter_key r) rs1 ∧
    feed rs0 w = Some (tt, w0) ∧ asks_delete (typed w0) p ∧ sh_fs w1 = sh_fs w0.

Lemma feed_pending rs w :
  shell_ok w → held w = None →
  (feed rs w = None ∧ halts_on rs w) ∨
  ∃ w1, feed rs w = Some (tt, w1) ∧ shell_ok w1 ∧ ∀ p, held w1 = Some p → asked_last w rs w1 p.
Proof.
  intros Hw Hh. induction rs as [|r rs IH] using rev_ind.
  { right. exists w. split_and!; [done..|]. intros p. by rewrite Hh. }
  destruct IH as [[E Hhalt]|(w1&E1&Hw1&Hp)].
  { left. split; [|by apply halts_on_app]. rewrite feed_snoc. unfold mbind, M_bind. by rewrite E. }
  destruct (feed_step rs r w w1 E1 Hw1) as [?|(w2&E2&Hw2&_&_&Hk)]; [by left|right].
  exists w2. split_and!; [done..|].
  intros p Hp2. case_bool_decide as Hr.
  - unfold gate in Hk. destruct (held w1) as [p1|] eqn:Hh1.
    { destruct Hk as (?&?&_&?&_). congruence. }
    destruct Hk as [Hk _]. destruct (Hk p Hp2) as [Ha Hfs]. by exists rs, r, [], w1.
  - destruct Hk as [Ek Efs]. rewrite Ek in Hp2. destruct (Hp p Hp2) as (rs0&k&rs1&w0&->&?&?&?&?&?).
    exists rs0, k, (rs1 ++ [r]), w0. split_and!; try done; [by rewrite <-app_assoc| |congruence].
    apply Forall_app. split; [done|]. by constructor.
Qed.

(** C5: Nothing is deleted on behalf of the agent without consent.  Whatever was typed, a
    question is open only if the last line entered was [agent delete <name>], and no file
    was touched since; the next line entered closes it: if its only word is [yes] (and the
    executor is wired) exactly [Remove] of that name happens, otherwise the file system
    stays as it is.  With no question open a line that starts with [agent] changes no file,
    and a line that leaves a question open was such a request.  (Or the machine has halted on
    a [mem] command outside the mapped memory.) *)
Theorem delete_gate rs w :
  shell_ok w → held w = None →
  (feed (rs ++ [10]) w = None ∧ halts_on (rs ++ [10]) w) ∨
  ∃ w1 w2, feed rs w = Some (tt, w1) ∧ feed (rs ++ [10]) w = Some (tt, w2) ∧
    (∀ p, held w1 = Some p → asked_last w rs w1 p) ∧ gate w1 w2.
Proof.
  intros Hw Hh. destruct (feed_pending rs w Hw Hh) as [[E Hhalt]|(w1&E1&Hw1&Hp)].
  { left. split; [|by apply halts_on_app]. rewrite feed_snoc. unfold mbind, M_bind. by rewrite E. }
  destruct (feed_step rs 10 w w1 E1 Hw1) as [?|(w2&E2&Hw2&_&_&Hg)]; [by left|right].
  by exists w1, w2.
Qed.
End run.

(** ** A machine with a shell, for the witnesses *)
Definition demo_shell : shell Z (list Z) ramdisk recorder :=
  Shell (replicate 128 0) 0 (Some (λ k, Some (k, k))) None None None (gs "it") [] (replicate 16 0)
    (replicate 2048 0) (replicate 2048 0) no_history true PlannerModeDeterministic false zero_Context
    [] demo_fs zero_fat (RamDisk ∅ 4000) demo_serial 1234.

Lemma map_bytes (m : memory) :
  forallb (λ '(_, v), (0 <=? v) && (v <? 256)) (map_to_list m) = true → mem_bytes m.
Proof.
  rewrite forallb_forall. intros Hall a. unfold mread. destruct (m !! a) as [v|] eqn:Hv; [|done].
  apply elem_of_map_to_list, list_elem_of_In, Hall in Hv. cbn [from_option id]. unfold id. lia.
Qed.

Lemma demo_world_bytes : mem_bytes (phys demo_world).
Proof. apply map_bytes. vm_compute. reflexivity. Qed.

Lemma demo_shell_ok : shell_ok 0x2000 0x4000 0x9000 (λ _, True) demo_shell.
Proof.
  split; cbn -[demo_fs demo_world demo_serial replicate zero_Context sh_mem].
  - split; [done|]. by apply Forall_replicate.
  - done.
  - split; try done. intros f k [= <-] _. done.
  - done.
  - apply (len_replicate 2048 0).
  - apply (len_replicate 2048 0).
  - apply no_history_ok.
  - apply zero_ctx_ok.
  - done.
  - split; [apply demo_fs_inv|done| |].
    + split; [intros _; apply demo_world_inv|apply demo_world_bytes].
    + intros i e [->%demo_blank Hu]. discriminate Hu.
  - vm_compute. intuition discriminate.
  - vm_compute. intuition discriminate.
  - vm_compute. intuition discriminate.
  - vm_compute. intuition discriminate.
  - split; [|done]. split; [done|]. by apply Forall_replicate.
  - intros lba b Hb. cbn in Hb. by rewrite lookup_empty in Hb.
  - apply demo_serial_inv.
  - done.
Qed.

(** Lines, each ended by Enter. *)
Definition keys (ls : list string) : list Z := concat ((λ s, gs s ++ [13]) <$> ls).
Definition lines_text (ls : list string) : list Z := concat ((λ s, gs s ++ [10]) <$> ls).

Abbreviation demo_feed rs := (feed 0x2000 0x4000 0x9000 rs demo_shell).
Abbreviation demo_ok := (shell_ok 0x2000 0x4000 0x9000 (λ _, True)).

(** The states in which Enter halts the machine. *)
Abbreviation demo_halts rs := (halts_on 0x2000 0x4000 0x9000 (λ _, True) rs demo_shell).

Lemma shell_total_witness :
  let run rs := (_ ← Init; feed 0x2000 0x4000 0x9000 rs) demo_shell in
  let rs := keys ["write notes hello"; "cat notes"; "histroy"] in
  (λ o, sh_con o.2) <$> run rs =
    Some (lines_text ["Welcome to DavOS 0.5.0"; "> write notes hello"; "ok"; "> cat notes"; "hello"; "> histroy";
                      "Did you mean 'history'?"] ++ gs "> ") ∧
  run (keys ["help"; "mem 100000000"; "help"]) = None ∧
  ((∃ w', run rs = Some (tt, w') ∧ demo_ok w') ∨
   (run rs = None ∧ ∃ rs1 r rs2 w1, rs = rs1 ++ r :: rs2 ∧ enter_key r ∧ run rs1 = Some (tt, w1) ∧
     demo_ok w1 ∧ held w1 = None ∧ dumps_unmapped (typed w1))).
Proof.
  intros run rs. split; [vm_compute; reflexivity|]. split; [vm_compute; reflexivity|].
  exact (shell_total 0x2000 0x4000 0x9000 (λ _, True) rs demo_shell demo_shell_ok).
Defined.

Lemma line_editor_witness :
  let rs := gs "help" ++ [10] ++ gs "exho" ++ [8; 8; 9] ++ gs "cho" in
  (λ o, typed o.2) <$> demo_feed rs = Some (gs "excho") ∧
  ((demo_feed rs = None ∧ demo_halts rs) ∨
   ∃ w', demo_feed rs = Some (tt, w') ∧ typed w' = foldl edit (typed demo_shell) rs).
Proof.
  intros rs. split; [vm_compute; reflexivity|].
  exact (line_editor 0x2000 0x4000 0x9000 (λ _, True) rs demo_shell demo_shell_ok).
Defined.

(** The names of the files. *)
Definition file_names (w : shell Z (list Z) ramdisk recorder) : list (list Z) :=
  (λ e, take (Z.to_nat (nameLen e)) (name e)) <$> filter (λ e, used e = true) (files (sh_fs w)).

Definition demo_keys : list Z := keys ["write notes hello"; "write todo -"; "agent delete notes"] ++ gs " yes".

Lemma delete_gate_witness :
  (λ o, file_names o.2) <$> demo_feed demo_keys = Some [gs "notes"; gs "todo"] ∧
  (λ o, file_names o.2) <$> demo_feed (demo_keys ++ [10]) = Some [gs "todo"] ∧
  ((demo_feed (demo_keys ++ [10]) = None ∧ demo_halts (demo_keys ++ [10])) ∨
   ∃ w1 w2, demo_feed demo_keys = Some (tt, w1) ∧ demo_feed (demo_keys ++ [10]) = Some (tt, w2) ∧
    (∀ p, held w1 = Some p → asked_last 0x2000 0x4000 0x9000 demo_shell demo_keys w1 p) ∧ gate w1 w2).
Proof.
  split; [vm_compute; reflexivity|]. split; [vm_compute; reflexivity|].
  exact (delete_gate 0x2000 0x4000 0x9000 (λ _, True) demo_keys demo_shell demo_shell_ok eq_refl).
Defined.
