(* ===== verification/ShellFiles.v ===== *)
(** * Package [shell]: a session with files

    From keys to file contents and back.  The commands [write], [cat] and [rm] of
    [src/shell/shell.go], typed at the prompt, are operations on a finite map from names to
    contents ([file_effect]), and what the session shows is determined by it
    ([file_session]): the theorem puts the line editor, the parsers, the dispatcher, the
    file system, the page allocator and the console together. *)
From S2P Require Import Prelude PageAlloc Mem Fs FsMem FsSafe PortIO Terminal Serial AgentTypes Agent AgentGate.
From S2P Require Import Disk Fat16 FatSafe Line Output History ShellState ShellInv Shell ShellSafe ShellAgent ShellRun.
Local Open Scope Z_scope.

(** ** The shape of a command line *)
Abbreviation blanks := (Forall (λ c, isSpace c = true)).
Definition word (w : list Z) : Prop := w ≠ [] ∧ Forall (λ c, isSpace c = false) w.

(** [t] neither starts nor ends with a blank. *)
Definition tight (t : list Z) : Prop := stops isSpace t ∧ stops isSpace (reverse t).

(** The line [t] is the command [c] with the name [n] and the text [d] (possibly empty). *)
Inductive typed_command (c n d : list Z) : list Z → Prop :=
  | Typed sp0 sp1 sp2 sp3 :
      blanks sp0 → blanks sp1 → blanks sp2 → blanks sp3 →
      sp1 ≠ [] → word n → tight d → (d = [] ↔ sp2 = []) →
      typed_command c n d (sp0 ++ (c ++ sp1 ++ n ++ sp2 ++ d) ++ sp3).

(** A scan splits a text in only one way. *)
Lemma scan_unique (p : Z → bool) a b x y :
  a ++ b = x ++ y → Forall (λ c, p c = true) a → stops p b → Forall (λ c, p c = true) x → stops p y → a = x ∧ b = y.
Proof.
  revert x. induction a as [|h a IH]; intros [|h' x] E Ha Hb Hx Hy; cbn in E.
  - by subst.
  - subst b. inversion Hx. cbn in Hb. congruence.
  - subst y. inversion Ha. cbn in Hy. congruence.
  - injection E as -> E. inversion Ha; inversion Hx. destruct (IH x E) as [-> ->]; done.
Qed.

Lemma stops_app (p : Z → bool) a b : a ≠ [] → stops p a → stops p (a ++ b).
Proof. by destruct a. Qed.

Lemma stops_word a b : word a → stops isSpace (a ++ b).
Proof. intros [Hne Ha]. destruct Ha; [done|]. done. Qed.

Lemma stops_blank a b : a ≠ [] → blanks a → stops (λ c, negb (isSpace c)) (a ++ b).
Proof. intros Hne Ha. destruct Ha as [|x a Hx _]; [done|]. cbn. by rewrite Hx. Qed.

Lemma word_scan a : word a → Forall (λ c, negb (isSpace c) = true) a.
Proof. intros [_ Ha]. eapply Forall_impl; [exact Ha|]. cbn. by intros c ->. Qed.

Lemma stops_rev_word a b : word b → stops isSpace (reverse (a ++ b)).
Proof.
  intros [Hne Hb]. rewrite reverse_app. apply stops_word. split.
  - intros E. apply Hne. rewrite <-(reverse_involutive b), E. done.
  - by apply Forall_reverse.
Qed.

(** The line without its outer blanks is tight. *)
Lemma typed_tight c n d sp1 sp2 :
  word c → word n → tight d → (d = [] ↔ sp2 = []) → tight (c ++ sp1 ++ n ++ sp2 ++ d).
Proof.
  intros Hc Hn [_ Hd] Hsp. split; [by apply stops_word|].
  destruct d as [|x d].
  - rewrite (proj1 Hsp eq_refl). rewrite app_nil_l, app_nil_r, app_assoc. by apply stops_rev_word.
  - rewrite !app_assoc, reverse_app. apply stops_app; [|done].
    intros E. apply (f_equal length) in E. rewrite length_reverse in E. discriminate E.
Qed.

(** What the scanners find on such a text. *)
Section scan.
Context (lb : list Z) (Hl : len lb = maxLine).

Lemma scan_text p s e a b :
  in_line s e → text lb s e = a ++ b → Forall (λ c, p c = true) a → stops p b →
  ok (scan_while lb p s e) (λ i, s ≤ i ≤ e ∧ text lb s i = a ∧ text lb i e = b).
Proof.
  intros Hin E Ha Hb. eapply ok_mono; [by apply scan_while_ok|]. intros i (Hi&Hf&Hs). split; [done|].
  rewrite (text_split lb s i e) in E by (destruct Hin; lia). by apply (scan_unique p).
Qed.

Lemma trimRight_text s e a b :
  in_line s e → text lb s e = a ++ b → blanks b → stops isSpace (reverse a) →
  ok (trimRight lb s e) (λ i, s ≤ i ≤ e ∧ text lb s i = a).
Proof.
  intros Hin E Hb Ha. eapply ok_mono; [by apply trimRight_ok|]. intros i (Hi&Hf&Hs). split; [done|].
  rewrite (text_split lb s i e) in E by (destruct Hin; lia).
  apply (f_equal reverse) in E. rewrite !reverse_app in E.
  apply (scan_unique isSpace) in E as [_ E]; [by apply (inj reverse)| | | |done].
  - by apply Forall_reverse.
  - destruct (decide (s < i)) as [Hlt|]; [|by rewrite text_nil by lia].
    destruct (Hs Hlt) as (c&Hc&Hsp). replace i with (i - 1 + 1) by lia. destruct Hin.
    rewrite (text_snoc lb Hl s (i - 1) c) by (done || (split; lia)). rewrite reverse_app. done.
  - by apply Forall_reverse.
Qed.

Lemma nextArg_text s e sp n rest :
  in_line s e → text lb s e = sp ++ n ++ rest → blanks sp → word n → stops (λ c, negb (isSpace c)) rest →
  ok (nextArg lb s e) (λ '(s', e', found), found = true ∧ s ≤ s' ∧ s' ≤ e' ∧ e' ≤ e ∧
    text lb s' e' = n ∧ text lb e' e = rest).
Proof.
  intros Hin E Hsp Hn Hr. pose proof Hin as [??]. unfold nextArg.
  apply ok_bind. eapply ok_mono; [apply (scan_text isSpace s e sp (n ++ rest)); [done..|by apply stops_word]|].
  intros i (Hi&_&Et). destruct (Z.leb_spec e i).
  { rewrite text_nil in Et by lia. destruct Hn as [Hn _]. by destruct n. }
  unfold firstToken. do 2 apply ok_bind.
  eapply ok_mono; [apply (scan_text _ i e n rest); [split; lia|done|by apply word_scan|done]|].
  intros k (Hk&En&Er). cbn [ok mbind option_bind]. destruct (Z.leb_spec k i).
  { rewrite text_nil in En by lia. destruct Hn as [Hn _]. by rewrite <-En in Hn. }
  cbn [ok]. split_and!; (done || lia).
Qed.
End scan.

(** ** Stores into the shell's buffer leave the files alone *)
Implicit Types st : fs_state mem_state.

(** [st'] differs from [st] in memory that no file and no allocator uses. *)
Record same_files st st' : Prop := {
  sf_inv : fs_inv st';
  sf_abs : abs st' = abs st;
  sf_files : files st' = files st;
  sf_config : same_config (world st) (world st');
  sf_free : free_set (world st') = free_set (world st);
  sf_bytes : mem_bytes (phys (world st)) → mem_bytes (phys (world st'));
}.

Lemma same_files_refl st : fs_inv st → same_files st st.
Proof. by split. Qed.

Lemma same_files_trans st1 st2 st3 : same_files st1 st2 → same_files st2 st3 → same_files st1 st3.
Proof. intros [? E1 F1 ? G1 ?] [? E2 F2 ? G2 ?]. split; [done|congruence|congruence|by etrans|congruence|auto]. Qed.

Lemma same_files_safe st st' : fs_safe st → same_files st st' → fs_safe st'.
Proof.
  intros [Ht Hm [_ Hb] Hp] [Hinv _ Ef Hc _ Hb']. pose proof Hinv as [??? _ _ _]. split; [done|done| |].
  - split; [done|by apply Hb'].
  - intros i f Hf. rewrite Ef in Hf. eapply page_ok_config; [done|]. by eapply Hp.
Qed.

Lemma abs_frame st w :
  fs_inv st →
  (∀ i e a, has_file (files st) i e → page e ≤ a < page e + 4096 → pa_read w a = pa_read (world st) a) →
  abs (set_world w st) = abs st.
Proof.
  intros Hinv Hr. unfold abs, abs_table. cbn [files world set_world].
  assert (∀ e, e ∈ files st → used e = true → contents w e = contents (world st) e) as Hc.
  { intros e He Hu. apply list_elem_of_lookup in He as [i Hi].
    assert (has_file (files st) (Z.of_nat i) e) as Hf by (split; [by rewrite aget_nat|done]).
    apply contents_frame; [by apply (file_entry_ok st (Z.of_nat i))|]. intros a. by apply (Hr (Z.of_nat i)). }
  clear Hr. induction (files st) as [|e l IH]; [done|]. cbn [foldr]. rewrite IH by (intros; apply Hc; [by right|done]).
  destruct (used e) eqn:Hu; [|done]. by rewrite (Hc e) by (done || left).
Qed.

Lemma store_same_files st a v :
  fs_inv st → a < bitmapPhys (world st) → in_u8 v →
  same_files st (set_world (set_phys (mwrite (phys (world st)) a v) (world st)) st).
Proof.
  intros Hinv Ha Hv. pose proof (fi_world _ Hinv) as Hw. set (w := set_phys _ _).
  assert (¬ in_bitmap (world st) a) as Hnb by (unfold in_bitmap; lia).
  destruct (pa_write_spec (world st) a v Hw Hnb) as (Hi&_&_&_&Ho&Hrd).
  change (pa_write (world st) a v) with w in *. split.
  - destruct Hinv. split; try done. intros i e Hf. apply Ho. by apply (fi_owned i).
  - apply abs_frame; [done|]. intros i e b Hf Hb. rewrite Hrd. case_decide as E; [|done]. subst b.
    destruct (pa_static_not_owned (world st) (page e) a); [done| |done|done]. by apply (fi_owned _ Hinv i).
  - done.
  - done.
  - by apply free_set_store; [apply Hw|].
  - intros Hb. by apply mem_bytes_write.
Qed.

(** ** The specification *)
Abbreviation file_commands := ["write"; "cat"; "rm"].

Lemma command_word c : c ∈ file_commands → word (gs c).
Proof. intros Hc. set_unfold in Hc. destruct Hc as [->|[->|[->|[]]]]; by (split; [done|repeat constructor]). Qed.

(** What the command word [c] with name [n] and text [d] does to the files, and what it
    prints.  A new file cannot be written when the table is full or no page is free. *)
Inductive file_effect st st' (n d : list Z) : string → list Z → Prop :=
  | WriteOk : len n ≤ 16 → abs st' = <[n := d]> (abs st) → file_effect st st' n d "write" (gs "ok" ++ [10])
  | WriteFull : len n ≤ 16 → abs st !! n = None → table_full (files st) ∨ free_set (world st) = ∅ →
      abs st' = abs st → file_effect st st' n d "write" (gs "write: failed" ++ [10])
  | CatOk x : len n ≤ 16 → abs st !! n = Some x → abs st' = abs st → file_effect st st' n d "cat" (x ++ [10])
  | CatMissing : len n ≤ 16 → abs st !! n = None → abs st' = abs st →
      file_effect st st' n d "cat" (gs "cat: not found" ++ [10])
  | RmOk : len n ≤ 16 → is_Some (abs st !! n) → abs st' = delete n (abs st) →
      file_effect st st' n d "rm" (gs "ok" ++ [10])
  | RmMissing : len n ≤ 16 → abs st !! n = None → abs st' = abs st →
      file_effect st st' n d "rm" (gs "rm: not found" ++ [10])
  | BadName c : c ∈ file_commands → 16 < len n → abs st' = abs st →
      file_effect st st' n d c (gs c ++ gs ": invalid name" ++ [10]).

(** Lines entered one after the other; the text the session adds to the console. *)
Inductive session : list (list Z) → fs_state mem_state → list Z → fs_state mem_state → Prop :=
  | SessionEnd st : session [] st [] st
  | SessionLine t ls c n d st1 st2 st3 out rest :
      typed_command (gs c) n d t → file_effect st1 st2 n d c out → session ls st2 rest st3 →
      session (t :: ls) st1 (t ++ [10] ++ out ++ gs "> " ++ rest) st3.

(** A line of printable characters with one of the three commands and a name. *)
Definition file_line (t : list Z) : Prop :=
  len t ≤ maxLine ∧ Forall (λ r, 32 ≤ r ≤ 126) t ∧
  ∃ c n d, c ∈ file_commands ∧ typed_command (gs c) n d t.

(** ** Running a command *)
Section session.
Context {K C B L : Type} `{!TextConsole C} `{!TextConsoleLaws C} `{!Disk B} `{!DiskTotal B}.
Context `{!PortIO L} `{!PortIOLaws L}.
Context (addr_tmpData addr_diskBuf addr_actionData : Z).
Context (kernel_ok : K → Prop).

Abbreviation shell_ok := (shell_ok (L := L) (B := B) addr_tmpData addr_diskBuf addr_actionData kernel_ok).
Abbreviation e := (NewAgentExecutor (K := K) (C := C) (B := B) (L := L) addr_actionData).
Abbreviation feed := (feed addr_tmpData addr_diskBuf addr_actionData).
Implicit Types w : shell K C B L.

(** The only change is that [s] was printed. *)
Definition says (s : list Z) w w' : Prop := ∃ c, Print s (sh_con w) = Some c ∧ console_ok c ∧ w' = set_con c w.

Lemma says_app a b w w1 w2 : says a w w1 → says b w1 w2 → says (a ++ b) w w2.
Proof.
  intros (c1&E1&_&->) (c2&E2&?&->). exists c2. split; [|done]. rewrite Print_app, E1. exact E2.
Qed.

Lemma wp_says s w : console_ok (sh_con w) → wp (console (Print s)) (λ _, says s w) w.
Proof.
  intros Hc. apply wp_console. pose proof (Print_ok s (sh_con w) Hc) as Hp.
  destruct (Print s (sh_con w)) as [c|] eqn:E; [|done]. by exists c.
Qed.

Lemma wp_putRune r w : console_ok (sh_con w) → wp (putRune r) (λ _, says [r] w) w.
Proof.
  intros Hc. unfold wp, putRune, console. rewrite PutRune_Print. exact (wp_says [r] w Hc).
Qed.

(** The shell is ready for file commands. *)
Record files_ready w : Prop := {
  fr_shell : shell_ok w;
  fr_inv : fs_inv (sh_fs w);
  fr_pfa : PFAReady (sh_mem w) = true;
}.

(** The command [c] is done. *)
Definition done_with (c : string) (n d : list Z) w w' : Prop :=
  ∃ tn st' out, says out (set_fs st' (set_tmpName tn w)) w' ∧ fs_inv st' ∧ same_config (sh_mem w) (world st') ∧
    file_effect (sh_fs w) st' n d c out.

Lemma set_fs_id w : set_fs (sh_fs w) w = w.
Proof. by destruct w. Qed.

(** A command that did not touch the files. *)
Lemma done_quiet c n d out tn w w' :
  fs_inv (sh_fs w) → says out (set_tmpName tn w) w' → file_effect (sh_fs w) (sh_fs w) n d c out → done_with c n d w w'.
Proof.
  intros Hinv Hs He. exists tn, (sh_fs w), out. split_and!; [|done|reflexivity|done].
  change (sh_fs w) with (sh_fs (set_tmpName tn w)). by rewrite set_fs_id.
Qed.

Lemma len_word n : word n → 1 ≤ len n.
Proof. intros [Hne _]. destruct n; [done|]. rewrite len_cons. pose proof (len_nonneg n). lia. Qed.

Lemma withName_wp s last usage invalid k Q sp n rest w :
  shell_ok w → in_line s last → text (lineBuf w) s last = sp ++ n ++ rest →
  blanks sp → word n → stops (λ c, negb (isSpace c)) rest →
  (∀ tn, 16 < len n → wp (println invalid) Q (set_tmpName tn w)) →
  (∀ tn e', len tn = 16 → len n ≤ 16 → key tn (len n) = n → s ≤ e' ≤ last → text (lineBuf w) e' last = rest →
     wp (k (len n) e') Q (set_tmpName tn w)) →
  wp (withName s last usage invalid k) Q w.
Proof.
  intros Hw Hin Et Hsp Hn Hr Hbad Hok. pose proof Hin as [??]. pose proof (len_word n Hn).
  pose proof (so_line _ _ _ _ _ Hw) as [Hl _]. unfold withName, withArg. apply wp_bind, wp_line.
  eapply ok_mono; [by apply (nextArg_text _ Hl s last sp n rest)|]. intros [[s' e'] b] (->&?&?&?&En&Er).
  cbn [negb]. assert (in_line s' e') as Hin' by (split; lia).
  assert (len n = e' - s') as Hlen by (rewrite <-En; by apply len_text).
  unfold copyName. apply wp_bind, wp_bind, wp_reads.
  eapply ok_mono; [apply (copyNameFromRange_ok _ s' e' (tmpName w)); [done..|apply Hw]|].
  intros [[m b] tn] [Htn Hb]. apply wp_bind, wp_modify, wp_ret. destruct b; cbn [negb].
  - destruct Hb as (->&?&Ek). rewrite <-Hlen in *. apply Hok; [done|lia| |lia|done]. unfold key. by rewrite Ek.
  - apply Hbad. lia.
Qed.

Lemma bad_name c n d w tn :
  files_ready w → c ∈ file_commands → 16 < len n →
  wp (console (Print (gs c ++ gs ": invalid name" ++ [10]))) (λ _, done_with c n d w) (set_tmpName tn w).
Proof.
  intros [Hw Hinv _] Hc Hn. eapply wp_mono; [apply wp_says, Hw|]. intros [] w' Hs.
  eapply done_quiet; [done|exact Hs|]. by apply BadName.
Qed.

(** [cat]. *)
Lemma printContents_wp page x w :
  shell_ok w → 0 ≤ page → page + len x ≤ 2 ^ 64 →
  (∀ i, 0 ≤ i < len x → Some (peek w (page + i)) = aget x i) →
  wp (printContents page (len x)) (λ _, says (x ++ [10]) w) w.
Proof.
  intros Hw Hp Hx Hr. unfold printContents. apply wp_bind.
  apply (wp_repeat_do (λ i w', says (take (Z.to_nat i) x) w w')).
  - apply len_nonneg.
  - exists (sh_con w). split_and!; [done|apply Hw|by destruct w].
  - intros i w1 Hi Hs. pose proof Hs as (c&Hc&Hok&E). apply wp_bind, wp_get.
    assert (aget x i = Some (peek w1 (u64 (page + i)))) as Ha.
    { rewrite u64_small by lia. rewrite E. symmetry. by apply Hr. }
    eapply wp_mono; [apply wp_putRune; by rewrite E|]. intros [] w2 Hs2.
    replace (take (Z.to_nat (i + 1)) x) with (take (Z.to_nat i) x ++ [peek w1 (u64 (page + i))]).
    { by eapply says_app. }
    rewrite Z2Nat.inj_add by lia. rewrite Nat.add_1_r. symmetry. apply take_S_r.
    rewrite <-aget_nat, Z2Nat.id by lia. done.
  - intros w1 Hs. rewrite take_ge in Hs by (rewrite len_length; lia). pose proof Hs as (c&_&Hok&E).
    eapply wp_mono; [apply wp_putRune; by rewrite E|]. intros [] w2 Hs2. by eapply says_app.
Qed.

Lemma cmd_cat_wp s last sp n d rest w :
  files_ready w → in_line s last → text (lineBuf w) s last = sp ++ n ++ rest →
  blanks sp → word n → stops (λ c, negb (isSpace c)) rest →
  wp (cmd_cat s last) (λ _, done_with "cat" n d w) w.
Proof.
  intros Hf Hin Et Hsp Hn Hr. pose proof Hf as [Hw Hinv _]. pose proof (len_word n Hn).
  unfold cmd_cat, withFile. apply (withName_wp _ _ _ _ _ _ sp n rest); [done..| |].
  { intros tn Hlong. apply (bad_name "cat"); [done|set_solver|done]. }
  intros tn e' Htn Hshort Hk _ _. apply wp_bind, wp_get, wp_bind, wp_reads. cbn [sh_fs tmpName set_tmpName].
  eapply ok_mono; [by apply Lookup_spec|]. rewrite Hk.
  intros [[p m] b]. destruct (abs (sh_fs w) !! n) as [x|] eqn:E.
  - intros (->&<-&Hown&Hx). cbn [negb].
    destruct (pa_owned_range (world (sh_fs w)) p) as (_&Hp0&Hp1); [apply Hinv|done|].
    assert (len x ≤ 4096) as Hx4.
    { apply abs_lookup in E as (i&f&Hfile&_&<-); [|done]. pose proof (file_entry_ok _ _ _ Hinv Hfile) as (_&_&_&?).
      unfold contents. rewrite len_length, length_fmap, length_seqZ. lia. }
    eapply wp_mono.
    { apply (printContents_wp p x (set_tmpName tn w)); [by apply shell_ok_name|lia|lia|]. intros i Hi.
      apply (f_equal (λ l, aget l i)) in Hx. cbv beta in Hx. rewrite Hx.
      rewrite <-(Z2Nat.id i), aget_nat, list_lookup_fmap, lookup_seqZ_lt by lia. done. }
    intros [] w' Hs. eapply done_quiet; [done|exact Hs|]. by apply CatOk.
  - intros (->&_&_). cbn [negb]. eapply wp_mono; [apply wp_says, Hw|]. intros [] w' Hs.
    eapply done_quiet; [done|exact Hs|]. by apply CatMissing.
Qed.

(** [rm]. *)
Lemma cmd_rm_wp s last sp n d rest w :
  files_ready w → in_line s last → text (lineBuf w) s last = sp ++ n ++ rest →
  blanks sp → word n → stops (λ c, negb (isSpace c)) rest →
  wp (cmd_rm s last) (λ _, done_with "rm" n d w) w.
Proof.
  intros Hf Hin Et Hsp Hn Hr. pose proof Hf as [Hw Hinv _]. pose proof (len_word n Hn).
  unfold cmd_rm. apply (withName_wp _ _ _ _ _ _ sp n rest); [done..| |].
  { intros tn Hlong. apply (bad_name "rm"); [done|set_solver|done]. }
  intros tn e' Htn Hshort Hk _ _. apply wp_bind, wp_get, wp_bind, wp_call_fs. cbn [sh_fs tmpName set_tmpName].
  eapply ok_mono; [apply ok_and; [by apply Remove_spec|by apply Remove_safe; [apply Hw|..]]|].
  intros [b st'] [(Hinv'&Hb&Habs&Hsame&_) [_ Hcfg]]. rewrite Hk in Hb, Habs. destruct b.
  - eapply wp_mono; [apply wp_says, Hw|]. intros [] w' Hs. exists tn, st', (gs "ok" ++ [10]).
    split_and!; [exact Hs|done|done|]. apply RmOk; [done|by apply Hb|done].
  - eapply wp_mono; [apply wp_says, Hw|]. intros [] w' Hs. exists tn, st', (gs "rm: not found" ++ [10]).
    split_and!; [exact Hs|done|done|]. rewrite (Hsame eq_refl) in *. apply RmMissing; [done| |done].
    apply eq_None_not_Some. intros Hx%Hb. discriminate Hx.
Qed.

(** The text of a [write] in the shell's buffer. *)
Lemma store_line_wp start d w :
  files_ready w → in_line start (start + len d) → text (lineBuf w) start (start + len d) = d →
  wp (store_line addr_tmpData start (len d)) (λ _ w', ∃ st', w' = set_fs st' w ∧ same_files (sh_fs w) st' ∧
    ∀ i, 0 ≤ i < len d → Some (pa_read (world st') (addr_tmpData + i)) = aget d i) w.
Proof.
  intros [Hw Hinv Hpfa] Hin Et. pose proof Hin as [? Hmax]. pose proof (so_line _ _ _ _ _ Hw) as [Hl Hu].
  destruct (so_tmp _ _ _ _ _ Hw) as (Ht0&Ht1&Hb). specialize (Hb Hpfa). unfold maxLine in *.
  pose proof (len_nonneg d). unfold store_line.
  apply (wp_repeat_do (λ k w', ∃ st', w' = set_fs st' w ∧ same_files (sh_fs w) st' ∧
    ∀ i, 0 ≤ i < k → Some (pa_read (world st') (addr_tmpData + i)) = aget d i)); [done| | |done].
  - exists (sh_fs w). split; [by rewrite set_fs_id|]. split; [by apply same_files_refl|lia].
  - intros k w1 Hk (st&->&Hsf&Hr). destruct (aget_Some d k) as [c Hc]; [lia|].
    assert (aget (lineBuf w) (start + k) = Some c) as Hline.
    { by rewrite <-(aget_text _ Hl start (start + len d) k), Et by (done || lia). }
    apply wp_bind, wp_line. cbn [lineBuf set_fs set_machine]. rewrite Hline. cbn [ok].
    unfold store. apply wp_modify. cbn [store_bytes]. rewrite u64_small by lia.
    pose proof (sf_config _ _ Hsf) as (_&_&_&_&Ebm&_).
    assert (same_files st (set_world (set_phys (mwrite (phys (world st)) (addr_tmpData + k) c) (world st)) st)) as Hst.
    { apply store_same_files; [apply Hsf|unfold sh_mem in Hb; rewrite Ebm; lia|].
      apply aget_elem in Hline. rewrite Forall_forall in Hu. by apply Hu. }
    eexists. split; [reflexivity|]. split; [by eapply same_files_trans|]. intros i Hi. cbn.
    destruct (decide (i = k)) as [->|]; [by rewrite mread_mwrite, decide_True|]. rewrite mread_mwrite_ne by lia. apply Hr. lia.
Qed.

Lemma write_room st :
  fs_inv st → PFAReady (world st) = true → out_of_pages (world st) → free_set (world st) = ∅.
Proof.
  intros Hinv Hr [Hn|[w' Hw]]; [cbn in Hn; congruence|]. cbn in Hw.
  pose proof (fi_world _ Hinv) as Hi. pose proof (AllocPage_spec (world st) Hi Hr) as Ha. rewrite Hw in Ha. cbn in Ha.
  destruct Ha as [(_&_&?)|(p&E&Hp&_)]; [done|]. destruct (least_free_alloc (world st) p) as [Hne _]; [done..|]. lia.
Qed.

(** [write]. *)
Lemma cmd_write_wp s last sp n sp2 d w :
  files_ready w → in_line s last → text (lineBuf w) s last = sp ++ n ++ sp2 ++ d →
  blanks sp → word n → blanks sp2 → tight d → (d = [] ↔ sp2 = []) →
  wp (cmd_write addr_tmpData s last) (λ _, done_with "write" n d w) w.
Proof.
  intros Hf Hin Et Hsp Hn Hsp2 Hd Hdsp. pose proof Hf as [Hw Hinv Hpfa]. pose proof (len_word n Hn).
  pose proof (so_line _ _ _ _ _ Hw) as [Hl _]. pose proof Hin as [? Hmax].
  unfold cmd_write. apply (withName_wp _ _ _ _ _ _ sp n (sp2 ++ d)); [done..| | |].
  { destruct sp2; [by rewrite (proj2 Hdsp eq_refl)|]. by apply stops_blank. }
  { intros tn Hlong. apply (bad_name "write"); [done|set_solver|done]. }
  intros tn e' Htn Hshort Hk He Er. apply wp_bind, wp_line. cbn [lineBuf set_tmpName].
  eapply ok_mono; [apply (scan_text _ Hl isSpace e' last sp2 d); [split; lia|done|done|apply Hd]|].
  intros i (Hi&_&Ed). assert (len d = last - i) as Hlen by (rewrite <-Ed; apply len_text; [done|split; lia]).
  apply wp_bind. unfold copyDataFromRange. destruct (Z.ltb_spec last i); [lia|]. cbv zeta. rewrite <-Hlen.
  pose proof (len_nonneg d). unfold maxLine in *.
  destruct (Z.ltb_spec (len d) 0); [lia|]. destruct (Z.ltb_spec 4096 (len d)); [lia|]. apply wp_bind.
  eapply wp_mono.
  { apply (store_line_wp i d (set_tmpName tn w)); [|split; unfold maxLine; lia|].
    - split; [by apply shell_ok_name|done..].
    - by replace (i + len d) with last by lia. }
  intros [] w1 (st1&->&Hsf&Hr). apply wp_ret, wp_bind, wp_get, wp_bind, wp_call_fs.
  cbn [tmpName sh_fs set_tmpName set_fs set_machine] in *. rewrite u32_small by lia.
  pose proof (sf_config _ _ Hsf) as Hcfg. pose proof Hcfg as (_&_&Erdy&_&Ebm&_).
  destruct (so_tmp _ _ _ _ _ Hw) as (Ht0&Ht1&Hb). specialize (Hb Hpfa).
  eapply ok_mono.
  { apply ok_and.
    - apply (Write_spec st1 tn (len n) addr_tmpData (len d)); [apply Hsf|done|unfold maxName; lia|lia|].
      intros j Hj. cbn. unfold sh_mem in Hb. rewrite Ebm. lia.
    - apply Write_safe; [|done|unfold maxName; lia|lia]. by eapply same_files_safe; [apply Hw|]. }
  rewrite Hk, Z.min_l by lia. intros [b st'] [[Hinv' Hb'] [_ Hcfg']].
  assert (src_bytes (world st1) addr_tmpData (len d) = d) as Esrc.
  { apply alist_eq; unfold src_bytes; rewrite ?len_length, ?length_fmap, ?length_seqZ; [lia|].
    intros j Hj. rewrite <-Hr by (rewrite len_length; lia).
    rewrite <-(Z2Nat.id j), aget_nat, list_lookup_fmap, lookup_seqZ_lt by lia. done. }
  assert (same_config (sh_mem w) (world st')) as Hc' by (by etrans). destruct b; cbn [negb].
  - eapply wp_mono; [apply wp_says, Hw|]. intros [] w' Hs. exists tn, st', (gs "ok" ++ [10]).
    split_and!; [exact Hs|done|done|]. apply WriteOk; [done|]. by rewrite Hb', Esrc, (sf_abs _ _ Hsf).
  - destruct Hb' as (->&Hnone&Hfull).
    eapply wp_mono; [apply wp_says, Hw|]. intros [] w' Hs. exists tn, st1, (gs "write: failed" ++ [10]).
    split_and!; [exact Hs|done|done|]. rewrite (sf_abs _ _ Hsf) in Hnone. apply WriteFull; [done|done| |apply Hsf].
    rewrite (sf_files _ _ Hsf) in Hfull. destruct Hfull as [|Hout]; [by left|right].
    rewrite <-(sf_free _ _ Hsf). apply write_room; [done| |done]. unfold PFAReady in *. by rewrite Erdy.
Qed.

(** ** Dispatch *)
Lemma on_case c s last lit body rest Q w :
  shell_ok w → in_line s last → text (lineBuf w) s last = c →
  wp (if bool_decide (c = gs lit) then body else rest) Q w → wp (on s last lit body rest) Q w.
Proof.
  intros Hw Hin <- Hq. unfold on. apply wp_bind. eapply matchLit_wp; [done..|]. by case_bool_decide.
Qed.

(** Skip the commands before the one typed. *)
Ltac skip_to c :=
  repeat (apply (on_case (gs c)); [done..|]; rewrite bool_decide_false by done);
  apply (on_case (gs c)); [done..|]; rewrite bool_decide_true by done.

Lemma dispatch_files c n d sp1 sp2 start last w :
  files_ready w → in_line start last → c ∈ file_commands →
  text (lineBuf w) start last = gs c ++ sp1 ++ n ++ sp2 ++ d →
  sp1 ≠ [] → blanks sp1 → word n → blanks sp2 → tight d → (d = [] ↔ sp2 = []) →
  wp (dispatch addr_tmpData addr_diskBuf e start last) (λ _, done_with c n d w) w.
Proof.
  intros Hf Hin Hc Et Hne Hsp1 Hn Hsp2 Hd Hdsp. pose proof Hf as [Hw _ _]. pose proof Hin as [??].
  pose proof (so_line _ _ _ _ _ Hw) as [Hl _]. unfold dispatch, firstToken. apply wp_bind, wp_line.
  pose proof (command_word c Hc) as Hcw.
  call (scan_text _ Hl (λ c, negb (isSpace c)) start last (gs c) (sp1 ++ n ++ sp2 ++ d));
    [done..|by apply word_scan|by apply stops_blank|].
  intros cmdEnd (Hce&Ec&Er). cbn [ok].
  assert (in_line start cmdEnd) as Hcmd by (split; lia). assert (in_line cmdEnd last) as Harg by (split; lia).
  assert (stops (λ c, negb (isSpace c)) (sp2 ++ d)) as Hst.
  { destruct sp2; [by rewrite (proj2 Hdsp eq_refl)|]. by apply stops_blank. }
  set_unfold in Hc. destruct Hc as [->|[->|[->|[]]]].
  - skip_to "write". by apply (cmd_write_wp _ _ sp1 n sp2 d).
  - skip_to "cat". by apply (cmd_cat_wp _ _ sp1 n d (sp2 ++ d)).
  - skip_to "rm". by apply (cmd_rm_wp _ _ sp1 n d (sp2 ++ d)).
Qed.

(** ** Lines *)
(** What running a line did, in terms of the console and the files. *)
Definition ran (c : string) (n d : list Z) w w' : Prop :=
  ∃ out, Print out (sh_con w) = Some (sh_con w') ∧ console_ok (sh_con w') ∧
    file_effect (sh_fs w) (sh_fs w') n d c out ∧ fs_inv (sh_fs w') ∧ same_config (sh_mem w) (sh_mem w') ∧
    agentContext w' = agentContext w.

Lemma done_ran c n d w w' : done_with c n d w w' → ran c n d w w'.
Proof. intros (tn&st'&out&(cn&Ep&Hok&->)&?&?&?). by exists out. Qed.

Lemma execute_files c n d w :
  files_ready w → held w = None → c ∈ file_commands → typed_command (gs c) n d (typed w) →
  wp (execute addr_tmpData addr_diskBuf e) (λ _, ran c n d w) w.
Proof.
  intros Hf Hh Hc Ht. pose proof Hf as [Hw Hinv Hpfa]. pose proof (so_line _ _ _ _ _ Hw) as [Hl Hb].
  assert (in_line 0 (lineLen w)) as Hin by (pose proof (so_len _ _ _ _ _ Hw); split; lia).
  remember (typed w) as t eqn:Et. destruct Ht as [sp0 sp1 sp2 sp3 H0 H1 H2 H3 Hne Hn Hd Hdsp]. unfold typed in Et.
  destruct (typed_tight (gs c) n d sp1 sp2) as [Hs1 Hs2]; [by apply command_word|done..|].
  unfold execute. apply wp_bind, wp_get, wp_bind, wp_line.
  set (m := gs c ++ sp1 ++ n ++ sp2 ++ d) in *.
  assert (0 < len m) as Hm.
  { unfold m. rewrite !len_app. pose proof (len_word n Hn). pose proof (len_nonneg sp1).
    pose proof (len_nonneg (gs c)). pose proof (len_nonneg sp2). pose proof (len_nonneg d). lia. }
  eapply ok_mono; [apply (scan_text _ Hl isSpace 0 (lineLen w) sp0 (m ++ sp3)); [done..|]|].
  { apply stops_app; [|done]. intros E. rewrite E in Hm. done. }
  intros start (Hs&_&Em). apply wp_bind, wp_line.
  eapply ok_mono; [apply (trimRight_text _ Hl start (lineLen w) m sp3); [destruct Hin; split; lia|done..]|].
  intros last (Hl'&El). destruct Hin as [? Hmax].
  assert (in_line start last) as Hsl by (split; lia).
  assert (len m = last - start) by (rewrite <-El; by apply len_text).
  apply wp_bind, wp_get. unfold held in Hh. cbn in Hh.
  destruct (ctx_ConfirmationPending (agentContext w)); [done|].
  destruct (Z.leb_spec last start); [lia|]. apply wp_bind, wp_reads.
  eapply ok_mono; [apply addHistory_ok; [done|done|lia|apply Hw]|]. intros h [Hhist _]. apply wp_bind, wp_modify.
  eapply wp_mono; [apply (dispatch_files c n d sp1 sp2 start last (set_history h w)); try done|].
  { split; [by apply shell_ok_history|done..]. }
  intros [] w' Hd'. exact (done_ran c n d (set_history h w) w' Hd').
Qed.

Lemma enter_files c n d w :
  files_ready w → held w = None → c ∈ file_commands → typed_command (gs c) n d (typed w) →
  wp (FeedRune addr_tmpData addr_diskBuf e 13) (λ _ w', ∃ out, Print ([10] ++ out ++ gs "> ") (sh_con w) = Some (sh_con w') ∧
    file_effect (sh_fs w) (sh_fs w') n d c out ∧ fs_inv (sh_fs w') ∧ PFAReady (sh_mem w') = true ∧ held w' = None) w.
Proof.
  intros [Hw Hinv Hpfa] Hh Hc Ht. unfold FeedRune. cbv zeta. change (13 =? 13) with true. cbv iota.
  change (10 =? 8) with false. change (10 =? 10) with true. cbv iota. apply wp_bind.
  eapply wp_mono; [apply wp_putRune, Hw|]. intros [] w1 (c1&E1&Hc1&->). apply wp_bind.
  eapply wp_mono; [apply (execute_files c n d); [|done..]|].
  { split; [by apply shell_ok_con|done..]. }
  intros [] w2 (out&E2&Hc2&He&Hi2&(_&_&Er&_)&Ec). apply wp_bind, wp_modify.
  eapply wp_mono; [by apply wp_says|]. intros [] w3 (c3&E3&_&->). exists out. split_and!; [|done|done| |].
  - rewrite Print_app, E1. cbn [mbind option_bind]. change (Print out c1 = Some (sh_con w2)) in E2. rewrite Print_app, E2. exact E3.
  - unfold PFAReady in *. exact (eq_trans Er Hpfa).
  - unfold held in *. cbn [agentContext set_con set_machine set_line]. by rewrite Ec.
Qed.

(** Typing a printable character shows it. *)
Lemma type_char r w :
  shell_ok w → 32 ≤ r ≤ 126 → len (typed w) < maxLine →
  wp (FeedRune addr_tmpData addr_diskBuf e r) (λ _ w', shell_ok w' ∧ typed w' = typed w ++ [r] ∧ held w' = held w ∧
    sh_fs w' = sh_fs w ∧ Print [r] (sh_con w) = Some (sh_con w')) w.
Proof.
  intros Hw Hr Hlen. pose proof (typed_len _ _ _ _ w Hw) as Htl. pose proof (so_line _ _ _ _ _ Hw) as [Hl _].
  pose proof (so_len _ _ _ _ _ Hw).
  assert (wp (FeedRune addr_tmpData addr_diskBuf e r) (λ _ w', Print [r] (sh_con w) = Some (sh_con w')) w) as Hp.
  { unfold FeedRune. cbv zeta. destruct (Z.eqb_spec r 13); [lia|]. destruct (Z.eqb_spec r 8); [lia|].
    destruct (Z.eqb_spec r 10); [lia|]. destruct (Z.ltb_spec r 32); [lia|]. destruct (Z.ltb_spec 126 r); [lia|]. cbn [orb].
    apply wp_bind, wp_get. destruct (Z.leb_spec maxLine (lineLen w)); [lia|].
    apply wp_bind, wp_line. rewrite aset_Some by lia. cbn [ok]. apply wp_bind, wp_modify.
    eapply wp_mono; [apply wp_putRune, Hw|]. by intros [] w' (cn&E&_&->). }
  eapply wp_mono; [exact (runs_returns _ _ _ _ _ (FeedRune_runs _ _ _ _ r w Hw) Hp)|].
  intros [] w' [(Hw'&Ht&_&Hk) Hp']. rewrite bool_decide_false in Hk by (intros [|]; lia). destruct Hk as [Hh Hfs].
  split_and!; [done| |done|done|exact Hp']. rewrite Ht. unfold edit. rewrite bool_decide_false by (intros [|]; lia).
  by destruct (Z.eqb_spec r 8), (Z.leb_spec 32 r), (Z.leb_spec r 126), (Z.ltb_spec (len (typed w)) maxLine); try lia.
Qed.

Lemma type_line t : ∀ w,
  shell_ok w → Forall (λ r, 32 ≤ r ≤ 126) t → len (typed w) + len t ≤ maxLine →
  wp (feed t) (λ _ w', shell_ok w' ∧ typed w' = typed w ++ t ∧ held w' = held w ∧ sh_fs w' = sh_fs w ∧
    Print t (sh_con w) = Some (sh_con w')) w.
Proof.
  induction t as [|r t IH]; intros w Hw Hr Hlen; cbn [ShellRun.feed].
  { apply wp_ret. split_and!; try done. by rewrite app_nil_r. }
  inversion_clear Hr as [|? ? Hr1 Hr2]. rewrite len_cons in Hlen. pose proof (len_nonneg t).
  apply wp_bind. eapply wp_mono; [apply type_char; [done|done|lia]|]. intros [] w1 (Hw1&Et1&Eh1&Ef1&Ep1).
  eapply wp_mono; [apply IH; [done|done|rewrite Et1, len_app, len_cons, len_nil; lia]|].
  intros [] w2 (?&->&->&->&Ep2). split_and!; try done; [by rewrite Et1, <-app_assoc|].
  change (r :: t) with ([r] ++ t). rewrite Print_app, Ep1. exact Ep2.
Qed.

Lemma feed_app rs1 rs2 w : feed (rs1 ++ rs2) w = (_ ← feed rs1; feed rs2) w.
Proof.
  revert w. induction rs1 as [|r rs IH]; intros w; [done|]. cbn [app ShellRun.feed]. unfold mbind, M_bind in *.
  destruct (FeedRune _ _ _ r w) as [[[] w']|]; [|done]. by rewrite IH.
Qed.

(** One line, from its first key to the next prompt. *)
Lemma line_files t w :
  files_ready w → held w = None → typed w = [] → file_line t →
  wp (feed (t ++ [13])) (λ _ w', files_ready w' ∧ held w' = None ∧ typed w' = [] ∧ ∃ c n d out,
    typed_command (gs c) n d t ∧ file_effect (sh_fs w) (sh_fs w') n d c out ∧
    Print (t ++ [10] ++ out ++ gs "> ") (sh_con w) = Some (sh_con w')) w.
Proof.
  intros [Hw Hinv Hpfa] Hh Ht (Hlen&Hr&c&n&d&Hc&Htc). unfold wp. rewrite feed_app. apply wp_bind.
  eapply wp_mono; [apply type_line; [done|done|by rewrite Ht, len_nil]|].
  intros [] w1 (Hw1&Et1&Eh1&Ef1&Ep1). rewrite Ht in Et1. cbn [app] in Et1. cbn [ShellRun.feed]. apply wp_bind.
  eapply wp_mono; [eapply runs_returns; [by apply FeedRune_runs|apply (enter_files c n d)]|].
  - split; [done|by rewrite Ef1|unfold sh_mem; by rewrite Ef1].
  - by rewrite Eh1.
  - done.
  - by rewrite Et1.
  - intros [] w2 [(Hw2&Et2&_) (out&Ep2&He&Hi2&Hp2&Hh2)]. apply wp_ret. split; [by split|]. split; [done|].
    split; [by rewrite Et2|]. exists c, n, d, out. split_and!; [done|by rewrite <-Ef1|].
    rewrite Print_app, Ep1. exact Ep2.
Qed.

Lemma session_wp ls : ∀ w,
  files_ready w → held w = None → typed w = [] → Forall file_line ls →
  wp (feed (concat ((λ t, t ++ [13]) <$> ls))) (λ _ w', files_ready w' ∧ ∃ out, session ls (sh_fs w) out (sh_fs w') ∧
    Print out (sh_con w) = Some (sh_con w')) w.
Proof.
  induction ls as [|t ls IH]; intros w Hf Hh Ht Hls.
  { apply wp_ret. split; [done|]. exists []. split; [constructor|done]. }
  inversion_clear Hls as [|? ? Hl1 Hl2]. cbn [fmap list_fmap concat]. unfold wp. rewrite feed_app. apply wp_bind.
  eapply wp_mono; [by apply line_files|]. intros [] w1 (Hf1&Hh1&Ht1&c&n&d&out&Htc&He&Ep1).
  eapply wp_mono; [by apply IH|]. intros [] w2 (Hf2&rest&Hs&Ep2). split; [done|].
  exists (t ++ [10] ++ out ++ gs "> " ++ rest). split; [by eapply SessionLine|].
  replace (t ++ _) with ((t ++ [10] ++ out ++ gs "> ") ++ rest) by (by rewrite <-!app_assoc).
  rewrite Print_app, Ep1. exact Ep2.
Qed.

(** C6: A session with files: from a prompt with the allocator ready and the file system
    consistent, type any lines of the commands [write], [cat] and [rm].  Every line
    returns to the prompt; the files are the finite map the lines make of the map before
    (a [write] may fail, for a new name, when the table is full or no page is free, and
    then changes nothing); and the console shows exactly the keys typed, the answers that
    map gives and the prompts: what was written is what [cat] prints. *)
Theorem file_session ls w :
  shell_ok w → fs_inv (sh_fs w) → PFAReady (sh_mem w) = true → held w = None → typed w = [] →
  Forall file_line ls →
  ∃ w' out, feed (concat ((λ t, t ++ [13]) <$> ls)) w = Some (tt, w') ∧ fs_inv (sh_fs w') ∧
    session ls (sh_fs w) out (sh_fs w') ∧ Print out (sh_con w) = Some (sh_con w').
Proof.
  intros Hw Hinv Hpfa Hh Ht Hls.
  destruct (wp_elim _ _ _ (session_wp ls w (Build_files_ready w Hw Hinv Hpfa) Hh Ht Hls)) as (w'&E&[_ Hinv' _]&out&?&?).
  by exists w', out.
Qed.
End session.

(** A session on the example machine. *)
Definition demo_session : list (list Z) :=
  [gs "write notes hello world"; gs "cat  notes "; gs "rm notes"; gs "cat notes"].

Lemma demo_session_lines : Forall file_line demo_session.
Proof.
  assert (∀ c n d sp1 sp2 sp3, c ∈ file_commands → blanks sp1 → blanks sp2 → blanks sp3 → sp1 ≠ [] →
    word n → tight d → (d = [] ↔ sp2 = []) → len ((gs c ++ sp1 ++ n ++ sp2 ++ d) ++ sp3) ≤ maxLine →
    Forall (λ r, 32 ≤ r ≤ 126) ((gs c ++ sp1 ++ n ++ sp2 ++ d) ++ sp3) →
    file_line ((gs c ++ sp1 ++ n ++ sp2 ++ d) ++ sp3)) as Hl.
  { intros c n d sp1 sp2 sp3 ??????????. split_and!; [done..|]. exists c, n, d. split; [done|].
    by apply (Typed _ n d [] sp1 sp2 sp3). }
  repeat apply Forall_cons_2.
  - apply (Hl "write" (gs "notes") (gs "hello world") [32] [32] []); try done; try (by repeat constructor); set_solver.
  - apply (Hl "cat" (gs "notes") [] [32; 32] [] [32]); try done; try (by repeat constructor); set_solver.
  - apply (Hl "rm" (gs "notes") [] [32] [] []); try done; try (by repeat constructor); set_solver.
  - apply (Hl "cat" (gs "notes") [] [32] [] []); try done; try (by repeat constructor); set_solver.
  - apply Forall_nil_2.
Qed.

Lemma file_session_witness :
  let run := feed 0x2000 0x4000 0x9000 (concat ((λ t, t ++ [13]) <$> demo_session)) demo_shell in
  (λ o, sh_con o.2) <$> run =
    Some (lines_text ["write notes hello world"; "ok"; "> cat  notes "; "hello world"; "> rm notes"; "ok";
                      "> cat notes"; "cat: not found"] ++ gs "> ") ∧
  ∃ w' out, run = Some (tt, w') ∧ fs_inv (sh_fs w') ∧
    session demo_session (sh_fs demo_shell) out (sh_fs w') ∧ Print out (sh_con demo_shell) = Some (sh_con w').
Proof.
  intros run. split; [vm_compute; reflexivity|].
  exact (file_session 0x2000 0x4000 0x9000 (λ _, True) demo_session demo_shell demo_shell_ok demo_fs_inv eq_refl eq_refl
           eq_refl demo_session_lines).
Defined.
