(* ===== verification/Kernel.v ===== *)
(** * Package [kernel]: interrupts, programs and the main loop

    [src/kernel/irq.go], [task_runner.go] and [kernel.go]: the interrupt handlers, the
    program runner, the boot sequence [Main] and its endless loop.  The shell's hooks are
    these functions; the kernel's own variables are the state [kernel] the shell carries
    along.  The user-mode excursion [ExecuteUserTask] and the addresses of programs, tables
    and entry stubs come from assembly and the linker: they are parameters. *)
From S2P Require Import Prelude PageAlloc Keyboard Scheduler Tables Mem Multiboot Fs FsSafe PortIO Terminal Serial.
From S2P Require Import Syscall AgentTypes Agent AgentGate Disk Fat16 FatSafe Line Output History.
From S2P Require Import ShellState ShellInv Shell ShellSafe ShellAgent ShellRun.
Local Open Scope Z_scope.

(** ** irq.go *)
Section irq.
(** The interrupt controller, the timer and the keyboard controller. *)
Context {D : Type} `{!PortIO D}.

Record kernel := Kernel {
  interrupts : bool;
  ticks : Z;
  currentLayoutName : list Z;
  switchKeyLayout : option Layout;
  switchLayoutName : list Z;
  kbd : kbd_state;
  sched : sched_state;
  processor : cpu;
  io : D;
  (** not a variable of the code: the runes that keyboard interrupts have produced so far *)
  typed_log : list Z;
}.

Definition set_interrupts (b : bool) (k : kernel) : kernel :=
  Kernel b (ticks k) (currentLayoutName k) (switchKeyLayout k) (switchLayoutName k) (kbd k) (sched k) (processor k) (io k) (typed_log k).
Definition set_kbd (st : kbd_state) (d : D) (k : kernel) : kernel :=
  Kernel (interrupts k) (ticks k) (currentLayoutName k) (switchKeyLayout k) (switchLayoutName k) st (sched k) (processor k) d (typed_log k).
Definition set_sched (c : cpu) (st : sched_state) (k : kernel) : kernel :=
  Kernel (interrupts k) (ticks k) (currentLayoutName k) (switchKeyLayout k) (switchLayoutName k) (kbd k) st c (io k) (typed_log k).
Definition set_io (d : D) (k : kernel) : kernel := set_kbd (kbd k) d k.
Definition set_ticks (t : Z) (k : kernel) : kernel :=
  Kernel (interrupts k) t (currentLayoutName k) (switchKeyLayout k) (switchLayoutName k) (kbd k) (sched k) (processor k) (io k) (typed_log k).
Definition set_layoutNames (cur : list Z) (l : option Layout) (name : list Z) (k : kernel) : kernel :=
  Kernel (interrupts k) (ticks k) cur l name (kbd k) (sched k) (processor k) (io k) (typed_log k).

Definition DisableInterrupts : kernel → kernel := set_interrupts false.
Definition EnableInterrupts : kernel → kernel := set_interrupts true.

Definition InitKeyboard (k : kernel) : kernel :=
  let '(name, st) := initKeyboardLayout (kbd k) in
  set_layoutNames name (switchKeyLayout k) (switchLayoutName k) (set_kbd st (io k) k).

Definition SwitchLayout (name : list Z) (k : kernel) : option (bool * kernel) :=
  let chosen := if decide (name = gs "us") then Some GetUS
                else if decide (name = gs "it") then Some GetIT else None in
  match chosen with
  | None => Some (false, k)
  | Some (l, layoutName) =>
      let k := set_layoutNames (currentLayoutName k) (Some l) layoutName k in
      let k := DisableInterrupts k in
      let k := set_kbd (SetLayout l (kbd k)) (io k) k in
      let k := EnableInterrupts k in
      Some (true, set_layoutNames layoutName (switchKeyLayout k) (switchLayoutName k) k)
  end.

Definition GetCurrentLayoutName (k : kernel) : list Z := currentLayoutName k.

(** [scheduler.Schedule] with the context switch it may make. *)
Definition IRQ0Handler (k : kernel) : option kernel :=
  let k := set_ticks (u64 (ticks k + 1)) k in
  let k := set_io (PICEOI 0 (io k)) k in
  '(c, st) ← tick (processor k) (sched k);
  Some (set_sched c st k).

(** [log_runes] only records what the interrupt produced. *)
Definition log_runes (rs : list Z) (k : kernel) : kernel :=
  Kernel (interrupts k) (ticks k) (currentLayoutName k) (switchKeyLayout k) (switchLayoutName k) (kbd k) (sched k)
    (processor k) (io k) (typed_log k ++ rs).

Definition IRQ1Handler (k : kernel) : option kernel :=
  '(st, d) ← IRQHandler (kbd k) (io k);
  Some (log_runes (typed_by (kbd k) (io k)) (set_kbd st (PICEOI 1 d) k)).

(** [k'] is reached from [k] by interrupts alone. *)
Inductive irqs : kernel → kernel → Prop :=
  | irqs_done k : irqs k k
  | irqs_timer k k1 k2 : IRQ0Handler k = Some k1 → irqs k1 k2 → irqs k k2
  | irqs_key k k1 k2 : IRQ1Handler k = Some k1 → irqs k1 k2 → irqs k k2.

Definition GetTicks (k : kernel) : option (Z * kernel) := Some (ticks k, k).

(** The system call made by [int $0x80] with 3 in [rax]; [regs] are the other registers. *)
Definition TriggerSysGetTicks (regs : TrapFrame) (k : kernel) : option (Z * kernel) :=
  '(tf, _, _) ← Int80Handler (set_RAX SysGetTicks regs) (ticks k) (SysState (T := list Z) [] ∅ []);
  Some (RAX tf, k).
End irq.

Arguments kernel : clear implicits.

(** ** task_runner.go *)
Definition matchProgramName (name : list Z) (nameLen : Z) (expected : list Z) : option bool :=
  if negb (nameLen =? len expected) then Some false
  else match_bytes (len expected) (aget name) (aget expected).

Definition helloProgramName : list Z := gs "hello".
Definition kernelReadProbeProgramName : list Z := gs "kread".
Definition kernelWriteProbeProgramName : list Z := gs "kwrite".
Definition privilegedProbeProgramName : list Z := gs "kpriv".

Section programs.
Context {D C : Type}.
(** The addresses of the programs and of the user stack; the run of a program in user mode,
    up to its exit. *)
Context (helloAddr kernelReadProbeAddr kernelWriteProbeAddr privilegedProbeAddr userStackTop : Z).
Context (ExecuteUserTask : Z → Z → C → kernel D → option (C * kernel D)).

(** The address of the program of that name. *)
Definition programAddr (name : list Z) (nameLen : Z) : option (option Z) :=
  m ← matchProgramName name nameLen helloProgramName;
  if m : bool then Some (Some helloAddr) else
  m ← matchProgramName name nameLen kernelReadProbeProgramName;
  if m : bool then Some (Some kernelReadProbeAddr) else
  m ← matchProgramName name nameLen kernelWriteProbeProgramName;
  if m : bool then Some (Some kernelWriteProbeAddr) else
  m ← matchProgramName name nameLen privilegedProbeProgramName;
  if m : bool then Some (Some privilegedProbeAddr) else Some None.

Definition RunProgram (name : list Z) (nameLen : Z) (c : C) (k : kernel D) : option (Z * bool * C * kernel D) :=
  rip ← programAddr name nameLen;
  match rip with
  | None => Some (-1, false, c, k)
  | Some rip =>
      '(c, k) ← ExecuteUserTask rip userStackTop c k;
      Some (1, true, c, k)
  end.
End programs.

(** ** kernel.go *)
(** Where the linker and the assembler put things. *)
Record layout := MkLayoutOf {
  gdt_addr : Z; tss_addr : Z; trap_stack : Z; idt_addr : Z;
  dfault_stub : Z; gpfault_stub : Z; pfault_stub : Z; irq0_stub : Z; irq1_stub : Z; int80_stub : Z;
  syscall_entry : Z;
  kernel_end : Z; bootstrap_end : Z;
  tmpData_addr : Z; diskBuf_addr : Z; actionData_addr : Z;
  hello_addr : Z; kread_addr : Z; kwrite_addr : Z; kpriv_addr : Z; user_stack : Z;
}.

Section main.
(** The video and debug ports, the interrupt and keyboard ports, the descriptor table
    registers, the model-specific registers, the disk and the serial line. *)
Context {V D T R B L : Type} `{!PortIO V} `{!DebugIO V} `{!PortIO D} `{!CpuTables T} `{!Disk B} `{!PortIO L}.
Context (readMSR : Z → R → Z * R) (writeMSR : Z → Z → R → R).
Context (at_ : layout) (regs : TrapFrame).
Context (ExecuteUserTask : Z → Z → term_state V → kernel D → option (term_state V * kernel D)).

Abbreviation K := (kernel D).
Abbreviation C := (term_state V).
Abbreviation S := (shell K C B L).
Abbreviation OS := (os_shell (K := K) (C := C) (B := B) (L := L)).

Record machine := Machine { tabs : tables T; msrs : R; os : OS }.

Definition on_state (f : S → S) (s : OS) : OS := OsShell (sh_executor s) (f (sh_state s)).
Definition on_kernel (f : K → K) (s : OS) : OS :=
  on_state (λ w, ShellState.set_kernel (sh_con w) (f (sh_kernel w)) w) s.

Definition run_program := RunProgram (hello_addr at_) (kread_addr at_) (kwrite_addr at_) (kpriv_addr at_)
  (user_stack at_) ExecuteUserTask.

(** The screen, the tables and the chips. *)
Definition boot_hardware (m : machine) : option machine :=
  let s := on_kernel DisableInterrupts (os m) in
  c ← Terminal.Init (sh_con (sh_state s));
  c ← Terminal.Clear c;
  let s := on_state (set_con c) s in
  t ← InitGDTAndTSS (gdt_addr at_) (tss_addr at_) (trap_stack at_) (tabs m);
  let r := InitSyscall readMSR writeMSR (syscall_entry at_) (msrs m) in
  t ← InitIDT (idt_addr at_) (dfault_stub at_) (gpfault_stub at_) (pfault_stub at_) (irq0_stub at_)
        (irq1_stub at_) (int80_stub at_) t;
  let s := on_kernel (λ k, set_io (PITInit 100 (PICSetMask 0xFC 0xFF (PICRemap 0x20 0x28 (io k)))) k) s in
  Some (Machine t r s).

(** Memory, tasks and files. *)
Definition boot_memory (multibootInfoAddr : Z) (s : OS) : option OS :=
  '(found, mem) ← InitMultiboot multibootInfoAddr (sh_mem (sh_state s));
  mem ← (if found : bool then '(_, mem) ← InitPFA (kernel_end at_) (bootstrap_end at_) mem; Some mem else Some mem);
  let s := on_state (set_mem mem) s in
  st ← Scheduler.Init (sched (sh_kernel (sh_state s)));
  let s := on_kernel (λ k, set_sched (processor k) st k) s in
  files ← Fs.Init (sh_fs (sh_state s));
  Some (on_state (set_fs files) s).

(** The hooks the kernel gives to the shell first. *)
Definition boot_hooks (s : OS) : OS :=
  let s := SetTickProvider (Some GetTicks) s in
  let s := SetSyscallTickProvider (Some (TriggerSysGetTicks regs)) s in
  SetProgramRunner (Some run_program) s.

(** The agent, the keyboard and the last hook; then interrupts are on. *)
Definition boot_shell (s : OS) : OS :=
  let s := ConfigureAgentRuntime (actionData_addr at_) s in
  let s := on_kernel InitKeyboard s in
  let s := SetLayoutSwitcher (Some SwitchLayout) s in
  let s := SetInitialLayout (GetCurrentLayoutName (sh_kernel (sh_state s))) s in
  on_kernel EnableInterrupts s.

(** [Main], up to its loop. *)
Definition Main (multibootInfoAddr : Z) (m : machine) : option machine :=
  m ← boot_hardware m;
  s ← boot_memory multibootInfoAddr (boot_hooks (os m));
  let s := boot_shell s in
  '(_, w) ← Shell.Init (sh_state s);
  Some (Machine (tabs m) (msrs m) (OsShell (sh_executor s) w)).

(** One round of the loop of [Main]; the rune it gave to the shell, if any.  Without one
    the processor halts until the next interrupt. *)
Definition main_loop (s : OS) : option (option Z * OS) :=
  let k := DisableInterrupts (sh_kernel (sh_state s)) in
  '(r, st) ← TryRead (kbd k);
  let k := EnableInterrupts (set_kbd st (io k) k) in
  let s := on_kernel (λ _, k) s in
  match r with
  | None => Some (None, s)
  | Some r =>
      '(_, w) ← FeedRune (tmpData_addr at_) (diskBuf_addr at_) (sh_executor s) r (sh_state s);
      Some (Some r, OsShell (sh_executor s) w)
  end.

(** What happens next: a timer interrupt, a keyboard interrupt, or a round of the loop. *)
Inductive event := Timer | Key | Loop.

Definition with_kernel (f : K → option K) (s : OS) : option OS :=
  k ← f (sh_kernel (sh_state s)); Some (on_kernel (λ _, k) s).

(** Runs the events; returns the runes the shell got. *)
Fixpoint os_run (es : list event) (s : OS) : option (list Z * OS) :=
  match es with
  | [] => Some ([], s)
  | Timer :: es => s ← with_kernel IRQ0Handler s; os_run es s
  | Key :: es => s ← with_kernel IRQ1Handler s; os_run es s
  | Loop :: es =>
      '(r, s) ← main_loop s;
      '(fed, s) ← os_run es s;
      Some (match r with Some r => r :: fed | None => fed end, s)
  end.
End main.
