(* ===== verification/KernelSafe.v ===== *)
(** * Package [kernel]: the running system

    The pieces together.  [boot_total]: the boot sequence returns and leaves every component
    in its invariant.  [key_pipeline]: while the system runs, under any interleaving of timer
    interrupts, keyboard interrupts (during user programs, too) and rounds of the main loop,
    nothing panics, and the line the shell edits is what the keys typed make it, in order; the
    machine halts exactly at a [mem] command that leaves the mapped memory. *)
From S2P Require Import Prelude PageAlloc Keyboard Scheduler Tables Mem Multiboot Fs FsMem FsSafe PortIO Terminal Serial.
From S2P Require Import Syscall AgentTypes Agent AgentGate Disk Fat16 FatSafe Line Output History.
From S2P Require Import ShellState ShellInv Shell ShellSafe ShellAgent ShellRun Kernel.
Local Open Scope Z_scope.

Section running.
Context {V D T R B L : Type} `{!PortIO V} `{!DebugIO V} `{!PortIO D} `{!CpuTables T}.
Context `{!Disk B} `{!DiskTotal B} `{!PortIO L} `{!PortIOLaws L}.
Context (readMSR : Z → R → Z * R) (writeMSR : Z → Z → R → R).
Context (at_ : layout) (regs : TrapFrame).
Context (ExecuteUserTask : Z → Z → term_state V → kernel D → option (term_state V * kernel D)).

Abbreviation K := (kernel D).
Abbreviation C := (term_state V).
Abbreviation S := (shell K C B L).
Abbreviation OS := (os_shell (K := K) (C := C) (B := B) (L := L)).
Implicit Types (k : K) (w : S) (s : OS).

(** ** The kernel's own state *)
Record kernel_inv k : Prop := {
  ki_ring : ring_inv (kbd k);
  ki_layout : is_Some (Keyboard.currentLayout (kbd k));
  ki_sched : sched_inv (sched k);
  ki_if : interrupts k = true;
}.

Abbreviation keys_of k := (Keyboard.queue (kbd k)).

(** A kernel that interrupts may have reached from one with the keys [q] waiting and the
    runes [l] produced. *)
Definition kernel_from (q l : list Z) k : Prop :=
  kernel_inv k ∧ ∃ p, typed_log k = l ++ p ∧ flow q p [] (keys_of k).

Lemma kernel_here k : kernel_inv k → kernel_from (keys_of k) (typed_log k) k.
Proof. intros Hk. split; [done|]. exists []. rewrite app_nil_r. split; [done|apply flow_nil]. Qed.

(** A change that touches neither the keys nor the log. *)
Lemma kernel_from_ext q l k k' :
  kernel_from q l k → kernel_inv k' → keys_of k' = keys_of k → typed_log k' = typed_log k → kernel_from q l k'.
Proof. intros [_ (p&Hl&Hf)] Hk Hq Hlog. split; [done|]. exists p. by rewrite Hq, Hlog. Qed.

Lemma kernel_from_trans q l k k' :
  kernel_from q l k → kernel_from (keys_of k) (typed_log k) k' → kernel_from q l k'.
Proof.
  intros [_ (p1&Hl1&Hf1)] [Hk (p2&Hl2&Hf2)]. split; [done|]. exists (p1 ++ p2).
  rewrite Hl2, Hl1, <-app_assoc. split; [done|]. exact (flow_app _ _ _ _ _ _ _ Hf1 Hf2).
Qed.

Lemma sched_tick_ok c st : sched_inv st → ok (tick c st) (λ '(_, st'), sched_inv st').
Proof.
  intros Hs. destruct (si_current _ Hs) as (cur&Hc&Hr&_).
  eapply ok_mono; [by apply (tick_spec c st cur)|]. by intros [??] [? _].
Qed.

Lemma IRQ0Handler_ok k :
  kernel_inv k → ok (IRQ0Handler k) (λ k', kernel_from (keys_of k) (typed_log k) k' ∧
    keys_of k' = keys_of k ∧ typed_log k' = typed_log k ∧ ticks k' = u64 (ticks k + 1)).
Proof.
  intros Hk. pose proof (kernel_here k Hk) as Hhere. destruct Hk. unfold IRQ0Handler.
  call sched_tick_ok; [done|]. intros [c st] Hst. split; [|done]. by apply (kernel_from_ext _ _ k).
Qed.

Lemma IRQ1Handler_ok k :
  kernel_inv k → ok (IRQ1Handler k) (λ k', kernel_from (keys_of k) (typed_log k) k' ∧
    typed_log k' = typed_log k ++ typed_by (kbd k) (io k) ∧
    keys_of k' = if len (keys_of k) <? 255 then keys_of k ++ typed_by (kbd k) (io k) else keys_of k).
Proof.
  intros []. unfold IRQ1Handler. call IRQHandler_spec; [done..|]. intros [st d] (?&?&Hq).
  rewrite <-len_queue in Hq. split; [|done]. split; [by split|]. exists (typed_by (kbd k) (io k)). split; [done|].
  pose proof (flow_push (keys_of k) (typed_by (kbd k) (io k)) [] [] (Keyboard.queue st)) as Hp.
  rewrite app_nil_r in Hp. apply Hp. rewrite Hq. apply flow_nil.
Qed.

Lemma irqs_from k k' : irqs k k' → kernel_inv k → kernel_from (keys_of k) (typed_log k) k'.
Proof.
  induction 1 as [k|k k1 k2 E _ IH|k k1 k2 E _ IH]; intros Hk; [by apply kernel_here|..].
  - pose proof (IRQ0Handler_ok k Hk) as Hi. rewrite E in Hi. destruct Hi as [Hi _].
    eapply kernel_from_trans; [exact Hi|]. apply IH, Hi.
  - pose proof (IRQ1Handler_ok k Hk) as Hi. rewrite E in Hi. destruct Hi as [Hi _].
    eapply kernel_from_trans; [exact Hi|]. apply IH, Hi.
Qed.

(** A user program returns to the kernel.  It runs with interrupts enabled: timer and keyboard
    interrupts may have changed the kernel's state meanwhile, nothing else has. *)
Definition user_task_ok : Prop :=
  ∀ rip rsp c k, console_ok c → kernel_inv k →
    ok (ExecuteUserTask rip rsp c k) (λ '(c', k'), console_ok c' ∧ irqs k k').

Context (Huser : user_task_ok).

Lemma matchProgramName_total name n p : len name = 16 → 1 ≤ n ≤ 16 → ok (matchProgramName name n p) (λ _, True).
Proof.
  intros. unfold matchProgramName. destruct (Z.eqb_spec n (len p)); [|done]. cbn [negb].
  apply match_bytes_total. intros j Hj. split; apply aget_Some; lia.
Qed.

Lemma programAddr_total a b c d name n :
  len name = 16 → 1 ≤ n ≤ 16 → ok (programAddr a b c d name n) (λ _, True).
Proof.
  intros. unfold programAddr. do 4 (call matchProgramName_total; [done..|]; intros [] _; [done|]). done.
Qed.

Lemma SwitchLayout_ok q l name k : kernel_from q l k → ok (SwitchLayout name k) (λ '(_, k'), kernel_from q l k').
Proof.
  intros Hk. pose proof Hk as [[] _]. unfold SwitchLayout. case_decide; [|case_decide; [|done]];
    (apply (kernel_from_ext _ _ k); [done| |done|done]); split; try done; by eexists.
Qed.

Abbreviation main_hooks :=
  (Some GetTicks, Some (TriggerSysGetTicks regs), Some (run_program at_ ExecuteUserTask), Some SwitchLayout).

(** The functions the kernel gives to the shell take no key. *)
Lemma main_hooks_ok q l :
  hooks_ok (kernel_from q l) (Some GetTicks) (Some (TriggerSysGetTicks regs)) (Some (run_program at_ ExecuteUserTask))
    (Some SwitchLayout).
Proof.
  split.
  - by intros f k [= <-] Hk.
  - by intros f k [= <-] Hk.
  - intros f name n c k [= <-] Hk Hc Hl Hn. unfold run_program, RunProgram.
    call programAddr_total; [done..|]. intros [rip|] _; [|done].
    apply ok_bind. eapply ok_mono; [exact (Huser _ _ _ _ Hc (proj1 Hk))|].
    intros [c' k'] (?&Hirq). split; [done|]. eapply kernel_from_trans; [exact Hk|].
    apply irqs_from; [done|apply Hk].
  - intros f name k [= <-] Hk. by apply SwitchLayout_ok.
Qed.

(** ** The whole system *)
Abbreviation shell_at q l :=
  (shell_ok (tmpData_addr at_) (diskBuf_addr at_) (actionData_addr at_) (kernel_from q l)).
Abbreviation keys s := (keys_of (sh_kernel (sh_state s))).
Abbreviation log s := (typed_log (sh_kernel (sh_state s))).

Record os_ok s : Prop := {
  oo_executor : sh_executor s = NewAgentExecutor (actionData_addr at_);
  oo_hooks : hooks (sh_state s) = main_hooks;
  oo_shell : shell_at (keys s) (log s) (sh_state s);
}.

(** The invariant of the shell speaks of the kernel as it is. *)
Lemma shell_here q l w : hooks w = main_hooks → shell_at q l w →
  shell_at (keys_of (sh_kernel w)) (typed_log (sh_kernel w)) w.
Proof.
  intros Hh []. split; try done.
  - injection Hh as -> -> -> ->. apply main_hooks_ok.
  - by apply kernel_here, so_kernel.
Qed.

(** A new kernel state. *)
Lemma os_ok_kernel k s : os_ok s → kernel_inv k → os_ok (on_kernel (λ _, k) s).
Proof.
  intros [He Hh Hs] Hk. split; [done|done|].
  cbn [on_kernel on_state sh_state sh_kernel ShellState.set_kernel set_machine]. destruct Hs. split; try done.
  - injection Hh as Ha Hb Hc Hd. cbn. rewrite Ha, Hb, Hc, Hd. apply main_hooks_ok.
  - by apply kernel_here.
Qed.

Lemma os_kernel s : os_ok s → kernel_inv (sh_kernel (sh_state s)).
Proof. intros [_ _ []]. apply so_kernel. Qed.

(** The next round of the loop halts the machine: it takes an Enter, behind a [mem] command
    that leaves the mapped memory. *)
Definition halts_loop s : Prop :=
  match keys s with r :: _ => enter_key r ∧ halts_line (sh_state s) | [] => False end.

#[local] Instance halts_loop_dec s : Decision (halts_loop s).
Proof.
  unfold halts_loop, enter_key. destruct (keys s) as [|r q]; [apply _|].
  pose proof (halts_line_dec (sh_state s)). apply _.
Defined.

(** What one event does: it moves keys, and edits the line. *)
Definition os_step s (fed : list Z) s' : Prop :=
  os_ok s' ∧ typed (sh_state s') = foldl edit (typed (sh_state s)) fed ∧
  ∃ produced, log s' = log s ++ produced ∧ flow (keys s) produced fed (keys s').

Lemma os_step_refl s : os_ok s → os_step s [] s.
Proof. intros Hs. split_and!; [done..|]. exists []. rewrite app_nil_r. split; [done|apply flow_nil]. Qed.

Lemma os_step_trans s fed s1 fed1 s2 : os_step s fed s1 → os_step s1 fed1 s2 → os_step s (fed ++ fed1) s2.
Proof.
  intros (_&Ht1&p1&Hl1&Hf1) (Hs2&Ht2&p2&Hl2&Hf2). split_and!; [done|by rewrite foldl_app, Ht2, Ht1|].
  exists (p1 ++ p2). rewrite Hl2, Hl1, <-app_assoc. split; [done|]. exact (flow_app _ _ _ _ _ _ _ Hf1 Hf2).
Qed.

(** An interrupt. *)
Lemma with_kernel_ok (f : K → option K) s :
  (∀ k, kernel_inv k → ok (f k) (kernel_from (keys_of k) (typed_log k))) → os_ok s →
  ok (with_kernel f s) (os_step s []).
Proof.
  intros Hf Hs. unfold with_kernel. apply ok_bind. eapply ok_mono; [by apply Hf, os_kernel|]. intros k [Hk Hp].
  cbn [ok]. split; [by apply os_ok_kernel|]. by split.
Qed.

(** A round of the main loop. *)
Lemma main_loop_runs s :
  os_ok s →
  (halts_loop s → main_loop at_ s = None) ∧
  (¬ halts_loop s → ok (main_loop at_ s) (λ '(r, s'), os_step s (match r with Some r => [r] | None => [] end) s')).
Proof.
  intros Hs. pose proof (os_kernel s Hs) as [Hring Hlay Hsched _]. unfold main_loop, halts_loop.
  set (k0 := sh_kernel (sh_state s)) in *. change (kbd (DisableInterrupts k0)) with (kbd k0).
  destruct (ok_elim _ _ (TryRead_spec (kbd k0) Hring)) as ([r st]&->&Hst&Hr). cbn [mbind option_bind].
  set (k1 := EnableInterrupts _).
  assert (kernel_inv k1) as Hk1.
  { split; [done| |done|done]. cbn. destruct r; [destruct Hr as [_ [t ->]]|destruct Hr as [_ ->]]; done. }
  pose proof (os_ok_kernel k1 s Hs Hk1) as Hs1. set (s1 := on_kernel (λ _, k1) s) in *.
  destruct r as [r|].
  - destruct Hr as [Hq _]. rewrite Hq. pose proof Hs1 as [He Hh Hw]. rewrite He.
    pose proof (FeedRune_runs _ _ _ _ r _ Hw) as [Hrun Hhalt].
    assert (halts_line (sh_state s1) ↔ halts_line (sh_state s)) as Hsame by done. rewrite <-Hsame. split.
    + intros HF. by rewrite (Hhalt HF).
    + intros HF. apply ok_bind. eapply ok_mono; [exact (Hrun HF)|]. intros [_ w'] (Hw'&Hty&Hh'&_). cbn [ok].
      destruct (so_kernel _ _ _ _ _ Hw') as [_ (p&Hlog&Hf)]. split_and!.
      * split; cbn [sh_executor sh_state]; [done|by rewrite Hh'|]. apply (shell_here (keys s1) (log s1)); [by rewrite Hh'|done].
      * cbn [sh_state foldl]. by rewrite Hty.
      * exists p. cbn [sh_state]. split; [exact Hlog|]. fold k0. rewrite Hq. by apply flow_read.
  - destruct Hr as [Hq ->]. rewrite Hq. split; [done|]. intros _. cbn [ok]. split; [done|]. split; [done|].
    exists []. rewrite app_nil_r. split; [done|].
    change (keys s1) with (keys_of k0). fold k0. rewrite Hq. apply flow_nil.
Qed.

(** The machine halts during the events. *)
Definition halts_in (es : list event) s : Prop :=
  ∃ es1 es2 fed s1, es = es1 ++ Loop :: es2 ∧ os_run at_ es1 s = Some (fed, s1) ∧ os_ok s1 ∧ halts_loop s1.

Lemma halts_in_cons ev es s fed0 s1 :
  (∀ es, os_run at_ (ev :: es) s = '(fed, s') ← os_run at_ es s1; Some (fed0 ++ fed, s')) →
  halts_in es s1 → halts_in (ev :: es) s.
Proof.
  intros Hrun (es1&es2&fed&s2&->&E&H). exists (ev :: es1), es2, (fed0 ++ fed), s2. split; [done|]. split; [|done].
  by rewrite Hrun, E.
Qed.

Lemma os_run_runs es : ∀ s, os_ok s →
  (os_run at_ es s = None ∧ halts_in es s) ∨ ∃ fed s', os_run at_ es s = Some (fed, s') ∧ os_step s fed s'.
Proof.
  induction es as [|ev es IH]; intros s Hs; [right; exists [], s; split; [done|by apply os_step_refl]|].
  assert (∀ fed0 s1, (∀ es, os_run at_ (ev :: es) s = '(fed, s') ← os_run at_ es s1; Some (fed0 ++ fed, s')) →
    os_step s fed0 s1 → (os_run at_ (ev :: es) s = None ∧ halts_in (ev :: es) s) ∨
    ∃ fed s', os_run at_ (ev :: es) s = Some (fed, s') ∧ os_step s fed s') as Hnext.
  { intros fed0 s1 Hrun Hstep. destruct (IH s1 (proj1 Hstep)) as [[E Hh]|(fed&s'&E&Hst)].
    - left. split; [by rewrite Hrun, E|by eapply halts_in_cons].
    - right. exists (fed0 ++ fed), s'. split; [by rewrite Hrun, E|by eapply os_step_trans]. }
  destruct ev.
  - destruct (ok_elim _ _ (with_kernel_ok IRQ0Handler s (λ k Hk, ok_mono _ _ _ (IRQ0Handler_ok k Hk) (λ k' H, proj1 H)) Hs))
      as (s1&E&Hstep). apply (Hnext [] s1); [|done]. intros es'. cbn [os_run]. rewrite E. cbn [mbind option_bind].
    by destruct (os_run at_ es' s1) as [[fed s']|].
  - destruct (ok_elim _ _ (with_kernel_ok IRQ1Handler s (λ k Hk, ok_mono _ _ _ (IRQ1Handler_ok k Hk) (λ k' H, proj1 H)) Hs))
      as (s1&E&Hstep). apply (Hnext [] s1); [|done]. intros es'. cbn [os_run]. rewrite E. cbn [mbind option_bind].
    by destruct (os_run at_ es' s1) as [[fed s']|].
  - destruct (main_loop_runs s Hs) as [Hhalt Hrun]. destruct (decide (halts_loop s)) as [Hh|Hn].
    + left. split; [cbn [os_run]; by rewrite Hhalt|]. by exists [], es, [], s.
    + destruct (ok_elim _ _ (Hrun Hn)) as ([r s1]&E&Hstep).
      apply (Hnext (match r with Some r => [r] | None => [] end) s1); [|done]. intros es'. cbn [os_run]. rewrite E.
      cbn [mbind option_bind]. destruct (os_run at_ es' s1) as [[fed s']|]; [|done]. by destruct r.
Qed.

(** C7: From the keyboard to the prompt: under every interleaving of timer interrupts,
    keyboard interrupts (during user programs, too) and rounds of the main loop nothing panics
    and the system stays well-formed; the runes the shell gets, followed by those still in the
    buffer, are those that were in it followed by runes the keyboard interrupts produced
    meanwhile, in order (all of them, as long as at most 255 are in flight); and the line is
    what an ideal editor makes of the runes the shell got, whatever commands they ran.  The
    one exception is a round of the loop that takes an Enter behind a [mem] command outside
    the mapped memory: then, and only then, the machine halts. *)
Theorem key_pipeline es s :
  os_ok s →
  (os_run at_ es s = None ∧ halts_in es s) ∨
  ∃ produced fed s', os_run at_ es s = Some (fed, s') ∧ os_ok s' ∧
    log s' = log s ++ produced ∧ flow (keys s) produced fed (keys s') ∧
    typed (sh_state s') = foldl edit (typed (sh_state s)) fed.
Proof.
  intros Hs. destruct (os_run_runs es s Hs) as [?|(fed&s'&E&?&?&p&?&?)]; [by left|right]. by exists p, fed, s'.
Qed.

(** ** Booting *)
(** The shell's variables and the machine when [Main] starts: buffers and tables of the
    sizes they are declared with, no allocator yet. *)
Record cold w : Prop := {
  cd_line : line_ok (lineBuf w);
  cd_len : 0 ≤ lineLen w ≤ maxLine;
  cd_name : len (tmpName w) = 16;
  cd_req : len (transportRequest w) = MaxPayload;
  cd_resp : len (transportResponse w) = MaxPayload;
  cd_hist : history_ok (sh_history w);
  cd_ctx : ctx_ok (agentContext w);
  cd_files : len (files (sh_fs w)) = maxFiles;
  cd_names i f : aget (files (sh_fs w)) i = Some f → len (Fs.name f) = maxName;
  cd_mock : mockPFAActive (sh_fs w) = false;
  cd_bytes : mem_bytes (phys (sh_mem w));
  cd_ready : Mem.pfaReady (sh_mem w) = false;
  cd_map : len (mmapEntries (sh_mem w)) = maxMMapEntries;
  cd_fat : sector_ok (fatBuf (sh_fat w)) ∧ fat_geo (sh_fat w);
  cd_disk : disk_safe (sh_disk w);
  cd_serial : serial_inv (sh_serial w);
  cd_ring : ring_inv (kbd (sh_kernel w));
  cd_keys : keys_of (sh_kernel w) = [];
  cd_tasks : len (tasks (sched (sh_kernel w))) = MaxTasks ∧ len (taskPool (sched (sh_kernel w))) = MaxTasks;
}.

(** The image lies below the end the linker reports. *)
Record layout_ok : Prop := {
  lo_tables : in_u64 (gdt_addr at_) ∧ in_u64 (tss_addr at_) ∧ in_u64 (idt_addr at_) ∧
    0 ≤ trap_stack at_ ∧ trap_stack at_ + 4096 < 2 ^ 64;
  lo_stubs : Forall (λ a, in_u64 a) [dfault_stub at_; gpfault_stub at_; pfault_stub at_; irq0_stub at_; irq1_stub at_; int80_stub at_];
  lo_end : 0 ≤ kernelEndPhys (kernel_end at_) (bootstrap_end at_) ≤ 2 ^ 51;
  lo_tmp : 0 ≤ tmpData_addr at_ ∧ tmpData_addr at_ + 4096 ≤ kernelEndPhys (kernel_end at_) (bootstrap_end at_);
  lo_disk : 0 ≤ diskBuf_addr at_ ∧ diskBuf_addr at_ + 512 ≤ kernelEndPhys (kernel_end at_) (bootstrap_end at_);
  lo_act : 0 ≤ actionData_addr at_ ∧ actionData_addr at_ + 128 ≤ kernelEndPhys (kernel_end at_) (bootstrap_end at_);
}.

(** The boot loader: the address of its structure, and available memory inside the physical
    address space. *)
Definition loader_ok (addr : Z) (st : mem_state) : Prop :=
  0 ≤ addr ≤ 2 ^ 63 ∧ ∀ st', InitMultiboot addr st = Some (true, st') → mmap_wf st'.

Context (Hat : layout_ok).

(** What the memory looks like after boot. *)
Record mem_booted (st : mem_state) : Prop := {
  mb_ok : mem_ok st;
  mb_map : mmap_ok st;
  mb_bitmap : Mem.pfaReady st = true → kernelEndPhys (kernel_end at_) (bootstrap_end at_) ≤ bitmapPhys st;
}.

(** If the boot loader reported available memory, the allocator is ready and hands out
    exactly the available pages above the kernel and its bitmap. *)
Definition pages_managed (addr : Z) (st0 st : mem_state) : Prop :=
  ∀ st1 i e, InitMultiboot addr st0 = Some (true, st1) → region st1 i e → 0 < entry_base e + entry_len e →
    PFAReady st = true ∧ ∀ p, p ∈ free_set st ↔ available st1 p ∧ scanStart st ≤ p.

Lemma memory_booted addr st :
  mem_bytes (phys st) → Mem.pfaReady st = false → len (mmapEntries st) = maxMMapEntries → loader_ok addr st →
  ok ('(found, st) ← InitMultiboot addr st;
      if found : bool then '(_, st) ← InitPFA (kernel_end at_) (bootstrap_end at_) st; Some st else Some st)
     (λ st', mem_booted st' ∧ pages_managed addr st st').
Proof.
  intros Hb Hr Hl [Ha Hmap]. apply ok_bind. pose proof (InitMultiboot_total addr st Hb Hl Ha) as Ht.
  destruct (InitMultiboot addr st) as [[found st1]|] eqn:E; [|done]. cbn [ok] in *.
  destruct Ht as (Hl1&Hc1&E1). assert (mem_bytes (phys st1)) as Hb1 by (by rewrite E1).
  assert (Mem.pfaReady st1 = false) as Hr1 by (by rewrite E1).
  destruct found.
  - apply ok_bind. eapply ok_mono.
    { apply ok_whenever; [apply InitPFA_spec; [apply Hat|by apply Hmap]|by apply InitPFA_map]. }
    intros [b st2] [Hi (Hb2&Ees&Ec)]. cbn [ok]. assert (mmap_ok st2) by (unfold mmap_ok; by rewrite Ees, Ec). destruct b.
    + destruct Hi as [(?&?&?&_&_&_&_&Hfree) _]. split; [split; [by split|done|done]|].
      intros st' i e E' _ _. rewrite E in E'. injection E' as <-. by split.
    + destruct Hi as (Hr2&Hno&_). split; [split; [split; [by rewrite Hr2|done]|done|by rewrite Hr2]|].
      intros st' i e E' Hreg Hpos. rewrite E in E'. injection E' as <-. specialize (Hno i e Hreg). lia.
  - split; [split; [split; [by rewrite Hr1|done]|done|by rewrite Hr1]|].
    intros st' i e E'. rewrite E in E'. discriminate E'.
Qed.

Abbreviation MACHINE := (machine (V := V) (D := D) (T := T) (R := R) (B := B) (L := L)).

Lemma boot_hardware_ok (m : MACHINE) :
  tables_ok (tabs m) → grid_ok (screen (sh_con (sh_state (os m)))) →
  ok (boot_hardware readMSR writeMSR at_ m) (λ m', tables_ok (tabs m') ∧
    ∃ c d, term_ok c ∧ sh_state (os m') =
      ShellState.set_kernel c (set_io d (DisableInterrupts (sh_kernel (sh_state (os m))))) (sh_state (os m))).
Proof.
  intros Ht Hg. destruct Hat as [(?&?&?&?&?) Hst _ _ _ _]. unfold boot_hardware. cbv zeta.
  call term_Init_spec; [done|]. intros c (Hc&_). call Clear_spec; [apply Hc..|]. intros c1 (Hc1&_).
  call InitGDTAndTSS_spec; [done..|]. intros t (Ht1&_).
  call InitIDT_spec; [done..|]. intros t2 (Ht2&_). split; [done|].
  eexists _, _. split; [exact Hc1|]. done.
Qed.

Lemma sched_booted st :
  len (tasks st) = MaxTasks → len (taskPool st) = MaxTasks → ok (Scheduler.Init st) sched_inv.
Proof. apply sched_Init_spec. Qed.

(** A file system without files on such an allocator. *)
Definition fresh (addr : Z) (st0 : mem_state) (f : fs_state mem_state) : Prop :=
  pages_managed addr st0 (world f) ∧ ∀ i e, ¬ has_file (files f) i e.

Lemma boot_memory_ok addr s :
  cold (sh_state s) → loader_ok addr (sh_mem (sh_state s)) →
  ok (boot_memory at_ addr s) (λ s', sh_executor s' = sh_executor s ∧ ∃ st files,
    sched_inv st ∧ fs_safe files ∧ mem_booted (world files) ∧ fresh addr (sh_mem (sh_state s)) files ∧
    sh_state s' = set_fs files (ShellState.set_kernel (sh_con (sh_state s))
      (set_sched (processor (sh_kernel (sh_state s))) st (sh_kernel (sh_state s))) (sh_state s))).
Proof.
  intros Hc Hload. pose proof (memory_booted addr (sh_mem (sh_state s))) as Hm.
  specialize (Hm (cd_bytes _ Hc) (cd_ready _ Hc) (cd_map _ Hc) Hload). unfold boot_memory.
  destruct (InitMultiboot addr _) as [[found st1]|]; [|done]. cbn [mbind option_bind] in *.
  apply ok_bind. eapply ok_mono; [destruct found; exact Hm|]. intros mem [Hmem Hpages].
  call sched_booted; [apply Hc..|]. intros st Hst.
  call fs_Init_safe; [apply Hc|apply (cd_names _ Hc)|apply Hc|apply Hmem|]. intros fs (Hfs&Ew&Hnone).
  split; [done|]. exists st, fs. split; [done|]. split; [done|]. split; [by rewrite Ew|].
  split; [|done]. split; [by rewrite Ew|done].
Qed.

(** The machine when [Main] starts. *)
Record power_on (m : MACHINE) : Prop := {
  pw_tables : tables_ok (tabs m);
  pw_screen : grid_ok (screen (sh_con (sh_state (os m))));
  pw_cold : cold (sh_state (os m));
}.

Lemma unmanaged_booted st a n :
  mem_booted st → 0 ≤ a ∧ a + n ≤ kernelEndPhys (kernel_end at_) (bootstrap_end at_) → unmanaged st a n.
Proof.
  intros [_ _ Hb] [??]. pose proof (lo_end Hat). split_and!; [lia..|]. intros Hr. specialize (Hb Hr). lia.
Qed.

Lemma initKeyboard_inv k :
  ring_inv (kbd k) → keys_of k = [] → sched_inv (sched k) →
  kernel_from [] (typed_log k) (EnableInterrupts (InitKeyboard k)).
Proof. intros ? Hk ?. split; [by split|]. exists []. rewrite app_nil_r. split; [done|].
  change (flow [] [] [] (keys_of k)). rewrite Hk. apply flow_nil. Qed.

Lemma boot_hooks_state s :
  let w := sh_state s in
  sh_state (boot_hooks at_ regs ExecuteUserTask s) =
    set_hooks (Some GetTicks) (Some (TriggerSysGetTicks regs)) (Some (run_program at_ ExecuteUserTask)) (switchLayoutFn w) w.
Proof. done. Qed.

Lemma boot_shell_state s :
  let w := sh_state s in let k := EnableInterrupts (InitKeyboard (sh_kernel w)) in
  sh_executor (boot_shell at_ s) = NewAgentExecutor (actionData_addr at_) ∧
  sh_state (boot_shell at_ s) =
    ShellState.set_kernel (sh_con w) k (set_layouts (currentLayoutName k) (targetLayout w)
      (set_agent true PlannerModeDeterministic false (agentContext w)
         (set_hooks (getTicks w) (getSyscallTicks w) (runProgram w) (Some SwitchLayout) w))).
Proof. by destruct s as [ex []]. Qed.

(** The shell once everything is wired, just before its greeting. *)
Lemma boot_shell_ok w0 s files :
  cold w0 → term_ok (sh_con (sh_state s)) → fs_safe files → mem_booted (world files) → sched_inv (sched (sh_kernel (sh_state s))) →
  sh_state s = set_fs files (set_hooks (Some GetTicks) (Some (TriggerSysGetTicks regs))
    (Some (run_program at_ ExecuteUserTask)) (switchLayoutFn w0)
    (ShellState.set_kernel (sh_con (sh_state s)) (sh_kernel (sh_state s)) w0)) →
  kbd (sh_kernel (sh_state s)) = kbd (sh_kernel w0) →
  hooks (sh_state (boot_shell at_ s)) = main_hooks ∧
    shell_at [] (typed_log (sh_kernel (sh_state s))) (sh_state (boot_shell at_ s)) ∧ keys (boot_shell at_ s) = [].
Proof.
  intros Hc Ht Hf Hm Hs Hw Hkbd. destruct (boot_shell_state s) as [_ ->]. cbv zeta.
  set (k := sh_kernel (sh_state s)) in *. set (c := sh_con (sh_state s)) in *. rewrite Hw. clear Hw.
  split; [done|]. split; [|change (keys_of k = []); rewrite Hkbd; apply Hc].
  pose proof Hm as [_ ? _]. destruct Hc, Hat. split; try done.
  - apply main_hooks_ok.
  - by apply unmanaged_booted.
  - by apply unmanaged_booted.
  - by apply unmanaged_booted.
  - apply initKeyboard_inv; rewrite ?Hkbd; done.
Qed.

(** A new screen, new hooks and a kernel with the same keyboard and tasks. *)
Lemma cold_hooks gt gst rp sl c k w :
  cold w → kbd k = kbd (sh_kernel w) → sched k = sched (sh_kernel w) →
  cold (set_hooks gt gst rp sl (ShellState.set_kernel c k w)).
Proof. intros [] Ek Es. split; try done; cbn; by rewrite ?Ek, ?Es. Qed.

Lemma boot_ready addr w0 c d s :
  cold w0 → term_ok c → loader_ok addr (sh_mem w0) →
  sh_state s = ShellState.set_kernel c (set_io d (DisableInterrupts (sh_kernel w0))) w0 →
  ok (boot_memory at_ addr (boot_hooks at_ regs ExecuteUserTask s)) (λ s, ∃ l, let s' := boot_shell at_ s in
    sh_executor s' = NewAgentExecutor (actionData_addr at_) ∧ (hooks (sh_state s') = main_hooks ∧ shell_at [] l (sh_state s') ∧ keys s' = []) ∧
    fresh addr (sh_mem w0) (sh_fs (sh_state s'))).
Proof.
  intros Hc Hterm Hload E1.
  pose proof (boot_hooks_state s) as E. cbv zeta in E. rewrite E1 in E.
  set (k0 := set_io d _) in E. eapply ok_mono; [apply boot_memory_ok|].
  { rewrite E. by apply cold_hooks. }
  { rewrite E. exact Hload. }
  intros s2 (_&st&fls&Hst&Hfs&Hmem&Hfresh&E2). rewrite E in E2, Hfresh. destruct (boot_shell_state s2) as [He Ew].
  eexists. split; [exact He|]. split; [|rewrite Ew, E2; exact Hfresh].
  apply (boot_shell_ok w0 s2 fls); rewrite ?E2; done.
Qed.

(** The greeting. *)
Lemma Init_kernel w : whenever (Shell.Init w) (λ '(_, w'), sh_kernel w' = sh_kernel w).
Proof.
  intros [[] w'] E. unfold Shell.Init, println, print, console, mbind, M_bind, modify in E. cbn beta iota in E.
  destruct (Print _ _) as [c1|]; [|discriminate E]. destruct (Print _ _) as [c2|]; [|discriminate E].
  by injection E as <-.
Qed.

Lemma greeting_ok l s :
  sh_executor s = NewAgentExecutor (actionData_addr at_) → hooks (sh_state s) = main_hooks → shell_at [] l (sh_state s) →
  keys s = [] →
  ok (Shell.Init (sh_state s)) (λ '(_, w'), os_ok (OsShell (sh_executor s) w') ∧ keys_of (sh_kernel w') = [] ∧
    typed w' = [] ∧ held w' = None ∧ sh_fs w' = sh_fs (sh_state s)).
Proof.
  intros He Hh Hw Hq. eapply ok_mono; [exact (ok_whenever _ _ _ (Init_wp _ _ _ _ _ Hw) (Init_kernel _))|].
  intros [_ w'] [(Hw'&Hty&Hheld&Hh'&Hfs) Hk]. split_and!; [|by rewrite Hk|done..].
  split; cbn [sh_executor sh_state]; [done|by rewrite Hh'|]. apply (shell_here [] l); [by rewrite Hh'|done].
Qed.

Lemma main_boots addr (m : MACHINE) :
  power_on m → loader_ok addr (sh_mem (sh_state (os m))) →
  ok (Main readMSR writeMSR at_ regs ExecuteUserTask addr m) (λ m', tables_ok (tabs m') ∧ os_ok (os m') ∧
    keys (os m') = [] ∧ typed (sh_state (os m')) = [] ∧ held (sh_state (os m')) = None ∧
    fresh addr (sh_mem (sh_state (os m))) (sh_fs (sh_state (os m')))).
Proof.
  intros [Ht Hg Hc] Hload. unfold Main.
  call boot_hardware_ok; [done..|]. intros m1 (Ht1&c&d&Hterm&E1).
  apply ok_bind. eapply ok_mono; [exact (boot_ready addr _ c d _ Hc Hterm Hload E1)|]. intros s (l&He&(Hh&Hw&Hq0)&Hfresh). cbv zeta.
  call (greeting_ok l); [done..|]. intros [_ w'] (Hos&Hq&Hty&Hheld&Hfs).
  split_and!; try done. cbn [os sh_state]. by rewrite Hfs.
Qed.

(** C8: The system boots: on a machine with its tables and buffers as declared, whatever is in
    memory, on the disk and on the screen, and for every boot information structure whose
    available memory lies in the physical address space, the whole sequence of [Main] returns;
    then every component is in its invariant, the shell waits at an empty line, no key is
    pending, no question of the agent is open, no file exists, and if the loader reported
    available memory the allocator hands out exactly its pages above kernel and bitmap. *)
Theorem boot_total addr (m : MACHINE) :
  power_on m → loader_ok addr (sh_mem (sh_state (os m))) →
  ∃ m', Main readMSR writeMSR at_ regs ExecuteUserTask addr m = Some m' ∧
    tables_ok (tabs m') ∧ os_ok (os m') ∧ keys (os m') = [] ∧
    typed (sh_state (os m')) = [] ∧ held (sh_state (os m')) = None ∧
    fresh addr (sh_mem (sh_state (os m))) (sh_fs (sh_state (os m'))).
Proof. intros Hm Hload. by apply ok_elim, main_boots. Qed.
End running.

(** ** A machine, for the witnesses *)
Definition demo_layout : layout :=
  MkLayoutOf 0x107000 0x107100 0x108000 0x109000 0x101000 0x101100 0x101200 0x101300 0x101400 0x101500 0x101600
    0x110000 0x105000 0x10A000 0x10B000 0x10C000 0x40000000 0x40000100 0x40000200 0x40000300 0x40002000.
Definition demo_regs : TrapFrame := MkTrapFrame 0 0 0 0 0 0 0 0 0 0 0 0 0 0 0 0 0 0 0 0 0.
(** A user program during which a key is pressed. *)
Definition demo_task (_ _ : Z) (c : term_state recorder) (k : kernel recorder) := k ← IRQ1Handler k; Some (c, k).

(** The keyboard controller will deliver the scancodes [scs]. *)
Definition demo_kernel (scs : list Z) : kernel recorder :=
  Kernel true 0 [] None [] (KbdState false false false None (replicate 256 0) 0 0) Scheduler.demo_blank demo_cpu
    (Recorder [] scs) [].
Definition demo_screen : term_state recorder :=
  TermState 0 0 0 false (replicate 25 (replicate 80 (0, 0))) (Recorder [] []).
Definition demo_files : fs_state mem_state := FsState (replicate 32 blank_entry) false None demo_boot.

Definition demo_machine (scs : list Z) : machine (V := recorder) (D := recorder) (T := recorder) (R := unit) (B := ramdisk) (L := recorder) :=
  Machine demo_tables tt (OsShell no_executor
    (Shell (replicate 128 0) 0 None None None None (gs "it") [] (replicate 16 0) (replicate 2048 0) (replicate 2048 0)
       no_history false PlannerModeDeterministic false zero_Context demo_screen demo_files zero_fat
       (RamDisk ∅ 4000) demo_serial (demo_kernel scs))).

Abbreviation demo_Main scs :=
  (Main (λ _ u, (0, u)) (λ _ _ u, u) demo_layout demo_regs demo_task 0x8000 (demo_machine scs)).

Lemma demo_layout_ok : layout_ok demo_layout.
Proof.
  assert (kernelEndPhys (kernel_end demo_layout) (bootstrap_end demo_layout) = 0x110000) as E by reflexivity.
  split; rewrite ?E; cbn [gdt_addr tss_addr idt_addr trap_stack tmpData_addr diskBuf_addr actionData_addr demo_layout].
  2: { repeat (apply Forall_cons; split; [cbn; lia|]). by apply Forall_nil. }
  all: lia.
Qed.

Lemma demo_task_ok : user_task_ok demo_task.
Proof.
  intros rip rsp c k Hc Hk. unfold demo_task. apply ok_bind. destruct (ok_elim _ _ (IRQ1Handler_ok k Hk)) as (k'&E&_).
  rewrite E. split; [done|]. eapply irqs_key; [exact E|apply irqs_done].
Qed.

Lemma demo_cold scs : cold (sh_state (os (demo_machine scs))).
Proof.
  split; cbn -[replicate demo_boot zero_Context demo_serial sh_mem].
  - split; [done|]. by apply Forall_replicate.
  - done.
  - done.
  - apply (len_replicate 2048 0).
  - apply (len_replicate 2048 0).
  - apply no_history_ok.
  - apply zero_ctx_ok.
  - done.
  - intros i f ->%FsMem.demo_blank. done.
  - done.
  - apply map_bytes. vm_compute. reflexivity.
  - done.
  - done.
  - split; [|done]. split; [done|]. by apply Forall_replicate.
  - intros lba b Hb. cbn in Hb. by rewrite lookup_empty in Hb.
  - apply demo_serial_inv.
  - done.
  - done.
  - apply demo_blank_lens.
Qed.

Lemma demo_power scs : power_on (demo_machine scs).
Proof.
  split; [apply demo_tables_ok| |apply demo_cold]. split; [done|]. intros r l Hl. apply aget_elem in Hl.
  apply elem_of_replicate in Hl as [-> _]. done.
Qed.

Lemma demo_loader : loader_ok 0x8000 demo_boot.
Proof.
  split; [lia|]. intros st' E. vm_compute in E. injection E as <-. split; [vm_compute; intuition discriminate|].
  intros i e Hi He. assert (i = 0 ∨ i = 1) as [->| ->] by (cbn in Hi; lia);
    vm_compute in He; injection He as <-; vm_compute; intuition discriminate.
Qed.

Lemma boot_total_witness :
  power_on (demo_machine []) ∧
  ∃ m', demo_Main [] = Some m' ∧ tables_ok (tabs m') ∧ os_ok demo_layout demo_regs demo_task (os m') ∧
    Keyboard.queue (kbd (sh_kernel (sh_state (os m')))) = [] ∧
    typed (sh_state (os m')) = [] ∧ held (sh_state (os m')) = None ∧
    fresh 0x8000 demo_boot (sh_fs (sh_state (os m'))).
Proof.
  split; [apply demo_power|].
  exact (boot_total (λ _ u, (0, u)) (λ _ _ u, u) demo_layout demo_regs demo_task demo_task_ok demo_layout_ok
           0x8000 (demo_machine []) (demo_power []) demo_loader).
Defined.

Definition demo_booted (scs : list Z) :=
  match demo_Main scs with Some m => os m | None => os (demo_machine scs) end.

Lemma demo_booted_ok scs : os_ok demo_layout demo_regs demo_task (demo_booted scs).
Proof.
  unfold demo_booted.
  pose proof (main_boots (λ _ u, (0, u)) (λ _ _ u, u) demo_layout demo_regs demo_task demo_task_ok demo_layout_ok
    0x8000 (demo_machine scs) (demo_power scs) demo_loader) as Hb.
  destruct (demo_Main scs) as [m|]; [|done]. by destruct Hb as (_&?&_).
Qed.

(** The first characters of the [r]-th row of the screen. *)
Definition screen_row (n : nat) (r : Z) (t : term_state recorder) : option (list Z) :=
  l ← aget (screen t) r; Some (fst <$> take n l).

(** The keys [p], [f], [a] and Enter, two of them after a timer tick. *)
Definition demo_events : list event := [Key; Key; Timer; Loop; Key; Key; Loop; Loop; Loop; Loop].

(** The key [x], pressed while [run hello] runs, waits in the buffer when the program is done;
    and [mem 100000000] and Enter halt the machine. *)
Example demo_key_during_program :
  (λ o, (o.1, Keyboard.queue (kbd (sh_kernel (sh_state o.2))))) <$>
    os_run demo_layout (replicate 10 Key ++ replicate 10 Loop)
      (demo_booted [0x13; 0x16; 0x31; 0x39; 0x23; 0x12; 0x26; 0x26; 0x18; 0x1C; 0x2D]) =
  Some (gs "run hello" ++ [10], gs "x").
Proof. vm_compute. reflexivity. Qed.

Example demo_key_halts :
  os_run demo_layout (replicate 14 Key ++ replicate 14 Loop)
    (demo_booted [0x32; 0x12; 0x32; 0x39; 2; 11; 11; 11; 11; 11; 11; 11; 11; 0x1C]) = None.
Proof. vm_compute. reflexivity. Qed.

Abbreviation demo_start := (demo_booted [0x19; 0x21; 0x1E; 0x1C]).

Lemma key_pipeline_witness :
  (λ o, screen_row 28 2 (sh_con (sh_state o.2))) <$> os_run demo_layout demo_events demo_start =
    Some (Some (gs "pages total=320 used=273 fre")) ∧
  ∃ produced fed s', os_run demo_layout demo_events demo_start = Some (fed, s') ∧
    os_ok demo_layout demo_regs demo_task s' ∧
    typed_log (sh_kernel (sh_state s')) = typed_log (sh_kernel (sh_state demo_start)) ++ produced ∧
    flow (Keyboard.queue (kbd (sh_kernel (sh_state demo_start)))) produced fed
      (Keyboard.queue (kbd (sh_kernel (sh_state s')))) ∧
    typed (sh_state s') = foldl edit (typed (sh_state demo_start)) fed.
Proof.
  assert ((λ o, screen_row 28 2 (sh_con (sh_state o.2))) <$> os_run demo_layout demo_events demo_start =
    Some (Some (gs "pages total=320 used=273 fre"))) as Hrow by (vm_compute; reflexivity).
  split; [exact Hrow|].
  destruct (key_pipeline demo_layout demo_regs demo_task demo_task_ok demo_events _
    (demo_booted_ok [0x19; 0x21; 0x1E; 0x1C])) as [[E _]|H]; [|exact H].
  rewrite E in Hrow. discriminate Hrow.
Defined.
